(* ===== verification/_CoqProject ===== *)
-Q . S2P
Prelude.v
GoStr.v
Validate.v
Shard.v
Page.v
Filter.v
WorkerPool.v
PoolTheorems.v
PoolRefine.v
Recycle.v
Message.v
Compress.v
Codec.v
Publisher.v
Rpc.v
Pressure.v
Listeners.v
Consume.v
Pull.v
Idempotency.v
OnceRefine.v
Dlq.v
Delivery.v
DlqPublish.v
StreamRead.v
Cursor.v
Supervisor.v
Watch.v
Events.v
Outbox.v
Shadow.v
ShadowHeap.v
Admin.v
Replay.v
Subscribe.v
Background.v
Handles.v
Setup.v
Contract.v
PullV2.v
Ordered.v
Buckets.v
Fingerprint.v
Incidents.v
Connection.v
Lifecycle.v
Metrics.v
ShadowSink.v
Assemble.v
Monitoring.v
Tracing.v
Orders.v
OrdersFlow.v
LoadTest.v
