(* ===== verification/Prelude.v ===== *)
(** * Verification of the JetStream client library (package nats and its leaf packages)

    The program is a Go library around nats.go: a client connects to a NATS
    server, publishes and consumes messages of JetStream streams, administers
    streams, consumers and buckets, and adds the machinery services need around
    that: a worker pool, idempotent handling, dead-letter routing, supervision,
    watchers, replays, shadow traffic, an outbox, incident capture.  Every file
    of this library opens with a note on what it holds; this one gives the map.

    ** How the code is modelled

    A function of the source is a Rocq function of the same name (a prefix is
    added where two source functions share one), total and executable.  Errors
    are values of [err] and results of [res]; a run-time panic or a loop that
    has used up its fuel is [None].  Integers are [Z] with the wrap-around of
    their width written out ([i64], [u64], [u32]); floats are the IEEE doubles
    of the standard library's [SpecFloat]; durations and times are nanoseconds.
    Strings are byte strings ([GoStr] decodes runes where the code does).  Maps
    are [gmap]s; headers that Go shares by reference live in an explicit store
    ([Message]).  Goroutines, locks, channels and timers become steps of a
    machine with explicit program counters, one label per atomic action, so a
    theorem about all runs is a theorem about all interleavings.

    What the library calls but does not contain (the server, nats.go, the
    serializers and compressors, JSON, URL and key parsing, TLS) is a type class
    or a parameter of the definitions, with the documented behaviour a theorem
    needs as a law of the class or a hypothesis; each such theorem has a witness
    at a concrete instance.  Metrics and logs are left out of the components and
    modelled on their own in [Metrics].

    ** The parts, the files and the source

    - Values and names: [GoStr] (strings), [Validate] (validate.go), [Shard]
      (shard/shard.go), [Page] (page.go), [Filter] (consumer_filter.go).
    - Messages: [Message] (model.go, helpers.go), [Compress] (compress.go),
      [Codec] (codec.go), [Contract] (schema.go, schedule.go).
    - Sending: [Publisher] (publisher.go), [Rpc] (requester.go, responder.go,
      handler_safe.go), [Outbox] (outbox/outbox.go).
    - The worker pool (workerpool/workerpool.go): [WorkerPool] (machine and
      invariant), [PoolTheorems] (guarantees), [PoolRefine] (refinement of a
      task box), [Recycle] (tasks, and the scratch buffers of codec.go and
      compress.go, recycled through pools).
    - Receiving: [Pressure] (adaptive_pressure.go, circuit.go), [Listeners]
      and [Consume] (consumer_push.go, backpressure.go, ack.go), [Pull] and
      [PullV2] (consumer_pull.go, consumer_pull_v2.go), [Subscribe], [Setup]
      (consumer_push.go, setup.go), [Ordered] (consumer_ordered.go), [Handles]
      (the Subscription interface and its implementations in consumer_push.go
      and supervisor.go), [Background] (drain goroutine in [DrainRace], sampler
      and health checker in [Ticker], the end of a consumer in [Stop]).
    - Handler wrappers: [Idempotency] (idempotency/), [Dlq] (dlq/), [Shadow]
      (shadow/: dual running in module [Shadow], the ramp in [Graduate]),
      [ShadowHeap] (shadow/shadow.go once more, on a memory that message and
      clone could share); [OnceRefine] (the claim store against an at-most-once
      machine whose events carry the delivery) and
      [Delivery] (the wrappers composed with [processMessage]), [DlqPublish]
      (dlq_reexport.go: dead letters through the publisher), [ShadowSink]
      (shadow_reexport.go: where shadow runs report to).
    - Streams: [StreamRead] (reads and seeks of replay.go, stream_manager.go),
      [Cursor] (single-message reads of replay.go), [Admin] (stream_manager.go,
      consumer_manager.go, ctxutil.go), [Replay] (replay.go,
      replay_options.go), [Buckets] (kv_manager.go in module [Kv],
      object_manager.go in module [Obj]).
    - Watching: [Supervisor] (supervisor.go), [Watch] (flight_recorder.go in
      [Recorder], slow_consumer.go in [Slow], soft_liveness.go in [Soft]),
      [Events] (callbacks, event channels and the hooks of the recorder),
      [Fingerprint] (behavior_fingerprint*.go), [Incidents] (incident_*.go),
      [Metrics] (metrics.go), [Monitoring] (monitoring.go), [Tracing]
      (tracing.go).
    - The client: [Connection] (connection.go, auth.go, client.go, config.go),
      [Lifecycle] (connection.go: handlers, status, shutdown), [Assemble]
      (config.go, client.go: DefaultConfig and the parts NewClient builds).
    - The programs: [Orders] and [OrdersFlow] (examples/nats: names,
      configurations, topology, start-up and shutdown; what publisher, worker and
      puller do with messages), [LoadTest] (tools/loadtest/main.go).

    Components meet through interfaces: [Consume] and everything above it see a
    message through the class [MsgApi], the dead-letter and idempotency wrappers
    are handlers of [Consume], [Pull] processes batches with [processMessage] and
    answers of the pool, [Replay] and [Setup] are proved against the server
    interface [JsAdmin] of [Admin], [Incidents] stores through [Buckets] and reads
    through [StreamRead], its hooks take the events of [Fingerprint]; a
    supervised subscription of [Handles] implements the interface
    [SubscriptionApi] over any other implementation of it, [Events] feeds the
    supervisor's events to the recorder of [Watch]; [Orders] and [OrdersFlow] put
    administration, supervision, buckets, watchers, publisher, dead-letter and
    shadow wrappers and [processMessage] together the way the example does.

    ** What the theorems show

    - No accepted work is lost: the pool hands every accepted task to exactly
      one handler before a graceful stop returns, unless its parent context is
      cancelled, when tasks may stay in the buffer; it never deadlocks and is
      observably a box of tasks; processed messages come out settled in every
      mode, with an ack or a nak as the outcome says; a message is reported as
      dead-lettered only when a copy of it was published, and is terminated when
      the server answers; a record leaves the outbox only when it was published, and a
      flush drains it; registering listeners concurrently loses none.
    - No work is done twice: at most one delivery holds the claim of an id and
      a completed id never runs again, in every interleaving; the claim store
      refines an at-most-once machine in which only the delivery that started an
      id ends it; with [processMessage] around it a message
      is handled until its first success and acknowledged from then on.
    - Round trips: publish to consume through codec, headers and compression,
      request to reply, schema stamps, key-value and object buckets, capsules.
    - Equivalence with specifications: subject validation, range reads and
      cursors, the reconnect delay, transparency of shadow traffic; refinement
      for the pool and the claim store.
    - The programs: in the orders example every published order is acknowledged or
      terminated, counted once and, when it is rejected, copied to the dead-letter
      subject under its id and with its payload; a worker's failed start leaves no
      subscription; the load test counts exactly what the server accepted.
    - Signals: every event reaches the callbacks, the recorder's snapshot is the
      recent history, a channel keeps the order and loses only what does not
      fit; every shadow run is counted once, whatever the interleaving of the runs
      and their reports; a working consumer is never
      reported as stalled.
    - Recycled objects do not mix: a handler gets the message of the publish
      that queued its task, an encoding returns its own bytes, a trace starts in
      the context of its own message, although tasks, buffers and header
      carriers are reused by all goroutines.
    - Resources: failed set-ups and shutdowns leave nothing behind, and supervisors
      that were cancelled or gave up only a subscription that could not be
      unsubscribed; a shutdown returns exactly the failures it met; drain goroutines, samplers and health checkers end, and replaced
      subscriptions keep none waiting; decompression, object reads and monitoring pages are bounded;
      monitoring requests never reach a metadata address; the asynchronous
      publishes that are pending stay within their limit.
    - Administration and detection: resets and upserts touch what they name and
      nothing else; the watchers report exactly after a sustained run.
    - Defects: where the code does not do what it means to, a theorem shows the
      behaviour (for example [v2_settles_nothing], [seek_by_time_gap_diverges],
      [stop_race_leaks], [batch_hides_errors], [off_rate_blind],
      [unsubscribe_can_drain], the lost copy of [dlq_copy_fate], the last part of [supervised_stop] and of
      [configuration_switches]; in the programs [topology_conflict],
      [restart_loses_orders], [load_modes_exclude]).

    ** Bounds and fuel

    Loops over lists are structural.  Loops that depend on the server carry
    fuel: range reads and bisections of [StreamRead] (proved sufficient for
    intervals and for streams without holes, with a proof that no fuel is enough
    for one stream with a hole), [Flush] and the wait and retry loops (the list
    of answers, or attempts, is the fuel).  String walks use the length of the
    string.  Machines have no bound: invariants hold for every number of tasks,
    publishers, workers and steps.

    ** Not modelled

    The aliases of nats.go types and the interface declarations (protocol.go and
    the Go interfaces, whose methods are modelled with their implementations);
    the accessors of the client that return a part; log lines; JSON encoding of
    the recorder's dump; the unsafe conversions of internal/bytesconv, which are
    identities on values; the proxy of the monitoring transport; the flags, the
    printing and the memory statistics of the load test, and the telemetry library
    the programs start. *)

From Stdlib Require Export ZArith Lia Ascii String.
From stdpp Require Export base tactics option list gmap strings numbers.

#[global] Open Scope Z_scope.

(** Let [simpl] unfold string append on a constructor. *)
#[global] Arguments String.append : simpl nomatch.

(** ** Notations, hint database and tactics *)

Declare Scope go_scope.
Delimit Scope go_scope with go.
#[global] Open Scope go_scope.

Create HintDb gonats discriminated.
#[export] Hint Constants Opaque : gonats.
#[export] Hint Variables Opaque : gonats.
Create Rewrite HintDb gonats.

(** ** Go integers

    An [int], [int64] or [time.Duration] is a [Z] in [[-2^63, 2^63)], a
    [uint64] (resp. [uint32]) a [Z] in [[0, 2^64)] (resp. [[0, 2^32)]).  Where
    the code can leave the range the wrap-around is written out. *)

Definition i64 (x : Z) : Z := (x + 2 ^ 63) mod 2 ^ 64 - 2 ^ 63.
Definition u64 (x : Z) : Z := x mod 2 ^ 64.
Definition u32 (x : Z) : Z := x mod 2 ^ 32.

Definition in_i64 (x : Z) : Prop := - 2 ^ 63 <= x < 2 ^ 63.
Definition in_u64 (x : Z) : Prop := 0 <= x < 2 ^ 64.
Definition in_u32 (x : Z) : Prop := 0 <= x < 2 ^ 32.

(** ** Go errors

    A package-level [errors.New] value is a [Sentinel] (compared by identity,
    here by its qualified name); [fmt.Errorf] and [errors.Join] build a
    [Wrapped] value whose children are the [%w] operands.  The text of a
    message is kept only as the constant part of its format. *)

Inductive err :=
  | Sentinel (name : string)
  | Wrapped (msg : string) (inner : list err).

(** [errors.Is(e, target)] for a sentinel target. *)
Fixpoint errors_is (e : err) (target : string) : bool :=
  match e with
  | Sentinel n => String.eqb n target
  | Wrapped _ l => existsb (fun e' => errors_is e' target) l
  end.

(** [errors.Is] on a possibly nil error. *)
Definition is_err (o : option err) (target : string) : bool :=
  match o with Some e => errors_is e target | None => false end.

Definition errorf (msg : string) : err := Wrapped msg [].
Definition wrapf (msg : string) (e : err) : err := Wrapped msg [e].
(** [errors.Join] and [fmt.Errorf] with two [%w] verbs. *)
Definition wrapf2 (msg : string) (e1 e2 : err) : err := Wrapped msg [e1; e2].

(** ** Results: a Go pair [(T, error)] whose value is used only when the error is nil *)

Inductive res (A : Type) :=
  | Ok (a : A)
  | Er (e : err).
Arguments Ok {A} a.
Arguments Er {A} e.

Definition res_err {A} (r : res A) : option err :=
  match r with Ok _ => None | Er e => Some e end.

Notation "x <-! c1 ;; c2" :=
  (match c1 with Ok x => c2 | Er e => Er e end)
  (at level 100, c1 at next level, right associativity) : go_scope.

(** [if err := c; err != nil { return err }] in a function returning [error]. *)
Notation "'check' c ;; k" :=
  (match c with Some e => Some e | None => k end)
  (at level 100, c at next level, right associativity) : go_scope.

(** The same guard in a function returning [(T, error)]. *)
Notation "'guard_err' c ;; k" :=
  (match c with Some e => Er e | None => k end)
  (at level 100, c at next level, right associativity) : go_scope.

(** Case analysis on every scrutinee of the goal, then the usual clean-up. *)
Ltac go_cases := repeat (case_match; simplify_eq/=; try done).

Ltac split_and_lia := repeat split; lia.

(** ** Facts about machine integers *)

Lemma i64_id x : in_i64 x -> i64 x = x.
Proof. unfold in_i64, i64. intros H. rewrite Z.mod_small; lia. Qed.

Lemma u64_id x : in_u64 x -> u64 x = x.
Proof. unfold in_u64, u64. intros H. apply Z.mod_small; lia. Qed.

Lemma u32_id x : in_u32 x -> u32 x = x.
Proof. unfold in_u32, u32. intros H. apply Z.mod_small; lia. Qed.

Lemma i64_range x : in_i64 (i64 x).
Proof.
  unfold in_i64, i64. pose proof (Z.mod_pos_bound (x + 2 ^ 63) (2 ^ 64)). lia.
Qed.

Lemma u64_range x : in_u64 (u64 x).
Proof. unfold in_u64, u64. apply Z.mod_pos_bound. lia. Qed.

Lemma u32_range x : in_u32 (u32 x).
Proof. unfold in_u32, u32. apply Z.mod_pos_bound. lia. Qed.

#[export] Hint Resolve i64_range u64_range u32_range : gonats.

(** ** Facts about errors *)

Lemma errors_is_wrapf msg e t : errors_is (wrapf msg e) t = errors_is e t.
Proof. simpl. apply orb_false_r. Qed.

Lemma errors_is_wrapf2 msg e1 e2 t :
  errors_is (wrapf2 msg e1 e2) t = errors_is e1 t || errors_is e2 t.
Proof. simpl. by rewrite orb_false_r. Qed.

Lemma errors_is_errorf msg t : errors_is (errorf msg) t = false.
Proof. done. Qed.

Lemma errors_is_sentinel n : errors_is (Sentinel n) n = true.
Proof. simpl. apply String.eqb_refl. Qed.

#[export] Hint Rewrite errors_is_wrapf errors_is_wrapf2 errors_is_errorf errors_is_sentinel : gonats.

Lemma Ok_inj {A} (a b : A) : Ok a = Ok b -> a = b.
Proof. by injection 1. Qed.

(** ** Generic lemmas on lists *)

Lemma take_snoc_lookup {A} (l : list A) n x :
  l !! n = Some x -> take (S n) l = take n l ++ [x].
Proof. apply take_S_r. Qed.

Lemma forallb_Forall {A} (p : A -> bool) l :
  forallb p l = true <-> Forall (fun x => p x = true) l.
Proof. rewrite forallb_forall, List.Forall_forall. done. Qed.

Lemma existsb_Exists {A} (p : A -> bool) l :
  existsb p l = true <-> Exists (fun x => p x = true) l.
Proof. rewrite existsb_exists, List.Exists_exists. done. Qed.

Lemma Forall_elem {A} (P : A -> Prop) l x : Forall P l -> x ∈ l -> P x.
Proof. rewrite List.Forall_forall. intros H Hx%list_elem_of_In. auto. Qed.

Lemma forallb_elem {A} (p : A -> bool) l x : forallb p l = true -> x ∈ l -> p x = true.
Proof. rewrite forallb_forall. intros H Hx%list_elem_of_In. auto. Qed.

(** ** Counting: how many elements of a list satisfy a boolean test, as a [Z] *)

Definition cnt {A} (p : A -> bool) (l : list A) : Z := Z.of_nat (length (List.filter p l)).

Lemma cnt_nil {A} (p : A -> bool) : cnt p [] = 0.
Proof. done. Qed.

Lemma cnt_cons {A} (p : A -> bool) x l : cnt p (x :: l) = Z.b2z (p x) + cnt p l.
Proof. unfold cnt. simpl. destruct (p x); simpl; lia. Qed.

Lemma cnt_app {A} (p : A -> bool) l k : cnt p (l ++ k) = cnt p l + cnt p k.
Proof. induction l as [|x l IH]; simpl; [done|]. rewrite !cnt_cons, IH. lia. Qed.

Lemma cnt_nonneg {A} (p : A -> bool) l : 0 <= cnt p l.
Proof. unfold cnt. lia. Qed.

Lemma cnt_insert {A} (p : A -> bool) l i x y :
  l !! i = Some x -> cnt p (<[i := y]> l) = cnt p l - Z.b2z (p x) + Z.b2z (p y).
Proof.
  revert i. induction l as [|a l IH]; intros [|i] H; simplify_eq/=; rewrite !cnt_cons; [lia|].
  rewrite (IH i) by done. lia.
Qed.

Lemma cnt_pos {A} (p : A -> bool) l i x : l !! i = Some x -> p x = true -> 0 < cnt p l.
Proof.
  revert i. induction l as [|a l IH]; intros [|i] H Hp; simplify_eq/=; rewrite cnt_cons.
  - rewrite Hp. pose proof (cnt_nonneg p l). simpl. lia.
  - pose proof (IH i H Hp). destruct (p a); simpl; lia.
Qed.

Lemma cnt_pos_inv {A} (p : A -> bool) l : 0 < cnt p l -> exists i x, l !! i = Some x /\ p x = true.
Proof.
  induction l as [|a l IH]; [done|]. rewrite cnt_cons. intros H. destruct (p a) eqn:E.
  - exists 0%nat, a. done.
  - destruct IH as (i & x & ? & ?); [simpl in H; lia|]. exists (S i), x. done.
Qed.

Lemma cnt_zero {A} (p : A -> bool) l i x : cnt p l = 0 -> l !! i = Some x -> p x = false.
Proof.
  intros H0 Hx. destruct (p x) eqn:E; [|done]. pose proof (cnt_pos p l i x Hx E). lia.
Qed.

Lemma cnt_all_false {A} (p : A -> bool) l : (forall x, x ∈ l -> p x = false) -> cnt p l = 0.
Proof.
  induction l as [|a l IH]; intros H; [done|]. rewrite cnt_cons, IH.
  - rewrite H; [done|]. by apply list_elem_of_here.
  - intros x Hx. apply H. by apply list_elem_of_further.
Qed.

Lemma cnt_fmap {A B} (f : A -> B) (p : B -> bool) l : cnt p (f <$> l) = cnt (fun x => p (f x)) l.
Proof. induction l as [|a l IH]; [done|]. cbn [fmap list_fmap]. rewrite !cnt_cons. by rewrite <- IH. Qed.

Lemma cnt_ext {A} (p q : A -> bool) l : (forall x, p x = q x) -> cnt p l = cnt q l.
Proof. intros H. induction l as [|a l IH]; [done|]. by rewrite !cnt_cons, IH, H. Qed.

Lemma cnt_le {A} (p q : A -> bool) l : (forall x, p x = true -> q x = true) -> cnt p l <= cnt q l.
Proof.
  intros H. induction l as [|a l IH]; [done|]. rewrite !cnt_cons.
  destruct (p a) eqn:E; [rewrite (H a E); lia|]. destruct (q a); simpl; lia.
Qed.

Lemma cnt_split {A} (p : A -> bool) l : cnt p l + cnt (fun x => negb (p x)) l = Z.of_nat (length l).
Proof. induction l as [|a l IH]; [done|]. rewrite !cnt_cons. simpl. destruct (p a); simpl; lia. Qed.

Lemma cnt_replicate_false {A} (p : A -> bool) n x : p x = false -> cnt p (replicate n x) = 0.
Proof. intros H. apply cnt_all_false. by intros y [-> _]%elem_of_replicate. Qed.
