(* ===== verification/GoStr.v ===== *)
(** * Go strings

    A Go string is a sequence of bytes, here a [string] (8-bit [ascii]).  This
    file models the functions of [strings], [unicode] and [unicode/utf8] the
    library uses, with the lemmas the components share. *)

From Stdlib Require Import Ascii String.
From S2P Require Import Prelude.

Open Scope Z_scope.

(** ** Bytes *)

Definition byte_of (a : ascii) : Z := Z.of_N (N_of_ascii a).
Definition bytes_of (s : string) : list Z := byte_of <$> String.list_ascii_of_string s.

(** [len(s)] *)
Definition slen (s : string) : Z := Z.of_nat (String.length s).

(** [s == ""] (bytesconv.IsEmpty) *)
Definition IsEmpty (s : string) : bool := String.eqb s "".

(** ** strings.Split with a one-byte separator, and strings.Join *)

Fixpoint split (c : ascii) (s : string) : list string :=
  match s with
  | EmptyString => [""]
  | String a s' =>
      if Ascii.eqb a c then "" :: split c s'
      else match split c s' with
           | t :: ts => String a t :: ts
           | [] => [String a ""]
           end
  end.

Fixpoint join (sep : string) (l : list string) : string :=
  match l with
  | [] => ""
  | [t] => t
  | t :: ts => t +:+ sep +:+ join sep ts
  end.

(** strings.ContainsAny for an ASCII character set *)
Fixpoint contains_char (c : ascii) (s : string) : bool :=
  match s with
  | EmptyString => false
  | String a s' => Ascii.eqb a c || contains_char c s'
  end.

Fixpoint contains_any (chars : string) (s : string) : bool :=
  match s with
  | EmptyString => false
  | String a s' => contains_char a chars || contains_any chars s'
  end.

(** [s[a:b]] *)
Definition slice (s : string) (a b : nat) : string := substring a (b - a) s.

(** ** Runes: [for _, r := range s] decodes UTF-8 (utf8.DecodeRuneInString) *)

Definition RuneError : Z := 65533.

Definition cont (lo hi b : Z) : bool := (lo <=? b) && (b <=? hi).

(** The first rune of a non-empty byte sequence and its width; an invalid or
    truncated encoding is [RuneError] with width one. *)
Definition decode_rune (l : list Z) : Z * nat :=
  match l with
  | [] => (RuneError, 0%nat)
  | b0 :: t =>
      if b0 <? 128 then (b0, 1%nat)
      else if (b0 <? 194) || (244 <? b0) then (RuneError, 1%nat)
      else if b0 <? 224 then
        match t with
        | b1 :: _ => if cont 128 191 b1 then ((b0 - 192) * 64 + (b1 - 128), 2%nat) else (RuneError, 1%nat)
        | _ => (RuneError, 1%nat)
        end
      else if b0 <? 240 then
        let lo := if b0 =? 224 then 160 else 128 in
        let hi := if b0 =? 237 then 159 else 191 in
        match t with
        | b1 :: b2 :: _ =>
            if cont lo hi b1 && cont 128 191 b2
            then ((b0 - 224) * 4096 + (b1 - 128) * 64 + (b2 - 128), 3%nat) else (RuneError, 1%nat)
        | _ => (RuneError, 1%nat)
        end
      else
        let lo := if b0 =? 240 then 144 else 128 in
        let hi := if b0 =? 244 then 143 else 191 in
        match t with
        | b1 :: b2 :: b3 :: _ =>
            if cont lo hi b1 && cont 128 191 b2 && cont 128 191 b3
            then ((b0 - 240) * 262144 + (b1 - 128) * 4096 + (b2 - 128) * 64 + (b3 - 128), 4%nat)
            else (RuneError, 1%nat)
        | _ => (RuneError, 1%nat)
        end
  end.

Fixpoint runes_fuel (fuel : nat) (l : list Z) : list Z :=
  match fuel, l with
  | O, _ => []
  | _, [] => []
  | S f, _ => let '(r, n) := decode_rune l in r :: runes_fuel f (drop n l)
  end.

(** Every step consumes at least one byte, so the length is enough fuel. *)
Definition runes (s : string) : list Z := runes_fuel (String.length s) (bytes_of s).

(** unicode.IsSpace: the Unicode White_Space property *)
Definition is_space (r : Z) : bool :=
  ((9 <=? r) && (r <=? 13)) || (r =? 32) || (r =? 133) || (r =? 160) || (r =? 5760)
  || ((8192 <=? r) && (r <=? 8202)) || (r =? 8232) || (r =? 8233) || (r =? 8239)
  || (r =? 8287) || (r =? 12288).

(** ** strings.TrimSpace *)

Fixpoint trim_left (fuel : nat) (l : list Z) : list Z :=
  match fuel, l with
  | O, _ | _, [] => l
  | S f, _ => let '(r, n) := decode_rune l in if is_space r then trim_left f (drop n l) else l
  end.

(** The width of the white-space rune the bytes end with, 0 for none; such
    runes are encoded in at most three bytes. *)
Definition space_width (l : list Z) (k : nat) : bool :=
  let '(r, n) := decode_rune (drop (length l - k) l) in
  (k <=? length l)%nat && (n =? k)%nat && is_space r.
Definition last_space (l : list Z) : nat :=
  if space_width l 1 then 1%nat else if space_width l 2 then 2%nat else if space_width l 3 then 3%nat else 0%nat.

Fixpoint trim_right (fuel : nat) (l : list Z) : list Z :=
  match fuel, last_space l with
  | O, _ | _, O => l
  | S f, n => trim_right f (take (length l - n) l)
  end.

(** Every round drops at least one byte. *)
Definition TrimSpace (s : string) : string :=
  let n := String.length s in
  let l := trim_left n (bytes_of s) in
  substring (n - length l) (length (trim_right n l)) s.

(** ** Lemmas: lengths, append, substring *)

Lemma str_app_nil_r s : s +:+ "" = s.
Proof. induction s as [|a s IH]; simpl; [done|]. by rewrite IH. Qed.

Lemma str_app_assoc s t u : (s +:+ t) +:+ u = s +:+ t +:+ u.
Proof. induction s as [|a s IH]; simpl; [done|]. by rewrite IH. Qed.

Lemma str_length_app s t : String.length (s +:+ t) = (String.length s + String.length t)%nat.
Proof. induction s as [|a s IH]; simpl; [done|]. by rewrite IH. Qed.

Lemma substring_all s : substring 0 (String.length s) s = s.
Proof. induction s as [|a s IH]; simpl; [done|]. by rewrite IH. Qed.

Lemma bytes_of_length s : length (bytes_of s) = String.length s.
Proof. unfold bytes_of. rewrite length_fmap. induction s as [|a s IH]; simpl; [done|]. by rewrite IH. Qed.

(** A string that neither begins nor ends with white space is unchanged. *)
Lemma TrimSpace_id s :
  is_space (decode_rune (bytes_of s)).1 = false -> last_space (bytes_of s) = 0%nat -> TrimSpace s = s.
Proof.
  intros Hl Hr. unfold TrimSpace.
  assert (trim_left (String.length s) (bytes_of s) = bytes_of s) as ->.
  { destruct s as [|a s]; [done|]. cbn [trim_left String.length] in *. change (bytes_of (String a s)) with (byte_of a :: bytes_of s) in *.
    destruct (decode_rune _) as [r n]. simpl in Hl. by rewrite Hl. }
  assert (trim_right (String.length s) (bytes_of s) = bytes_of s) as ->.
  { destruct (String.length s); simpl; by rewrite ?Hr. }
  rewrite bytes_of_length, Nat.sub_diag. apply substring_all.
Qed.

Lemma substring_app_l t u : substring 0 (String.length t) (t +:+ u) = t.
Proof. induction t as [|a t IH]; simpl; [by destruct u|]. by rewrite IH. Qed.

Lemma substring_mid s t u :
  substring (String.length s) (String.length t) (s +:+ t +:+ u) = t.
Proof. induction s as [|a s IH]; simpl; [apply substring_app_l|done]. Qed.

Lemma slice_mid s t u :
  slice (s +:+ t +:+ u) (String.length s) (String.length s + String.length t) = t.
Proof.
  unfold slice. replace (_ + _ - _)%nat with (String.length t) by lia. apply substring_mid.
Qed.

Lemma get_app_head s a u : String.get (String.length s) (s +:+ String a u) = Some a.
Proof. induction s; simpl; done. Qed.

Lemma IsEmpty_spec s : IsEmpty s = true <-> s = "".
Proof. apply String.eqb_eq. Qed.

Lemma IsEmpty_false s : IsEmpty s = false <-> s <> "".
Proof. apply String.eqb_neq. Qed.

Lemma slen_nonneg s : 0 <= slen s.
Proof. unfold slen. lia. Qed.

#[export] Hint Resolve slen_nonneg : gonats.

(** ** Lemmas: split and join *)

Lemma split_not_nil c s : split c s <> [].
Proof. destruct s as [|a s]; simpl; [done|]. repeat case_match; done. Qed.

Lemma contains_char_app c s t : contains_char c (s +:+ t) = contains_char c s || contains_char c t.
Proof. induction s as [|a s IH]; simpl; [done|]. by rewrite IH, orb_assoc. Qed.

Lemma split_no_sep c s : contains_char c s = false -> split c s = [s].
Proof.
  induction s as [|a s IH]; simpl; [done|]. intros H.
  apply orb_false_iff in H as [-> H]. by rewrite IH.
Qed.

(** A first token up to a separator. *)
Lemma split_app_sep c t s :
  contains_char c t = false -> split c (t +:+ String c s) = t :: split c s.
Proof.
  induction t as [|a t IH]; simpl; intros H; [by rewrite Ascii.eqb_refl|].
  apply orb_false_iff in H as [Ha H]. rewrite Ha, IH by done. done.
Qed.

Lemma split_tokens_no_sep c s : Forall (fun t => contains_char c t = false) (split c s).
Proof.
  induction s as [|a s IH]; simpl; [by repeat constructor|].
  destruct (Ascii.eqb a c) eqn:E; [by constructor|].
  destruct (split c s) as [|t ts]; simpl; inversion IH; subst; constructor; simpl; rewrite ?E; done.
Qed.

Lemma join_split c s : join (String c "") (split c s) = s.
Proof.
  induction s as [|a s IH]; simpl; [done|].
  pose proof (split_not_nil c s). destruct (split c s) as [|t ts] eqn:E; [done|].
  destruct (Ascii.eqb_spec a c) as [->|Hne].
  - change (join (String c "") ("" :: t :: ts)) with (String c (join (String c "") (t :: ts))).
    by rewrite IH.
  - rewrite <- IH. destruct ts; done.
Qed.

Lemma split_join c l :
  l <> [] -> Forall (fun t => contains_char c t = false) l -> split c (join (String c "") l) = l.
Proof.
  induction l as [|t l IH]; [done|]. intros _ H. inversion H as [|?? Ht Hl]; subst.
  destruct l as [|t' l]; [by apply split_no_sep|].
  change (join (String c "") (t :: t' :: l)) with (t +:+ String c (join (String c "") (t' :: l))).
  rewrite split_app_sep by done. by rewrite IH.
Qed.

Lemma split_join_app c s t :
  split c (s +:+ String c t) = split c s ++ split c t.
Proof.
  induction s as [|a s IH]; simpl; [by rewrite Ascii.eqb_refl|].
  destruct (Ascii.eqb a c); rewrite IH; [done|].
  pose proof (split_not_nil c s). by destruct (split c s).
Qed.

Lemma split_inj c s t : split c s = split c t -> s = t.
Proof. intros H. by rewrite <- (join_split c s), H, join_split. Qed.

(** ** Lemmas: character classes and ASCII runes *)

Lemma contains_any_spec chars s :
  contains_any chars s = existsb (fun a => contains_char a chars) (String.list_ascii_of_string s).
Proof. induction s as [|a s IH]; simpl; [done|]. by rewrite IH. Qed.

Lemma contains_any_app chars s t :
  contains_any chars (s +:+ t) = contains_any chars s || contains_any chars t.
Proof. induction s as [|a s IH]; simpl; [done|]. by rewrite IH, orb_assoc. Qed.

Lemma length_bytes_of s : length (bytes_of s) = String.length s.
Proof. unfold bytes_of. rewrite length_fmap. induction s; simpl; auto. Qed.

Lemma byte_of_range a : 0 <= byte_of a < 256.
Proof. unfold byte_of. pose proof (N_ascii_bounded a). lia. Qed.

Lemma byte_of_inj a b : byte_of a = byte_of b -> a = b.
Proof.
  unfold byte_of. intros H. apply (inj Z.of_N) in H.
  by rewrite <- (ascii_N_embedding a), H, ascii_N_embedding.
Qed.

Definition is_ascii_str (s : string) : bool := forallb (fun b => b <? 128) (bytes_of s).

Lemma runes_fuel_ascii f l :
  Forall (fun b => (b <? 128) = true) l -> (length l <= f)%nat -> runes_fuel f l = l.
Proof.
  revert f. induction l as [|b l IH]; intros [|f] H Hf; simpl in *; try done; try lia.
  inversion H as [|?? Hb Hl]; subst. simpl. rewrite Hb. simpl. rewrite IH by (done || lia). done.
Qed.

(** On ASCII strings runes are bytes. *)
Lemma runes_ascii s : is_ascii_str s = true -> runes s = bytes_of s.
Proof.
  intros H. apply runes_fuel_ascii.
  - by apply forallb_Forall.
  - by rewrite length_bytes_of.
Qed.
