(* ===== verification/Validate.v ===== *)
(** * Name and subject validation (validate.go)

    [validateAssetName], [validateSubject] and the exported [Validate*]
    wrappers, each returning the error value of the code ([None] is [nil]).
    The subject tokenizer walks byte indices the way the code does; the
    reference definition [valid_subject] works on [strings.Split]. *)

From S2P Require Import Prelude GoStr.

(** ** Constants and sentinels *)

Definition maxNameLen : Z := 255.
Definition asciiSpace : Z := 32.
Definition asciiDEL : Z := 127.
Definition maxSubjectLenMultiplier : Z := 4.

Definition ErrInvalidStreamName : string := "nats.ErrInvalidStreamName".
Definition ErrInvalidDurableName : string := "nats.ErrInvalidDurableName".
Definition ErrInvalidQueueName : string := "nats.ErrInvalidQueueName".
Definition ErrInvalidBucketName : string := "nats.ErrInvalidBucketName".
Definition ErrInvalidSubject : string := "nats.ErrInvalidSubject".
Definition ErrInvalidKVKey : string := "nats.ErrInvalidKVKey".

(** The byte set [" \t\r\n\f.*>\\/"] of [validateAssetName]. *)
Definition asset_forbidden : string :=
  String.string_of_list_ascii (ascii_of_nat <$> [32; 9; 13; 10; 12; 46; 42; 62; 92; 47]%nat).

Definition in_range (lo hi a : ascii) : bool :=
  (byte_of lo <=? byte_of a) && (byte_of a <=? byte_of hi).

Definition is_alnum (a : ascii) : bool :=
  in_range "a" "z" a || in_range "A" "Z" a || in_range "0" "9" a.

(** [^[a-zA-Z0-9_-]+$] *)
Definition validBucketRe (s : string) : bool :=
  negb (IsEmpty s)
  && forallb (fun a => is_alnum a || contains_char a "_-") (String.list_ascii_of_string s).

(** [^[-/_=.a-zA-Z0-9]+$] *)
Definition validKVKeyRe (s : string) : bool :=
  negb (IsEmpty s)
  && forallb (fun a => is_alnum a || contains_char a "-/_=.") (String.list_ascii_of_string s).

(** ** Operations *)

Definition hasWhitespace (s : string) : bool := existsb is_space (runes s).

Definition validateAssetName (name kind : string) : option err :=
  if IsEmpty name then Some (errorf (kind +:+ " name is empty"))
  else if maxNameLen <? slen name then Some (errorf (kind +:+ " name exceeds 255 characters"))
  else if contains_any asset_forbidden name
       then Some (errorf (kind +:+ " name contains forbidden characters"))
  else if existsb (fun r => (r <? asciiSpace) || (r =? asciiDEL)) (runes name)
       then Some (errorf (kind +:+ " name contains non-printable characters"))
  else None.

(** The [for i := 0; i <= len(subject); i++] loop; [k] is [len(subject) + 1 - i]. *)
Fixpoint subject_loop (k : nat) (subject : string) (allowWildcards : bool)
    (i start : nat) (fullWildcardSeen : bool) : option err :=
  match k with
  | O => None
  | S k' =>
      if match String.get i subject with Some c => negb (Ascii.eqb c ".") | None => false end
      then subject_loop k' subject allowWildcards (S i) start fullWildcardSeen
      else if fullWildcardSeen then Some (errorf "subject has tokens after '>'")
      else if (start =? i)%nat then Some (errorf "subject has empty token")
      else
        let token := slice subject start i in
        if hasWhitespace token then Some (errorf "subject has whitespace in token")
        else if String.eqb token ">" then
          if negb allowWildcards then Some (errorf "publish subject must not contain wildcards")
          else if negb (i =? String.length subject)%nat
               then Some (errorf "subject: '>' must be the final token")
          else subject_loop k' subject allowWildcards (S i) (S i) true
        else if String.eqb token "*" then
          if negb allowWildcards then Some (errorf "publish subject must not contain wildcards")
          else subject_loop k' subject allowWildcards (S i) (S i) fullWildcardSeen
        else if contains_any "*>" token then Some (errorf "subject: wildcards must be standalone tokens")
        else subject_loop k' subject allowWildcards (S i) (S i) fullWildcardSeen
  end.

Definition validateSubject (subject : string) (allowWildcards : bool) : option err :=
  if IsEmpty subject then Some (errorf "subject is empty")
  else if maxNameLen * maxSubjectLenMultiplier <? slen subject
       then Some (errorf "subject exceeds maximum length")
  else subject_loop (S (String.length subject)) subject allowWildcards 0 0 false.

(** [fmt.Errorf("%w: %w", sentinel, err)] around a helper. *)
Definition with_sentinel (name : string) (o : option err) : option err :=
  wrapf2 "" (Sentinel name) <$> o.

Definition ValidateStreamName (name : string) : option err :=
  with_sentinel ErrInvalidStreamName (validateAssetName name "stream").

Definition ValidateDurableName (name : string) : option err :=
  with_sentinel ErrInvalidDurableName (validateAssetName name "durable").

Definition ValidateQueueName (name : string) : option err :=
  with_sentinel ErrInvalidQueueName (validateAssetName name "queue").

Definition ValidateBucketName (name : string) : option err :=
  if IsEmpty name then Some (wrapf "bucket name is empty" (Sentinel ErrInvalidBucketName))
  else if maxNameLen <? slen name
       then Some (wrapf "bucket name exceeds 255 characters" (Sentinel ErrInvalidBucketName))
  else if negb (validBucketRe name)
       then Some (wrapf "bucket name must match the pattern" (Sentinel ErrInvalidBucketName))
  else None.

Definition ValidateKVKey (key : string) : option err :=
  if IsEmpty key then Some (wrapf "key is empty" (Sentinel ErrInvalidKVKey))
  else if maxNameLen <? slen key
       then Some (wrapf "key exceeds 255 characters" (Sentinel ErrInvalidKVKey))
  else if negb (validKVKeyRe key)
       then Some (wrapf "key must match the pattern" (Sentinel ErrInvalidKVKey))
  else None.

Definition ValidateSubject (subject : string) : option err :=
  with_sentinel ErrInvalidSubject (validateSubject subject true).

Definition ValidatePublishSubject (subject : string) : option err :=
  with_sentinel ErrInvalidSubject (validateSubject subject false).

Fixpoint ValidateSubjects (subjects : list string) : option err :=
  match subjects with
  | [] => None
  | subject :: rest => check (ValidateSubject subject) ;; ValidateSubjects rest
  end.

(** ** Reference definition of a valid subject, on tokens *)

Definition is_wildcard (t : string) : bool := String.eqb t ">" || String.eqb t "*".

Definition token_ok (allow : bool) (t : string) : bool :=
  negb (IsEmpty t) && negb (hasWhitespace t)
  && (if is_wildcard t then allow else negb (contains_any "*>" t)).

(** Every token is well formed and [>] is only the last one. *)
Fixpoint tokens_ok (allow : bool) (ts : list string) : bool :=
  match ts with
  | [] => true
  | [t] => token_ok allow t
  | t :: ts' => token_ok allow t && negb (String.eqb t ">") && tokens_ok allow ts'
  end.

Definition valid_subject (allow : bool) (s : string) : bool :=
  negb (IsEmpty s) && (slen s <=? 1020) && tokens_ok allow (split "." s).

(** ** Lemmas *)

Lemma with_sentinel_None n o : with_sentinel n o = None <-> o = None.
Proof. destruct o; simpl; naive_solver. Qed.

Lemma with_sentinel_is n o e : with_sentinel n o = Some e -> errors_is e n = true.
Proof.
  destruct o; simpl; [|done]. intros [= <-]. cbn. by rewrite String.eqb_refl.
Qed.

Lemma tokens_ok_cons allow t ts :
  ts <> [] -> tokens_ok allow (t :: ts) = token_ok allow t && negb (String.eqb t ">") && tokens_ok allow ts.
Proof. by destruct ts. Qed.

Lemma tokens_ok_Forall allow ts : tokens_ok allow ts = true -> Forall (fun t => token_ok allow t = true) ts.
Proof.
  induction ts as [|t [|t' ts] IH]; intros H; [done|by repeat constructor|].
  rewrite tokens_ok_cons in H by done.
  apply andb_true_iff in H as [[H _]%andb_true_iff H2]. constructor; auto.
Qed.

(** Without wildcards the order of tokens is irrelevant. *)
Lemma tokens_ok_false_Forall ts :
  tokens_ok false ts = true <-> Forall (fun t => token_ok false t = true) ts.
Proof.
  split; [apply tokens_ok_Forall|].
  induction ts as [|t [|t' ts] IH]; intros H; [done|by inversion H|].
  inversion H as [|?? Ht Hts]; subst. rewrite tokens_ok_cons by done. rewrite IH by done.
  unfold token_ok, is_wildcard in *. destruct (String.eqb t ">") eqn:E; [|by rewrite Ht].
  rewrite andb_false_r in Ht. done.
Qed.

Lemma token_ok_mono t : token_ok false t = true -> token_ok true t = true.
Proof.
  unfold token_ok. destruct (is_wildcard t); [by rewrite andb_false_r|done].
Qed.

Lemma token_ok_false_no_gt t : token_ok false t = true -> String.eqb t ">" = false.
Proof.
  unfold token_ok, is_wildcard. destruct (String.eqb t ">"); [|done]. by rewrite andb_false_r.
Qed.

Lemma tokens_ok_mono ts : tokens_ok false ts = true -> tokens_ok true ts = true.
Proof.
  induction ts as [|t [|t' ts] IH]; [done|apply token_ok_mono|].
  rewrite (tokens_ok_cons false), (tokens_ok_cons true) by done.
  intros [[H1 H2]%andb_true_iff H3]%andb_true_iff. by rewrite (token_ok_mono t), H2, IH.
Qed.

(** What one iteration at the end of a token does, against [token_ok]. *)
Lemma token_step (t : string) (allow last : bool) (e1 e2 e3 e4 e5 : err) (k1 k2 k3 : option err) :
  t <> "" ->
  (if hasWhitespace t then Some e1
   else if String.eqb t ">" then
     if negb allow then Some e2 else if negb last then Some e3 else k1
   else if String.eqb t "*" then if negb allow then Some e4 else k2
   else if contains_any "*>" t then Some e5 else k3) = None <->
  token_ok allow t = true /\ (String.eqb t ">" = true -> last = true)
  /\ (if String.eqb t ">" then k1 else if String.eqb t "*" then k2 else k3) = None.
Proof.
  intros Ht. unfold token_ok, is_wildcard. apply IsEmpty_false in Ht. rewrite Ht.
  destruct (hasWhitespace t), (String.eqb t ">"), (String.eqb t "*"), allow, last,
    (contains_any "*>" t); simpl; intuition congruence.
Qed.

Lemma length_pos_iff t : (String.length t =? 0)%nat = false <-> t <> "".
Proof. destruct t; simpl; split; done. Qed.

Lemma subject_loop_tokens allow rest pre tok :
  contains_char "." tok = false ->
  subject_loop (S (String.length rest)) (pre +:+ tok +:+ rest) allow
    (String.length pre + String.length tok) (String.length pre) false = None
  <-> tokens_ok allow (split "." (tok +:+ rest)) = true.
Proof.
  revert pre tok. induction rest as [|c rest IH]; intros pre tok Htok.
  - rewrite !str_app_nil_r, split_no_sep by done. simpl.
    replace (String.get _ _) with (@None ascii); [|symmetry].
    2:{ rewrite <- str_length_app. clear. induction (pre +:+ tok); simpl; auto. }
    destruct (Nat.eqb_spec (String.length pre) (String.length pre + String.length tok)) as [E|E].
    { destruct tok; simpl in *; [done|lia]. }
    assert (Hne : tok <> "") by (intros ->; simpl in E; lia).
    replace (slice (pre +:+ tok) _ _) with tok.
    2:{ rewrite <- (str_app_nil_r (pre +:+ tok)), str_app_assoc. symmetry. apply slice_mid. }
    rewrite str_length_app, Nat.eqb_refl.
    rewrite (token_step tok allow true) by done. intuition; by repeat case_match.
  - set (s := pre +:+ tok +:+ String c rest).
    assert (Hget : String.get (String.length pre + String.length tok) s = Some c).
    { unfold s. rewrite <- str_app_assoc, <- str_length_app. apply get_app_head. }
    destruct (Ascii.eqb_spec c ".") as [->|Hc].
    + rewrite split_app_sep, tokens_ok_cons by (done || apply split_not_nil).
      cbn [subject_loop]. rewrite Hget, Ascii.eqb_refl. cbn [negb].
      destruct (Nat.eqb_spec (String.length pre) (String.length pre + String.length tok)) as [E|E].
      { destruct tok; simpl in *; [done|lia]. }
      assert (Hne : tok <> "") by (intros ->; simpl in E; lia).
      replace (slice s _ _) with tok by (unfold s; symmetry; apply slice_mid).
      replace (_ =? String.length s)%nat with false.
      2:{ symmetry. apply Nat.eqb_neq. unfold s. rewrite !str_length_app. simpl. lia. }
      rewrite (token_step tok allow false) by done.
      specialize (IH (pre +:+ tok +:+ ".") "" eq_refl).
      rewrite !str_length_app in IH. simpl in IH. rewrite !str_app_assoc in IH. simpl in IH.
      replace (String.length pre + (String.length tok + 1) + 0)%nat
        with (S (String.length pre + String.length tok)) in IH by lia.
      replace (String.length pre + (String.length tok + 1))%nat
        with (S (String.length pre + String.length tok)) in IH by lia.
      fold s in IH. rewrite !andb_true_iff, <- IH.
      destruct (String.eqb tok ">"), (String.eqb tok "*"); simpl; intuition congruence.
    + cbn [subject_loop]. rewrite Hget. apply Ascii.eqb_neq in Hc as Hc'. rewrite Hc'. cbn [negb].
      specialize (IH pre (tok +:+ String c "")).
      rewrite contains_char_app, str_app_assoc, str_length_app in IH. simpl in IH.
      rewrite Htok, Hc' in IH. specialize (IH eq_refl).
      replace (String.length pre + (String.length tok + 1))%nat
        with (S (String.length pre + String.length tok)) in IH by lia. exact IH.
Qed.

Lemma validateSubject_None s allow : validateSubject s allow = None <-> valid_subject allow s = true.
Proof.
  unfold validateSubject, valid_subject. destruct (IsEmpty s) eqn:E; simpl; [done|].
  replace (maxNameLen * maxSubjectLenMultiplier) with 1020 by done.
  destruct (Z.ltb_spec 1020 (slen s)), (Z.leb_spec (slen s) 1020); try lia; simpl; [done|].
  apply (subject_loop_tokens allow s "" ""). done.
Qed.

Lemma ValidatePublishSubject_None s : ValidatePublishSubject s = None <-> valid_subject false s = true.
Proof. unfold ValidatePublishSubject. by rewrite with_sentinel_None, validateSubject_None. Qed.

Lemma ValidateSubject_None s : ValidateSubject s = None <-> valid_subject true s = true.
Proof. unfold ValidateSubject. by rewrite with_sentinel_None, validateSubject_None. Qed.

Lemma ValidateSubjects_None l : ValidateSubjects l = None <-> Forall (fun s => ValidateSubject s = None) l.
Proof.
  induction l as [|s l IH]; simpl; [by split|]. destruct (ValidateSubject s) eqn:E.
  - split; [done|]. inversion 1; congruence.
  - rewrite IH. split; [by constructor|by inversion 1].
Qed.

Lemma contains_any_split chars s :
  contains_char "." chars = false ->
  contains_any chars s = existsb (contains_any chars) (split "." s).
Proof.
  intros Hdot. induction s as [|a s IH]; [done|]. simpl.
  destruct (Ascii.eqb_spec a ".") as [->|Hne]; [by rewrite Hdot|].
  rewrite IH. pose proof (split_not_nil "." s). destruct (split "." s) as [|t ts]; [done|].
  simpl. by rewrite orb_assoc.
Qed.

Lemma token_ok_false_no_wild t : token_ok false t = true -> contains_any "*>" t = false.
Proof.
  unfold token_ok. destruct (is_wildcard t); [by rewrite andb_false_r|].
  rewrite !andb_true_iff, !negb_true_iff. tauto.
Qed.

Lemma valid_publish_no_wild s : valid_subject false s = true -> contains_any "*>" s = false.
Proof.
  unfold valid_subject. rewrite !andb_true_iff. intros [_ H].
  rewrite contains_any_split by done. apply tokens_ok_Forall in H.
  induction H as [|t ts Ht _ IH]; simpl; [done|]. by rewrite (token_ok_false_no_wild t).
Qed.

Lemma valid_publish_valid s : valid_subject false s = true -> valid_subject true s = true.
Proof.
  unfold valid_subject. rewrite !andb_true_iff. intros [? H]. split; [done|].
  by apply tokens_ok_mono.
Qed.

(** No byte of an accepted asset name is one of the forbidden ones. *)
Lemma asset_name_ok name kind :
  validateAssetName name kind = None ->
  name <> "" /\ slen name <= 255 /\ contains_any asset_forbidden name = false
  /\ Forall (fun r => 32 <= r /\ r <> 127) (runes name).
Proof.
  unfold validateAssetName, maxNameLen, asciiSpace, asciiDEL. intros H.
  destruct (IsEmpty name) eqn:E1; [done|].
  destruct (Z.ltb_spec 255 (slen name)); [done|].
  destruct (contains_any asset_forbidden name) eqn:E2; [done|].
  destruct (existsb _ _) eqn:E3; [done|]. apply IsEmpty_false in E1.
  repeat split; [done|done|]. apply List.Forall_forall. intros r Hr.
  apply not_true_iff_false in E3. rewrite existsb_exists in E3.
  destruct (Z.ltb_spec r 32), (Z.eqb_spec r 127); simpl in *; try lia;
    destruct E3; exists r; split; try done; rewrite ?orb_true_iff, ?Z.ltb_lt, ?Z.eqb_eq; lia.
Qed.

Lemma contains_any_subset c1 c2 s :
  (forall a, contains_char a c1 = true -> contains_char a c2 = true) ->
  contains_any c2 s = false -> contains_any c1 s = false.
Proof.
  intros Hsub. induction s as [|a s IH]; simpl; [done|].
  intros [H1 H2]%orb_false_iff. rewrite IH by done.
  destruct (contains_char a c1) eqn:E; [|done]. by rewrite Hsub in H1.
Qed.

Lemma contains_char_any c s : contains_char c s = contains_any (String c "") s.
Proof.
  induction s as [|a s IH]; simpl; [done|]. rewrite IH, orb_false_r.
  by rewrite Ascii.eqb_sym.
Qed.

(** A byte that is not in [chars] does not occur in a string avoiding [chars]. *)
Lemma contains_char_not_any c chars s :
  contains_char c chars = true -> contains_any chars s = false -> contains_char c s = false.
Proof.
  intros Hc. rewrite contains_char_any. apply contains_any_subset.
  intros a. simpl. rewrite orb_false_r. intros ->%Ascii.eqb_eq. done.
Qed.

Lemma ascii_asset_no_space name kind :
  validateAssetName name kind = None -> is_ascii_str name = true -> hasWhitespace name = false.
Proof.
  intros (_ & _ & Hf & Hr)%asset_name_ok Ha. unfold hasWhitespace.
  rewrite runes_ascii in * by done. apply not_true_iff_false. rewrite existsb_exists.
  intros (r & Hin & Hsp). unfold is_ascii_str in Ha. rewrite forallb_forall in Ha.
  specialize (Ha r Hin). rewrite List.Forall_forall in Hr. specialize (Hr r Hin).
  assert (r = 32) as ->.
  { apply Z.ltb_lt in Ha. unfold is_space in Hsp. rewrite !orb_true_iff, !andb_true_iff in Hsp.
    rewrite ?Z.leb_le, ?Z.eqb_eq in Hsp. lia. }
  apply list_elem_of_In, list_elem_of_fmap in Hin as (a & Hb & Hin%list_elem_of_In).
  rewrite contains_any_spec in Hf. apply not_true_iff_false in Hf. apply Hf.
  apply existsb_exists. exists a. split; [done|].
  replace a with (ascii_of_nat 32); [done|]. apply byte_of_inj. by rewrite <- Hb.
Qed.

(** ** Properties *)

(** C27: the allocation-free index walk of [validateSubject] accepts exactly the
    subjects that are non-empty, at most 1020 bytes long and whose
    [strings.Split] tokens are non-empty, free of whitespace, with [*] and [>]
    only as whole tokens (and only if wildcards are allowed) and [>] only last;
    every rejection of the exported validators is [ErrInvalidSubject]. *)
Theorem validateSubject_spec (s : string) (allow : bool) :
  let v := if allow then ValidateSubject s else ValidatePublishSubject s in
  (v = None <-> valid_subject allow s = true)
  /\ (valid_subject allow s = false -> is_err v ErrInvalidSubject = true).
Proof.
  assert (Hv : (if allow then ValidateSubject s else ValidatePublishSubject s)
               = with_sentinel ErrInvalidSubject (validateSubject s allow)) by by destruct allow.
  cbv zeta. rewrite Hv, with_sentinel_None, validateSubject_None. split; [done|]. intros H.
  destruct (with_sentinel _ _) as [e|] eqn:E; [by apply with_sentinel_is in E|].
  apply with_sentinel_None, validateSubject_None in E. congruence.
Qed.

Lemma validateSubject_spec_witness :
  valid_subject true "orders.*.>" = true /\ valid_subject false "orders.*.>" = false
  /\ ValidateSubject "orders.*.>" = None
  /\ is_err (ValidatePublishSubject "orders.*.>") ErrInvalidSubject = true.
Proof.
  split; [reflexivity|]. split; [reflexivity|]. split.
  - apply (proj1 (validateSubject_spec "orders.*.>" true)). reflexivity.
  - apply (proj2 (validateSubject_spec "orders.*.>" false)). reflexivity.
Defined.

(** A subject accepted for publishing holds no wildcard byte at all and is
    also accepted where wildcards are allowed. *)
Theorem publish_subject_literal (s : string) :
  ValidatePublishSubject s = None ->
  ValidateSubject s = None /\ contains_any "*>" s = false.
Proof.
  rewrite ValidatePublishSubject_None, ValidateSubject_None. intros H.
  split; [by apply valid_publish_valid|by apply valid_publish_no_wild].
Qed.

Lemma publish_subject_literal_witness :
  ValidatePublishSubject "orders.created" = None
  /\ ValidateSubject "orders.created" = None /\ contains_any "*>" "orders.created" = false.
Proof.
  split; [reflexivity|]. apply (publish_subject_literal "orders.created"). reflexivity.
Defined.

(** An ASCII stream, durable or queue name is usable as one token of a
    publish subject: [validateAssetName] leaves nothing that would add a token,
    a wildcard or whitespace. *)
Theorem asset_name_is_token (name kind : string) :
  validateAssetName name kind = None -> is_ascii_str name = true ->
  ValidatePublishSubject name = None /\ split "." name = [name].
Proof.
  intros Hn Ha. pose proof (asset_name_ok _ _ Hn) as (Hne & Hlen & Hf & _).
  assert (Hdot : contains_char "." name = false)
    by (by apply (contains_char_not_any _ asset_forbidden)).
  assert (Hw : contains_any "*>" name = false).
  { revert Hf. apply contains_any_subset. intros a. cbn [contains_char]. rewrite orb_false_r.
    intros [<-%Ascii.eqb_eq | <-%Ascii.eqb_eq]%orb_true_iff; done. }
  split; [|by apply split_no_sep]. apply ValidatePublishSubject_None. unfold valid_subject.
  rewrite split_no_sep by done. cbn [tokens_ok]. unfold token_ok.
  rewrite (ascii_asset_no_space name kind) by done.
  apply IsEmpty_false in Hne. rewrite Hne, Hw. simpl.
  replace (slen name <=? 1020) with true by (symmetry; apply Z.leb_le; lia).
  unfold is_wildcard. destruct (String.eqb_spec name ">") as [->|]; [done|].
  destruct (String.eqb_spec name "*") as [->|]; done.
Qed.

Lemma asset_name_is_token_witness :
  validateAssetName "orders-worker_1" "durable" = None
  /\ ValidatePublishSubject "orders-worker_1" = None.
Proof.
  split; [reflexivity|].
  apply (asset_name_is_token "orders-worker_1" "durable"); reflexivity.
Defined.
