(* ===== verification/Shard.v ===== *)
(** * Keyed sharding (shard/shard.go, shard_reexport.go)

    FNV-1a on 32-bit words, the shard index, the allocation-light decimal
    printer and the shard subject.  [None] is a run-time panic (division by
    zero, index out of range). *)

From S2P Require Import Prelude GoStr Validate.

(** ** Operations *)

Definition itoaBufLen : nat := 20.
Definition fnvOffset32 : Z := 2166136261.
Definition fnvPrime32 : Z := 16777619.

Definition fnv_step (hash b : Z) : Z := u32 (Z.lxor hash b * fnvPrime32).

Definition fnv32aString (s : string) : Z := fold_left fnv_step (bytes_of s) (u32 fnvOffset32).

(** [uint32(numShards)] truncates, and [% 0] panics. *)
Definition Index (key : string) (numShards : Z) : option Z :=
  if numShards <=? 0 then Some 0
  else if u32 numShards =? 0 then None
  else Some (fnv32aString key mod u32 numShards).

Definition digit (d : Z) : ascii := ascii_of_N (Z.to_N (48 + d)).

(** The [for n > 0] loop; [slots] counts the bytes of [buf] left of [i]. *)
Fixpoint itoa_loop (slots : nat) (n : Z) (acc : string) : option string :=
  if n <=? 0 then Some acc
  else match slots with
       | O => None
       | S k => itoa_loop k (n / 10) (String (digit (n mod 10)) acc)
       end.

Definition itoa (n : Z) : option string :=
  if n =? 0 then Some "0" else itoa_loop itoaBufLen n "".

Definition Subject (prefix key : string) (numShards : Z) (action : string) : option string :=
  idx ← Index key numShards;
  d ← itoa idx;
  if IsEmpty action then Some (prefix +:+ "." +:+ d)
  else Some (prefix +:+ "." +:+ d +:+ "." +:+ action).

Definition ShardIndex (key : string) (numShards : Z) : option Z := Index key numShards.
Definition ShardSubject (prefix key : string) (numShards : Z) (action : string) : option string :=
  Subject prefix key numShards action.

(** Reading a decimal numeral back. *)
Definition undigit (a : ascii) : Z := byte_of a - 48.
Definition parse_dec (s : string) : Z :=
  fold_left (fun acc a => acc * 10 + undigit a) (String.list_ascii_of_string s) 0.

Definition is_digit (a : ascii) : bool := in_range "0" "9" a.
Definition all_digits (s : string) : bool := forallb is_digit (String.list_ascii_of_string s).

(** ** Lemmas *)

Lemma fnv32aString_range s : in_u32 (fnv32aString s).
Proof.
  unfold fnv32aString. assert (H : in_u32 (u32 fnvOffset32)) by apply u32_range.
  revert H. generalize (u32 fnvOffset32). induction (bytes_of s) as [|b l IH]; simpl; [done|].
  intros h _. apply IH. apply u32_range.
Qed.

Example fnv32a_empty : fnv32aString "" = 2166136261.
Proof. reflexivity. Qed.

Example fnv32a_a : fnv32aString "a" = 3826002220.
Proof. reflexivity. Qed.

Lemma byte_of_digit d : 0 <= d < 10 -> byte_of (digit d) = 48 + d.
Proof. unfold byte_of, digit. intros H. rewrite N_ascii_embedding; lia. Qed.

Lemma is_digit_digit d : 0 <= d < 10 -> is_digit (digit d) = true.
Proof.
  intros H. unfold is_digit, in_range. rewrite byte_of_digit by done.
  apply andb_true_iff. change (byte_of "0") with 48. change (byte_of "9") with 57.
  rewrite !Z.leb_le. lia.
Qed.

Lemma parse_dec_fold l h t :
  fold_left (fun acc a => acc * 10 + undigit a) l (h * 10 ^ 0 + t) =
  h * 10 ^ Z.of_nat (length l) + fold_left (fun acc a => acc * 10 + undigit a) l t.
Proof.
  revert h t. induction l as [|a l IH]; intros h t; [done|]. cbn [fold_left length].
  replace ((h * 10 ^ 0 + t) * 10 + undigit a) with ((h * 10) * 10 ^ 0 + (t * 10 + undigit a)) by ring.
  rewrite IH. rewrite Nat2Z.inj_succ, Z.pow_succ_r by lia. ring.
Qed.

(** The loop prints the digits of [n] in front of [acc], given enough slots. *)
Lemma itoa_loop_spec slots n acc :
  0 <= n < 10 ^ Z.of_nat slots -> all_digits acc = true ->
  exists s, itoa_loop slots n acc = Some s
    /\ all_digits s = true
    /\ (String.length s <= slots + String.length acc)%nat
    /\ (0 < n -> (String.length acc < String.length s)%nat)
    /\ parse_dec s = n * 10 ^ Z.of_nat (String.length acc) + parse_dec acc.
Proof.
  revert n acc. induction slots as [|k IH]; intros n acc Hn Hacc.
  - assert (n = 0) as -> by (simpl in Hn; lia). exists acc. simpl.
    repeat split; try done; lia.
  - cbn [itoa_loop]. destruct (Z.leb_spec n 0) as [H0|H0].
    { assert (n = 0) as -> by lia. exists acc. repeat split; try done; lia. }
    rewrite Nat2Z.inj_succ, Z.pow_succ_r in Hn by lia.
    pose proof (Z.mod_pos_bound n 10 ltac:(lia)) as Hm.
    pose proof (Z.div_mod n 10 ltac:(lia)) as Hdm.
    destruct (IH (n / 10) (String (digit (n mod 10)) acc)) as (s & Hs & Hd & Hl & Hpos & Hp).
    { split; [apply Z.div_pos; lia|apply Z.div_lt_upper_bound; lia]. }
    { unfold all_digits in *. simpl. by rewrite is_digit_digit. }
    exists s. split; [done|]. split; [done|]. simpl in Hl, Hpos, Hp. split; [lia|]. split.
    { intros _. destruct (Z.eq_dec (n / 10) 0) as [E|E].
      - rewrite E in Hs. destruct k; simpl in Hs; injection Hs as <-; simpl; lia.
      - assert (0 <= n / 10) by (apply Z.div_pos; lia). specialize (Hpos ltac:(lia)). lia. }
    rewrite Hp. unfold parse_dec. cbn [String.list_ascii_of_string fold_left].
    replace (0 * 10 + undigit (digit (n mod 10))) with ((n mod 10) * 10 ^ 0 + 0).
    2:{ unfold undigit. rewrite byte_of_digit by lia. ring. }
    rewrite parse_dec_fold.
    replace (length (String.list_ascii_of_string acc)) with (String.length acc)
      by (clear; induction acc; simpl; auto).
    replace (Z.pos (Pos.of_succ_nat (String.length acc))) with (Z.of_nat (S (String.length acc))) by lia.
    rewrite Nat2Z.inj_succ, Z.pow_succ_r by lia. set (p := 10 ^ Z.of_nat (String.length acc)).
    transitivity ((10 * (n / 10) + n mod 10) * p + fold_left (λ acc0 a, acc0 * 10 + undigit a)
      (String.list_ascii_of_string acc) 0); [ring|by rewrite <- Hdm].
Qed.

Lemma itoa_spec n :
  0 <= n < 2 ^ 63 ->
  exists s, itoa n = Some s /\ all_digits s = true /\ s <> ""
    /\ (String.length s <= 20)%nat /\ parse_dec s = n.
Proof.
  intros Hn. unfold itoa. destruct (Z.eqb_spec n 0) as [->|H0].
  { exists "0". repeat split; try done. simpl. lia. }
  destruct (itoa_loop_spec itoaBufLen n "") as (s & Hs & Hd & Hl & Hpos & Hp).
  { unfold itoaBufLen. simpl. lia. } { done. }
  change (String.length "") with 0%nat in *. unfold itoaBufLen in Hl.
  exists s. repeat split; [done|done| |lia|].
  - intros ->. specialize (Hpos ltac:(lia)). cbn in Hpos. lia.
  - rewrite Hp. change (parse_dec "") with 0. change (10 ^ Z.of_nat 0) with 1. lia.
Qed.

Lemma is_digit_range a : is_digit a = true -> 48 <= byte_of a <= 57.
Proof.
  unfold is_digit, in_range. change (byte_of "0") with 48. change (byte_of "9") with 57.
  rewrite andb_true_iff, !Z.leb_le. done.
Qed.

Lemma all_digits_bytes d : all_digits d = true -> Forall (fun b => 48 <= b <= 57) (bytes_of d).
Proof.
  unfold all_digits, bytes_of. induction d as [|a d IH]; simpl; [by constructor|].
  intros [Ha Hd]%andb_true_iff. constructor; [by apply is_digit_range|auto].
Qed.

Lemma all_digits_no_char c d :
  (byte_of c < 48 \/ 57 < byte_of c) -> all_digits d = true -> contains_char c d = false.
Proof.
  intros Hc. unfold all_digits. induction d as [|a d IH]; simpl; [done|].
  intros [Ha Hd]%andb_true_iff. rewrite IH by done. apply is_digit_range in Ha.
  destruct (Ascii.eqb_spec a c) as [->|]; [lia|done].
Qed.

(** A decimal numeral is an admissible publish token. *)
Lemma digits_token_ok d : d <> "" -> all_digits d = true -> token_ok false d = true.
Proof.
  intros Hne Hd. pose proof (all_digits_bytes d Hd) as Hb. unfold token_ok.
  apply IsEmpty_false in Hne. rewrite Hne. cbn [negb andb].
  assert (Hasc : is_ascii_str d = true).
  { unfold is_ascii_str. apply forallb_Forall. eapply Forall_impl; [|exact Hb].
    intros b Hr. cbv beta in Hr. apply Z.ltb_lt. lia. }
  replace (hasWhitespace d) with false; [cbn [negb andb]|symmetry].
  2:{ unfold hasWhitespace. rewrite runes_ascii by done. apply not_true_iff_false.
      rewrite existsb_exists. intros (r & Hin & Hsp). rewrite List.Forall_forall in Hb.
      specialize (Hb r Hin). unfold is_space in Hsp.
      rewrite !orb_true_iff, !andb_true_iff, ?Z.leb_le, ?Z.eqb_eq in Hsp. lia. }
  pose proof (all_digits_no_char "*" d ltac:(left; done) Hd) as Hs.
  pose proof (all_digits_no_char ">" d ltac:(right; done) Hd) as Hg.
  unfold is_wildcard. destruct (String.eqb_spec d ">") as [->|_]; [done|].
  destruct (String.eqb_spec d "*") as [->|_]; [done|]. cbn [orb]. apply negb_true_iff.
  clear -Hs Hg. induction d as [|a d IH]; [done|]. cbn [contains_char contains_any] in *.
  apply orb_false_iff in Hs as [H1 H2], Hg as [H3 H4]. rewrite IH by done.
  rewrite (Ascii.eqb_sym "*"), (Ascii.eqb_sym ">"), H1, H3. done.
Qed.

(** ** Properties *)

(** For every key, [Index] is a function of the key's FNV-1a hash that lies
    in [[0, numShards)] for 1 <= numShards < 2^32, is 0 for a non-positive
    count, and panics exactly when numShards is positive and its low 32 bits
    are zero. *)
Theorem Index_bounds (key : string) (n : Z) :
  in_i64 n ->
  (1 <= n < 2 ^ 32 -> exists i, Index key n = Some i /\ 0 <= i < n /\ i = fnv32aString key mod n)
  /\ (n <= 0 -> Index key n = Some 0)
  /\ (Index key n = None <-> 0 < n /\ n mod 2 ^ 32 = 0).
Proof.
  intros _. unfold Index. split; [|split].
  - intros Hn. destruct (Z.leb_spec n 0); [lia|]. rewrite u32_id by (unfold in_u32; lia).
    destruct (Z.eqb_spec n 0); [lia|]. eexists. split; [done|]. split; [|done].
    apply Z.mod_pos_bound. lia.
  - intros Hn. destruct (Z.leb_spec n 0); [done|lia].
  - unfold u32. destruct (Z.leb_spec n 0), (Z.eqb_spec (n mod 2 ^ 32) 0); split; try done; try lia.
Qed.

Lemma Index_bounds_witness :
  in_i64 8 /\ Index "acct-1" 8 = Some (fnv32aString "acct-1" mod 8) /\ Index "k" (2 ^ 32) = None.
Proof.
  split; [unfold in_i64; lia|]. split.
  - destruct (proj1 (Index_bounds "acct-1" 8 ltac:(unfold in_i64; lia)) ltac:(lia)) as (i & Hi & _ & ->).
    exact Hi.
  - apply (proj2 (proj2 (Index_bounds "k" (2 ^ 32) ltac:(unfold in_i64; lia)))). split; [lia|reflexivity].
Defined.

(** [itoa] never overruns its 20-byte buffer on a non-negative [int] and
    prints the decimal numeral of its argument: digits only, and reading them
    back gives the argument. *)
Theorem itoa_roundtrip (n : Z) :
  0 <= n < 2 ^ 63 ->
  exists s, itoa n = Some s /\ all_digits s = true /\ parse_dec s = n.
Proof. intros Hn. destruct (itoa_spec n Hn) as (s & ? & ? & _ & _ & ?). eauto. Qed.

Lemma itoa_roundtrip_witness : exists s, itoa (2 ^ 63 - 1) = Some s /\ parse_dec s = 2 ^ 63 - 1.
Proof.
  destruct (itoa_roundtrip (2 ^ 63 - 1)) as (s & H1 & _ & H2); [lia|]. exists s. split; assumption.
Defined.

(** With a valid prefix and an empty or valid action, [Subject] returns a
    valid publish subject whose tokens are the prefix tokens, the shard index
    in decimal and the action tokens. *)
Theorem shard_subject_valid (prefix key action : string) (n : Z) :
  ValidatePublishSubject prefix = None ->
  action = "" \/ ValidatePublishSubject action = None ->
  1 <= n < 2 ^ 32 -> slen prefix + slen action + 22 <= 1020 ->
  exists s i d, Subject prefix key n action = Some s /\ Index key n = Some i /\ itoa i = Some d
    /\ split "." s = split "." prefix ++ [d] ++ (if IsEmpty action then [] else split "." action)
    /\ ValidatePublishSubject s = None.
Proof.
  intros Hp Ha Hn Hlen. set (i := fnv32aString key mod n).
  assert (Hi : Index key n = Some i /\ 0 <= i < n).
  { unfold Index, i. destruct (Z.leb_spec n 0); [lia|]. rewrite u32_id by (unfold in_u32; lia).
    destruct (Z.eqb_spec n 0); [lia|]. split; [done|]. apply Z.mod_pos_bound. lia. }
  destruct Hi as [Hi Hr]. destruct (itoa_spec i ltac:(lia)) as (d & Hd & Hdig & Hne & Hdl & _).
  assert (Hdtok : split "." d = [d]).
  { apply split_no_sep, all_digits_no_char; [left; done|done]. }
  apply ValidatePublishSubject_None in Hp. unfold valid_subject in Hp.
  rewrite !andb_true_iff, negb_true_iff in Hp. destruct Hp as [[Hpe Hpl] Hpt].
  apply tokens_ok_Forall in Hpt.
  set (s := if IsEmpty action then prefix +:+ "." +:+ d else prefix +:+ "." +:+ d +:+ "." +:+ action).
  assert (Hsplit : split "." s = split "." prefix ++ [d] ++ (if IsEmpty action then [] else split "." action)).
  { unfold s. destruct (IsEmpty action).
    - change ("." +:+ d) with (String "." d). rewrite split_join_app, Hdtok. by rewrite app_nil_r.
    - change ("." +:+ d +:+ "." +:+ action) with (String "." (d +:+ "." +:+ action)).
      rewrite split_join_app. change (d +:+ "." +:+ action) with (d +:+ String "." action).
      by rewrite split_join_app, Hdtok. }
  exists s, i, d. split; [|split; [done|split; [done|split; [done|]]]].
  { unfold Subject. rewrite Hi. simpl. rewrite Hd. simpl. unfold s. by case_match. }
  apply ValidatePublishSubject_None. unfold valid_subject. rewrite Hsplit.
  rewrite !andb_true_iff, negb_true_iff. split; [split|].
  - apply IsEmpty_false. unfold s. intros E. apply (f_equal String.length) in E.
    destruct (IsEmpty action); rewrite !str_length_app in E; simpl in E; lia.
  - apply Z.leb_le. unfold s, slen in *.
    destruct (IsEmpty action); rewrite !str_length_app; simpl; lia.
  - apply tokens_ok_false_Forall. apply Forall_app. split; [done|]. simpl.
    constructor; [by apply digits_token_ok|].
    destruct (IsEmpty action) eqn:E; [done|]. destruct Ha as [->|Ha]; [done|].
    apply ValidatePublishSubject_None in Ha. unfold valid_subject in Ha.
    rewrite !andb_true_iff in Ha. apply tokens_ok_Forall. tauto.
Qed.

Lemma shard_subject_valid_witness :
  exists s, Subject "orders.shard" "acct-1" 8 "created" = Some s /\ ValidatePublishSubject s = None.
Proof.
  destruct (shard_subject_valid "orders.shard" "acct-1" "created" 8) as (s & i & d & H & _ & _ & _ & H2).
  - reflexivity.
  - right. reflexivity.
  - lia.
  - vm_compute. congruence.
  - exists s. split; assumption.
Defined.
