(* ===== verification/Page.v ===== *)
(** * Paging helpers (page.go)

    [pageSlice] on 64-bit [int] arithmetic ([None] is a slice-bounds panic) and
    [pageInfos], the name-page-then-fetch loop the stream and consumer managers
    share. *)

From S2P Require Import Prelude.

(** ** Operations *)

Definition pageSlice {T} (items : list T) (offset limit : Z) : option (list T * Z) :=
  let total := Z.of_nat (length items) in
  let offset := if offset <? 0 then 0 else offset in
  if total <=? offset then Some ([], total)
  else if limit <? 0 then Some (drop (Z.to_nat offset) items, total)
  else
    let end_ := i64 (offset + limit) in
    let end_ := if total <? end_ then total else end_ in
    if end_ <? offset then None
    else Some (take (Z.to_nat (end_ - offset)) (drop (Z.to_nat offset) items), total).

(** The fetch loop over the names of one page. *)
Fixpoint fetch_page {T} (fetch : string -> res T) (isNotFound : err -> bool)
    (names : list string) : res (list T) :=
  match names with
  | [] => Ok []
  | name :: rest =>
      match fetch name with
      | Ok info => infos <-! fetch_page fetch isNotFound rest ;; Ok (info :: infos)
      | Er e => if isNotFound e then fetch_page fetch isNotFound rest else Er e
      end
  end.

Definition pageInfos {T} (names : list string) (offset limit : Z)
    (fetch : string -> res T) (isNotFound : err -> bool) : option (res (list T) * Z) :=
  '(page, total) ← pageSlice names offset limit;
  Some (fetch_page fetch isNotFound page, total).

(** ** Reference definitions *)

(** The page of [limit] items from [offset], a negative limit meaning all. *)
Definition page_spec {T} (items : list T) (offset limit : Z) : list T :=
  let rest := drop (Z.to_nat offset) items in
  if limit <? 0 then rest else take (Z.to_nat limit) rest.

Definition fetched {T} (fetch : string -> res T) (name : string) : option T :=
  match fetch name with Ok x => Some x | Er _ => None end.

(** ** Lemmas *)

Lemma pageSlice_no_overflow {T} (items : list T) offset limit :
  in_i64 offset -> in_i64 limit -> Z.of_nat (length items) < 2 ^ 63 ->
  offset + limit < 2 ^ 63 \/ Z.of_nat (length items) <= offset \/ limit < 0 ->
  pageSlice items offset limit = Some (page_spec items offset limit, Z.of_nat (length items)).
Proof.
  intros Ho Hl Hlen Hov. unfold pageSlice, page_spec, in_i64 in *.
  set (o := if offset <? 0 then 0 else offset).
  assert (Hdrop : drop (Z.to_nat offset) items = drop (Z.to_nat o) items).
  { unfold o. destruct (Z.ltb_spec offset 0); [|done]. by replace (Z.to_nat offset) with 0%nat by lia. }
  assert (Hoo : 0 <= o /\ (o = offset \/ offset < 0 /\ o = 0)).
  { unfold o. destruct (Z.ltb_spec offset 0); lia. }
  rewrite Hdrop. clearbody o. destruct (Z.leb_spec (Z.of_nat (length items)) o) as [H|H].
  { rewrite drop_ge by lia. rewrite take_nil. by destruct (limit <? 0). }
  destruct (Z.ltb_spec limit 0) as [?|Hlim]; [done|].
  rewrite i64_id by (unfold in_i64; lia).
  destruct (Z.ltb_spec (Z.of_nat (length items)) (o + limit)) as [H1|H1].
  - destruct (Z.ltb_spec (Z.of_nat (length items)) o); [lia|]. do 2 f_equal.
    rewrite !take_ge; [done| |]; rewrite length_drop; lia.
  - destruct (Z.ltb_spec (o + limit) o); [lia|]. by replace (o + limit - o) with limit by lia.
Qed.

Lemma pageSlice_overflow {T} (items : list T) offset limit :
  in_i64 offset -> in_i64 limit -> Z.of_nat (length items) < 2 ^ 63 ->
  0 <= offset < Z.of_nat (length items) -> 0 <= limit -> 2 ^ 63 <= offset + limit ->
  pageSlice items offset limit = None.
Proof.
  intros Ho Hl Hlen Hoff Hlim Hov. unfold pageSlice, in_i64 in *.
  destruct (Z.ltb_spec offset 0); [lia|]. destruct (Z.leb_spec (Z.of_nat (length items)) offset); [lia|].
  destruct (Z.ltb_spec limit 0); [lia|].
  assert (E : i64 (offset + limit) = offset + limit - 2 ^ 64).
  { unfold i64. replace (offset + limit + 2 ^ 63) with ((offset + limit - 2 ^ 63) + 1 * 2 ^ 64) by lia.
    rewrite Z.mod_add, Z.mod_small by lia. lia. }
  rewrite E. destruct (Z.ltb_spec (Z.of_nat (length items)) (offset + limit - 2 ^ 64)); [lia|].
  destruct (Z.ltb_spec (offset + limit - 2 ^ 64) offset); [done|lia].
Qed.

(** Consecutive full pages of size [k] enumerate the list. *)
Lemma pages_concat {T} (items : list T) (k n : nat) :
  concat ((fun i => take k (drop (i * k) items)) <$> seq 0 n) = take (n * k) items.
Proof.
  induction n as [|n IH]; [done|].
  rewrite seq_S, fmap_app, concat_app, IH. simpl. rewrite app_nil_r.
  rewrite (Nat.add_comm k (n * k)). by rewrite <- take_take_drop.
Qed.

(** ** Properties *)

(** On 64-bit arguments [pageSlice] returns the requested page and the total
    length, unless [offset+limit] overflows [int]: then, for an offset inside
    the list and a non-negative limit, the slice expression panics. *)
Theorem pageSlice_spec {T} (items : list T) (offset limit : Z) :
  in_i64 offset -> in_i64 limit -> Z.of_nat (length items) < 2 ^ 63 ->
  pageSlice items offset limit =
    if (0 <=? offset) && (offset <? Z.of_nat (length items)) && (0 <=? limit)
       && (2 ^ 63 <=? offset + limit)
    then None
    else Some (page_spec items offset limit, Z.of_nat (length items)).
Proof.
  intros Ho Hl Hlen.
  destruct ((0 <=? offset) && (offset <? Z.of_nat (length items)) && (0 <=? limit)
            && (2 ^ 63 <=? offset + limit)) eqn:E.
  - rewrite !andb_true_iff, !Z.leb_le, Z.ltb_lt in E. apply pageSlice_overflow; lia || done.
  - apply pageSlice_no_overflow; [done..|]. unfold in_i64 in *.
    rewrite !andb_false_iff, !Z.leb_gt, Z.ltb_ge in E. lia.
Qed.

Lemma pageSlice_spec_witness :
  pageSlice [10; 20; 30] 1 (2 ^ 63 - 1) = None /\ pageSlice [10; 20; 30] 1 1 = Some ([20], 3).
Proof.
  split.
  - rewrite (pageSlice_spec [10; 20; 30] 1 (2 ^ 63 - 1)); [reflexivity| | |];
      unfold in_i64; simpl; lia.
  - rewrite (pageSlice_spec [10; 20; 30] 1 1); [reflexivity| | |]; unfold in_i64; simpl; lia.
Defined.

(** A client that walks the pages [0, k, 2k, ...] with a fixed page size
    receives every name exactly once and in order. *)
Theorem pageSlice_walk {T} (items : list T) (k n : nat) :
  (0 < k)%nat -> (length items <= n * k)%nat -> Z.of_nat (n * k) < 2 ^ 63 ->
  exists pages,
    Forall2 (fun i p => pageSlice items (Z.of_nat (i * k)) (Z.of_nat k) = Some (p, Z.of_nat (length items)))
            (seq 0 n) pages
    /\ concat pages = items.
Proof.
  intros Hk Hn Hb. exists ((fun i => take k (drop (i * k) items)) <$> seq 0 n). split.
  - apply Forall2_fmap_r, Forall_Forall2_diag, List.Forall_forall. intros i Hi%List.in_seq.
    assert (S i * k <= n * k)%nat by (apply Nat.mul_le_mono_r; lia).
    rewrite pageSlice_no_overflow; try (unfold in_i64; lia).
    unfold page_spec. destruct (Z.ltb_spec (Z.of_nat k) 0); [lia|]. by rewrite !Nat2Z.id.
  - rewrite pages_concat. by apply take_ge.
Qed.

Lemma pageSlice_walk_witness :
  exists pages : list (list Z), concat pages = [1; 2; 3; 4; 5] /\ length pages = 3%nat.
Proof.
  destruct (pageSlice_walk [1; 2; 3; 4; 5] 2 3) as (pages & H & Hc); simpl; try lia.
  exists pages. split; [exact Hc|]. apply Forall2_length in H. simpl in H. congruence.
Defined.

(** [pageInfos] returns, in page order, the infos of the page's names whose
    lookup succeeded, skipping those reported as not found; any other lookup
    error of the page is returned. *)
Theorem pageInfos_spec {T} (names : list string) (offset limit : Z)
    (fetch : string -> res T) (isNotFound : err -> bool) :
  match pageSlice names offset limit with
  | None => pageInfos names offset limit fetch isNotFound = None
  | Some (page, total) =>
      exists r, pageInfos names offset limit fetch isNotFound = Some (r, total)
      /\ (r = Ok (omap (fetched fetch) page)
          /\ (forall n e, n ∈ page -> fetch n = Er e -> isNotFound e = true)
          \/ exists pre n post e, page = pre ++ n :: post /\ fetch n = Er e /\ isNotFound e = false
             /\ r = Er e /\ (forall n' e', n' ∈ pre -> fetch n' = Er e' -> isNotFound e' = true))
  end.
Proof.
  unfold pageInfos. destruct (pageSlice names offset limit) as [[page total]|]; [|done]. simpl.
  eexists. split; [done|]. clear. induction page as [|n page IH]; simpl.
  { left. split; [done|]. intros ? ? Hin. by apply elem_of_nil in Hin. }
  unfold fetched at 1. destruct (fetch n) as [x|e] eqn:E.
  - destruct IH as [[-> IH] | (pre & n' & post & e & -> & H1 & H2 & -> & H3)].
    + left. split; [done|]. intros m e' [->|Hin]%elem_of_cons; [congruence|eauto].
    + right. exists (n :: pre), n', post, e. repeat split; try done.
      intros m e' [->|Hin]%elem_of_cons; [congruence|eauto].
  - destruct (isNotFound e) eqn:Enf.
    + destruct IH as [[-> IH] | (pre & n' & post & e' & -> & H1 & H2 & -> & H3)].
      * left. split; [done|]. intros m e' [->|Hin]%elem_of_cons; [congruence|eauto].
      * right. exists (n :: pre), n', post, e'. repeat split; try done.
        intros m e'' [->|Hin]%elem_of_cons; [congruence|eauto].
    + right. exists [], n, page, e. repeat split; try done.
      intros m e' Hin. by apply elem_of_nil in Hin.
Qed.
