(* ===== verification/Filter.v ===== *)
(** * Covering filter subjects (consumer_filter.go)

    The resolution of a subscribe subject from a consumer's filters, and its
    meaning: the set of literal subjects a NATS filter matches. *)

From S2P Require Import Prelude GoStr Validate.

(** ** Operations *)

(** The two fields of [natspkg.ConsumerConfig] the resolution reads. *)
Record filter_config := FilterConfig { FilterSubject : string; FilterSubjects : list string }.

(** [minLen]: the least number of tokens, -1 when there is no subject. *)
Definition min_len (tokens : list (list string)) : Z :=
  fold_left (fun m t => if (m <? 0) || (Z.of_nat (length t) <? m) then Z.of_nat (length t) else m)
            tokens (-1).

(** [for i := range minLen]: count the positions on which all token lists agree. *)
Fixpoint common_loop (k i : nat) (t0 : list string) (rest : list (list string)) : nat :=
  match k with
  | O => 0%nat
  | S k' =>
      if forallb (fun t => bool_decide (t !! i = t0 !! i)) rest
      then S (common_loop k' (S i) t0 rest)
      else 0%nat
  end.

Definition commonWildcardSubject (subjects : list string) : string :=
  match subjects with
  | [] => ""
  | _ :: _ =>
      let tokens := split "." <$> subjects in
      let minLen := min_len tokens in
      if minLen <=? 0 then ""
      else
        let t0 := default [] (head tokens) in
        let common := common_loop (Z.to_nat minLen) 0 t0 (tail tokens) in
        if (common =? 0)%nat then ""
        else
          let prefix := join "." (take common t0) in
          let allExact := forallb (fun t => (length t =? common)%nat) tokens in
          if allExact then prefix else prefix +:+ ".>"
  end.

Definition consumerFilterSubjects (subjects : list string) : string :=
  match subjects with
  | [] => ">"
  | [s] => s
  | _ =>
      let wild := commonWildcardSubject subjects in
      if negb (IsEmpty wild) then wild else ">"
  end.

Definition consumerFilterSubject (cfg : filter_config) : string :=
  if negb (IsEmpty (FilterSubject cfg)) then FilterSubject cfg
  else consumerFilterSubjects (FilterSubjects cfg).

(** ** Meaning of a filter: [*] is one token, a final [>] is one or more *)

Fixpoint matches (f s : list string) : bool :=
  match f, s with
  | [], [] => true
  | t :: f', x :: s' =>
      (String.eqb t ">" && bool_decide (f' = []))
      || ((String.eqb t "*" || String.eqb t x) && matches f' s')
  | _, _ => false
  end.

(** Every literal subject matched by [s] is matched by [w]. *)
Definition covers (w s : string) : Prop :=
  forall l, matches (split "." s) l = true -> matches (split "." w) l = true.

(** ** Lemmas *)

Lemma covers_all s : covers ">" s.
Proof. intros [|x l] H; [|done]. pose proof (split_not_nil "." s). by destruct (split "." s) as [|t ts]. Qed.

Lemma min_len_spec tokens :
  tokens <> [] ->
  0 <= min_len tokens /\ Forall (fun t => min_len tokens <= Z.of_nat (length t)) tokens.
Proof.
  unfold min_len. set (f := fun m t => _).
  assert (Hge : forall (l : list (list string)) m, 0 <= m ->
            0 <= fold_left f l m <= m /\ Forall (fun t => fold_left f l m <= Z.of_nat (length t)) l).
  { induction l as [|t l IH]; intros m Hm; simpl; [by split; [lia|]|].
    assert (Hf : 0 <= f m t <= m /\ f m t <= Z.of_nat (length t)).
    { unfold f. destruct (Z.ltb_spec m 0), (Z.ltb_spec (Z.of_nat (length t)) m); simpl; lia. }
    destruct (IH (f m t)) as [H1 H2]; [lia|]. split; [lia|]. constructor; [lia|done]. }
  destruct tokens as [|t l]; [done|]. intros _. cbn [fold_left].
  replace (f (-1) t) with (Z.of_nat (length t)) by done.
  destruct (Hge l (Z.of_nat (length t))) as [H1 H2]; [lia|]. split; [lia|]. constructor; [lia|done].
Qed.

Lemma common_loop_le k i t0 rest : (common_loop k i t0 rest <= k)%nat.
Proof. revert i. induction k; intros i; simpl; [lia|]. case_match; [|lia]. specialize (IHk (S i)). lia. Qed.

Lemma common_loop_agree k i t0 rest j t :
  t ∈ rest -> (j < common_loop k i t0 rest)%nat -> t !! (i + j)%nat = t0 !! (i + j)%nat.
Proof.
  intros Ht. revert i j. induction k as [|k IH]; intros i j; simpl; [lia|].
  destruct (forallb _ rest) eqn:E; [|lia]. intros Hj. destruct j as [|j].
  - rewrite Nat.add_0_r. rewrite forallb_forall in E. apply list_elem_of_In in Ht.
    specialize (E t Ht). by apply bool_decide_eq_true in E.
  - rewrite <- Nat.add_succ_comm. apply IH. lia.
Qed.

Lemma common_loop_take k t0 rest t :
  t ∈ t0 :: rest -> take (common_loop k 0 t0 rest) t = take (common_loop k 0 t0 rest) t0.
Proof.
  intros [->|Ht]%elem_of_cons; [done|]. apply list_eq. intros j.
  destruct (decide (j < common_loop k 0 t0 rest)%nat) as [H|H].
  - rewrite !lookup_take_lt by done. by apply (common_loop_agree k 0 t0 rest j t).
  - rewrite !lookup_take_ge by lia. done.
Qed.

(** Matching through a prefix free of the tail wildcard. *)
Lemma matches_prefix p r l :
  Forall (fun t => t <> ">") p -> r <> [] -> matches (p ++ r) l = true ->
  matches (p ++ [">"]) l = true.
Proof.
  intros Hp Hr. revert l. induction Hp as [|t p Ht Hp IH]; intros [|x l]; simpl; try done.
  - by destruct r.
  - apply String.eqb_neq in Ht. rewrite Ht. simpl. rewrite !andb_true_iff. intros [? ?]. auto.
Qed.

(** In a valid subject the tail wildcard is the last token only. *)
Lemma tokens_ok_prefix_no_gt allow p r :
  r <> [] -> tokens_ok allow (p ++ r) = true -> Forall (fun t => t <> ">") p.
Proof.
  intros Hr. induction p as [|t p IH]; [done|]. simpl app.
  rewrite tokens_ok_cons by (by destruct p). rewrite !andb_true_iff, negb_true_iff.
  intros [[_ Hne] H]. constructor; [by apply String.eqb_neq|auto].
Qed.

Lemma split_prefix_wild p :
  p <> [] -> Forall (fun t => contains_char "." t = false) p ->
  split "." (join "." p +:+ ".>") = p ++ [">"].
Proof.
  intros Hp Hd. change ".>" with (String "." ">"). rewrite split_join_app, split_join by done. done.
Qed.

Lemma Forall_take {A} (P : A -> Prop) n l : Forall P l -> Forall P (take n l).
Proof. intros H. revert n. induction H; intros [|n]; simpl; constructor; auto. Qed.

Lemma wildcard_covers subjects s w :
  w = commonWildcardSubject subjects -> w <> "" ->
  Forall (fun s => ValidateSubject s = None) subjects -> s ∈ subjects ->
  (forall s', s' ∈ subjects -> w <> s' +:+ ".>") ->
  covers w s.
Proof.
  intros Hw Hne Hvalid Hs Hpre. unfold commonWildcardSubject in Hw.
  destruct subjects as [|s0 rest]; [by apply elem_of_nil in Hs|].
  change (split "." <$> s0 :: rest) with (split "." s0 :: (split "." <$> rest)) in Hw.
  cbn [head tail default from_option] in Hw. unfold id in Hw.
  set (tokens := split "." s0 :: (split "." <$> rest)) in *.
  destruct (min_len_spec tokens) as [Hm Hlen]; [done|].
  destruct (Z.leb_spec (min_len tokens) 0); [done|].
  set (common := common_loop (Z.to_nat (min_len tokens)) 0 (split "." s0) (split "." <$> rest)) in *.
  assert (Hcm : (Z.of_nat common <= min_len tokens)).
  { pose proof (common_loop_le (Z.to_nat (min_len tokens)) 0 (split "." s0) (split "." <$> rest)) as Hle.
    fold common in Hle. lia. }
  assert (Hst : split "." s ∈ tokens).
  { unfold tokens. change (split "." s0 :: (split "." <$> rest)) with (split "." <$> s0 :: rest).
    by apply list_elem_of_fmap_2. }
  assert (Htake : take common (split "." s) = take common (split "." s0)).
  { unfold common. apply common_loop_take. exact Hst. }
  assert (Hl : (common <= length (split "." s))%nat).
  { pose proof (Forall_elem _ _ _ Hlen Hst) as Hle. simpl in Hle. lia. }
  destruct (Nat.eqb_spec common 0); [done|].
  assert (Hpd : Forall (fun t => contains_char "." t = false) (take common (split "." s0)))
    by apply Forall_take, split_tokens_no_sep.
  assert (Hpn : take common (split "." s0) <> []).
  { rewrite <- Htake. destruct (split "." s), common; simpl in *; try done; lia. }
  destruct (forallb _ tokens) eqn:Eex.
  - (* all subjects are the prefix itself *)
    pose proof (forallb_elem _ _ _ Eex Hst) as Eq. apply Nat.eqb_eq in Eq. rewrite take_ge in Htake by lia.
    unfold covers. subst w. rewrite split_join by done. by rewrite Htake.
  - destruct (decide (length (split "." s) = common)) as [E|E].
    + exfalso. apply (Hpre s Hs). rewrite take_ge in Htake by lia.
      rewrite Hw, <- Htake. by rewrite (join_split "." s).
    + unfold covers. intros l Hmatch. rewrite Hw, split_prefix_wild by done. rewrite <- Htake.
      rewrite <- (take_drop common (split "." s)) in Hmatch.
      assert (Hdrop : drop common (split "." s) <> []).
      { intros Hnil. apply (f_equal length) in Hnil. rewrite length_drop in Hnil. simpl in Hnil. lia. }
      eapply matches_prefix; [|exact Hdrop|exact Hmatch].
      pose proof (Forall_elem _ _ _ Hvalid Hs) as Hv. apply ValidateSubject_None in Hv.
      unfold valid_subject in Hv. rewrite !andb_true_iff in Hv. destruct Hv as [_ Hv].
      rewrite <- (take_drop common (split "." s)) in Hv. by apply tokens_ok_prefix_no_gt in Hv.
Qed.

(** ** Properties *)

(** The subscribe subject derived from several valid filters covers each of
    them (every subject a filter matches, it matches), provided no filter is
    itself the shared token prefix the wildcard was built from. *)
Theorem consumerFilterSubjects_covers (subjects : list string) (s : string) :
  Forall (fun s => ValidateSubject s = None) subjects -> s ∈ subjects ->
  (forall s', s' ∈ subjects -> consumerFilterSubjects subjects <> s' +:+ ".>") ->
  covers (consumerFilterSubjects subjects) s.
Proof.
  intros Hv Hs Hp. destruct subjects as [|s0 [|s1 rest]]; [by apply elem_of_nil in Hs| |].
  - apply list_elem_of_singleton in Hs as ->. unfold covers. auto.
  - unfold consumerFilterSubjects in *.
    destruct (IsEmpty (commonWildcardSubject (s0 :: s1 :: rest))) eqn:E; cbn [negb] in *;
      [apply covers_all|].
    eapply wildcard_covers; try done. by apply IsEmpty_false.
Qed.

Lemma consumerFilterSubjects_covers_witness :
  consumerFilterSubjects ["orders.created"; "orders.*.paid"] = "orders.>"
  /\ covers "orders.>" "orders.*.paid".
Proof.
  split; [reflexivity|].
  apply (consumerFilterSubjects_covers ["orders.created"; "orders.*.paid"] "orders.*.paid").
  - repeat constructor.
  - apply list_elem_of_In. simpl. tauto.
  - intros s' Hs'. apply list_elem_of_In in Hs'. simpl in Hs'.
    destruct Hs' as [<-|[<-|[]]]; vm_compute; congruence.
Defined.

(** When one filter is the token prefix of another the derived wildcard
    does not cover it: [{"orders", "orders.created"}] yields ["orders.>"],
    which does not match the literal subject ["orders"]. *)
Theorem prefix_filter_not_covered :
  consumerFilterSubject (FilterConfig "" ["orders"; "orders.created"]) = "orders.>"
  /\ matches (split "." "orders") ["orders"] = true
  /\ ~ covers "orders.>" "orders".
Proof.
  split; [reflexivity|]. split; [reflexivity|]. intros H. specialize (H ["orders"] eq_refl).
  vm_compute in H. discriminate.
Qed.
