(* ===== verification/WorkerPool.v ===== *)
(** * The worker pool (workerpool/workerpool.go)

    The pool is shared by goroutines, so it is modelled as a state with one
    program counter per goroutine and an executable [step] function: a label
    says which goroutine moves and, where the code has a [select], which ready
    case it takes.  Every atomic read-modify-write, channel operation and
    critical section of the code is one step; [signalDrain]'s
    lock-broadcast-unlock is one step that needs the mutex free.

    Tasks are identified by a number: the sync.Pool recycling of [*task]
    objects and the texts of logs are not modelled, and the handler is an
    activity of unknown duration that ends ([processMessage] recovers panics).
    A non-blocking receive may take its [default] case whenever the buffer is
    empty. [accepted] and [processed] are history variables. *)

From Stdlib Require Import ZifyBool.
From S2P Require Import Prelude.

(** ** State *)

Definition stateRunning : Z := 1.
Definition stateDraining : Z := 2.
Definition stateStopped : Z := 3.

Definition ErrPoolStopped : string := "workerpool.ErrPoolStopped".

(** Where [process] returns to: [runner]'s select, [drain]'s first receive, or
    the receive inside the wait loop. *)
Inductive ret := RRun | RDrain | RWait.

Inductive wpc :=
  | WRun                          (* runner: select on input / ctx.Done *)
  | WDec (t : nat) (r : ret)      (* process: depth.Add(-1) *)
  | WInc (t : nat) (r : ret)      (* process: inFlight.Add(1) *)
  | WSig1 (t : nat) (r : ret)     (* process: first signalDrain *)
  | WHandle (t : nat) (r : ret)   (* the handler runs *)
  | WFin (r : ret)                (* process: inFlight.Add(-1) *)
  | WSig2 (r : ret)               (* process: last signalDrain *)
  | D0                            (* drain: non-blocking receive *)
  | D1 | D2 | D3                  (* drain: read publishers, depth, inFlight *)
  | DLock                         (* drain: mu.Lock (also after cond.Wait) *)
  | C1 | C2 | C3                  (* wait-loop condition: the three reads *)
  | WR                            (* wait loop: non-blocking receive *)
  | E1 | E2 | E3                  (* wait loop: re-check before cond.Wait *)
  | EPark                         (* cond.Wait called, mutex still held *)
  | WPark                         (* parked in cond.Wait *)
  | WExit.                        (* wg.Done *)

(** Outcome of [tryPublish]: the pair [(accepted, err)]. *)
Inductive pres := Accepted | NotAccepted | StoppedErr | CtxErr | PoolCtxErr.

Inductive ppc :=
  | PEnter                        (* publishers.Add(1) *)
  | PGate                         (* state.Load *)
  | PAdd                          (* fill the task, depth.Add(1) *)
  | PSend                         (* the send select *)
  | PSigA                         (* signalDrain after a send *)
  | PRollback (r : pres)          (* rollback: depth.Add(-1) *)
  | PState                        (* state re-read after ctx.Done *)
  | PLeave (r : pres)             (* deferred publishers.Add(-1) *)
  | PSigB (r : pres)              (* deferred signalDrain *)
  | PDone (r : pres).

Record pub := Pub { ptask : nat; nonBlocking : bool; pp : ppc }.

Inductive spc :=
  | SCas | SCancel | SSig | SWg | SStore | SClose | SAwait | SDone.

Record pool := Pool {
  st : Z; cancelled : bool; closed : bool;
  bufCap : nat; plen : nat; queue : list nat;
  depth : Z; inFlight : Z; publishers : Z;
  mu : option nat;
  workers : list wpc; pubs : list pub; stops : list spc;
  accepted : list nat; processed : list nat
}.

(** ** Field updates *)

Definition set_w (i : nat) (pc : wpc) (s : pool) : pool :=
  Pool (st s) (cancelled s) (closed s) (bufCap s) (plen s) (queue s) (depth s) (inFlight s)
       (publishers s) (mu s) (<[i := pc]> (workers s)) (pubs s) (stops s) (accepted s) (processed s).
Definition set_p (j : nat) (p : pub) (pc : ppc) (s : pool) : pool :=
  Pool (st s) (cancelled s) (closed s) (bufCap s) (plen s) (queue s) (depth s) (inFlight s)
       (publishers s) (mu s) (workers s) (<[j := Pub (ptask p) (nonBlocking p) pc]> (pubs s))
       (stops s) (accepted s) (processed s).
Definition set_s (k : nat) (pc : spc) (s : pool) : pool :=
  Pool (st s) (cancelled s) (closed s) (bufCap s) (plen s) (queue s) (depth s) (inFlight s)
       (publishers s) (mu s) (workers s) (pubs s) (<[k := pc]> (stops s)) (accepted s) (processed s).
Definition set_queue (q : list nat) (s : pool) : pool :=
  Pool (st s) (cancelled s) (closed s) (bufCap s) (plen s) q (depth s) (inFlight s)
       (publishers s) (mu s) (workers s) (pubs s) (stops s) (accepted s) (processed s).
Definition add_depth (d : Z) (s : pool) : pool :=
  Pool (st s) (cancelled s) (closed s) (bufCap s) (plen s) (queue s) (depth s + d) (inFlight s)
       (publishers s) (mu s) (workers s) (pubs s) (stops s) (accepted s) (processed s).
Definition add_inFlight (d : Z) (s : pool) : pool :=
  Pool (st s) (cancelled s) (closed s) (bufCap s) (plen s) (queue s) (depth s) (inFlight s + d)
       (publishers s) (mu s) (workers s) (pubs s) (stops s) (accepted s) (processed s).
Definition add_publishers (d : Z) (s : pool) : pool :=
  Pool (st s) (cancelled s) (closed s) (bufCap s) (plen s) (queue s) (depth s) (inFlight s)
       (publishers s + d) (mu s) (workers s) (pubs s) (stops s) (accepted s) (processed s).
Definition set_mu (m : option nat) (s : pool) : pool :=
  Pool (st s) (cancelled s) (closed s) (bufCap s) (plen s) (queue s) (depth s) (inFlight s)
       (publishers s) m (workers s) (pubs s) (stops s) (accepted s) (processed s).
Definition set_st (x : Z) (s : pool) : pool :=
  Pool x (cancelled s) (closed s) (bufCap s) (plen s) (queue s) (depth s) (inFlight s)
       (publishers s) (mu s) (workers s) (pubs s) (stops s) (accepted s) (processed s).
Definition set_cancelled (s : pool) : pool :=
  Pool (st s) true (closed s) (bufCap s) (plen s) (queue s) (depth s) (inFlight s)
       (publishers s) (mu s) (workers s) (pubs s) (stops s) (accepted s) (processed s).
Definition set_closed (s : pool) : pool :=
  Pool (st s) (cancelled s) true (bufCap s) (plen s) (queue s) (depth s) (inFlight s)
       (publishers s) (mu s) (workers s) (pubs s) (stops s) (accepted s) (processed s).
Definition log_accepted (t : nat) (s : pool) : pool :=
  Pool (st s) (cancelled s) (closed s) (bufCap s) (plen s) (queue s) (depth s) (inFlight s)
       (publishers s) (mu s) (workers s) (pubs s) (stops s) (t :: accepted s) (processed s).
Definition log_processed (t : nat) (s : pool) : pool :=
  Pool (st s) (cancelled s) (closed s) (bufCap s) (plen s) (queue s) (depth s) (inFlight s)
       (publishers s) (mu s) (workers s) (pubs s) (stops s) (accepted s) (t :: processed s).
Definition spawn_p (p : pub) (s : pool) : pool :=
  Pool (st s) (cancelled s) (closed s) (bufCap s) (plen s) (queue s) (depth s) (inFlight s)
       (publishers s) (mu s) (workers s) (pubs s ++ [p]) (stops s) (accepted s) (processed s).
Definition spawn_s (s : pool) : pool :=
  Pool (st s) (cancelled s) (closed s) (bufCap s) (plen s) (queue s) (depth s) (inFlight s)
       (publishers s) (mu s) (workers s) (pubs s) (stops s ++ [SCas]) (accepted s) (processed s).

(** ** Operations *)

Definition New (workerPoolLen messageBufLen : Z) : pool :=
  Pool stateRunning false false
       (Z.to_nat (if messageBufLen <? 0 then 0 else messageBufLen))
       (Z.to_nat (if workerPoolLen <? 1 then 1 else workerPoolLen))
       [] 0 0 0 None [] [] [] [] [].

(** [for range w.len { w.wg.Add(1); go w.runner() }] *)
Definition Consume (s : pool) : pool :=
  Pool (st s) (cancelled s) (closed s) (bufCap s) (plen s) (queue s) (depth s) (inFlight s)
       (publishers s) (mu s) (workers s ++ replicate (plen s) WRun) (pubs s) (stops s)
       (accepted s) (processed s).

Definition wake (w : wpc) : wpc := match w with WPark => DLock | _ => w end.

(** [signalDrain]: broadcast under the mutex; [None] while the mutex is held. *)
Definition signalDrain (s : pool) : option pool :=
  match mu s with
  | None => Some (Pool (st s) (cancelled s) (closed s) (bufCap s) (plen s) (queue s) (depth s)
                       (inFlight s) (publishers s) (mu s) (wake <$> workers s) (pubs s) (stops s)
                       (accepted s) (processed s))
  | Some _ => None
  end.

Inductive wchoice := WcStep | WcRecv | WcCtx.
Inductive pchoice := PcStep | PcSend | PcDefault | PcCtx | PcPool.

Inductive label :=
  | LW (i : nat) (c : wchoice)
  | LP (j : nat) (c : pchoice)
  | LHand (j i : nat)              (* a send met directly by a receiving worker *)
  | LS (k : nat)
  | LSpawnP (t : nat) (nb : bool)  (* a new Publish / TryPublish / TryPublishNonBlocking call *)
  | LSpawnS                        (* a new GracefulStop call *)
  | LCancel.                       (* the context passed to New is cancelled by its owner *)

Definition return_pc (r : ret) : wpc :=
  match r with RRun => WRun | RDrain => D0 | RWait => DLock end.

(** Receive the head of the buffer into [process]. *)
Definition recv (i : nat) (r : ret) (s : pool) : option pool :=
  match queue s with
  | t :: q => Some (set_w i (WDec t r) (set_queue q s))
  | [] => None
  end.

(** The default case of a non-blocking receive. *)
Definition recv_default (i : nat) (next : wpc) (s : pool) : option pool :=
  match queue s with [] => Some (set_w i next s) | _ => None end.

Definition branch (z : Z) (i : nat) (nonzero zero : wpc) (s : pool) : pool :=
  set_w i (if z =? 0 then zero else nonzero) s.

(** One step of worker [i] at [w]: [runner], [drain] and [process]. *)
Definition worker_step (i : nat) (w : wpc) (c : wchoice) (s : pool) : option pool :=
  match w, c with
  | WRun, WcRecv => recv i RRun s
  | WRun, WcCtx => if cancelled s then Some (set_w i D0 s) else None
  | WDec t r, WcStep => Some (set_w i (WInc t r) (add_depth (-1) s))
  | WInc t r, WcStep => Some (set_w i (WSig1 t r) (add_inFlight 1 s))
  | WSig1 t r, WcStep => s' ← signalDrain s; Some (set_w i (WHandle t r) s')
  | WHandle t r, WcStep => Some (set_w i (WFin r) (log_processed t s))
  | WFin r, WcStep => Some (set_w i (WSig2 r) (add_inFlight (-1) s))
  | WSig2 r, WcStep => s' ← signalDrain s; Some (set_w i (return_pc r) s')
  | D0, WcRecv => recv i RDrain s
  | D0, WcStep => recv_default i D1 s
  | D1, WcStep => Some (branch (publishers s) i DLock D2 s)
  | D2, WcStep => Some (branch (depth s) i DLock D3 s)
  | D3, WcStep => Some (branch (inFlight s) i DLock WExit s)
  | DLock, WcStep =>
      match mu s with None => Some (set_w i C1 (set_mu (Some i) s)) | Some _ => None end
  | C1, WcStep => Some (branch (publishers s) i WR C2 s)
  | C2, WcStep => Some (branch (depth s) i WR C3 s)
  | C3, WcStep =>
      Some (if inFlight s =? 0 then set_w i D0 (set_mu None s) else set_w i WR s)
  | WR, WcRecv => s' ← recv i RWait s; Some (set_mu None s')
  | WR, WcStep => recv_default i E1 s
  | E1, WcStep => Some (branch (publishers s) i EPark E2 s)
  | E2, WcStep => Some (branch (depth s) i EPark E3 s)
  | E3, WcStep =>
      Some (if inFlight s =? 0 then set_w i D0 (set_mu None s) else set_w i EPark s)
  | EPark, WcStep => Some (set_w i WPark (set_mu None s))
  | _, _ => None
  end.

(** One step of a [tryPublish] call. *)
Definition publish_step (j : nat) (p : pub) (c : pchoice) (s : pool) : option pool :=
  match pp p, c with
  | PEnter, PcStep => Some (set_p j p PGate (add_publishers 1 s))
  | PGate, PcStep =>
      Some (set_p j p (if st s =? stateRunning then PAdd else PLeave StoppedErr) s)
  | PAdd, PcStep => Some (set_p j p PSend (add_depth 1 s))
  | PSend, PcSend =>
      if (length (queue s) <? bufCap s)%nat
      then Some (set_p j p PSigA (log_accepted (ptask p) (set_queue (queue s ++ [ptask p]) s)))
      else None
  | PSend, PcDefault =>
      if nonBlocking p && negb (length (queue s) <? bufCap s)%nat
      then Some (set_p j p (PRollback NotAccepted) s) else None
  | PSend, PcCtx => if nonBlocking p then None else Some (set_p j p (PRollback CtxErr) s)
  | PSend, PcPool =>
      if negb (nonBlocking p) && cancelled s then Some (set_p j p (PRollback PoolCtxErr) s) else None
  | PSigA, PcStep => s' ← signalDrain s; Some (set_p j p (PLeave Accepted) s')
  | PRollback r, PcStep =>
      Some (set_p j p (match r with PoolCtxErr => PState | _ => PLeave r end) (add_depth (-1) s))
  | PState, PcStep =>
      Some (set_p j p (PLeave (if st s =? stateRunning then PoolCtxErr else StoppedErr)) s)
  | PLeave r, PcStep => Some (set_p j p (PSigB r) (add_publishers (-1) s))
  | PSigB r, PcStep => s' ← signalDrain s; Some (set_p j p (PDone r) s')
  | _, _ => None
  end.

(** A send and a receive that meet without going through the buffer. *)
Definition handoff (j : nat) (p : pub) (i : nat) (w : wpc) (s : pool) : option pool :=
  match pp p, queue s with
  | PSend, [] =>
      let sent := set_p j p PSigA (log_accepted (ptask p) s) in
      match w with
      | WRun => Some (set_w i (WDec (ptask p) RRun) sent)
      | D0 => Some (set_w i (WDec (ptask p) RDrain) sent)
      | WR => Some (set_mu None (set_w i (WDec (ptask p) RWait) sent))
      | _ => None
      end
  | _, _ => None
  end.

Definition is_exit (w : wpc) : bool := match w with WExit => true | _ => false end.

(** One step of a [GracefulStop] call. *)
Definition stop_step (k : nat) (pc : spc) (s : pool) : option pool :=
  match pc with
  | SCas => Some (if st s =? stateRunning then set_s k SCancel (set_st stateDraining s)
                  else set_s k SAwait s)
  | SCancel => Some (set_s k SSig (set_cancelled s))
  | SSig => s' ← signalDrain s; Some (set_s k SWg s')
  | SWg => if forallb is_exit (workers s) then Some (set_s k SStore s) else None
  | SStore => Some (set_s k SClose (set_st stateStopped s))
  | SClose => Some (set_s k SDone (set_closed s))
  | SAwait => if closed s then Some (set_s k SDone s) else None
  | SDone => None
  end.

Definition step (l : label) (s : pool) : option pool :=
  match l with
  | LW i c => w ← workers s !! i; worker_step i w c s
  | LP j c => p ← pubs s !! j; publish_step j p c s
  | LHand j i => p ← pubs s !! j; w ← workers s !! i; handoff j p i w s
  | LS k => pc ← stops s !! k; stop_step k pc s
  | LSpawnP t nb => Some (spawn_p (Pub t nb PEnter) s)
  | LSpawnS => Some (spawn_s s)
  | LCancel => Some (set_cancelled s)
  end.

(** Run a sequence of labels. *)
Fixpoint run (ls : list label) (s : pool) : option pool :=
  match ls with
  | [] => Some s
  | l :: ls' => s' ← step l s; run ls' s'
  end.

Definition QueueDepth (s : pool) : Z := depth s.

Record PoolStats := Stats { sDepth : Z; sWorkers : Z; sState : Z }.
Definition poolStats (s : pool) : PoolStats := Stats (QueueDepth s) (Z.of_nat (plen s)) (st s).

(** States reachable from a freshly started pool; [parent] says whether the
    owner of the context passed to [New] may cancel it. *)
Inductive reachable (parent : bool) (wl bl : Z) : pool -> Prop :=
  | reach_init : reachable parent wl bl (Consume (New wl bl))
  | reach_step l s s' :
      reachable parent wl bl s -> (l = LCancel -> parent = true) -> step l s = Some s' ->
      reachable parent wl bl s'.

(** ** Classification of program counters *)

Definition w_dec (w : wpc) : bool := match w with WDec _ _ => true | _ => false end.
Definition w_inflight (w : wpc) : bool :=
  match w with WSig1 _ _ | WHandle _ _ | WFin _ => true | _ => false end.
(** The worker holds task [t], not yet handled. *)
Definition w_holds (t : nat) (w : wpc) : bool :=
  match w with
  | WDec t' _ | WInc t' _ | WSig1 t' _ | WHandle t' _ => (t =? t')%nat
  | _ => false
  end.
(** Inside [process]: the worker will still call [signalDrain]. *)
Definition w_active (w : wpc) : bool :=
  match w with
  | WDec _ _ | WInc _ _ | WSig1 _ _ | WHandle _ _ | WFin _ | WSig2 _ => true
  | _ => false
  end.
(** The worker holds the mutex. *)
Definition w_locked (w : wpc) : bool :=
  match w with C1 | C2 | C3 | WR | E1 | E2 | E3 | EPark => true | _ => false end.
Definition w_parking (w : wpc) : bool := match w with EPark | WPark => true | _ => false end.
Definition ret_drain (r : ret) : bool := match r with RRun => false | _ => true end.
(** The worker has left [runner]'s loop (it saw the context cancelled). *)
Definition w_draining (w : wpc) : bool :=
  match w with
  | WRun => false
  | WDec _ r | WInc _ r | WSig1 _ r | WHandle _ r | WFin r | WSig2 r => ret_drain r
  | _ => true
  end.
(** Past the read [publishers == 0], resp. also past [depth == 0]. *)
Definition w_quiet (w : wpc) : bool := match w with D2 | D3 | WExit => true | _ => false end.
Definition w_empty (w : wpc) : bool := match w with D3 | WExit => true | _ => false end.

Definition p_depth (p : pub) : bool := match pp p with PSend | PRollback _ => true | _ => false end.
Definition p_in (p : pub) : bool :=
  match pp p with PEnter | PSigB _ | PDone _ => false | _ => true end.
(** Past the state gate, with a send or a rollback still to come. *)
Definition p_gate (p : pub) : bool :=
  match pp p with PAdd | PSend | PRollback _ => true | _ => false end.
Definition p_active (p : pub) : bool := match pp p with PEnter | PDone _ => false | _ => true end.
Definition p_sent (p : pub) : bool := match pp p with PSigA => true | _ => false end.

(** Asleep in [cond.Wait], or on the way there after an empty receive. *)
Definition w_sleepy (w : wpc) : bool :=
  match w with E1 | E2 | E3 | EPark | WPark => true | _ => false end.
Definition s_past_wg (pc : spc) : bool := match pc with SStore | SClose => true | _ => false end.

(** ** Counting lemmas for one step *)

Lemma cnt_wake p (ws : list wpc) : p WPark = p DLock -> cnt p (wake <$> ws) = cnt p ws.
Proof. intros H. rewrite cnt_fmap. apply cnt_ext. intros []; done. Qed.

Lemma lookup_wake (ws : list wpc) (i : nat) x : ws !! i = Some x -> wake x = x -> (wake <$> ws) !! i = Some x.
Proof. intros H E. rewrite list_lookup_fmap, H. simpl. by rewrite E. Qed.

Lemma cnt_insert_wake p (ws : list wpc) (i : nat) x y :
  ws !! i = Some x -> wake x = x ->
  cnt p (<[i := y]> (wake <$> ws)) = cnt p (wake <$> ws) - Z.b2z (p x) + Z.b2z (p y).
Proof. intros Hx Hw. apply cnt_insert. by apply lookup_wake. Qed.

(** Split [step l s = Some s'] into one goal per transition of the code. *)
Ltac step_cases H :=
  unfold step, worker_step, publish_step, handoff, stop_step, recv, recv_default, branch,
    signalDrain in H;
  repeat (cbv beta zeta in H;
          lazymatch type of H with
          | mbind _ _ = Some _ => apply bind_Some in H as (? & ? & H)
          | (match ?x with _ => _ end) = Some _ => destruct x eqn:?; try discriminate H
          | Some ?x = Some _ =>
              lazymatch x with
              | context [if ?b then _ else _] => destruct b eqn:?
              | context [match ?r with PoolCtxErr => _ | _ => _ end] => destruct r
              | _ => injection H as <-
              end
          | None = Some _ => discriminate H
          end);
  repeat match goal with
    | Hx : (match ?x with _ => _ end) = Some _ |- _ => destruct x eqn:?; simplify_eq/=
    end.

(** Reduce the field updates, and the publishers to their components. *)
Ltac pool_simpl :=
  repeat match goal with
    | H : pubs _ !! _ = Some ?p |- _ => is_var p; destruct p; simplify_eq/=
    | H : queue ?s = _ |- context [queue ?s] => rewrite H
    | |- context [return_pc ?r] => destruct r; cbn [return_pc]
    end;
  cbn [workers pubs queue depth inFlight publishers mu st cancelled closed stops bufCap plen
       accepted processed set_w set_p set_s set_queue add_depth add_inFlight add_publishers set_mu
       set_st set_cancelled set_closed log_accepted log_processed spawn_p spawn_s ptask nonBlocking];
  repeat match goal with H : queue ?s = _ |- context [queue ?s] => rewrite H end.

(** Rewrite the counts of an updated list of program counters. *)
Ltac count_step :=
  repeat match goal with
    | H : ?l !! ?i = Some ?x |- context [cnt ?p (<[?i := ?y]> (wake <$> ?l))] =>
        rewrite (cnt_insert_wake p l i x y) by done
    | H : ?l !! ?i = Some ?x |- context [cnt ?p (<[?i := ?y]> ?l)] =>
        rewrite (cnt_insert p l i x y H)
    | |- context [cnt ?p (wake <$> ?l)] => rewrite (cnt_wake p l) by done
    end;
  rewrite ?cnt_app, ?cnt_cons, ?cnt_nil, ?length_app, ?length_cons.

(** ** Invariant: the counters count what they claim to count *)

Record counters_ok (s : pool) : Prop := {
  c_depth : depth s = Z.of_nat (length (queue s)) + cnt p_depth (pubs s) + cnt w_dec (workers s);
  c_inFlight : inFlight s = cnt w_inflight (workers s);
  c_publishers : publishers s = cnt p_in (pubs s);
  c_tasks : forall t, cnt (Nat.eqb t) (accepted s) =
      cnt (Nat.eqb t) (processed s) + cnt (Nat.eqb t) (queue s) + cnt (w_holds t) (workers s)
}.

Lemma counters_step l s s' : counters_ok s -> step l s = Some s' -> counters_ok s'.
Proof.
  intros [H1 H2 H3 H4] Hs. destruct l; step_cases Hs; simplify_eq/=.
  all: constructor; [..|intros tk; specialize (H4 tk)]; pool_simpl; count_step;
    repeat match goal with Hq : queue ?s0 = _, H4 : context [queue ?s0] |- _ => rewrite Hq in H4 end;
    rewrite ?cnt_cons, ?cnt_nil in *; simpl in *; try lia.
Qed.

Lemma counters_init wl bl : counters_ok (Consume (New wl bl)).
Proof.
  constructor; [..|intros t]; cbn [Consume New depth inFlight publishers queue pubs workers accepted
    processed app]; rewrite ?cnt_nil, ?cnt_replicate_false; done.
Qed.

Lemma reachable_counters b wl bl s : reachable b wl bl s -> counters_ok s.
Proof. induction 1; eauto using counters_init, counters_step. Qed.

(** ** Invariant of a pool whose parent context is not cancelled *)

Definition not_exit (w : wpc) : bool := negb (is_exit w).
Definition s_final (pc : spc) : bool := match pc with SClose | SDone => true | _ => false end.
Definition s_cancel (pc : spc) : bool := match pc with SCancel => true | _ => false end.

Record drain_ok (s : pool) : Prop := {
  d_cancel : cancelled s = true -> st s <> stateRunning;
  d_scancel : 0 < cnt s_cancel (stops s) -> st s <> stateRunning;
  d_draining : 0 < cnt w_draining (workers s) -> cancelled s = true;
  d_quiet : 0 < cnt w_quiet (workers s) -> cnt p_gate (pubs s) = 0;
  d_empty : 0 < cnt w_empty (workers s) -> length (queue s) = 0%nat;
  d_wg : 0 < cnt s_past_wg (stops s) -> cnt not_exit (workers s) = 0;
  d_stopped : st s = stateStopped -> cnt not_exit (workers s) = 0;
  d_closed : closed s = true -> st s = stateStopped;
  d_done : 0 < cnt s_final (stops s) -> st s = stateStopped
}.

(** Facts about the counts of the old state that every case may need. *)
Ltac count_facts s :=
  pose proof (cnt_le p_gate p_in (pubs s) ltac:(intros [? ? []]; done));
  pose proof (cnt_le w_empty w_quiet (workers s) ltac:(intros []; done));
  pose proof (cnt_le w_quiet w_draining (workers s) ltac:(intros []; done));
  pose proof (cnt_nonneg w_empty (workers s));
  pose proof (cnt_nonneg p_gate (pubs s)); pose proof (cnt_nonneg p_depth (pubs s));
  pose proof (cnt_nonneg w_dec (workers s)); pose proof (cnt_nonneg s_past_wg (stops s));
  pose proof (cnt_nonneg s_cancel (stops s)); pose proof (cnt_nonneg not_exit (workers s)).

Ltac lookup_pos p :=
  try match goal with
    | H : ?l !! ?i = Some ?x |- _ => pose proof (cnt_pos p l i x H eq_refl)
    end.

Lemma all_exit_cnt (ws : list wpc) : forallb is_exit ws = true -> cnt not_exit ws = 0.
Proof.
  intros H. apply cnt_all_false. intros w Hw. unfold not_exit. by rewrite (forallb_elem _ _ _ H Hw).
Qed.

Ltac pub_cases :=
  repeat match goal with H : pubs _ !! _ = Some ?p |- _ => is_var p; destruct p; simplify_eq/= end.

Lemma drain_step l s s' :
  l <> LCancel -> counters_ok s -> drain_ok s -> step l s = Some s' -> drain_ok s'.
Proof.
  intros Hl [H1 _ H3 _] [A1 A2 A3 A4 A5 A6 A7 A8 A9] Hs. count_facts s.
  destruct l; step_cases Hs; simplify_eq/=; pub_cases; unfold stateRunning, stateStopped in *.
  all: lookup_pos p_gate; lookup_pos not_exit; lookup_pos w_draining; lookup_pos s_past_wg; lookup_pos s_cancel; lookup_pos s_final.
  all: constructor; pool_simpl; unfold stateRunning, stateStopped, stateDraining; count_step; simpl in *; try lia.
  intros _. by apply all_exit_cnt.
Qed.

(** A parent context cancelled after the stop began changes nothing. *)
Lemma drain_cancel s : st s <> stateRunning -> drain_ok s -> drain_ok (set_cancelled s).
Proof. intros Hst []. by constructor. Qed.

Lemma drain_init wl bl : drain_ok (Consume (New wl bl)).
Proof.
  constructor; cbn [Consume New workers pubs queue stops st cancelled app];
    rewrite ?cnt_nil, ?cnt_replicate_false by done; done.
Qed.

Lemma reachable_drain wl bl s : reachable false wl bl s -> drain_ok s.
Proof.
  induction 1 as [|l s s' Hr IH Hl Hs]; [apply drain_init|].
  eapply drain_step; eauto using reachable_counters. intros ->. discriminate (Hl eq_refl).
Qed.

(** Once a stopper has seen the wait group empty every worker has exited, also
    when the parent context was cancelled. *)
Record exit_ok (s : pool) : Prop := {
  x_wg : 0 < cnt s_past_wg (stops s) -> cnt not_exit (workers s) = 0;
  x_final : 0 < cnt s_final (stops s) -> cnt not_exit (workers s) = 0;
  x_closed : closed s = true -> cnt not_exit (workers s) = 0;
  x_stopped : st s = stateStopped -> cnt not_exit (workers s) = 0
}.

Lemma exit_step l s s' : exit_ok s -> step l s = Some s' -> exit_ok s'.
Proof.
  intros [A1 A2 A3 A4] Hs. count_facts s. pose proof (cnt_nonneg s_final (stops s)).
  destruct l; step_cases Hs; simplify_eq/=; pub_cases; unfold stateRunning, stateStopped in *.
  all: lookup_pos not_exit; lookup_pos s_past_wg; lookup_pos s_final.
  all: constructor; pool_simpl; unfold stateRunning, stateStopped, stateDraining; count_step; simpl in *; try lia.
  intros _. by apply all_exit_cnt.
Qed.

Lemma reachable_exit b wl bl s : reachable b wl bl s -> exit_ok s.
Proof. induction 1; [|by eapply exit_step]. by constructor. Qed.

Lemma step_workers_length l s s' : step l s = Some s' -> length (workers s') = length (workers s).
Proof.
  intros Hs. destruct l; step_cases Hs; simplify_eq/=; pool_simpl; rewrite ?length_insert, ?length_fmap; done.
Qed.

Lemma reachable_workers b wl bl s :
  reachable b wl bl s -> Z.of_nat (length (workers s)) = Z.max 1 wl.
Proof.
  induction 1 as [|l s s' Hr IH Hl Hs].
  - simpl. rewrite length_replicate. destruct (Z.ltb_spec wl 1); lia.
  - by rewrite (step_workers_length _ _ _ Hs).
Qed.

(** ** Invariant of the mutex, the condition variable and the stop protocol

    It holds whether or not the parent context is cancelled.  [k_pending] and
    [k_sent] are the absence of lost wake-ups: whoever sleeps has somebody
    left who will broadcast. *)

Definition s_leader (pc : spc) : bool :=
  match pc with SCancel | SSig | SWg | SStore | SClose => true | _ => false end.
Definition s_await (pc : spc) : bool := match pc with SAwait => true | _ => false end.

Record wakeup_ok (s : pool) : Prop := {
  k_mutex : cnt w_locked (workers s) = match mu s with Some _ => 1 | None => 0 end;
  k_pending : 0 < cnt w_parking (workers s) -> 0 < cnt p_active (pubs s) + cnt w_active (workers s);
  k_sent : 0 < cnt w_sleepy (workers s) -> (0 < length (queue s))%nat -> 0 < cnt p_sent (pubs s);
  k_cancelled : 0 < cnt w_draining (workers s) -> cancelled s = true;
  k_leader : st s <> stateRunning -> closed s = false -> 0 < cnt s_leader (stops s);
  k_await : 0 < cnt s_await (stops s) -> st s <> stateRunning
}.

Lemma cnt_wake_le p (ws : list wpc) :
  (forall w, p (wake w) = true -> w_locked w = true) -> cnt p (wake <$> ws) <= cnt w_locked ws.
Proof. intros H. rewrite cnt_fmap. by apply cnt_le. Qed.

Ltac wake_facts s :=
  pose proof (cnt_wake_le w_parking (workers s) ltac:(intros []; done));
  pose proof (cnt_wake_le w_sleepy (workers s) ltac:(intros []; done));
  pose proof (cnt_le w_parking w_sleepy (workers s) ltac:(intros []; done));
  pose proof (cnt_le p_sent p_active (pubs s) ltac:(intros [? ? []]; done));
  pose proof (cnt_le p_in p_active (pubs s) ltac:(intros [? ? []]; done));
  pose proof (cnt_le p_depth p_active (pubs s) ltac:(intros [? ? []]; done));
  pose proof (cnt_le w_dec w_active (workers s) ltac:(intros []; done));
  pose proof (cnt_le w_inflight w_active (workers s) ltac:(intros []; done));
  pose proof (cnt_nonneg p_sent (pubs s)); pose proof (cnt_nonneg w_active (workers s));
  pose proof (cnt_nonneg w_parking (workers s)); pose proof (cnt_nonneg p_active (pubs s));
  pose proof (cnt_nonneg w_inflight (workers s)); pose proof (cnt_nonneg s_leader (stops s)).

Lemma wakeup_step l s s' : counters_ok s -> wakeup_ok s -> step l s = Some s' -> wakeup_ok s'.
Proof.
  intros [H1 H2 H3 _] [A1 A2 A3 A4 A5 A6] Hs. count_facts s. wake_facts s.
  destruct l; step_cases Hs; simplify_eq/=; pub_cases; unfold stateRunning, stateStopped in *.
  all: lookup_pos w_locked; lookup_pos w_sleepy; lookup_pos w_draining; lookup_pos s_leader;
    lookup_pos s_await.
  all: constructor; pool_simpl; unfold stateRunning, stateStopped, stateDraining; count_step;
    simpl in *; try case_match; try lia.
Qed.

Lemma wakeup_init wl bl : wakeup_ok (Consume (New wl bl)).
Proof.
  constructor; cbn [Consume New workers pubs queue stops st cancelled mu app];
    rewrite ?cnt_nil, ?cnt_replicate_false by done; done.
Qed.

Lemma reachable_wakeup b wl bl s : reachable b wl bl s -> wakeup_ok s.
Proof. induction 1; eauto using wakeup_init, wakeup_step, reachable_counters. Qed.
