(* ===== verification/PoolTheorems.v ===== *)
(** * What the worker pool guarantees

    Accounting of tasks, exactness of the counters, completeness of
    [GracefulStop], absence of lost wake-ups and deadlocks, and the one way an
    accepted task can be lost: all consequences of the three invariants of
    [WorkerPool]. *)

From Stdlib Require Import ZifyBool.
From S2P Require Import Prelude WorkerPool.

Definition is_cancel (l : label) : bool := match l with LCancel => true | _ => false end.

Lemma run_reachable b wl bl ls s s' :
  reachable b wl bl s -> forallb (fun l => b || negb (is_cancel l)) ls = true ->
  run ls s = Some s' -> reachable b wl bl s'.
Proof.
  revert s. induction ls as [|l ls IH]; simpl; intros s Hr Hb Hs; [by simplify_eq|].
  apply andb_true_iff in Hb as [Hb1 Hb2]. apply bind_Some in Hs as (s1 & Hs1 & Hs).
  apply (IH s1); [|done..]. eapply reach_step; [done| |done].
  intros ->. by destruct b.
Qed.

(** ** Counting and permutations *)

Lemma cnt_count_occ (l : list nat) t : cnt (Nat.eqb t) l = Z.of_nat (count_occ Nat.eq_dec l t).
Proof.
  induction l as [|a l IH]; [done|]. rewrite cnt_cons, IH. simpl.
  destruct (Nat.eqb_spec t a), (Nat.eq_dec a t); simpl; lia.
Qed.

Lemma cnt_perm (l k : list nat) : (forall t, cnt (Nat.eqb t) l = cnt (Nat.eqb t) k) -> l ≡ₚ k.
Proof.
  intros H. apply (Permutation_count_occ Nat.eq_dec). intros t. specialize (H t).
  rewrite !cnt_count_occ in H. lia.
Qed.

Lemma all_exit (ws : list wpc) p :
  cnt not_exit ws = 0 -> p WExit = false -> cnt p ws = 0.
Proof.
  intros H0 Hp. pose proof (cnt_nonneg p ws). pose proof (cnt_le p not_exit ws) as Hle.
  assert (cnt p ws <= cnt not_exit ws); [|lia]. apply Hle. intros []; try done. congruence.
Qed.

(** A task is never lost nor handled twice, in every interleaving of any
    number of publishers, workers and stoppers, even when the parent context
    is cancelled: each accepted task is exactly one of handled, queued, or in
    the hands of one worker. *)
Theorem pool_accounting b wl bl s :
  reachable b wl bl s ->
  forall t, cnt (Nat.eqb t) (accepted s) =
    cnt (Nat.eqb t) (processed s) + cnt (Nat.eqb t) (queue s) + cnt (w_holds t) (workers s).
Proof. intros Hr. apply (c_tasks _ (reachable_counters _ _ _ _ Hr)). Qed.

(** The three atomic counters are exact at every moment: [depth] (the
    value of [QueueDepth] and [Stats]) is the buffered tasks plus the ones a
    publisher is sending or rolling back and a worker has just taken,
    [inFlight] the running handlers and [publishers] the calls inside the
    accept gate; so none is ever negative. *)
Theorem pool_counters_exact b wl bl s :
  reachable b wl bl s ->
  sDepth (poolStats s) =
    Z.of_nat (length (queue s)) + cnt p_depth (pubs s) + cnt w_dec (workers s) /\
  inFlight s = cnt w_inflight (workers s) /\ publishers s = cnt p_in (pubs s) /\
  0 <= QueueDepth s /\ 0 <= inFlight s /\ 0 <= publishers s.
Proof.
  intros Hr. destruct (reachable_counters _ _ _ _ Hr) as [H1 H2 H3 _].
  pose proof (cnt_nonneg p_depth (pubs s)). pose proof (cnt_nonneg w_dec (workers s)).
  pose proof (cnt_nonneg w_inflight (workers s)). pose proof (cnt_nonneg p_in (pubs s)).
  unfold poolStats, QueueDepth. simpl. split_and!; lia.
Qed.

Lemma stopped_state wl bl s :
  reachable false wl bl s -> st s = stateStopped ->
  accepted s ≡ₚ processed s /\ queue s = [] /\ depth s = 0 /\ inFlight s = 0 /\
  (forall w, w ∈ workers s -> w = WExit).
Proof.
  intros Hr Hst. destruct (reachable_drain _ _ _ Hr) as [_ _ _ A4 A5 _ A7 _ _].
  destruct (reachable_counters _ _ _ _ Hr) as [H1 H2 H3 H4].
  pose proof (reachable_workers _ _ _ _ Hr) as Hlen. specialize (A7 Hst).
  pose proof (cnt_split is_exit (workers s)) as Hsp.
  change (fun x => negb (is_exit x)) with not_exit in Hsp.
  pose proof (cnt_le is_exit w_empty (workers s) ltac:(intros []; done)).
  pose proof (cnt_le w_empty w_quiet (workers s) ltac:(intros []; done)).
  pose proof (cnt_le p_depth p_gate (pubs s) ltac:(intros [? ? []]; done)).
  pose proof (cnt_nonneg p_depth (pubs s)).
  assert (Hq : queue s = []) by (apply length_zero_iff_nil; lia).
  rewrite (all_exit _ w_dec A7 eq_refl) in H1. rewrite (all_exit _ w_inflight A7 eq_refl) in H2.
  split_and!; [|done|rewrite Hq in H1; simpl in H1; lia|done|].
  - apply cnt_perm. intros t. rewrite H4, Hq, cnt_nil, (all_exit _ (w_holds t) A7 eq_refl). lia.
  - intros w Hw. apply list_elem_of_lookup in Hw as [i Hi].
    pose proof (cnt_zero not_exit _ _ _ A7 Hi). by destruct w.
Qed.

(** What every returned [GracefulStop] leaves, whatever happened to the parent context. *)
Lemma done_accounting b wl bl s :
  reachable b wl bl s -> SDone ∈ stops s ->
  accepted s ≡ₚ processed s ++ queue s /\ inFlight s = 0 /\ (forall w, w ∈ workers s -> w = WExit).
Proof.
  intros Hr [k Hk]%list_elem_of_lookup.
  pose proof (x_final _ (reachable_exit _ _ _ _ Hr) (cnt_pos s_final _ k SDone Hk eq_refl)) as H0.
  destruct (reachable_counters _ _ _ _ Hr) as [_ H2 _ H4]. split_and!.
  - apply cnt_perm. intros t. rewrite H4, cnt_app, (all_exit _ (w_holds t) H0 eq_refl). lia.
  - by rewrite H2, (all_exit _ w_inflight H0 eq_refl).
  - intros w [i Hi]%list_elem_of_lookup. pose proof (cnt_zero not_exit _ _ _ H0 Hi). by destruct w.
Qed.

(** C1: in every interleaving, the parent context cancelled or not, when a call
    of [GracefulStop] has returned every worker goroutine has exited, no
    handler is running, and every task [TryPublish] ever accepted was handled
    exactly once or is still in the buffer; when the owner of the parent
    context never cancelled it ([b = false]) the buffer is empty, [depth] is
    zero and every accepted task was handled, exactly once. *)
Theorem graceful_stop_complete b wl bl s :
  reachable b wl bl s -> SDone ∈ stops s ->
  (forall w, w ∈ workers s -> w = WExit) /\ inFlight s = 0 /\
  accepted s ≡ₚ processed s ++ queue s /\
  (b = false -> queue s = [] /\ depth s = 0 /\ accepted s ≡ₚ processed s).
Proof.
  intros Hr Hd. destruct (done_accounting b wl bl s Hr Hd) as (H1 & H2 & H3).
  split_and!; [done..|]. intros ->. destruct (stopped_state wl bl s) as (Ha & Hq & Hz & _); [done| |done].
  apply list_elem_of_lookup in Hd as [k Hk].
  apply (d_done _ (reachable_drain _ _ _ Hr)). by apply (cnt_pos s_final _ k SDone).
Qed.

Definition one_task_run : list label :=
  [LSpawnP 7 false; LP 0 PcStep; LP 0 PcStep; LP 0 PcStep; LP 0 PcSend; LSpawnS;
   LS 0; LS 0; LW 0 WcCtx; LP 0 PcStep; LP 0 PcStep; LP 0 PcStep; LW 0 WcRecv].
Definition one_task_end : list label :=
  replicate 6 (LW 0 WcStep) ++ replicate 4 (LW 0 WcStep) ++ [LS 0; LS 0; LS 0; LS 0].

Lemma pool_accounting_witness :
  exists s, run one_task_run (Consume (New 1 2)) = Some s /\
    cnt (Nat.eqb 7) (processed s) + cnt (Nat.eqb 7) (queue s) + cnt (w_holds 7) (workers s) = 1.
Proof.
  eexists. split; [vm_compute; reflexivity|].
  rewrite <- (pool_accounting false 1 2); [reflexivity|].
  apply (run_reachable false 1 2 one_task_run (Consume (New 1 2))); [constructor|vm_compute; reflexivity..].
Defined.

Lemma pool_counters_exact_witness :
  exists s, run one_task_run (Consume (New 1 2)) = Some s /\ inFlight s = cnt w_inflight (workers s).
Proof.
  eexists. split; [vm_compute; reflexivity|].
  apply (pool_counters_exact false 1 2).
  apply (run_reachable false 1 2 one_task_run (Consume (New 1 2))); [constructor|vm_compute; reflexivity..].
Defined.

Lemma graceful_stop_complete_witness :
  exists s, run (one_task_run ++ one_task_end) (Consume (New 1 2)) = Some s /\
    accepted s = [7%nat] /\ queue s = [] /\ accepted s ≡ₚ processed s.
Proof.
  eexists. split; [vm_compute; reflexivity|]. split; [reflexivity|]. split; [reflexivity|].
  apply (graceful_stop_complete false 1 2); [|by apply list_elem_of_singleton|reflexivity].
  apply (run_reachable false 1 2 (one_task_run ++ one_task_end) (Consume (New 1 2)));
    [constructor|vm_compute; reflexivity..].
Defined.

(** The accept gate looks only at the pool's own state, so after the
    parent context is cancelled the workers drain and exit while the state is
    still [stateRunning]: a publisher is then told its task was accepted and
    [GracefulStop] returns without anybody having handled it. *)
Theorem parent_cancel_loses_task :
  exists s, reachable true 1 1 s /\ SDone ∈ stops s /\
    (exists p, pubs s = [p] /\ pp p = PDone Accepted) /\
    accepted s = [7%nat] /\ processed s = [] /\ queue s = [7%nat] /\ sDepth (poolStats s) = 1.
Proof.
  pose (ls := [LCancel; LW 0 WcCtx; LW 0 WcStep; LW 0 WcStep; LW 0 WcStep; LW 0 WcStep;
               LSpawnP 7 false; LP 0 PcStep; LP 0 PcStep; LP 0 PcStep; LP 0 PcSend; LP 0 PcStep;
               LP 0 PcStep; LP 0 PcStep; LSpawnS; LS 0; LS 0; LS 0; LS 0; LS 0; LS 0]).
  eexists. split.
  - apply (run_reachable true 1 1 ls (Consume (New 1 1))); [constructor|reflexivity|].
    vm_compute. reflexivity.
  - split_and!; [by apply list_elem_of_singleton|eexists; split|..]; reflexivity.
Qed.

(** ** Absence of deadlock *)

(** The steps the pool's own goroutines take: not a new call, not the owner of
    the parent context, not the caller's context ending. *)
Definition internal (l : label) : bool :=
  match l with LSpawnP _ _ | LSpawnS | LCancel | LP _ PcCtx => false | _ => true end.

Definition stuck (s : pool) : Prop := forall l, internal l = true -> step l s = None.

Lemma stuck_worker s i w c :
  stuck s -> workers s !! i = Some w -> worker_step i w c s = None.
Proof. intros Hs Hi. specialize (Hs (LW i c) eq_refl). simpl in Hs. by rewrite Hi in Hs. Qed.

Lemma stuck_pub s j p c :
  stuck s -> pubs s !! j = Some p -> c <> PcCtx -> publish_step j p c s = None.
Proof.
  intros Hs Hj Hc. specialize (Hs (LP j c)). simpl in Hs. rewrite Hj in Hs. apply Hs. by destruct c.
Qed.

Lemma stuck_stop s k pc : stuck s -> stops s !! k = Some pc -> stop_step k pc s = None.
Proof. intros Hs Hk. specialize (Hs (LS k) eq_refl). simpl in Hs. by rewrite Hk in Hs. Qed.

(** Nobody holds the mutex when nothing can move: a holder always can. *)
Lemma stuck_mutex s : stuck s -> wakeup_ok s -> mu s = None.
Proof.
  intros Hs Hw. destruct (mu s) as [m|] eqn:Hm; [exfalso|done].
  pose proof (k_mutex _ Hw) as Hk. rewrite Hm in Hk.
  destruct (cnt_pos_inv w_locked (workers s)) as (i & w & Hi & Hl); [lia|].
  pose proof (stuck_worker s i w WcStep Hs Hi) as H1.
  pose proof (stuck_worker s i w WcRecv Hs Hi) as H2.
  destruct w; try discriminate Hl; simpl in H1, H2; try discriminate H1.
  unfold recv, recv_default in *. by destruct (queue s).
Qed.

Lemma stuck_workers s i w :
  stuck s -> wakeup_ok s -> cancelled s = true -> workers s !! i = Some w -> w = WPark \/ w = WExit.
Proof.
  intros Hs Hw Hc Hi. pose proof (stuck_mutex s Hs Hw) as Hm.
  pose proof (stuck_worker s i w WcStep Hs Hi) as H1.
  pose proof (stuck_worker s i w WcRecv Hs Hi) as H2.
  pose proof (stuck_worker s i w WcCtx Hs Hi) as H3.
  destruct w; try (by left); try (by right); simpl in *; unfold signalDrain in *;
    rewrite ?Hc, ?Hm in *; try discriminate; unfold recv, recv_default in *; by destruct (queue s).
Qed.

Lemma stuck_pubs s j p :
  stuck s -> wakeup_ok s -> cancelled s = true -> pubs s !! j = Some p -> exists r, pp p = PDone r.
Proof.
  intros Hs Hw Hc Hj. pose proof (stuck_mutex s Hs Hw) as Hm.
  pose proof (stuck_pub s j p PcStep Hs Hj ltac:(done)) as H1.
  pose proof (stuck_pub s j p PcSend Hs Hj ltac:(done)) as H2.
  pose proof (stuck_pub s j p PcDefault Hs Hj ltac:(done)) as H3.
  pose proof (stuck_pub s j p PcPool Hs Hj ltac:(done)) as H4.
  destruct p as [t nb pc]; unfold publish_step, signalDrain in *; destruct pc; simpl in *;
    rewrite ?Hm, ?Hc in *; try discriminate; [|by eexists].
  destruct (length (queue s) <? bufCap s)%nat, nb; discriminate.
Qed.

Lemma stuck_all_exit s :
  stuck s -> wakeup_ok s -> cancelled s = true -> forall w, w ∈ workers s -> w = WExit.
Proof.
  intros Hs Hw Hc w [i Hi]%list_elem_of_lookup.
  destruct (stuck_workers s i w Hs Hw Hc Hi) as [-> | ->]; [exfalso|done].
  pose proof (k_pending _ Hw (cnt_pos w_parking _ _ _ Hi eq_refl)) as Hp.
  assert (cnt w_active (workers s) = 0).
  { apply cnt_all_false. intros x [k Hk]%list_elem_of_lookup.
    by destruct (stuck_workers s k x Hs Hw Hc Hk) as [-> | ->]. }
  assert (cnt p_active (pubs s) = 0).
  { apply cnt_all_false. intros x [k Hk]%list_elem_of_lookup. unfold p_active.
    by destruct (stuck_pubs s k x Hs Hw Hc Hk) as [r ->]. }
  lia.
Qed.

Lemma stuck_stops s k pc :
  stuck s -> wakeup_ok s -> cancelled s = true -> stops s !! k = Some pc -> pc = SDone.
Proof.
  intros Hs Hw Hc Hk. pose proof (stuck_mutex s Hs Hw) as Hm.
  assert (Hex : forallb is_exit (workers s) = true).
  { apply forallb_forall. intros x Hx%list_elem_of_In. by rewrite (stuck_all_exit s Hs Hw Hc x Hx). }
  assert (Hlead : forall k' pc', stops s !! k' = Some pc' -> s_leader pc' = false /\ pc' <> SCas /\
                   (pc' = SAwait -> closed s = false)).
  { intros k' pc' Hk'. pose proof (stuck_stop s k' pc' Hs Hk') as H1. unfold stop_step, signalDrain in H1.
    destruct pc'; rewrite ?Hm, ?Hex in H1; try done. by destruct (closed s). }
  destruct (Hlead k pc Hk) as (Hl & Hcas & Hcl). destruct pc; try done. exfalso.
  pose proof (k_await _ Hw (cnt_pos s_await _ _ _ Hk eq_refl)) as Hst.
  pose proof (k_leader _ Hw Hst (Hcl eq_refl)) as Hpos.
  apply cnt_pos_inv in Hpos as (k' & pc' & Hk' & Hl'). destruct (Hlead k' pc' Hk'). congruence.
Qed.

(** C13: once the pool's context is cancelled it never deadlocks: in any
    reachable state where none of its goroutines can move (no sleeping worker
    misses its wake-up, no publisher stays blocked on a full buffer, no stopper
    waits forever), every worker has exited, every publish call has returned
    and every [GracefulStop] call has returned. *)
Theorem pool_deadlock_free b wl bl s :
  reachable b wl bl s -> cancelled s = true -> stuck s ->
  (forall w, w ∈ workers s -> w = WExit) /\ (forall p, p ∈ pubs s -> exists r, pp p = PDone r) /\
  (forall pc, pc ∈ stops s -> pc = SDone).
Proof.
  intros Hr Hc Hs. pose proof (reachable_wakeup _ _ _ _ Hr) as Hw. split_and!.
  - by apply stuck_all_exit.
  - intros p [j Hj]%list_elem_of_lookup. by apply (stuck_pubs s j).
  - intros pc [k Hk]%list_elem_of_lookup. by apply (stuck_stops s k).
Qed.

Definition final_pool : pool :=
  Pool stateStopped true true 2 1 [] 0 0 0 None [WExit] [Pub 7 false (PDone Accepted)] [SDone]
    [7%nat] [7%nat].

Lemma final_pool_stuck : stuck final_pool.
Proof.
  intros [[|i] []|[|j] []|[|j] [|i]|[|k]|t nb| |] Hl; try done; simpl in *; try done;
    by destruct (workers final_pool !! i) || by destruct (pubs final_pool !! j).
Qed.

Lemma pool_deadlock_free_witness :
  run (one_task_run ++ one_task_end) (Consume (New 1 2)) = Some final_pool /\
  (forall pc, pc ∈ stops final_pool -> pc = SDone).
Proof.
  split; [vm_compute; reflexivity|].
  apply (pool_deadlock_free false 1 2); [|reflexivity|apply final_pool_stuck].
  apply (run_reachable false 1 2 (one_task_run ++ one_task_end) (Consume (New 1 2)));
    [constructor|vm_compute; reflexivity..].
Defined.
