(* ===== verification/PoolRefine.v ===== *)
(** * The worker pool refines a task box

    What a client of the pool relies on, without goroutines, counters, mutexes
    or buffers: a box of pending tasks that is open, closing or closed, and
    that is [b_lossy] once the owner of the parent context cancelled it while
    the box was open.  A task enters while the box is not closed, a pending task
    is handled, closing happens once, and the box becomes closed only when it is
    empty; a lossy box may be closed with tasks pending and may take a task
    after that, which is then never handled.  Every run of the detailed machine
    of [WorkerPool] is, event by event, a run of the box. *)

From Stdlib Require Import ZifyBool.
From S2P Require Import Prelude WorkerPool PoolTheorems.

(** ** The abstract box *)

Inductive phase := Open | Closing | Closed.
#[export] Instance phase_eq_dec : EqDecision phase.
Proof. solve_decision. Defined.

Record box := Box { b_pending : list nat; b_done : list nat; b_phase : phase; b_lossy : bool }.
Definition box_init : box := Box [] [] Open false.

Inductive bevent := Submit (t : nat) | Handle (t : nat) | Close | Finish | Cancel.

Definition is_open (ph : phase) : bool := match ph with Open => true | _ => false end.

Inductive bstep : bevent -> box -> box -> Prop :=
  | b_submit t p d ph c : ph <> Closed \/ c = true -> bstep (Submit t) (Box p d ph c) (Box (t :: p) d ph c)
  | b_handle t p p' d ph c : ph <> Closed -> p ≡ₚ t :: p' -> bstep (Handle t) (Box p d ph c) (Box p' (t :: d) ph c)
  | b_close p d c : bstep Close (Box p d Open c) (Box p d Closing c)
  | b_finish p d c : p = [] \/ c = true -> bstep Finish (Box p d Closing c) (Box p d Closed c)
  | b_cancel p d ph c : bstep Cancel (Box p d ph c) (Box p d ph (c || is_open ph)).

Inductive btrace : list bevent -> box -> box -> Prop :=
  | bt_nil b : btrace [] b b
  | bt_cons e es b b1 b2 : bstep e b b1 -> btrace es b1 b2 -> btrace (e :: es) b b2.

Definition submitted (es : list bevent) : list nat := omap (fun e => match e with Submit t => Some t | _ => None end) es.
Definition handled (es : list bevent) : list nat := omap (fun e => match e with Handle t => Some t | _ => None end) es.

Lemma btrace_snoc es e b b1 b2 : btrace es b b1 -> bstep e b1 b2 -> btrace (es ++ [e]) b b2.
Proof. induction 1; intros Hs; econstructor; eauto using bt_nil. Qed.

(** The box keeps its books. *)
Lemma btrace_books es b b' : btrace es b b' ->
  b_pending b ++ submitted es ≡ₚ b_pending b' ++ handled es.
Proof.
  induction 1 as [b|e es b b1 b2 Hs _ IH]; [done|]. inversion Hs; subst; simpl in *; rewrite <- ?IH.
  - by rewrite <- Permutation_middle.
  - rewrite H0. simpl. rewrite <- Permutation_middle. by f_equiv.
  - done.
  - done.
  - done.
Qed.

(** Only a cancellation makes a box lossy. *)
Lemma btrace_lossless es b b' : btrace es b b' -> Cancel ∉ es -> b_lossy b' = b_lossy b.
Proof.
  induction 1 as [b|e es b b1 b2 Hs _ IH]; [done|]. intros [Hn1 Hn2]%not_elem_of_cons.
  rewrite (IH Hn2). by inversion Hs; subst.
Qed.

(** ** What a step of the machine shows *)

Definition obs (l : label) (s : pool) : option bevent :=
  match l with
  | LP j PcSend => p ← pubs s !! j; Some (Submit (ptask p))
  | LHand j _ => p ← pubs s !! j; Some (Submit (ptask p))
  | LW i WcStep => match workers s !! i with Some (WHandle t _) => Some (Handle t) | _ => None end
  | LS k => match stops s !! k with
            | Some SCas => if st s =? stateRunning then Some Close else None
            | Some SStore => Some Finish
            | _ => None
            end
  | LCancel => Some Cancel
  | _ => None
  end.

Fixpoint obs_run (ls : list label) (s : pool) : list bevent :=
  match ls with
  | [] => []
  | l :: ls' => option_list (obs l s) ++ (match step l s with Some s' => obs_run ls' s' | None => [] end)
  end.

Definition phase_of (x : Z) : phase :=
  if x =? stateRunning then Open else if x =? stateDraining then Closing else Closed.

(** The box a pool state stands for. *)
Record abs_rel (s : pool) (b : box) : Prop := {
  ar_pending : forall t, cnt (Nat.eqb t) (b_pending b) = cnt (Nat.eqb t) (queue s) + cnt (w_holds t) (workers s);
  ar_done : b_done b = processed s;
  ar_phase : b_phase b = phase_of (st s);
  ar_drain : b_lossy b = false -> drain_ok s
}.

(** ** The stop protocol has one leader *)

Definition s_before (pc : spc) : bool := match pc with SCancel | SSig | SWg | SStore => true | _ => false end.

Record leader_ok (s : pool) : Prop := {
  lo_st : st s = stateRunning \/ st s = stateDraining \/ st s = stateStopped;
  lo_one : cnt s_before (stops s) = Z.b2z (st s =? stateDraining)
}.

Lemma leader_step l s s' : leader_ok s -> step l s = Some s' -> leader_ok s'.
Proof.
  intros [H1 H2] Hs. unfold stateRunning, stateDraining, stateStopped in *.
  destruct l; step_cases Hs; simplify_eq/=; unfold stateRunning, stateDraining, stateStopped in *; try done.
  all: pose proof (cnt_nonneg s_before (stops s)); lookup_pos s_before;
    constructor; pool_simpl; unfold stateRunning, stateDraining, stateStopped in *; count_step; simpl in *; try lia.
Qed.

Lemma reachable_leader b wl bl s : reachable b wl bl s -> leader_ok s.
Proof. induction 1; [|by eapply leader_step]. constructor; [by left|done]. Qed.

(** ** Simulation *)

Lemma rel_init wl bl : abs_rel (Consume (New wl bl)) box_init.
Proof.
  constructor; try done; [|intros _; apply drain_init]. intros t. simpl. by rewrite cnt_replicate_false.
Qed.

(** A pending task can be taken out. *)
Lemma take_pending b t : 0 < cnt (Nat.eqb t) (b_pending b) -> exists p', b_pending b ≡ₚ t :: p'.
Proof.
  intros (i & x & Hx & E)%cnt_pos_inv. apply Nat.eqb_eq in E as <-.
  apply elem_of_Permutation. by eapply list_elem_of_lookup_2.
Qed.

Lemma cnt_perm_eq (p : nat -> bool) l k : l ≡ₚ k -> cnt p l = cnt p k.
Proof. induction 1; rewrite ?cnt_cons in *; lia. Qed.

(** In a stopped pool nothing is pending and nobody is past the gate. *)
Lemma done_quiet s : counters_ok s -> drain_ok s -> (0 < length (workers s))%nat -> cnt not_exit (workers s) = 0 ->
  queue s = [] /\ (forall t, cnt (w_holds t) (workers s) = 0) /\ cnt p_gate (pubs s) = 0.
Proof.
  intros Hc Hd Hlen H0. pose proof (cnt_split is_exit (workers s)) as Hsp.
  change (fun x => negb (is_exit x)) with not_exit in Hsp.
  pose proof (cnt_le is_exit w_empty (workers s) ltac:(intros []; done)).
  pose proof (cnt_le w_empty w_quiet (workers s) ltac:(intros []; done)).
  split_and!.
  - apply length_zero_iff_nil, (d_empty _ Hd). lia.
  - intros t. by apply all_exit.
  - apply (d_quiet _ Hd). lia.
Qed.

Lemma phase_of_closed s : leader_ok s -> phase_of (st s) = Closed -> st s = stateStopped.
Proof. intros [[E|[E|E]] _]; rewrite E; done. Qed.

(** Accepting, handling and finishing are steps the box allows. *)
Lemma submit_allowed s b j p :
  counters_ok s -> leader_ok s -> (0 < length (workers s))%nat -> abs_rel s b ->
  pubs s !! j = Some p -> p_gate p = true -> b_phase b <> Closed \/ b_lossy b = true.
Proof.
  intros Hc Hl Hlen [_ _ R3 R4] Hj Hp. destruct (b_lossy b) eqn:El; [by right|left]. intros Hcl.
  rewrite R3 in Hcl. pose proof (R4 eq_refl) as Hd. pose proof (cnt_pos p_gate _ _ _ Hj Hp).
  destruct (done_quiet s Hc Hd Hlen) as (_ & _ & ?); [|lia].
  apply (d_stopped _ Hd). by apply phase_of_closed.
Qed.

Lemma handle_allowed s b i t r :
  exit_ok s -> leader_ok s -> abs_rel s b -> workers s !! i = Some (WHandle t r) ->
  b_phase b <> Closed /\ 0 < cnt (Nat.eqb t) (b_pending b).
Proof.
  intros Hx Hl [R1 _ R3 _] Hi. split.
  - rewrite R3. intros Hcl. apply phase_of_closed in Hcl; [|done].
    pose proof (cnt_zero not_exit _ _ _ (x_stopped _ Hx Hcl) Hi). done.
  - pose proof (cnt_pos (w_holds t) _ _ _ Hi (Nat.eqb_refl t)). rewrite R1.
    pose proof (cnt_nonneg (Nat.eqb t) (queue s)). lia.
Qed.

Lemma finish_allowed s b k :
  counters_ok s -> leader_ok s -> (0 < length (workers s))%nat -> abs_rel s b ->
  stops s !! k = Some SStore -> b_phase b = Closing /\ (b_pending b = [] \/ b_lossy b = true).
Proof.
  intros Hc [L1 L2] Hlen [R1 _ R3 R4] Hk.
  pose proof (cnt_pos s_past_wg _ _ _ Hk eq_refl). pose proof (cnt_pos s_before _ _ _ Hk eq_refl). split.
  { rewrite R3. unfold phase_of. destruct (Z.eqb_spec (st s) stateDraining) as [->|]; [done|]. simpl in L2. lia. }
  destruct (b_lossy b) eqn:El; [by right|left]. pose proof (R4 eq_refl) as Hd.
  destruct (done_quiet s Hc Hd Hlen (d_wg _ Hd ltac:(lia))) as (Hq & Hw & _).
  destruct (b_pending b) as [|t pd]; [done|]. specialize (R1 t).
  rewrite cnt_cons, Nat.eqb_refl, Hq, cnt_nil, Hw in R1. pose proof (cnt_nonneg (Nat.eqb t) pd). simpl in R1. lia.
Qed.

Ltac book tk := cbn [b_pending]; count_step;
  repeat match goal with Hq : queue ?s0 = _, H4 : context [queue ?s0] |- _ => rewrite Hq in H4 end;
  rewrite ?cnt_cons, ?cnt_nil in *; simpl in *; lia.

Lemma drain_kept l s s' c :
  counters_ok s -> (c = false -> drain_ok s) -> step l s = Some s' -> l <> LCancel -> c = false -> drain_ok s'.
Proof. intros Hc Hd Hs Hl ->. eapply drain_step; eauto. Qed.

Lemma sim_step wl bl l s s' b :
  reachable true wl bl s -> step l s = Some s' -> abs_rel s b ->
  exists b', (match obs l s with Some e => bstep e b b' | None => b' = b end) /\ abs_rel s' b'.
Proof.
  intros Hr Hs Hb. pose proof Hb as [R1 R2 R3 R4].
  pose proof (reachable_counters _ _ _ _ Hr) as Hc. pose proof (reachable_exit _ _ _ _ Hr) as Hx.
  pose proof (reachable_leader _ _ _ _ Hr) as Hl.
  assert (0 < length (workers s))%nat as Hlen by (pose proof (reachable_workers _ _ _ _ Hr); lia).
  pose proof (fun j p => submit_allowed s b j p Hc Hl Hlen Hb) as Hsub.
  pose proof (fun i t r => handle_allowed s b i t r Hx Hl Hb) as Hhan.
  pose proof (fun k => finish_allowed s b k Hc Hl Hlen Hb) as Hfin.
  pose proof (drain_kept l s s' (b_lossy b) Hc R4 Hs) as Hkeep.
  destruct b as [pd dn ph lo]; simpl in R1, R2, R3, R4, Hsub, Hhan, Hfin, Hkeep; subst dn ph.
  destruct l; step_cases Hs; simplify_eq/=; pub_cases;
    repeat match goal with H : ?x = Some _ |- context [?x] => rewrite H end; simpl.
  all: match goal with
    | |- exists b', b' = _ /\ _ => eexists; split; [done|]; constructor; pool_simpl; try done;
        try (intros tk; specialize (R1 tk); book tk); by intros; apply Hkeep
    | Hj : pubs _ !! ?j = Some _ |- exists b', bstep (Submit _) _ _ /\ _ =>
        eexists; split; [constructor; by apply (Hsub j _ Hj)|]; constructor; pool_simpl; try done;
        [intros tk; specialize (R1 tk); book tk|by intros; apply Hkeep]
    | _ => idtac
    end.
  - destruct (Hhan _ _ _ H) as [Hcl Hpos].
    destruct (take_pending (Box pd (processed s) (phase_of (st s)) lo) t) as [p' Hp]; [done|].
    simpl in Hp. eexists. split; [by constructor|]. constructor; pool_simpl; try done; [|by intros; apply Hkeep].
    intros tk. specialize (R1 tk). simpl. rewrite (cnt_perm_eq _ _ _ Hp) in R1. book tk.
  - assert (phase_of (st s) = Open) as E by (unfold phase_of; by rewrite Heqb).
    rewrite Heqb, E. eexists. split; [constructor|]. constructor; pool_simpl; try done. by intros; apply Hkeep.
  - rewrite Heqb. eexists. split; [done|]. constructor; pool_simpl; try done. by intros; apply Hkeep.
  - destruct (Hfin _ H) as [-> Hp]. eexists. split; [by constructor|].
    constructor; pool_simpl; try done. by intros; apply Hkeep.
  - eexists. split; [constructor|]. constructor; try done. intros [-> Ho]%orb_false_iff.
    apply drain_cancel; [|by apply R4]. intros E. unfold phase_of in Ho. by rewrite E in Ho.
Qed.

Lemma sim_run wl bl ls s s' b es :
  reachable true wl bl s -> run ls s = Some s' -> abs_rel s b -> btrace es box_init b ->
  exists b', btrace (es ++ obs_run ls s) box_init b' /\ abs_rel s' b'.
Proof.
  revert s b es. induction ls as [|l ls IH]; intros s b es Hr Hs Hb Ht; simpl in *.
  - simplify_eq. rewrite app_nil_r. eauto.
  - destruct (step l s) as [s1|] eqn:E; [|done].
    destruct (sim_step wl bl l s s1 b Hr E Hb) as (b1 & Hob & Hb1). rewrite app_assoc.
    apply (IH s1 b1); [by eapply reach_step|done..|].
    destruct (obs l s); simpl; [by eapply btrace_snoc|]. subst. by rewrite app_nil_r.
Qed.

Lemma obs_cancel ls s : LCancel ∉ ls -> Cancel ∉ obs_run ls s.
Proof.
  revert s. induction ls as [|l ls IH]; intros s; simpl; [intros _; apply not_elem_of_nil|].
  intros [Hn1 Hn2]%not_elem_of_cons. rewrite elem_of_app. intros [Ho|Ho].
  - destruct (obs l s) as [e|] eqn:Eo; [|by apply not_elem_of_nil in Ho].
    apply list_elem_of_singleton in Ho as <-. rename Eo into Ho.
    destruct l as [? []|? []| |k| | |]; simpl in Ho; repeat case_match; simplify_eq/=;
      try (by apply bind_Some in Ho as (? & _ & ?)); done.
  - destruct (step l s); [by eapply IH|by apply not_elem_of_nil in Ho].
Qed.

(** C2: refinement: every run of the pool (any number of publishers, workers and
    stoppers, any interleaving, the parent context cancelled at any moment or
    never) shows a trace of the task box, and ends in a state the final box
    stands for.  So a task is handled only after it was accepted and no more
    often; and in a run in which the parent context is not cancelled, or only
    after a stop began, a task is accepted only until the pool is closed and
    the pool is closed only with every task handled. *)
Theorem pool_refines_box wl bl ls s :
  run ls (Consume (New wl bl)) = Some s ->
  exists b, btrace (obs_run ls (Consume (New wl bl))) box_init b /\ abs_rel s b /\
    submitted (obs_run ls (Consume (New wl bl))) ≡ₚ b_pending b ++ handled (obs_run ls (Consume (New wl bl))) /\
    (LCancel ∉ ls -> b_lossy b = false) /\
    (st s = stateStopped -> b_phase b = Closed /\ (b_lossy b = false -> b_pending b = [])).
Proof.
  intros Hs.
  destruct (sim_run wl bl ls (Consume (New wl bl)) s box_init [] (reach_init true wl bl) Hs)
    as (b & Ht & Hb); [apply rel_init|constructor|]. simpl in Ht. exists b.
  split; [done|]. split; [done|]. split; [apply (btrace_books _ _ _ Ht)|].
  split; [intros Hn; rewrite (btrace_lossless _ _ _ Ht); [done|by apply obs_cancel]|].
  intros Hst. destruct Hb as [R1 _ R3 R4]. split; [by rewrite R3, Hst|]. intros Hlo. specialize (R4 Hlo).
  assert (reachable true wl bl s) as Hr.
  { eapply run_reachable; [constructor| |done]. by apply forallb_forall. }
  destruct (done_quiet s (reachable_counters _ _ _ _ Hr) R4) as (Hq & Hw & _).
  - pose proof (reachable_workers _ _ _ _ Hr). lia.
  - by apply (d_stopped _ R4).
  - destruct (b_pending b) as [|t pd]; [done|]. specialize (R1 t).
    rewrite cnt_cons, Nat.eqb_refl, Hq, Hw, cnt_nil in R1. pose proof (cnt_nonneg (Nat.eqb t) pd). simpl in R1. lia.
Qed.

Example one_task_trace :
  obs_run (one_task_run ++ one_task_end) (Consume (New 1 2)) = [Submit 7; Close; Handle 7; Finish].
Proof. vm_compute. reflexivity. Qed.

Lemma pool_refines_box_witness :
  exists b, btrace [Submit 7; Close; Handle 7; Finish] box_init b /\ b_phase b = Closed /\ b_pending b = [].
Proof.
  destruct (pool_refines_box 1 2 (one_task_run ++ one_task_end) final_pool) as (b & H1 & _ & _ & H2 & H3).
  - vm_compute. reflexivity.
  - exists b. split; [exact H1|]. destruct H3 as [H3 H4]; [reflexivity|]. split; [exact H3|]. apply H4, H2.
    intros Hin%list_elem_of_In. vm_compute in Hin. repeat destruct Hin as [Hin|Hin]; try discriminate Hin; done.
Defined.
