(* ===== verification/Recycle.v ===== *)
(** * Recycled objects (workerpool.go, codec.go, compress.go)

    Tasks of the worker pool, scratch buffers of the encoders and buffers of the
    compressors are handed out by a [sync.Pool], filled, and put back, by many
    goroutines at once.  Here the objects live in one heap and everybody holds
    addresses: a user that kept an address after putting the object back would
    read what somebody else wrote.  [Get] returns any object of the pool, or a
    new one. *)
From S2P Require Import Prelude GoStr.

(** ** Ownership

    Addresses are either in common hands (a pool, a queue) or held by one
    goroutine; [ids] are the addresses a program counter holds. *)
Section Own.
Context {P : Type} (ids : P -> list nat).

Record own (common : list nat) (ps : list P) (next : nat) : Prop := {
  own_nodup : NoDup (common ++ (ps ≫= ids));
  own_fresh : Forall (fun a => (a < next)%nat) (common ++ (ps ≫= ids))
}.

Lemma ids_split ps i pc : ps !! i = Some pc -> ps ≫= ids ≡ₚ ids pc ++ (delete i ps ≫= ids).
Proof.
  revert i. induction ps as [|p ps IH]; intros [|i] H; simplify_eq/=; [done|].
  rewrite (IH i H). rewrite !(assoc_L (++)). by rewrite (Permutation_app_comm (ids p)).
Qed.

Lemma ids_insert ps i pc pc' : ps !! i = Some pc -> <[i := pc']> ps ≫= ids ≡ₚ ids pc' ++ (delete i ps ≫= ids).
Proof.
  intros H. rewrite (ids_split (<[i := pc']> ps) i pc') by (apply list_lookup_insert_eq; by eapply lookup_lt_Some).
  clear H. revert i. induction ps as [|p ps IH]; intros [|i]; simpl; try done. simpl in IH.
  rewrite !(Permutation_app_comm (ids p)), !(assoc_L (++)). by rewrite IH.
Qed.

Lemma ids_rest ps i k pc a : ps !! k = Some pc -> k <> i -> a ∈ ids pc -> a ∈ delete i ps ≫= ids.
Proof.
  intros Hk Hne Ha. apply list_elem_of_bind. exists pc. split; [done|].
  destruct (decide (k < i)%nat).
  - apply (list_elem_of_lookup_2 _ k). by rewrite list_lookup_delete_lt.
  - apply (list_elem_of_lookup_2 _ (k - 1)). rewrite list_lookup_delete_ge by lia. by replace (S (k - 1)) with k by lia.
Qed.

(** A goroutine that exchanges addresses with the common part, or gets new ones,
    disturbs nobody else. *)
Lemma own_update common ps next i pc pc' common' next' :
  own common ps next -> ps !! i = Some pc -> NoDup (common' ++ ids pc') ->
  (forall a, a ∈ common' ++ ids pc' -> a ∈ common ++ ids pc \/ (next <= a < next')%nat) -> (next <= next')%nat ->
  own common' (<[i := pc']> ps) next' /\
  (forall k pck a, k <> i -> ps !! k = Some pck -> a ∈ ids pck -> a ∉ common' ++ ids pc' /\ (a < next)%nat).
Proof.
  intros [Hn Hf] Hi Hn' Hsub Hle. rewrite (ids_split ps i pc Hi), (assoc_L (++)) in Hn, Hf.
  apply list.NoDup_app in Hn as (_ & Hd & HnR). apply Forall_app in Hf as [Hf1 Hf2].
  assert (forall a, a ∈ delete i ps ≫= ids -> a ∉ common' ++ ids pc' /\ (a < next)%nat) as HR.
  { intros a Ha. pose proof (Forall_elem _ _ _ Hf2 Ha) as Hlt. split; [|done].
    intros Hc. destruct (Hsub a Hc) as [Ho|Ho]; [|simpl in Hlt; lia]. by apply (Hd a Ho). }
  split; [|intros k pck a Hne Hk Ha; apply HR; by eapply ids_rest].
  constructor; rewrite (ids_insert ps i pc pc' Hi), (assoc_L (++)).
  - apply list.NoDup_app. split_and!; [done| |done]. intros a Ha1 Ha2. by apply (HR a).
  - apply Forall_app. split; apply List.Forall_forall; intros a Ha; apply list_elem_of_In in Ha.
    + destruct (Hsub a Ha) as [Ho|Ho]; [|lia]. pose proof (Forall_elem _ _ _ Hf1 Ho). simpl in *. lia.
    + destruct (HR a Ha). lia.
Qed.
End Own.

Lemma own_local {P} (ids : P -> list nat) common ps next i pc :
  own ids common ps next -> ps !! i = Some pc -> NoDup (common ++ ids pc) /\ Forall (fun a => (a < next)%nat) (common ++ ids pc).
Proof.
  intros [Hn Hf] Hi. rewrite (ids_split ids ps i pc Hi), (assoc_L (++)) in Hn, Hf.
  apply list.NoDup_app in Hn as (? & _ & _). by apply Forall_app in Hf as [? _].
Qed.

(** ** Tasks of the worker pool *)
Module Tasks.
Section Tasks.
(** What a task carries: context, message and handler of a publish. *)
Context {R : Type}.

(** A publisher inside [tryPublish] and a worker inside [process], up to the
    statements that touch the task; ghost: the publish a queued task belongs to. *)
Inductive tpc :=
  | PubStart (r : R) | PubGot (o : nat) (r : R) | PubSet (o : nat) (r : R) | PubClear (o : nat) | PubEnd
  | WorkIdle | WorkGot (o : nat) (r : R) | WorkRan (o : nat) (r : R) | WorkClear (o : nat).
Definition held (p : tpc) : list nat :=
  match p with
  | PubGot o _ | PubSet o _ | PubClear o | WorkGot o _ | WorkRan o _ | WorkClear o => [o]
  | _ => []
  end.

(** A task's fields: nil, or those of a publish. *)
Record tstate := TSt {
  fields : gmap nat (option R); free : list nat; queue : list (nat * R); actors : list tpc; next : nat;
  ran : list (R * option R)   (* whose task a handler ran, and what it was called with *)
}.

Inductive tlabel :=
  | TGet (pick : option nat)  (* pool.Get: a pooled task, or a new one *)
  | TFill | TSend
  | TClear | TPut             (* the fields set to nil, pool.Put *)
  | TRecv | TRun | TLogError.

(** One action of goroutine [i] of [tryPublish] (filling, sending, rolling back)
    or of [process] (running, reading the message again for the log, clearing and
    putting back). *)
Definition task_step (i : nat) (l : tlabel) (s : tstate) : option tstate :=
  let go p f fr q n r := Some (TSt f fr q (<[i := p]> (actors s)) n r) in
  match actors s !! i, l with
  | Some (PubStart r), TGet (Some k) =>
      o ← free s !! k; go (PubGot o r) (fields s) (delete k (free s)) (queue s) (next s) (ran s)
  | Some (PubStart r), TGet None => go (PubGot (next s) r) (<[next s := None]> (fields s)) (free s) (queue s) (S (next s)) (ran s)
  | Some (PubGot o r), TFill => go (PubSet o r) (<[o := Some r]> (fields s)) (free s) (queue s) (next s) (ran s)
  | Some (PubSet o r), TSend => go PubEnd (fields s) (free s) (queue s ++ [(o, r)]) (next s) (ran s)
  | Some (PubSet o r), TClear => go (PubClear o) (<[o := None]> (fields s)) (free s) (queue s) (next s) (ran s)
  | Some (PubClear o), TPut => go PubEnd (fields s) (o :: free s) (queue s) (next s) (ran s)
  | Some WorkIdle, TRecv =>
      match queue s with [] => None | (o, r) :: q => go (WorkGot o r) (fields s) (free s) q (next s) (ran s) end
  | Some (WorkGot o r), TRun => go (WorkRan o r) (fields s) (free s) (queue s) (next s) (ran s ++ [(r, mjoin (fields s !! o))])
  | Some (WorkRan o r), TLogError => go (WorkRan o r) (fields s) (free s) (queue s) (next s) (ran s ++ [(r, mjoin (fields s !! o))])
  | Some (WorkRan o r), TClear => go (WorkClear o) (<[o := None]> (fields s)) (free s) (queue s) (next s) (ran s)
  | Some (WorkClear o), TPut => go WorkIdle (fields s) (o :: free s) (queue s) (next s) (ran s)
  | _, _ => None
  end.

Fixpoint task_run (ls : list (nat * tlabel)) (s : tstate) : option tstate :=
  match ls with [] => Some s | (i, l) :: ls' => s' ← task_step i l s; task_run ls' s' end.

Definition task_init (reqs : list R) (workers : nat) : tstate :=
  TSt ∅ [] [] ((PubStart <$> reqs) ++ replicate workers WorkIdle) 0 [].

Definition filled (f : gmap nat (option R)) (o : nat) (r : R) : Prop := f !! o = Some (Some r).
Definition pc_ok (f : gmap nat (option R)) (p : tpc) : Prop :=
  match p with PubSet o r | WorkGot o r | WorkRan o r => filled f o r | _ => True end.

Record task_ok (s : tstate) : Prop := {
  to_own : own held (free s ++ (queue s).*1) (actors s) (next s);
  to_queue : Forall (fun x => filled (fields s) x.1 x.2) (queue s);
  to_pcs : forall i p, actors s !! i = Some p -> pc_ok (fields s) p;
  to_ran : Forall (fun x => x.2 = Some x.1) (ran s)
}.

Lemma pc_ok_frame f f' p : (forall a, a ∈ held p -> f' !! a = f !! a) -> pc_ok f p -> pc_ok f' p.
Proof. unfold pc_ok, filled. destruct p; simpl; try done; intros H ?; by rewrite H by (by left). Qed.

(** A step of actor [i] that writes only to what it holds or to a new task. *)
Lemma task_ok_step s i p p' f' fr' q' n' r' :
  task_ok s -> actors s !! i = Some p ->
  NoDup ((fr' ++ q'.*1) ++ held p') ->
  (forall a, a ∈ (fr' ++ q'.*1) ++ held p' -> a ∈ (free s ++ (queue s).*1) ++ held p \/ (next s <= a < n')%nat) -> (next s <= n')%nat ->
  (forall a, (a < next s)%nat -> a ∉ held p' -> a ∉ held p -> f' !! a = fields s !! a) ->
  Forall (fun x => filled f' x.1 x.2) q' -> pc_ok f' p' -> Forall (fun x => x.2 = Some x.1) r' ->
  task_ok (TSt f' fr' q' (<[i := p']> (actors s)) n' r').
Proof.
  intros [H1 H2 H3 H4] Hi Hn Hsub Hle Hf Hq Hp Hr.
  destruct (own_update held _ _ _ i p p' _ n' H1 Hi Hn Hsub Hle) as [Ho Hoth].
  constructor; simpl; try done.
  intros k pk Hk. destruct (decide (k = i)) as [->|Hne].
  - rewrite list_lookup_insert_eq in Hk by (by eapply lookup_lt_Some). by simplify_eq.
  - rewrite list_lookup_insert_ne in Hk by done. apply (pc_ok_frame (fields s)); [|eauto].
    intros a Ha. destruct (Hoth k pk a Hne Hk Ha) as [Hna Hlt]. apply Hf; [done|set_solver|].
    intros Hap. destruct H1 as [Hnd _]. rewrite (ids_split held _ i p Hi) in Hnd.
    apply list.NoDup_app in Hnd as (_ & _ & Hnd). apply list.NoDup_app in Hnd as (_ & Hd & _).
    apply (Hd a Hap). by eapply ids_rest.
Qed.

(** A step that moves the addresses around and writes at most to what the actor
    held. *)
Lemma task_ok_move s i p p' f' fr' q' r' :
  task_ok s -> actors s !! i = Some p ->
  (fr' ++ q'.*1) ++ held p' ≡ₚ (free s ++ (queue s).*1) ++ held p ->
  (forall a, a ∉ held p -> f' !! a = fields s !! a) ->
  (forall x, x ∈ q' -> x ∈ queue s \/ filled f' x.1 x.2) -> pc_ok f' p' -> Forall (fun x => x.2 = Some x.1) r' ->
  task_ok (TSt f' fr' q' (<[i := p']> (actors s)) (next s) r').
Proof.
  intros Hok Hi Hperm Hf Hq Hp Hr. destruct (own_local held _ _ _ i p (to_own _ Hok) Hi) as [Hn Hlt].
  apply (task_ok_step s i p); try done.
  - by rewrite Hperm.
  - intros a Ha. left. by rewrite Hperm in Ha.
  - intros a _ _ Ha. by apply Hf.
  - apply List.Forall_forall. intros x Hx%list_elem_of_In. destruct (Hq x Hx) as [Hin|]; [|done].
    pose proof (Forall_elem _ _ _ (to_queue _ Hok) Hin) as Hfx. unfold filled in *. rewrite Hf; [done|].
    intros Ha. apply list.NoDup_app in Hn as (_ & Hd & _). apply (Hd x.1); [|done].
    apply elem_of_app. right. by apply list_elem_of_fmap_2.
Qed.

Lemma task_ok_preserved i l s s' : task_ok s -> task_step i l s = Some s' -> task_ok s'.
Proof.
  intros Hok Hs. unfold task_step in Hs. destruct (actors s !! i) as [p|] eqn:Hi; [|done].
  pose proof (to_pcs _ Hok i p Hi) as Hp. pose proof (to_ran _ Hok) as Hr.
  destruct p as [r|o r|o r|o| | |o r|o r|o], l as [[k|]| | | | | | |]; try done; simpl in Hp.
  - destruct (free s !! k) as [o|] eqn:Hk; simplify_eq/=.
    apply (task_ok_move s i (PubStart r)); simpl; try done; [|auto].
    rewrite app_nil_r. rewrite (delete_Permutation (free s) k o Hk) at 2. simpl. rewrite Permutation_app_comm. done.
  - simplify_eq/=. destruct (own_local held _ _ _ i _ (to_own _ Hok) Hi) as [Hn Hlt]. simpl in Hn, Hlt. rewrite app_nil_r in Hn, Hlt.
    assert (next s ∉ free s ++ (queue s).*1) as Hnew by (intros Ha; pose proof (Forall_elem _ _ _ Hlt Ha); simpl in *; lia).
    apply (task_ok_step s i (PubStart r)); simpl; try done; [..|lia| |].
    + rewrite Permutation_app_comm. simpl. by constructor.
    + intros a. rewrite !elem_of_app, list_elem_of_singleton. intros [?| ->]; [tauto|right; lia].
    + intros a Hlta Hna _. rewrite lookup_insert_ne; [done|]. lia.
    + apply List.Forall_forall. intros x Hx%list_elem_of_In. pose proof (Forall_elem _ _ _ (to_queue _ Hok) Hx) as Hfx.
      unfold filled in *. rewrite lookup_insert_ne; [done|]. intros E. apply Hnew, elem_of_app. right. rewrite E. by apply list_elem_of_fmap_2.
  - simplify_eq/=. apply (task_ok_move s i (PubGot o r)); simpl; auto; [|by apply lookup_insert_eq].
    intros a Ha. rewrite lookup_insert_ne; [done|]. set_solver.
  - simplify_eq/=. apply (task_ok_move s i (PubSet o r)); simpl; auto.
    + by rewrite fmap_app, app_nil_r, (assoc_L (++)).
    + intros x [Hx|Hx%list_elem_of_singleton]%elem_of_app; [auto|subst; auto].
  - simplify_eq/=. apply (task_ok_move s i (PubSet o r)); simpl; auto.
    intros a Ha. rewrite lookup_insert_ne; [done|]. set_solver.
  - simplify_eq/=. apply (task_ok_move s i (PubClear o)); simpl; auto. rewrite app_nil_r. apply Permutation_cons_append.
  - destruct (queue s) as [|[o r] q] eqn:Eq; simplify_eq/=.
    pose proof (to_queue _ Hok) as Hq. rewrite Eq in Hq. inversion_clear Hq.
    apply (task_ok_move s i WorkIdle); simpl; auto; rewrite ?Eq; simpl; [|set_solver].
    rewrite app_nil_r, <- app_assoc. f_equiv. symmetry. apply Permutation_cons_append.
  - simplify_eq/=. apply (task_ok_move s i (WorkGot o r)); simpl; auto.
    apply Forall_app. split; [done|]. apply list.Forall_singleton. simpl. by rewrite Hp.
  - simplify_eq/=. apply (task_ok_move s i (WorkRan o r)); simpl; auto.
    intros a Ha. rewrite lookup_insert_ne; [done|]. set_solver.
  - simplify_eq/=. apply (task_ok_move s i (WorkRan o r)); simpl; auto.
    apply Forall_app. split; [done|]. apply list.Forall_singleton. simpl. by rewrite Hp.
  - simplify_eq/=. apply (task_ok_move s i (WorkClear o)); simpl; auto. rewrite app_nil_r. apply Permutation_cons_append.
Qed.

Lemma task_ok_init reqs workers : task_ok (task_init reqs workers).
Proof.
  assert (((PubStart <$> reqs) ++ replicate workers WorkIdle) ≫= held = []) as Hh.
  { rewrite bind_app. replace ((PubStart <$> reqs) ≫= held) with (@nil nat) by (by induction reqs).
    by induction workers. }
  constructor; simpl; try done; [constructor; simpl; rewrite Hh; constructor|].
  intros i p Hp. apply list_elem_of_lookup_2, elem_of_app in Hp as [Hp|Hp].
  - apply list_elem_of_fmap in Hp as (r & -> & _). done.
  - by apply elem_of_replicate in Hp as [-> _].
Qed.

(** C12: recycled tasks do not mix publishes.  In every interleaving of any number
    of publishers (enqueuing or rolling back) and workers, whichever pooled task
    a publisher gets, each handler is called with exactly the context, message
    and callback of the publish that queued the task, and so is the log that
    reads the task again after a failure. *)
Theorem tasks_not_mixed reqs workers ls s : task_run ls (task_init reqs workers) = Some s -> Forall (fun x => x.2 = Some x.1) (ran s).
Proof.
  intros H. apply to_ran. revert H. generalize (task_ok_init reqs workers). generalize (task_init reqs workers).
  induction ls as [|[i l] ls IH]; simpl; intros s0 Hok H; [by simplify_eq|].
  apply bind_Some in H as (s1 & H1 & H2). eauto using task_ok_preserved.
Qed.
End Tasks.
End Tasks.

(** ** Scratch buffers

    The pooled encoders and compressors: take a buffer, reset it, write into it,
    copy the bytes to an array of their own, put the buffer back. *)
Module Scratch.
Section Scratch.
(** [ser]: what the serializer or compressor writes; [out]: what of it is
    copied (the JSON encoder's newline is cut off). *)
Context {D : Type} (ser : D -> res string) (out : D -> string -> string).

Inductive epc :=
  | EStart (d : D) | EGot (b : nat) (d : D) | EWrote (b : nat) (d : D) | ECopied (b : nat) (d : D) (o : nat)
  | EDone (d : D) (o : nat) | EFailed (b : nat) | EEnd.
Definition eids (p : epc) : list nat :=
  match p with EGot b _ | EWrote b _ | EFailed b => [b] | ECopied b _ o => [b; o] | EDone _ o => [o] | _ => [] end.

Record estate := ESt { heap : gmap nat string; pool : list nat; encs : list epc; enext : nat }.

Inductive elabel :=
  | EGet (pick : option nat)
  | EWrite (junk : string)   (* what a failing writer leaves behind *)
  | ECopy
  | EPut (keep : bool).      (* a large buffer is dropped, the pool may drop any *)

(** One action of goroutine [i]. *)
Definition encode_step (i : nat) (l : elabel) (s : estate) : option estate :=
  let go p h f n := Some (ESt h f (<[i := p]> (encs s)) n) in
  match encs s !! i, l with
  | Some (EStart d), EGet (Some k) => b ← pool s !! k; go (EGot b d) (heap s) (delete k (pool s)) (enext s)
  | Some (EStart d), EGet None => go (EGot (enext s) d) (<[enext s := ""]> (heap s)) (pool s) (S (enext s))
  | Some (EGot b d), EWrite junk =>
      match ser d with
      | Ok x => go (EWrote b d) (<[b := x]> (heap s)) (pool s) (enext s)
      | Er _ => go (EFailed b) (<[b := junk]> (heap s)) (pool s) (enext s)
      end
  | Some (EWrote b d), ECopy =>
      x ← heap s !! b; go (ECopied b d (enext s)) (<[enext s := out d x]> (heap s)) (pool s) (S (enext s))
  | Some (ECopied b d o), EPut keep => go (EDone d o) (heap s) (if keep then b :: pool s else pool s) (enext s)
  | Some (EFailed b), EPut keep => go EEnd (heap s) (if keep then b :: pool s else pool s) (enext s)
  | _, _ => None
  end.

Fixpoint encode_run (ls : list (nat * elabel)) (s : estate) : option estate :=
  match ls with [] => Some s | (i, l) :: ls' => s' ← encode_step i l s; encode_run ls' s' end.
Definition encode_init (ds : list D) : estate := ESt ∅ [] (EStart <$> ds) 0.

Definition holds (h : gmap nat string) (a : nat) (d : D) (f : string -> string) : Prop := exists x, ser d = Ok x /\ h !! a = Some (f x).
Definition epc_ok (h : gmap nat string) (p : epc) : Prop :=
  match p with EWrote b d => holds h b d id | ECopied _ d o | EDone d o => holds h o d (out d) | _ => True end.

Record enc_ok (s : estate) : Prop := {
  eo_own : own eids (pool s) (encs s) (enext s);
  eo_pcs : forall i p, encs s !! i = Some p -> epc_ok (heap s) p
}.

Lemma epc_ok_frame h h' p : (forall a, a ∈ eids p -> h' !! a = h !! a) -> epc_ok h p -> epc_ok h' p.
Proof.
  unfold epc_ok, holds. destruct p; simpl; try done; intros H (x & ? & ?); exists x; (split; [done|]); rewrite H by set_solver; done.
Qed.

(** A step of encoder [i] that writes only to what it holds afterwards. *)
Lemma enc_ok_step s i p p' h' f' n' :
  enc_ok s -> encs s !! i = Some p -> NoDup (f' ++ eids p') ->
  (forall a, a ∈ f' ++ eids p' -> a ∈ pool s ++ eids p \/ (enext s <= a < n')%nat) -> (enext s <= n')%nat ->
  (forall a, (a < enext s)%nat -> a ∉ eids p' -> h' !! a = heap s !! a) -> epc_ok h' p' ->
  enc_ok (ESt h' f' (<[i := p']> (encs s)) n').
Proof.
  intros [H1 H2] Hi Hn Hsub Hle Hh Hp. destruct (own_update eids _ _ _ i p p' _ n' H1 Hi Hn Hsub Hle) as [Ho Hoth].
  constructor; simpl; [done|]. intros k pk Hk. destruct (decide (k = i)) as [->|Hne].
  - rewrite list_lookup_insert_eq in Hk by (by eapply lookup_lt_Some). by simplify_eq.
  - rewrite list_lookup_insert_ne in Hk by done. apply (epc_ok_frame (heap s)); [|eauto].
    intros a Ha. destruct (Hoth k pk a Hne Hk Ha) as [Hna Hlt]. apply Hh; [done|set_solver].
Qed.

Lemma enc_ok_preserved i l s s' : enc_ok s -> encode_step i l s = Some s' -> enc_ok s'.
Proof.
  intros Hok Hs. unfold encode_step in Hs. destruct (encs s !! i) as [p|] eqn:Hi; [|done].
  pose proof (eo_pcs _ Hok i p Hi) as Hp. destruct (own_local eids _ _ _ i p (eo_own _ Hok) Hi) as [Hn Hlt].
  assert (enext s ∉ pool s ++ eids p) as Hnew by (intros Ha; pose proof (Forall_elem _ _ _ Hlt Ha); simpl in *; lia).
  destruct p as [d|b d|b d|b d o|d o|b|], l as [[k|]|junk| |keep]; try done; simpl in Hp, Hn, Hnew.
  - destruct (pool s !! k) as [b|] eqn:Hk; simplify_eq/=. rewrite app_nil_r in Hn, Hnew.
    assert (delete k (pool s) ++ [b] ≡ₚ pool s) as Hperm by (rewrite (delete_Permutation (pool s) k b Hk) at 2; by rewrite Permutation_app_comm).
    apply (enc_ok_step s i (EStart d)); simpl; try done; [by rewrite Hperm|].
    intros a. rewrite Hperm, app_nil_r. auto.
  - simplify_eq/=. rewrite app_nil_r in Hn, Hnew. apply (enc_ok_step s i (EStart d)); simpl; try done; [..|lia|].
    + rewrite Permutation_app_comm. by constructor.
    + intros a. rewrite !elem_of_app, list_elem_of_singleton. intros [?| ->]; [tauto|right; lia].
    + intros a Ha _. rewrite lookup_insert_ne; [done|lia].
  - destruct (ser d) as [x|e] eqn:Es; simplify_eq/=; apply (enc_ok_step s i (EGot b d)); simpl; try done; auto;
      [intros a _ Ha; rewrite lookup_insert_ne; [done|set_solver]| |intros a _ Ha; rewrite lookup_insert_ne; [done|set_solver]].
    exists x. split; [done|]. by rewrite lookup_insert_eq.
  - destruct Hp as (x & Hx & Hh). rewrite Hh in Hs. simplify_eq/=. apply (enc_ok_step s i (EWrote b d)); simpl; try done; [..|lia| |].
    + change [b; enext s] with ([b] ++ [enext s]). rewrite (assoc_L (++)), Permutation_app_comm. by constructor.
    + intros a. rewrite !elem_of_app, !elem_of_cons. set_unfold. intros [?|[->|[->|[]]]]; [tauto|tauto|right; lia].
    + intros a Ha _. rewrite lookup_insert_ne; [done|lia].
    + exists x. split; [done|]. by rewrite lookup_insert_eq.
  - destruct Hp as (x & Hx & Hh). simplify_eq/=. apply list.NoDup_app in Hn as (Hn1 & Hd & Hn2).
    apply (enc_ok_step s i (ECopied b d o)); simpl; try done; [..|by exists x].
    + assert (o ∉ pool s) as Ho by (intros Ho; apply (Hd o Ho); set_solver). assert (b <> o) by (inversion Hn2; set_solver).
      assert (b ∉ pool s) as Hb by (intros Hb; apply (Hd b Hb); set_solver).
      destruct keep; rewrite Permutation_app_comm; simpl; repeat constructor; set_solver.
    + intros a. destruct keep; set_solver.
  - simplify_eq/=. apply (enc_ok_step s i (EFailed b)); simpl; try done.
    + rewrite app_nil_r. destruct keep; [by rewrite Permutation_app_comm in Hn|]. by apply list.NoDup_app in Hn as (? & _ & _).
    + intros a. destruct keep; set_solver.
Qed.

Lemma enc_ok_init ds : enc_ok (encode_init ds).
Proof.
  assert ((EStart <$> ds) ≫= eids = []) as Hh by (by induction ds).
  constructor; simpl; [constructor; simpl; rewrite Hh; constructor|].
  intros i p Hp. apply list_elem_of_lookup_2, list_elem_of_fmap in Hp as (d & -> & _). done.
Qed.

(** Recycled buffers do not leak into results.  In every interleaving of any
    number of encodings, failing ones included, whichever pooled buffer each
    gets, the array an encoding has returned holds its own bytes: neither while
    it was written nor at any later moment does another encoding touch it. *)
Theorem encodings_not_mixed ds ls s i d o :
  encode_run ls (encode_init ds) = Some s -> encs s !! i = Some (EDone d o) -> exists x, ser d = Ok x /\ heap s !! o = Some (out d x).
Proof.
  intros H Hi. cut (enc_ok s); [intros Hok; exact (eo_pcs _ Hok i _ Hi)|]. clear Hi. revert H.
  generalize (enc_ok_init ds). generalize (encode_init ds). induction ls as [|[k l] ls IH]; simpl; intros s0 Hok H; [by simplify_eq|].
  apply bind_Some in H as (s1 & H1 & H2). eauto using enc_ok_preserved.
Qed.
End Scratch.
End Scratch.

(** ** Witnesses *)

(** Two publishes; the second one reuses the task the worker has put back. *)
Definition reuse_task : list (nat * Tasks.tlabel) :=
  [(0, Tasks.TGet None); (0, Tasks.TFill); (0, Tasks.TSend); (2, Tasks.TRecv); (2, Tasks.TRun); (2, Tasks.TLogError); (2, Tasks.TClear);
   (2, Tasks.TPut); (1, Tasks.TGet (Some 0)); (1, Tasks.TFill); (1, Tasks.TSend); (2, Tasks.TRecv); (2, Tasks.TRun)]%nat.
Lemma tasks_not_mixed_witness : exists s,
  Tasks.task_run reuse_task (Tasks.task_init ["first"; "second"] 1) = Some s /\
  (Tasks.ran s).*1 = ["first"; "first"; "second"] /\ Forall (fun x => x.2 = Some x.1) (Tasks.ran s).
Proof.
  eexists. split; [vm_compute; reflexivity|]. split; [reflexivity|].
  apply (Tasks.tasks_not_mixed ["first"; "second"] 1 reuse_task). vm_compute. reflexivity.
Defined.

(** The second encoding reuses the first one's buffer. *)
Definition reuse_buffer : list (nat * Scratch.elabel) :=
  [(0, Scratch.EGet None); (0, Scratch.EWrite ""); (0, Scratch.ECopy); (0, Scratch.EPut true);
   (1, Scratch.EGet (Some 0)); (1, Scratch.EWrite "")]%nat.
Lemma encodings_not_mixed_witness : exists s,
  Scratch.encode_run (fun d : string => Ok d) (fun _ x => x) reuse_buffer (Scratch.encode_init ["one"; "two"]) = Some s /\
  Scratch.heap s !! 0%nat = Some "two" /\ exists x, Ok "one" = Ok x /\ Scratch.heap s !! 1%nat = Some x.
Proof.
  eexists. split; [vm_compute; reflexivity|]. split; [reflexivity|].
  eapply (Scratch.encodings_not_mixed (fun d : string => Ok d) (fun _ x => x) ["one"; "two"] reuse_buffer _ 0 "one" 1);
    [vm_compute; reflexivity|reflexivity].
Defined.
