(* ===== verification/Message.v ===== *)
(** * Messages, headers and the object store (model.go, protocol.go, helpers.go)

    A Go map and a pointer to a struct are references: the builders of
    model.go and the header writers of codec.go and compress.go update a map
    the caller may share.  So header maps and [PublishExpectation] objects live
    in a [store] and a [Message] holds their addresses.  The methods of
    nats.go's [Header] type are the interface [NatsHeader]. *)

From S2P Require Import Prelude GoStr Validate.

(** ** Header maps *)

Notation header := (gmap string (list string)).

Definition HeaderContentType : string := "Nats-Content-Type".
Definition HeaderNATSContentType : string := HeaderContentType.
Definition HeaderMsgID : string := "Nats-Msg-Id".
Definition HeaderTraceID : string := "Trace-Id".
Definition HeaderContentEncoding : string := "Content-Encoding".

(** nats.go's [Header.Get] ("gets the first value associated with the given
    key; case-sensitive") and [Header.Del]. *)
Class NatsHeader := {
  hget : header -> string -> string;
  hdel : header -> string -> header;
  hget_first h k v vs : h !! k = Some (v :: vs) -> hget h k = v;
  hget_nil h k : h !! k = Some [] -> hget h k = "";
  hget_absent h k : h !! k = None -> hget h k = "";
  hdel_delete h k : hdel h k = delete k h
}.

(** A concrete header implementation, for the examples. *)
Definition first_value (h : header) (k : string) : string :=
  match h !! k with Some (v :: _) => v | _ => "" end.

#[global] Program Instance simple_header : NatsHeader :=
  {| hget := first_value; hdel := fun h k => delete k h |}.
Next Obligation. intros h k v vs E. unfold first_value. by rewrite E. Qed.
Next Obligation. intros h k E. unfold first_value. by rewrite E. Qed.
Next Obligation. intros h k E. unfold first_value. by rewrite E. Qed.
Next Obligation. done. Qed.

(** ** Data model *)

Definition JSON : Z := 1.
Definition Proto : Z := 2.
Definition MessagePack : Z := 3.
Definition Raw : Z := 4.

Definition ContentTypeJSON : string := "json".
Definition ContentTypeProto : string := "protobuf".
Definition ContentTypeMsgPack : string := "msgpack".

(** The dynamic type of a payload: a byte slice, a proto.Message, or another
    value (identified by a number). *)
Inductive any := ABytes (b : string) | AProto (n : nat) | AVal (n : nat).

Record PublishExpectation := Expectation {
  LastSeq : option Z; LastSeqPerSubject : option Z; eStream : string; LastMsgID : string
}.

Record Message := Msg {
  Data : any; Header : option nat; Expect : option nat; MType : Z
}.

Record store := Store { maps : list header; exps : list PublishExpectation }.

(** ** References *)

(** Reading a map; a nil map (or a dangling reference) reads as absent. *)
Definition read_map (s : store) (r : option nat) : option header := l ← r; maps s !! l.
Definition map_or_empty (s : store) (r : option nat) : header := default ∅ (read_map s r).
Definition alloc_map (h : header) (s : store) : nat * store :=
  (length (maps s), Store (maps s ++ [h]) (exps s)).
(** [m[k] = v] on a non-nil map *)
Definition write_map (l : nat) (k : string) (v : list string) (s : store) : store :=
  Store (alter (<[k := v]>) l (maps s)) (exps s).
(** [if m == nil { m = make(...) }] *)
Definition ensure_map (r : option nat) (s : store) : nat * store :=
  match r with Some l => (l, s) | None => alloc_map ∅ s end.
Definition ensure_exp (r : option nat) (s : store) : nat * store :=
  match r with
  | Some l => (l, s)
  | None => (length (exps s), Store (maps s) (exps s ++ [Expectation None None "" ""]))
  end.
Definition write_exp (l : nat) (f : PublishExpectation -> PublishExpectation) (s : store) : store :=
  Store (maps s) (alter f l (exps s)).

(** ** Message builders (value receivers on shared references) *)

Definition with_header (m : Message) (r : option nat) : Message := Msg (Data m) r (Expect m) (MType m).
Definition with_expect (m : Message) (l : nat) : Message := Msg (Data m) (Header m) (Some l) (MType m).

Definition WithMsgID (m : Message) (id : string) (s : store) : Message * store :=
  let '(l, s1) := ensure_map (Header m) s in
  (with_header m (Some l), write_map l HeaderMsgID [id] s1).

Definition with_exp_update (m : Message) (f : PublishExpectation -> PublishExpectation) (s : store)
  : Message * store :=
  let '(l, s1) := ensure_exp (Expect m) s in (with_expect m l, write_exp l f s1).

Definition WithExpectedStream (m : Message) (stream : string) : store -> Message * store :=
  with_exp_update m (fun e => Expectation (LastSeq e) (LastSeqPerSubject e) stream (LastMsgID e)).
Definition WithExpectedLastSeq (m : Message) (seq : Z) : store -> Message * store :=
  with_exp_update m (fun e => Expectation (Some seq) (LastSeqPerSubject e) (eStream e) (LastMsgID e)).
Definition WithExpectedLastSeqPerSubject (m : Message) (seq : Z) : store -> Message * store :=
  with_exp_update m (fun e => Expectation (LastSeq e) (Some seq) (eStream e) (LastMsgID e)).
Definition WithExpectedLastMsgID (m : Message) (id : string) : store -> Message * store :=
  with_exp_update m (fun e => Expectation (LastSeq e) (LastSeqPerSubject e) (eStream e) id).

(** ** validateOutboundSubject (helpers.go) *)

Definition ErrEmptySubjectNotAllowed : string := "nats.ErrEmptySubjectNotAllowed".

Definition validateOutboundSubject (subject op : string) (skip : bool) : option err :=
  if skip then None
  else match ValidatePublishSubject subject with
       | Some e =>
           if errors_is e ErrInvalidSubject && IsEmpty subject
           then Some (wrapf (op +:+ " subject=%q: %w") (Sentinel ErrEmptySubjectNotAllowed))
           else Some (wrapf (op +:+ " subject=%q: %w") e)
       | None => None
       end.

(** ** Lemmas *)

Lemma read_write_same l k v s h :
  maps s !! l = Some h -> read_map (write_map l k v s) (Some l) = Some (<[k := v]> h).
Proof. intros H. simpl. by rewrite list_lookup_alter_eq, H. Qed.

Lemma ensure_map_read r s l s1 :
  ensure_map r s = (l, s1) -> (r <> None -> is_Some (read_map s r)) ->
  maps s1 !! l = Some (map_or_empty s r).
Proof.
  destruct r as [l0|]; unfold ensure_map, alloc_map; intros H Hs; simplify_eq.
  - destruct (Hs ltac:(done)) as [h Hh]. unfold map_or_empty. simpl in *. by rewrite Hh.
  - by apply list_lookup_middle.
Qed.

(** The references of a message point into the store. *)
Definition msg_ok (s : store) (m : Message) : Prop :=
  (forall l, Header m = Some l -> is_Some (maps s !! l)) /\
  (forall l, Expect m = Some l -> is_Some (exps s !! l)).

Lemma msg_ok_header s m : msg_ok s m -> Header m <> None -> is_Some (read_map s (Header m)).
Proof. intros [H _]. destruct (Header m) as [l|] eqn:E; [|done]. intros _. simpl. by apply H. Qed.

(** ** Theorems *)

(** The builders return a message by value but write through the shared
    header map: when the base message already has headers, giving two derived
    messages different ids leaves both with the second one. *)
Theorem WithMsgID_shares_header (m : Message) (s : store) (l : nat) id1 id2 :
  msg_ok s m -> Header m = Some l ->
  let '(m1, s1) := WithMsgID m id1 s in
  let '(m2, s2) := WithMsgID m id2 s1 in
  exists h, read_map s2 (Header m1) = Some h /\ h !! HeaderMsgID = Some [id2] /\
    Header m2 = Header m1.
Proof.
  intros [Hok _] Hl. destruct (Hok l Hl) as [h Hh]. unfold WithMsgID. rewrite Hl. simpl.
  rewrite !list_lookup_alter_eq, Hh. simpl. eexists. split; [reflexivity|].
  split; [apply lookup_insert_eq|done].
Qed.

Lemma WithMsgID_shares_header_witness :
  let s := Store [ {[ "k" := ["v"] ]} ] [] in
  let m := Msg (ABytes "x") (Some 0%nat) None Raw in
  exists h, read_map (WithMsgID m "b" (WithMsgID m "a" s).2).2 (Some 0%nat) = Some h /\
    h !! HeaderMsgID = Some ["b"].
Proof.
  intros s m.
  pose proof (WithMsgID_shares_header m s 0 "a" "b") as H.
  destruct H as (h & H1 & H2 & _); [|done|by exists h].
  split; intros l E; simplify_eq/=. by eexists.
Defined.
