(* ===== verification/Compress.v ===== *)
(** * Payload compression (compress.go)

    Publisher-side compression with its size threshold and shrink-only rule,
    consumer-side decompression with its size cap.  The brotli and gzip codecs
    are the interface [Compressors]; buffer pooling is left out. *)

From S2P Require Import Prelude GoStr Validate Message.

Definition MinPayloadCompressBytes : Z := Z.shiftl 32 10.
Definition MaxPayloadDecompressBytes : Z := Z.shiftl 64 20.
Definition EncodingBrotli : string := "br".
Definition EncodingGzip : string := "gzip".

Definition PayloadCompressionOff : Z := 0.
Definition PayloadCompressionAuto : Z := 1.
Definition PayloadCompressionGzip : Z := 2.
Definition PayloadCompressionBrotli : Z := 3.

Definition ErrUnsupportedContentEncoding : string := "nats.ErrUnsupportedContentEncoding".
Definition ErrPayloadTooLarge : string := "nats.ErrPayloadTooLarge".

(** The third-party codecs. A writer turns the plain bytes into the bytes left
    in its buffer after [Close]; a reader yields bytes and then ends with EOF
    ([None]) or an error. A reader undoes the writer of its format. *)
Class Compressors := {
  brotli_write : string -> res string;
  brotli_read : string -> string * option err;
  gzip_write : string -> res string;
  gzip_open : string -> option err;
  gzip_read : string -> string * option err;
  brotli_inverse p c : brotli_write p = Ok c -> brotli_read c = (p, None);
  gzip_inverse p c : gzip_write p = Ok c -> gzip_open c = None /\ gzip_read c = (p, None)
}.

(** strings.ToLower as far as a comparison with ASCII text can tell: besides
    A-Z only U+0130 and U+212A lower to an ASCII letter. *)
Definition lower_rune (r : Z) : Z :=
  if (65 <=? r) && (r <=? 90) then r + 32 else if r =? 304 then 105 else if r =? 8490 then 107 else r.

Fixpoint drop_space (l : list Z) : list Z :=
  match l with [] => [] | r :: l' => if is_space r then drop_space l' else l end.
(** strings.TrimSpace, on runes *)
Definition trim_space (l : list Z) : list Z := rev (drop_space (rev (drop_space l))).

Definition normal_encoding (e : string) : list Z := lower_rune <$> trim_space (runes e).
Definition encoding_is (e lit : string) : bool :=
  bool_decide (normal_encoding e = bytes_of lit).

(** [io.ReadAll(io.LimitReader(r, n))] *)
Definition read_all_limit (n : Z) (r : string * option err) : res string :=
  let '(bs, e) := r in
  if n <=? slen bs then Ok (substring 0 (Z.to_nat n) bs)
  else match e with None => Ok bs | Some e => Er e end.

(** A nats.go message as the consumer side sees it. *)
Record NatsMsg := NMsg { nSubject : string; nData : string; nHeader : option header }.

Section Compress.
Context `{NH : NatsHeader} `{CP : Compressors}.

Definition compressBrotli (plain : string) : res string := brotli_write plain.
Definition compressGzip (plain : string) : res string := gzip_write plain.

Definition decompressBrotli (data : string) : res string :=
  match read_all_limit (MaxPayloadDecompressBytes + 1) (brotli_read data) with
  | Er e => Er (wrapf "brotli decompress: %w" e)
  | Ok out =>
      if MaxPayloadDecompressBytes <? slen out
      then Er (wrapf "%w: brotli exceeds %d bytes" (Sentinel ErrPayloadTooLarge)) else Ok out
  end.

Definition decompressGzip (data : string) : res string :=
  match gzip_open data with
  | Some e => Er (wrapf "gzip decompress: %w" e)
  | None =>
      match read_all_limit (MaxPayloadDecompressBytes + 1) (gzip_read data) with
      | Er e => Er (wrapf "gzip decompress: %w" e)
      | Ok out =>
          if MaxPayloadDecompressBytes <? slen out
          then Er (wrapf "%w: gzip exceeds %d bytes" (Sentinel ErrPayloadTooLarge)) else Ok out
      end
  end.

(** [if compressed, err := f(plain); err == nil && len(compressed) < len(plain)] *)
Definition shrinks (r : res string) (plain : string) : option string :=
  match r with Ok c => if slen c <? slen plain then Some c else None | Er _ => None end.

Definition MaybeCompressPayload (plain : string) : string * string * bool :=
  if slen plain <=? MinPayloadCompressBytes then (plain, "", false)
  else match shrinks (compressBrotli plain) plain with
       | Some c => (c, EncodingBrotli, true)
       | None =>
           match shrinks (compressGzip plain) plain with
           | Some c => (c, EncodingGzip, true)
           | None => (plain, "", false)
           end
       end.

Definition DecompressPayload (data encoding : string) : res string :=
  if encoding_is encoding "" || encoding_is encoding "identity" then Ok data
  else if encoding_is encoding EncodingBrotli then decompressBrotli data
  else if encoding_is encoding EncodingGzip then decompressGzip data
  else Er (wrapf "%w: %q" (Sentinel ErrUnsupportedContentEncoding)).

Definition compressPayloadAlgo (plain encoding : string) : string * string * bool :=
  if slen plain <=? MinPayloadCompressBytes then (plain, "", false)
  else
    let r := if String.eqb encoding EncodingGzip then Some (compressGzip plain)
             else if String.eqb encoding EncodingBrotli then Some (compressBrotli plain) else None in
    match r with
    | None => (plain, "", false)
    | Some (Er _) => (plain, "", false)
    | Some (Ok c) => if slen plain <=? slen c then (plain, "", false) else (c, encoding, true)
    end.

Definition contentEncodingFromHeader (h : option header) : string :=
  match h with
  | None => ""
  | Some m => match m !! HeaderContentEncoding with Some (v :: _) => v | _ => "" end
  end.

(** The switch on the mode; [None] is its default branch. *)
Definition compress_mode (mode : Z) (data : string) : option (string * string * bool) :=
  if mode =? PayloadCompressionAuto then Some (MaybeCompressPayload data)
  else if mode =? PayloadCompressionGzip then Some (compressPayloadAlgo data EncodingGzip)
  else if mode =? PayloadCompressionBrotli then Some (compressPayloadAlgo data EncodingBrotli)
  else None.

Definition applyPayloadCompression (mode : Z) (data : string) (hdr : option nat) (s : store)
  : string * option nat * store :=
  if mode =? PayloadCompressionOff then (data, hdr, s)
  else if negb (IsEmpty (contentEncodingFromHeader (read_map s hdr))) then (data, hdr, s)
  else match compress_mode mode data with
       | Some (out, enc, true) =>
           let '(l, s1) := ensure_map hdr s in
           (out, Some l, write_map l HeaderContentEncoding [enc] s1)
       | _ => (data, hdr, s)
       end.

(** The message is updated in place: the result is the new message. *)
Definition maybeDecompressMsg (msg : NatsMsg) : option err * NatsMsg :=
  match nHeader msg with
  | None => (None, msg)
  | Some h =>
      let enc := hget h HeaderContentEncoding in
      if IsEmpty enc then (None, msg)
      else match DecompressPayload (nData msg) enc with
           | Er e => (Some e, msg)
           | Ok out => (None, NMsg (nSubject msg) out (Some (hdel h HeaderContentEncoding)))
           end
  end.

(** ** Lemmas *)

Lemma slen_substring n s : Z.of_nat n <= slen s -> slen (substring 0 n s) = Z.of_nat n.
Proof.
  unfold slen. revert n. induction s as [|a s IH]; intros [|n] Hn; simpl in *; try lia.
  pose proof (IH n). lia.
Qed.

Lemma max_pos : 0 < MaxPayloadDecompressBytes.
Proof. done. Qed.

(** Reading back what a writer produced, under the cap. *)
Lemma read_capped p :
  match read_all_limit (MaxPayloadDecompressBytes + 1) (p, None) with
  | Er _ => False
  | Ok out => if slen p <=? MaxPayloadDecompressBytes then out = p
              else MaxPayloadDecompressBytes < slen out
  end.
Proof.
  pose proof max_pos. unfold read_all_limit. destruct (Z.leb_spec (MaxPayloadDecompressBytes + 1) (slen p)).
  - destruct (Z.leb_spec (slen p) MaxPayloadDecompressBytes); [lia|]. rewrite slen_substring; lia.
  - destruct (Z.leb_spec (slen p) MaxPayloadDecompressBytes); [done|lia].
Qed.

(** What decompressing a compressed payload must give. *)
Definition expands_to (r : res string) (p : string) : Prop :=
  if slen p <=? MaxPayloadDecompressBytes then r = Ok p
  else exists e, r = Er e /\ errors_is e ErrPayloadTooLarge = true.

Lemma brotli_expands p c : compressBrotli p = Ok c -> expands_to (decompressBrotli c) p.
Proof.
  intros Hc. unfold expands_to, decompressBrotli. rewrite (brotli_inverse p c Hc).
  pose proof (read_capped p) as Hr. pose proof max_pos.
  destruct (read_all_limit _ _) as [out|e]; [|done].
  destruct (Z.leb_spec (slen p) MaxPayloadDecompressBytes); subst;
    destruct (Z.ltb_spec MaxPayloadDecompressBytes (slen out)) || destruct (Z.ltb_spec MaxPayloadDecompressBytes (slen p));
    try lia; try done; eauto.
Qed.

Lemma gzip_expands p c : compressGzip p = Ok c -> expands_to (decompressGzip c) p.
Proof.
  intros Hc. unfold expands_to, decompressGzip. destruct (gzip_inverse p c Hc) as [-> ->].
  pose proof (read_capped p) as Hr. pose proof max_pos.
  destruct (read_all_limit _ _) as [out|e]; [|done].
  destruct (Z.leb_spec (slen p) MaxPayloadDecompressBytes); subst;
    destruct (Z.ltb_spec MaxPayloadDecompressBytes (slen out)) || destruct (Z.ltb_spec MaxPayloadDecompressBytes (slen p));
    try lia; try done; eauto.
Qed.

Lemma DecompressPayload_br d : DecompressPayload d EncodingBrotli = decompressBrotli d.
Proof. reflexivity. Qed.

Lemma DecompressPayload_gzip d : DecompressPayload d EncodingGzip = decompressGzip d.
Proof. reflexivity. Qed.

Lemma shrinks_Some r p c : shrinks r p = Some c -> r = Ok c /\ slen c < slen p.
Proof. unfold shrinks. destruct r; [|done]. destruct (Z.ltb_spec (slen a) (slen p)); naive_solver. Qed.

(** Every way of compressing: strictly smaller, above the threshold, and
    undone by [DecompressPayload] with the label it returns. *)
Lemma compress_mode_ok mode p out enc :
  compress_mode mode p = Some (out, enc, true) ->
  MinPayloadCompressBytes < slen p /\ slen out < slen p /\ enc <> "" /\
  expands_to (DecompressPayload out enc) p.
Proof.
  unfold compress_mode, MaybeCompressPayload, compressPayloadAlgo. intros E.
  destruct (Z.leb_spec (slen p) MinPayloadCompressBytes); [by repeat case_match; simplify_eq|].
  destruct (shrinks (compressBrotli p) p) as [c|] eqn:Eb;
    [|destruct (shrinks (compressGzip p) p) as [c'|] eqn:Eg];
    try (apply shrinks_Some in Eb as [Eb ?]); try (apply shrinks_Some in Eg as [Eg ?]);
    repeat case_match; simplify_eq; rewrite ?DecompressPayload_br, ?DecompressPayload_gzip;
    repeat match goal with Hx : (_ <=? _) = false |- _ => apply Z.leb_gt in Hx end;
    split_and!; auto using brotli_expands, gzip_expands.
Qed.

Lemma apply_cases mode data hdr s :
  applyPayloadCompression mode data hdr s = (data, hdr, s) \/
  exists out enc l s1, compress_mode mode data = Some (out, enc, true) /\
    contentEncodingFromHeader (read_map s hdr) = "" /\ ensure_map hdr s = (l, s1) /\
    applyPayloadCompression mode data hdr s = (out, Some l, write_map l HeaderContentEncoding [enc] s1).
Proof.
  unfold applyPayloadCompression. destruct (_ =? _); [by left|].
  destruct (IsEmpty _) eqn:Ee; [|by left]. apply IsEmpty_spec in Ee. simpl.
  destruct (compress_mode mode data) as [[[out enc] []]|] eqn:Em; [|by left..].
  destruct (ensure_map hdr s) as [l s1] eqn:El. right. eauto 10.
Qed.

(** C17: what the publisher compresses the consumer expands back: for a message
    that carries no Content-Encoding of its own, decompressing the published
    payload and header restores the payload, for every mode, up to the 64 MiB
    cap; beyond the cap a compressed payload is refused as too large.  A payload
    is only ever compressed above 32 KiB and when it gets strictly smaller. *)
Theorem compression_roundtrip mode data hdr s subject :
  (hdr <> None -> is_Some (read_map s hdr)) ->
  map_or_empty s hdr !! HeaderContentEncoding = None ->
  let '(wire, hdr', s') := applyPayloadCompression mode data hdr s in
  let '(e, m) := maybeDecompressMsg (NMsg subject wire (read_map s' hdr')) in
  if slen data <=? MaxPayloadDecompressBytes
  then e = None /\ nData m = data
  else (e = None /\ wire = data /\ nData m = data) \/
       (MinPayloadCompressBytes < slen data /\ slen wire < slen data /\
        is_err e ErrPayloadTooLarge = true).
Proof.
  intros Hok Hnone. destruct (apply_cases mode data hdr s) as [-> | (out & enc & l & s1 & Hm & _ & Hl & ->)].
  - assert (Hs : maybeDecompressMsg (NMsg subject data (read_map s hdr)) = (None, NMsg subject data (read_map s hdr))).
    { unfold maybeDecompressMsg. simpl. unfold map_or_empty in Hnone.
      destruct (read_map s hdr) as [h|]; simpl in *; [|done]. by rewrite hget_absent. }
    rewrite Hs. case_match; simpl; auto.
  - destruct (compress_mode_ok _ _ _ _ Hm) as (Hmin & Hsz & Henc & Hex).
    rewrite (read_write_same _ _ _ _ _ (ensure_map_read _ _ _ _ Hl Hok)).
    unfold maybeDecompressMsg. simpl. rewrite (hget_first _ _ enc []) by apply lookup_insert_eq.
    apply IsEmpty_false in Henc as ->. unfold expands_to in Hex.
    destruct (slen data <=? MaxPayloadDecompressBytes).
    + by rewrite Hex.
    + destruct Hex as (e & -> & He). right. simpl. by rewrite He.
Qed.

(** The header that goes on the wire: an empty map is sent as no header. *)
Definition sent_header (s : store) (r : option nat) : option header :=
  let h := map_or_empty s r in if bool_decide (h = ∅) then None else Some h.

Lemma sent_header_lookup s r k : default ∅ (sent_header s r) !! k = map_or_empty s r !! k.
Proof. unfold sent_header. case_bool_decide as E; simpl; [by rewrite E|done]. Qed.

Lemma sent_header_some s r h : read_map s r = Some h -> h <> ∅ -> sent_header s r = Some h.
Proof.
  intros E Hne. unfold sent_header. assert (map_or_empty s r = h) as -> by (unfold map_or_empty; by rewrite E).
  by rewrite bool_decide_eq_false_2.
Qed.

Lemma decompress_plain subject data ho :
  default ∅ ho !! HeaderContentEncoding = None ->
  maybeDecompressMsg (NMsg subject data ho) = (None, NMsg subject data ho).
Proof.
  intros Hn. unfold maybeDecompressMsg. simpl. destruct ho as [h|]; [|done].
  by rewrite hget_absent.
Qed.

(** Expanding what [applyPayloadCompression] produced restores the payload and
    every other header. *)
Lemma decompress_applied mode data hdr s subject wire hdr' s' :
  (hdr <> None -> is_Some (read_map s hdr)) ->
  map_or_empty s hdr !! HeaderContentEncoding = None ->
  slen data <= MaxPayloadDecompressBytes ->
  applyPayloadCompression mode data hdr s = (wire, hdr', s') ->
  exists m, maybeDecompressMsg (NMsg subject wire (sent_header s' hdr')) = (None, m) /\
    nData m = data /\
    forall k, k <> HeaderContentEncoding -> default ∅ (nHeader m) !! k = map_or_empty s hdr !! k.
Proof.
  intros Hok Hnone Hsz Ha.
  destruct (apply_cases mode data hdr s) as [E | (out & enc & l & s1 & Hm & _ & Hl & E)];
    rewrite E in Ha; simplify_eq.
  - rewrite decompress_plain by (by rewrite sent_header_lookup). eexists. split; [done|].
    simpl. split; [done|]. intros k _. apply sent_header_lookup.
  - destruct (compress_mode_ok _ _ _ _ Hm) as (_ & _ & Henc & Hex).
    pose proof (read_write_same _ HeaderContentEncoding [enc] _ _ (ensure_map_read _ _ _ _ Hl Hok)) as Hr.
    rewrite (sent_header_some _ _ _ Hr) by apply insert_non_empty.
    unfold maybeDecompressMsg. simpl. rewrite (hget_first _ _ enc []) by apply lookup_insert_eq.
    apply IsEmpty_false in Henc as ->. unfold expands_to in Hex.
    destruct (Z.leb_spec (slen data) MaxPayloadDecompressBytes); [|lia]. rewrite Hex.
    eexists. split; [done|]. simpl. split; [done|]. intros k Hk.
    by rewrite hdel_delete, lookup_delete_ne, lookup_insert_ne by done.
Qed.

(** What a label must make of a reader's answer: the bytes it yields, all of them
    and only without an error, when they are within the cap. *)
Definition fails_with (r : res string) (t : string) : Prop := exists e, r = Er e /\ errors_is e t = true.
Definition expanded (answer : string * option err) (r : res string) : Prop :=
  if MaxPayloadDecompressBytes <? slen answer.1 then fails_with r ErrPayloadTooLarge
  else match answer.2 with
       | None => r = Ok answer.1
       | Some e => exists e', r = Er e' /\ forall t, errors_is e' t = errors_is e t
       end.

(** Reading up to one byte beyond the cap decides. *)
Lemma read_expanded what big answer :
  expanded answer
    match read_all_limit (MaxPayloadDecompressBytes + 1) answer with
    | Er e => Er (wrapf what e)
    | Ok out => if MaxPayloadDecompressBytes <? slen out then Er (wrapf big (Sentinel ErrPayloadTooLarge)) else Ok out
    end.
Proof.
  destruct answer as [bs e]. unfold expanded, read_all_limit. simpl. pose proof max_pos.
  destruct (Z.ltb_spec MaxPayloadDecompressBytes (slen bs)), (Z.leb_spec (MaxPayloadDecompressBytes + 1) (slen bs)); try lia.
  - rewrite slen_substring by lia. rewrite Z2Nat.id by lia. destruct (Z.ltb_spec MaxPayloadDecompressBytes (MaxPayloadDecompressBytes + 1)); [|lia].
    eexists. split; [done|]. by rewrite errors_is_wrapf.
  - destruct e as [e|]; [eexists; split; [done|]; intros t; apply errors_is_wrapf|].
    by destruct (Z.ltb_spec MaxPayloadDecompressBytes (slen bs)); [lia|].
Qed.

Lemma encoding_only enc a b : encoding_is enc a = true -> bytes_of a <> bytes_of b -> encoding_is enc b = false.
Proof. unfold encoding_is. intros ->%bool_decide_eq_true Hne. by apply bool_decide_eq_false. Qed.

Ltac label_ne := done || (let E := fresh in intros E; vm_compute in E; discriminate E).

(** C30: decompression is exact and bounded.  An empty or identity label passes
    the data through; a brotli or gzip label yields precisely what the reader of
    that format yields, when it ends without an error and within 64 MiB, fails
    with the reader's error (a bad gzip header included) otherwise, and with
    [ErrPayloadTooLarge] beyond the cap; every other label fails with
    [ErrUnsupportedContentEncoding]. *)
Theorem DecompressPayload_bounded data enc :
  let r := DecompressPayload data enc in
  (encoding_is enc "" = true \/ encoding_is enc "identity" = true -> r = Ok data) /\
  (encoding_is enc EncodingBrotli = true -> expanded (brotli_read data) r) /\
  (encoding_is enc EncodingGzip = true ->
     match gzip_open data with
     | Some e => exists e', r = Er e' /\ forall t, errors_is e' t = errors_is e t
     | None => expanded (gzip_read data) r
     end) /\
  (Forall (fun l => encoding_is enc l = false) [""; "identity"; EncodingBrotli; EncodingGzip] ->
     fails_with r ErrUnsupportedContentEncoding).
Proof.
  intros r. unfold r, DecompressPayload. split_and!.
  - by intros [-> | ->]; rewrite ?orb_true_r.
  - intros E. rewrite (encoding_only enc EncodingBrotli "" E) by label_ne. rewrite (encoding_only enc EncodingBrotli "identity" E) by label_ne.
    rewrite E. simpl. unfold decompressBrotli. apply read_expanded.
  - intros E. rewrite (encoding_only enc EncodingGzip "" E) by label_ne. rewrite (encoding_only enc EncodingGzip "identity" E) by label_ne.
    rewrite (encoding_only enc EncodingGzip EncodingBrotli E) by label_ne. rewrite E. simpl. unfold decompressGzip.
    destruct (gzip_open data) as [e|]; [eexists; split; [done|]; intros t; apply errors_is_wrapf|]. apply read_expanded.
  - intros H. rewrite !list.Forall_cons in H. destruct H as (-> & -> & -> & -> & _). simpl. eexists. split; [reflexivity|]. by rewrite errors_is_wrapf.
Qed.

End Compress.

(** ** A concrete codec for the examples: repeat counting of one byte *)

Fixpoint rep (n : nat) (a : ascii) : string :=
  match n with O => "" | S n' => String a (rep n' a) end.

(** "compresses" exactly one payload, to the empty string *)
Definition toy_payload : string := rep 40000 "a".
Definition toy_write (p : string) : res string :=
  if String.eqb p toy_payload then Ok "z" else Er (errorf "toy").
Definition toy_read (c : string) : string * option err :=
  if String.eqb c "z" then (toy_payload, None) else ("", Some (errorf "toy")).

#[global] Program Instance toy_compressors : Compressors :=
  {| brotli_write := toy_write; brotli_read := toy_read; gzip_write := toy_write;
     gzip_open := fun _ => None; gzip_read := toy_read |}.
Next Obligation. intros p c. unfold toy_write. destruct (String.eqb_spec p toy_payload); naive_solver. Qed.
Next Obligation. intros p c. unfold toy_write. destruct (String.eqb_spec p toy_payload); naive_solver. Qed.

(** The bound at the concrete codec, whose reader rejects what it did not write. *)
Lemma DecompressPayload_bounded_witness :
  DecompressPayload "z" "gzip" = Ok toy_payload /\ DecompressPayload "raw" "identity" = Ok "raw" /\
  (exists e, DecompressPayload "raw" "br" = Er e) /\
  fails_with (DecompressPayload "raw" "zstd") ErrUnsupportedContentEncoding.
Proof.
  split_and!.
  - destruct (DecompressPayload_bounded "z" "gzip") as (_ & _ & H & _). specialize (H eq_refl).
    change (expanded (toy_payload, None) (DecompressPayload "z" "gzip")) in H. unfold expanded in H.
    assert (Hle : (MaxPayloadDecompressBytes <? slen toy_payload) = false) by (vm_compute; reflexivity).
    cbn [fst snd] in H. rewrite Hle in H. exact H.
  - by apply (DecompressPayload_bounded "raw" "identity"); right.
  - destruct (DecompressPayload_bounded "raw" "br") as (_ & H & _). specialize (H eq_refl).
    change (expanded ("", Some (errorf "toy")) (DecompressPayload "raw" "br")) in H.
    destruct H as (e & H & _). exists e. exact H.
  - apply (DecompressPayload_bounded "raw" "zstd"). repeat constructor.
Defined.

Lemma compression_roundtrip_witness :
  exists hdr' s', applyPayloadCompression PayloadCompressionAuto toy_payload None (Store [] []) =
    ("z", hdr', s') /\
  (maybeDecompressMsg (NMsg "a.b" "z" (read_map s' hdr'))).2.(nData) = toy_payload.
Proof.
  pose proof (compression_roundtrip PayloadCompressionAuto toy_payload None (Store [] []) "a.b"
                ltac:(done) ltac:(reflexivity)) as Hr.
  assert (Hd : exists hdr' s', applyPayloadCompression PayloadCompressionAuto toy_payload None
                 (Store [] []) = ("z", hdr', s')) by (do 2 eexists; vm_compute; reflexivity).
  destruct Hd as (hdr' & s' & Hd). exists hdr', s'. split; [exact Hd|]. rewrite Hd in Hr.
  destruct (maybeDecompressMsg _) as [e m].
  assert (Hle : (slen toy_payload <=? MaxPayloadDecompressBytes) = true) by (vm_compute; reflexivity).
  rewrite Hle in Hr. apply Hr.
Defined.

