(* ===== verification/Codec.v ===== *)
(** * Payload codecs and content types (codec.go)

    The JSON, protobuf and MessagePack libraries are the interface [Codecs];
    scratch-buffer pooling is left out. *)

From S2P Require Import Prelude GoStr Validate Message Compress.

Definition ErrInvalidMessageType : string := "nats.ErrInvalidMessageType".
Definition ErrInvalidTypeAssertion : string := "nats.ErrInvalidTypeAssertion".

(** The third-party serializers.  [json_encode] is what sonic's stream encoder
    leaves in the buffer: it ends with a newline.  [wire_safe] are the values a
    decoder restores exactly when given a destination of the value's own type. *)
Class Codecs := {
  json_encode : any -> res string;
  json_unmarshal : string -> res any;
  proto_marshal : any -> res string;
  proto_unmarshal : string -> res any;
  msgpack_encode : any -> res string;
  msgpack_unmarshal : string -> res any;
  wire_safe : any -> Prop;
  json_inverse v b : wire_safe v -> json_encode v = Ok b ->
    exists b', b = b' +:+ String "010" "" /\ json_unmarshal b' = Ok v;
  proto_inverse v b : wire_safe v -> proto_marshal v = Ok b -> proto_unmarshal b = Ok v;
  msgpack_inverse v b : wire_safe v -> msgpack_encode v = Ok b -> msgpack_unmarshal b = Ok v
}.

(** [if n := len(b); n > 0 && b[n-1] == '\n' { b = b[:n-1] }] *)
Fixpoint trim_newline (b : string) : string :=
  match b with
  | EmptyString => ""
  | String c EmptyString => if Ascii.eqb c "010" then "" else b
  | String c b' => String c (trim_newline b')
  end.

Section Codec.
Context `{NH : NatsHeader} `{CP : Compressors} `{CD : Codecs}.

Definition encodeJSONPooled (v : any) : res string := b <-! json_encode v ;; Ok (trim_newline b).
Definition encodeMsgPackPooled (v : any) : res string := msgpack_encode v.

Definition Encode (m : Message) : res string :=
  if MType m =? JSON then encodeJSONPooled (Data m)
  else if MType m =? Proto then
    match Data m with
    | AProto _ => proto_marshal (Data m)
    | _ => Er (wrapf "encode proto: %w" (Sentinel ErrInvalidTypeAssertion))
    end
  else if MType m =? MessagePack then encodeMsgPackPooled (Data m)
  else if MType m =? Raw then
    match Data m with
    | ABytes raw => Ok raw
    | _ => Er (wrapf "encode raw: %w" (Sentinel ErrInvalidTypeAssertion))
    end
  else Er (wrapf "encode: %w" (Sentinel ErrInvalidMessageType)).

(** [dst_proto]: the destination is a proto.Message. The result is what is
    stored through [dst]. *)
Definition Decode (data : string) (typ : Z) (dst_proto : bool) : res any :=
  if typ =? JSON then json_unmarshal data
  else if typ =? Proto then
    if dst_proto then proto_unmarshal data
    else Er (wrapf "decode proto: %w" (Sentinel ErrInvalidTypeAssertion))
  else if typ =? MessagePack then msgpack_unmarshal data
  else Er (wrapf "decode: %w" (Sentinel ErrInvalidMessageType)).

Definition DecodeProto (data : string) : res any := proto_unmarshal data.

Definition MessageTypeFromHeader (h : option header) : Z :=
  match h with
  | None => JSON
  | Some m =>
      let ct := hget m HeaderNATSContentType in
      if String.eqb ct ContentTypeProto then Proto
      else if String.eqb ct ContentTypeMsgPack then MessagePack else JSON
  end.

Definition DecodeMsg (msg : NatsMsg) (typ : Z) (dst_proto : bool) : res any :=
  Decode (nData msg) (if typ =? 0 then MessageTypeFromHeader (nHeader msg) else typ) dst_proto.

Definition DecodeMsgWithDecompress (msg : NatsMsg) (typ : Z) (dst_proto : bool) : res any :=
  let '(e, msg') := maybeDecompressMsg msg in
  match e with Some e => Er e | None => DecodeMsg msg' typ dst_proto end.

Definition validMessageType (typ : Z) : bool :=
  (typ =? JSON) || (typ =? Proto) || (typ =? MessagePack) || (typ =? Raw).

Definition applyContentTypeHeader (m : Message) (s : store) : Message * store :=
  let '(l, s1) := ensure_map (Header m) s in
  (with_header m (Some l),
   if MType m =? Proto then write_map l HeaderNATSContentType [ContentTypeProto] s1
   else if MType m =? MessagePack then write_map l HeaderNATSContentType [ContentTypeMsgPack] s1
   else if MType m =? Raw then s1
   else write_map l HeaderNATSContentType [ContentTypeJSON] s1).

(** [len(msg.Header) == 0] *)
Definition header_empty (s : store) (m : Message) : bool :=
  bool_decide (map_or_empty s (Header m) = ∅).

Definition has_content_type (s : store) (m : Message) : bool :=
  match map_or_empty s (Header m) !! HeaderNATSContentType with Some _ => true | None => false end.

Definition needsContentTypeHeader (s : store) (m : Message) : bool :=
  if MType m =? Raw then false
  else if (MType m =? JSON) || (MType m =? 0) then
    if header_empty s m then false else negb (has_content_type s m)
  else if header_empty s m then true
  else negb (has_content_type s m).

(** ** Lemmas *)

Lemma trim_newline_app b : trim_newline (b +:+ String "010" "") = b.
Proof.
  induction b as [|c b IH]; [reflexivity|]. destruct b as [|c' b]; [reflexivity|].
  simpl in *. by rewrite IH.
Qed.

Definition encodable (typ : Z) : bool := (typ =? JSON) || (typ =? Proto) || (typ =? MessagePack).

Lemma decode_encode m d :
  encodable (MType m) = true -> wire_safe (Data m) -> Encode m = Ok d ->
  Decode d (MType m) (MType m =? Proto) = Ok (Data m).
Proof.
  unfold encodable, Encode, Decode. intros Ht Hs He.
  destruct (MType m =? JSON).
  - unfold encodeJSONPooled in He. destruct (json_encode (Data m)) as [b|] eqn:E; simplify_eq.
    destruct (json_inverse _ _ Hs E) as (b' & -> & Hb). by rewrite trim_newline_app.
  - destruct (MType m =? Proto).
    + destruct (Data m) eqn:Ed; simplify_eq. by apply proto_inverse.
    + destruct (MType m =? MessagePack); [|done]. by apply msgpack_inverse.
Qed.

(** The content type of an [encodable] message as it goes on the wire. *)
Lemma content_type_type (h : header) typ :
  encodable typ = true ->
  h !! HeaderNATSContentType =
    (if typ =? Proto then Some [ContentTypeProto]
     else if typ =? MessagePack then Some [ContentTypeMsgPack] else Some [ContentTypeJSON]) ->
  MessageTypeFromHeader (Some h) = typ.
Proof.
  intros Ht Hh. unfold MessageTypeFromHeader. unfold encodable in Ht.
  destruct (typ =? Proto) eqn:E2; [apply Z.eqb_eq in E2; by rewrite (hget_first h _ _ _ Hh), E2|].
  destruct (typ =? MessagePack) eqn:E3; [apply Z.eqb_eq in E3; by rewrite (hget_first h _ _ _ Hh), E3|].
  rewrite (hget_first h _ _ _ Hh). destruct (typ =? JSON) eqn:E1; [apply Z.eqb_eq in E1; by rewrite E1|done].
Qed.

(** C40: every error of [Encode] on a caller's mistake is a classified sentinel:
    an unknown message type, or a payload whose dynamic type does not fit; and
    [Decode] of raw or unknown types is [ErrInvalidMessageType]. *)
Theorem codec_type_errors (m : Message) data dst :
  (validMessageType (MType m) = false ->
     is_err (res_err (Encode m)) ErrInvalidMessageType = true) /\
  (MType m = Raw -> (forall b, Data m <> ABytes b) ->
     is_err (res_err (Encode m)) ErrInvalidTypeAssertion = true) /\
  (MType m = Proto -> (forall n, Data m <> AProto n) ->
     is_err (res_err (Encode m)) ErrInvalidTypeAssertion = true) /\
  (encodable (MType m) = false ->
     is_err (res_err (Decode data (MType m) dst)) ErrInvalidMessageType = true).
Proof.
  unfold validMessageType, encodable, Encode, Decode.
  split_and!; intros Hm.
  - destruct (MType m =? JSON), (MType m =? Proto), (MType m =? MessagePack), (MType m =? Raw); done.
  - intros Hd. rewrite Hm. simpl. destruct (Data m) eqn:E; [by destruct (Hd b)|done..].
  - intros Hd. rewrite Hm. simpl. destruct (Data m) eqn:E; [done|by destruct (Hd n)|done].
  - destruct (MType m =? JSON), (MType m =? Proto), (MType m =? MessagePack); done.
Qed.

End Codec.

(** ** A concrete serializer for the examples *)

Definition toy_encode (v : any) : res string := match v with ABytes b => Ok b | _ => Er (errorf "toy") end.
Definition toy_json (v : any) : res string :=
  match v with ABytes b => Ok (b +:+ String "010" "") | _ => Er (errorf "toy") end.
Definition toy_decode (b : string) : res any := Ok (ABytes b).

#[global] Program Instance toy_codecs : Codecs :=
  {| json_encode := toy_json; json_unmarshal := toy_decode; proto_marshal := toy_encode;
     proto_unmarshal := toy_decode; msgpack_encode := toy_encode; msgpack_unmarshal := toy_decode;
     wire_safe := fun _ => True |}.
Next Obligation. intros [b| |] c _ E; simpl in E; simplify_eq. by exists b. Qed.
Next Obligation. intros [b| |] c _ E; simpl in E; by simplify_eq. Qed.
Next Obligation. intros [b| |] c _ E; simpl in E; by simplify_eq. Qed.

Lemma codec_type_errors_witness :
  is_err (res_err (Encode (Msg (AVal 3) None None Raw))) ErrInvalidTypeAssertion = true.
Proof. apply (codec_type_errors (Msg (AVal 3) None None Raw) "" false); done. Defined.
