(* ===== verification/Publisher.v ===== *)
(** * Publishing (publisher.go, tracing.go's header injection)

    JetStream is a parameter: [js_publish] and [js_async] answer the calls of
    [PublishMsg] and [PublishMsgAsync], [js_pending] is
    [PublishAsyncPending].  The world is the object store, the messages handed
    to JetStream so far and the recorded asynchronous error.  Spans and metrics
    are left out; the trace headers they inject are not. *)

From S2P Require Import Prelude GoStr Validate Message Compress Codec.

Definition ErrNatsConnectionNotEstablished : string := "nats.ErrNatsConnectionNotEstablished".
Definition ErrAsyncPublishPendingLimit : string := "nats.ErrAsyncPublishPendingLimit".
Definition defaultMaxAsyncPending : Z := 1024.

(** nats.go publish options *)
Inductive PubOpt :=
  | ExpectStream (s : string) | ExpectLastMsgId (s : string) | ExpectLastSequence (n : Z)
  | ExpectLastSequencePerSubject (n : Z) | OptMsgId (s : string) | OptContext.

(** What is handed to JetStream; the header as it is at that moment. *)
Record wire := Wire { wSubject : string; wData : string; wHeader : option header; wOpts : list PubOpt }.

Record publisher := MkPublisher {
  conn : option bool;            (* nil, or IsConnected() *)
  maxAsyncPending : Z; payloadCompression : Z; allowTracing : bool;
  skipSubjectValidation : bool; reconnectBufDisabled : bool
}.

Record PublisherConfig := MkPublisherConfig {
  cMaxAsyncPending : Z; cPayloadCompression : Z; cAllowTracing : bool; cSkipSubjectValidation : bool
}.

Definition newPublisher (cfg : PublisherConfig) (c : option bool) (reconnectBufSize : Z)
  (tracing : bool) : publisher :=
  {| conn := c;
     maxAsyncPending := if cMaxAsyncPending cfg =? 0 then defaultMaxAsyncPending else cMaxAsyncPending cfg;
     payloadCompression := cPayloadCompression cfg;
     allowTracing := tracing && cAllowTracing cfg;
     skipSubjectValidation := cSkipSubjectValidation cfg;
     reconnectBufDisabled := reconnectBufSize <? 0 |}.

Record world := World { objs : store; sent : list wire; asyncErr : option err }.
Definition with_objs (w : world) (s : store) : world := World s (sent w) (asyncErr w).
Definition log_sent (x : wire) (w : world) : world := World (objs w) (sent w ++ [x]) (asyncErr w).

(** The span of the publish context: whether it records, what
    [tel.InjectContext] does to the header map, and its trace id. *)
Record span := Span {
  recording : bool; inject : option nat -> store -> option nat * store; traceID : option string
}.
Definition no_span : span := Span false (fun r s => (r, s)) None.

Definition injectTraceContext (sp : span) (m : Message) (s : store) : Message * store :=
  if negb (recording sp) then (m, s)
  else
    let '(h, s1) := inject sp (Header m) s in
    match traceID sp with
    | Some id =>
        let '(l, s2) := ensure_map h s1 in
        (with_header m (Some l), write_map l HeaderTraceID [id] s2)
    | None => (with_header m h, s1)
    end.

(** The W3C propagation headers, which is what [tel.InjectContext] writes: it
    returns the map it was given, or a new one for nil, with no other key
    changed. *)
Definition propagation_keys : list string := ["traceparent"; "tracestate"; "baggage"].
Definition tame (sp : span) : Prop :=
  forall r s, (r <> None -> is_Some (read_map s r)) ->
  let '(r', s') := inject sp r s in
  (r' <> None -> is_Some (read_map s' r')) /\
  forall k, k ∉ propagation_keys -> map_or_empty s' r' !! k = map_or_empty s r !! k.

(** A span that records and propagates. *)
Definition demo_span : span :=
  Span true (fun r s => let '(l, s1) := ensure_map r s in (Some l, write_map l "traceparent" ["00-1-2-01"] s1)) (Some "1").

(** The keys publishing may add to a message's headers. *)
Definition publish_keys : list string := HeaderContentEncoding :: HeaderNATSContentType :: HeaderTraceID :: propagation_keys.

(** The deferred choice of [PublishAsyncComplete]'s select. *)
Inductive complete_event := EvDone | EvCtx (e : err) | EvClosed (e : err).

Section Publisher.
Context `{NH : NatsHeader} `{CP : Compressors} `{CD : Codecs}.
Variable js_publish js_async : list wire -> wire -> option err.
Variable js_pending : list wire -> Z.

Definition guardConnected (p : publisher) : option err :=
  if negb (reconnectBufDisabled p) then None
  else match conn p with
       | Some true => None
       | _ => Some (Sentinel ErrNatsConnectionNotEstablished)
       end.

Definition pub_validateSubject (p : publisher) (subject : string) : option err :=
  validateOutboundSubject subject "publish" (skipSubjectValidation p).

Definition preparePublish (p : publisher) (sp : span) (subject : string) (m : Message) (s : store)
  : res (string * Message) * store :=
  match guardConnected p with
  | Some e => (Er e, s)
  | None =>
  match pub_validateSubject p subject with
  | Some e => (Er e, s)
  | None =>
  if negb (validMessageType (MType m))
  then (Er (wrapf "publish subject=%q: %w" (Sentinel ErrInvalidMessageType)), s)
  else
    let '(m1, s1) := if allowTracing p then injectTraceContext sp m s else (m, s) in
    match Encode m1 with
    | Er e => (Er (wrapf "publish encode subject=%q: %w" e), s1)
    | Ok data =>
        let '(m2, s2) := if needsContentTypeHeader s1 m1 then applyContentTypeHeader m1 s1 else (m1, s1) in
        let '(data', h, s3) := applyPayloadCompression (payloadCompression p) data (Header m2) s2 in
        (Ok (data', with_header m2 h), s3)
    end
  end end.

Definition publishOptsFromMessage (s : store) (m : Message) : list PubOpt :=
  match (l ← Expect m; exps s !! l) with
  | None => []
  | Some e =>
      (if IsEmpty (eStream e) then [] else [ExpectStream (eStream e)]) ++
      (if IsEmpty (LastMsgID e) then [] else [ExpectLastMsgId (LastMsgID e)]) ++
      (match LastSeq e with Some n => [ExpectLastSequence n] | None => [] end) ++
      (match LastSeqPerSubject e with Some n => [ExpectLastSequencePerSubject n] | None => [] end)
  end.

Definition msg_id_opt (h : header) : list PubOpt :=
  let id := hget h HeaderMsgID in if IsEmpty id then [] else [OptMsgId id].

(** [publishMsg]; [ctx] says whether a context was given. *)
Definition publishMsg (ctx : bool) (subject data : string) (m : Message) (w : world)
  : option err * world :=
  let opts := publishOptsFromMessage (objs w) m ++ (if ctx then [OptContext] else []) in
  let x := if header_empty (objs w) m then Wire subject data None opts
           else let h := map_or_empty (objs w) (Header m) in
                Wire subject data (Some h) (opts ++ msg_id_opt h) in
  (js_publish (sent w) x, log_sent x w).

Definition publishAsyncMsg (subject data : string) (m : Message) (w : world) : option err * world :=
  let opts := publishOptsFromMessage (objs w) m in
  let h := map_or_empty (objs w) (Header m) in
  let x := if header_empty (objs w) m && bool_decide (length opts = 0%nat) then Wire subject data None []
           else Wire subject data (Some h) (opts ++ msg_id_opt h) in
  (js_async (sent w) x, log_sent x w).

Definition guardAsyncPending (p : publisher) (w : world) : option err :=
  if maxAsyncPending p <? 0 then None
  else if maxAsyncPending p <=? js_pending (sent w) then Some (Sentinel ErrAsyncPublishPendingLimit)
  else None.

Definition PublishMessage (p : publisher) (sp : span) (ctx : bool) (subject : string) (m : Message)
  (w : world) : option err * world :=
  match preparePublish p sp subject m (objs w) with
  | (Er e, s') => (Some e, with_objs w s')
  | (Ok (data, m'), s') =>
      match publishMsg ctx subject data m' (with_objs w s') with
      | (Some e, w') => (Some (wrapf "publish subject=%q: %w" e), w')
      | (None, w') => (None, w')
      end
  end.

Definition publishAsync (p : publisher) (sp : span) (subject : string) (m : Message) (w : world)
  : option err * world :=
  match guardAsyncPending p w with
  | Some e => (Some e, w)
  | None =>
      match preparePublish p sp subject m (objs w) with
      | (Er e, s') => (Some e, with_objs w s')
      | (Ok (data, m'), s') =>
          match publishAsyncMsg subject data m' (with_objs w s') with
          | (Some e, w') => (Some (wrapf "publish async subject=%q: %w" e), w')
          | (None, w') => (None, w')
          end
      end
  end.

Definition plain (d : any) (typ : Z) : Message := Msg d None None typ.

Definition PublishProto p sp ctx subject d := PublishMessage p sp ctx subject (plain d Proto).
Definition PublishJSON p sp ctx subject d := PublishMessage p sp ctx subject (plain d JSON).
Definition PublishMsgPack p sp ctx subject d := PublishMessage p sp ctx subject (plain d MessagePack).
Definition PublishBytes p sp ctx subject b := PublishMessage p sp ctx subject (plain (ABytes b) Raw).

Definition PublishWithMsgID p sp ctx subject id (m : Message) (w : world) : option err * world :=
  let '(m', s') := WithMsgID m id (objs w) in PublishMessage p sp ctx subject m' (with_objs w s').
Definition PublishBytesWithMsgID p sp ctx subject id b :=
  PublishWithMsgID p sp ctx subject id (plain (ABytes b) Raw).

Definition PublishAsync p sp subject m := publishAsync p sp subject m.
Definition PublishAsyncBytes p sp subject b := publishAsync p sp subject (plain (ABytes b) Raw).

(** Headers are a list of key/value pairs with distinct keys (a Go map). *)
Definition PublishRaw (p : publisher) (ctx : bool) (subject data : string) (headers : gmap string string)
  (w : world) : option err * world :=
  match guardConnected p with
  | Some e => (Some e, w)
  | None =>
  match pub_validateSubject p subject with
  | Some e => (Some e, w)
  | None =>
    let '(l, s1) := alloc_map ((fun v => [v]) <$> headers) (objs w) in
    let '(data', h, s2) := applyPayloadCompression (payloadCompression p) data (Some l) s1 in
    let x := Wire subject data' (sent_header s2 h) (if ctx then [OptContext] else []) in
    let w' := log_sent x (with_objs w s2) in
    match js_publish (sent w) x with
    | Some e => (Some (wrapf "publish raw subject=%q: %w" e), w')
    | None => (None, w')
    end
  end end.

Definition noteAsyncErr (e : option err) (w : world) : world :=
  match e, asyncErr w with
  | Some e, None => World (objs w) (sent w) (Some e)
  | _, _ => w
  end.

Definition takeAsyncErr (w : world) : option err * world :=
  (asyncErr w, World (objs w) (sent w) None).

Definition PublishAsyncComplete (ev : complete_event) (w : world) : option err * world :=
  let '(e, w') := takeAsyncErr w in
  match ev, e with
  | EvDone, _ => (e, w')
  | _, Some e => (Some e, w')
  | EvCtx c, None | EvClosed c, None => (Some c, w')
  end.

(** ** Lemmas *)

(** The three guards every publish call passes before JetStream is reached. *)
Definition admitted (p : publisher) (subject : string) : Prop :=
  (reconnectBufDisabled p = true -> conn p = Some true) /\
  (skipSubjectValidation p = false -> ValidatePublishSubject subject = None).

Lemma guards_admitted p subject :
  guardConnected p = None -> pub_validateSubject p subject = None -> admitted p subject.
Proof.
  unfold guardConnected, pub_validateSubject, validateOutboundSubject, admitted. intros Hg Hv.
  split; intros Hb; rewrite Hb in *; simpl in *; [|by repeat case_match].
  by destruct (conn p) as [[]|].
Qed.

Lemma preparePublish_Ok p sp subject m s d m' s' :
  preparePublish p sp subject m s = (Ok (d, m'), s') ->
  admitted p subject /\ validMessageType (MType m) = true /\
  exists m1 s1 data m2 s2,
    (if allowTracing p then injectTraceContext sp m s else (m, s)) = (m1, s1) /\
    Encode m1 = Ok data /\
    (if needsContentTypeHeader s1 m1 then applyContentTypeHeader m1 s1 else (m1, s1)) = (m2, s2) /\
    applyPayloadCompression (payloadCompression p) data (Header m2) s2 = (d, Header m', s') /\
    m' = with_header m2 (Header m').
Proof.
  unfold preparePublish. intros E.
  destruct (guardConnected p) eqn:Eg; [done|]. destruct (pub_validateSubject p subject) eqn:Ev; [done|].
  destruct (validMessageType (MType m)); [|done]. simpl in E.
  destruct (if allowTracing p then _ else _) as [m1 s1] eqn:E1.
  destruct (Encode m1) as [data|] eqn:Ee; [|done].
  destruct (if needsContentTypeHeader _ _ then _ else _) as [m2 s2] eqn:E2.
  destruct (applyPayloadCompression _ _ _ _) as [[data' h] s3] eqn:E3. simplify_eq.
  split; [by apply guards_admitted|]. split; [done|]. eauto 10.
Qed.

(** The content-type step leaves the content encoding alone, keeps the
    references valid, and labels an encodable message with its type. *)
Lemma content_type_step s m m2 s2 :
  msg_ok s m -> encodable (MType m) = true ->
  map_or_empty s (Header m) !! HeaderNATSContentType = None ->
  (if needsContentTypeHeader s m then applyContentTypeHeader m s else (m, s)) = (m2, s2) ->
  (Header m2 <> None -> is_Some (read_map s2 (Header m2))) /\
  map_or_empty s2 (Header m2) !! HeaderContentEncoding = map_or_empty s (Header m) !! HeaderContentEncoding /\
  (map_or_empty s2 (Header m2) !! HeaderNATSContentType =
     (if MType m =? Proto then Some [ContentTypeProto]
      else if MType m =? MessagePack then Some [ContentTypeMsgPack] else Some [ContentTypeJSON]) \/
   MType m = JSON /\ map_or_empty s2 (Header m2) !! HeaderNATSContentType = None).
Proof.
  intros Hok Ht Hn E. pose proof (msg_ok_header s m Hok) as Hh.
  destruct (needsContentTypeHeader s m) eqn:En.
  - unfold applyContentTypeHeader in E. destruct (ensure_map (Header m) s) as [l s1] eqn:El.
    pose proof (ensure_map_read _ _ _ _ El Hh) as Hl.
    assert (Hraw : (MType m =? Raw) = false).
    { unfold needsContentTypeHeader in En. by destruct (MType m =? Raw). }
    rewrite Hraw in E.
    assert (Hw : forall v, Some (<[HeaderNATSContentType := v]> (map_or_empty s (Header m))) =
                   read_map (write_map l HeaderNATSContentType v s1) (Some l)).
    { intros v. symmetry. by apply read_write_same. }
    destruct (MType m =? Proto), (MType m =? MessagePack); simplify_eq; unfold map_or_empty at 1 3;
      cbn [Header with_header]; rewrite <- Hw; simpl;
      (split; [eauto|]; split; [by rewrite lookup_insert_ne|left; apply lookup_insert_eq]).
  - simplify_eq. split; [done|]. split; [done|]. right. split; [|done].
    unfold needsContentTypeHeader, has_content_type in En. rewrite Hn in En.
    unfold encodable in Ht. destruct (MType m2 =? JSON) eqn:E1; [by apply Z.eqb_eq|]. exfalso.
    assert (MType m2 = Proto \/ MType m2 = MessagePack) as [E2|E2]
      by (apply orb_true_iff in Ht as [?|?]; [left|right]; by apply Z.eqb_eq);
      rewrite E2 in En; simpl in En; by destruct (header_empty _ _).
Qed.

Lemma content_type_keeps s m l h m2 s2 :
  Header m = Some l -> maps s !! l = Some h ->
  (if needsContentTypeHeader s m then applyContentTypeHeader m s else (m, s)) = (m2, s2) ->
  Header m2 = Some l /\
  exists h2, maps s2 !! l = Some h2 /\ h2 !! HeaderContentEncoding = h !! HeaderContentEncoding.
Proof.
  intros Hl Hh E. destruct (needsContentTypeHeader s m); [|simplify_eq; eauto].
  unfold applyContentTypeHeader in E. rewrite Hl in E. simpl in E.
  repeat case_match; simplify_eq; split; try done; simpl; rewrite ?list_lookup_alter_eq, ?Hh; simpl;
    eexists; split; try reflexivity; by rewrite ?lookup_insert_ne.
Qed.

Lemma publishMsg_sent ctx subject d m w e w' :
  publishMsg ctx subject d m w = (e, w') ->
  exists x, w' = log_sent x w /\ e = js_publish (sent w) x /\ wSubject x = subject /\ wData x = d /\
    wHeader x = sent_header (objs w) (Header m).
Proof.
  unfold publishMsg. intros E. simplify_eq. eexists. split; [done|]. split; [done|].
  unfold header_empty, sent_header. by case_bool_decide.
Qed.

(** Publishing a message whose preparation is known. *)
Lemma PublishMessage_prepared p sp ctx subject m w d m' s' :
  preparePublish p sp subject m (objs w) = (Ok (d, m'), s') ->
  exists x w', w' = log_sent x (with_objs w s') /\
    (PublishMessage p sp ctx subject m w).2 = w' /\
    ((PublishMessage p sp ctx subject m w).1 = None <-> js_publish (sent w) x = None) /\
    wSubject x = subject /\ wData x = d /\ wHeader x = sent_header s' (Header m').
Proof.
  intros Hp. unfold PublishMessage. rewrite Hp.
  destruct (publishMsg _ _ _ _ _) as [e w'] eqn:Ew.
  destruct (publishMsg_sent _ _ _ _ _ _ _ Ew) as (x & -> & -> & H1 & H2 & H3).
  exists x, (log_sent x (with_objs w s')). simpl.
  destruct (js_publish (sent w) x); simpl; split_and!; auto; naive_solver.
Qed.

Lemma sent_snoc (w : world) s' x y : sent (log_sent x (with_objs w s')) = sent w ++ [y] -> x = y.
Proof. simpl. intros E. by apply app_inj_2 in E as [_ E]; simplify_eq. Qed.

(** A compressed payload leaves its label in the map; a label in the map turns
    compression off. *)
Definition labelled (s : store) (l : nat) (enc : string) : Prop :=
  exists h, maps s !! l = Some h /\ h !! HeaderContentEncoding = Some [enc] /\ enc <> "".

Lemma compressed_labels mode data l h s out r s' :
  maps s !! l = Some h -> applyPayloadCompression mode data (Some l) s = (out, r, s') ->
  out <> data -> r = Some l /\ exists enc, labelled s' l enc.
Proof.
  intros Hh Ha Hne.
  destruct (apply_cases mode data (Some l) s) as [E | (o & enc & l' & s1 & Hm & _ & Hl & E)];
    rewrite E in Ha; simplify_eq/=.
  destruct (compress_mode_ok _ _ _ _ Hm) as (_ & _ & Henc & _).
  split; [done|].
  exists enc, (<[HeaderContentEncoding := [enc]]> h). split; [|split; [apply lookup_insert_eq|done]].
  simpl. by rewrite list_lookup_alter_eq, Hh.
Qed.

Lemma labelled_passthrough mode data l s enc :
  labelled s l enc -> applyPayloadCompression mode data (Some l) s = (data, Some l, s).
Proof.
  intros (h & Hh & He & Hne). unfold applyPayloadCompression, read_map, contentEncodingFromHeader.
  simpl. rewrite Hh, He. apply IsEmpty_false in Hne. rewrite Hne. by destruct (_ =? _).
Qed.

Lemma prepare_labelled p sp subject m s l d enc :
  Header m = Some l -> labelled s l enc -> allowTracing p = false -> Encode m = Ok d ->
  guardConnected p = None -> pub_validateSubject p subject = None ->
  validMessageType (MType m) = true ->
  exists m' s', preparePublish p sp subject m s = (Ok (d, m'), s') /\ Header m' = Some l /\
    labelled s' l enc.
Proof.
  intros Hl (h & Hh & Hce & Hne) Htr He Hg Hv Ht. unfold preparePublish.
  rewrite Hg, Hv, Ht, Htr, He. simpl.
  destruct (if needsContentTypeHeader _ _ then _ else _) as [m2 s2] eqn:E2.
  destruct (content_type_keeps _ _ _ _ _ _ Hl Hh E2) as (Hl2 & h2 & Hh2 & Hce2).
  assert (Hlab : labelled s2 l enc) by (exists h2; by rewrite Hce2).
  rewrite Hl2, (labelled_passthrough _ _ _ _ enc) by done. eauto.
Qed.

Lemma labelled_sent s l enc :
  labelled s l enc -> contentEncodingFromHeader (sent_header s (Some l)) = enc /\ enc <> "".
Proof.
  intros (h & Hh & Hce & Hne). rewrite (sent_header_some s (Some l) h) by (done || by intros ->).
  simpl. by rewrite Hce.
Qed.

(** *** What arrives of a published message *)

(** One header step: the reference stays valid and only [keys] may change. *)
Definition frame (keys : list string) (r : option nat) (s : store) (r' : option nat) (s' : store) : Prop :=
  (r <> None -> is_Some (read_map s r)) ->
  (r' <> None -> is_Some (read_map s' r')) /\
  forall k, k ∉ keys -> map_or_empty s' r' !! k = map_or_empty s r !! k.

Lemma frame_refl keys r s : frame keys r s r s.
Proof. done. Qed.

Lemma frame_trans k1 k2 r s r1 s1 r2 s2 :
  frame k1 r s r1 s1 -> frame k2 r1 s1 r2 s2 -> frame (k1 ++ k2) r s r2 s2.
Proof.
  intros H1 H2 Hok. destruct (H1 Hok) as [Hok1 E1]. destruct (H2 Hok1) as [Hok2 E2]. split; [done|].
  intros k [Hk1 Hk2]%not_elem_of_app. by rewrite E2, E1.
Qed.

Lemma frame_write r s l s1 k v : ensure_map r s = (l, s1) -> frame [k] r s (Some l) (write_map l k v s1).
Proof.
  intros E Hok. pose proof (read_write_same l k v s1 _ (ensure_map_read _ _ _ _ E Hok)) as Hr.
  split; [intros _; by rewrite Hr|]. intros k' Hk'%not_elem_of_cons. unfold map_or_empty at 1. rewrite Hr. simpl.
  apply lookup_insert_ne. naive_solver.
Qed.

Lemma demo_span_tame : tame demo_span.
Proof.
  intros r s Hok. simpl. destruct (ensure_map r s) as [l s1] eqn:E.
  destruct (frame_write r s l s1 "traceparent" ["00-1-2-01"] E Hok) as [H1 H2]. split; [done|].
  intros k Hk. apply H2. unfold propagation_keys in Hk. set_solver.
Qed.

(** Tracing is off, or the span does what propagation does. *)
Definition traces_tame (p : publisher) (sp : span) : Prop := allowTracing p && recording sp = true -> tame sp.

Lemma trace_frame p sp m s m1 s1 :
  traces_tame p sp -> (if allowTracing p then injectTraceContext sp m s else (m, s)) = (m1, s1) ->
  m1 = with_header m (Header m1) /\ frame (HeaderTraceID :: propagation_keys) (Header m) s (Header m1) s1.
Proof.
  intros Ht E. unfold traces_tame, injectTraceContext in *. destruct m as [d r ex t].
  destruct (allowTracing p); [|by simplify_eq]. destruct (recording sp); simpl in *; [|by simplify_eq].
  pose proof (Ht eq_refl r s) as Hin. destruct (inject sp r s) as [r' s'] eqn:Ei.
  assert (frame propagation_keys r s r' s') as Hf by exact Hin.
  destruct (traceID sp) as [tid|].
  - destruct (ensure_map r' s') as [l s2] eqn:El. simplify_eq. split; [done|]. simpl.
    pose proof (frame_trans _ _ _ _ _ _ _ _ Hf (frame_write r' s' l s2 HeaderTraceID [tid] El)) as H. intros Hok.
    destruct (H Hok) as [H1 H2]. split; [done|]. intros k Hk. apply H2. set_solver.
  - simplify_eq. split; [done|]. simpl. intros Hok. destruct (Hf Hok) as [H1 H2]. split; [done|].
    intros k Hk. apply H2. set_solver.
Qed.

Lemma content_type_frame m s m2 s2 :
  (if needsContentTypeHeader s m then applyContentTypeHeader m s else (m, s)) = (m2, s2) ->
  frame [HeaderNATSContentType] (Header m) s (Header m2) s2.
Proof.
  intros E. destruct (needsContentTypeHeader s m) eqn:En; [|by simplify_eq].
  assert ((MType m =? Raw) = false) as Hraw by (unfold needsContentTypeHeader in En; by destruct (MType m =? Raw)).
  unfold applyContentTypeHeader in E. destruct (ensure_map (Header m) s) as [l s1] eqn:El. rewrite Hraw in E.
  destruct (MType m =? Proto), (MType m =? MessagePack); simplify_eq; simpl; by apply frame_write.
Qed.

Lemma compression_frame mode data r s d' r' s' :
  applyPayloadCompression mode data r s = (d', r', s') -> frame [HeaderContentEncoding] r s r' s'.
Proof.
  intros E. destruct (apply_cases mode data r s) as [E'|(o & enc & l & s1 & _ & _ & El & E')]; rewrite E' in E; simplify_eq;
    [done|by apply frame_write].
Qed.

Lemma decompress_subject m : nSubject (maybeDecompressMsg m).2 = nSubject m.
Proof. unfold maybeDecompressMsg. repeat case_match; done. Qed.

(** An admitted message of a valid type that encodes to [b]: exactly one message
    goes out, with the caller's headers but for the keys publishing may add, and
    a consumer expands it to [b] with the caller's headers. *)
Lemma publish_delivers p sp ctx subject m w b :
  traces_tame p sp -> guardConnected p = None -> pub_validateSubject p subject = None ->
  validMessageType (MType m) = true -> Encode m = Ok b -> slen b <= MaxPayloadDecompressBytes ->
  (Header m <> None -> is_Some (read_map (objs w) (Header m))) ->
  map_or_empty (objs w) (Header m) !! HeaderContentEncoding = None ->
  let '(e, w') := PublishMessage p sp ctx subject m w in
  exists x, sent w' = sent w ++ [x] /\ wSubject x = subject /\ (e = None <-> js_publish (sent w) x = None) /\
    (forall k, k ∉ publish_keys -> default ∅ (wHeader x) !! k = map_or_empty (objs w) (Header m) !! k) /\
    exists nm, maybeDecompressMsg (NMsg subject (wData x) (wHeader x)) = (None, nm) /\ nData nm = b /\ nSubject nm = subject /\
      forall k, k ∉ publish_keys -> default ∅ (nHeader nm) !! k = map_or_empty (objs w) (Header m) !! k.
Proof.
  intros Ht Hg Hv Hty He Hsz Hok Hce.
  destruct (if allowTracing p then injectTraceContext sp m (objs w) else (m, objs w)) as [m1 s1] eqn:E1.
  destruct (trace_frame p sp m (objs w) m1 s1 Ht E1) as [Hm1 F1].
  destruct (if needsContentTypeHeader s1 m1 then applyContentTypeHeader m1 s1 else (m1, s1)) as [m2 s2] eqn:E2.
  pose proof (content_type_frame m1 s1 m2 s2 E2) as F2.
  destruct (applyPayloadCompression (payloadCompression p) b (Header m2) s2) as [[d' hr] s3] eqn:E3.
  pose proof (compression_frame _ _ _ _ _ _ _ E3) as F3.
  destruct (frame_trans _ _ _ _ _ _ _ _ F1 F2 Hok) as [Hok2 K2].
  destruct (frame_trans _ _ _ _ _ _ _ _ (frame_trans _ _ _ _ _ _ _ _ F1 F2) F3 Hok) as [_ K3].
  assert (preparePublish p sp subject m (objs w) = (Ok (d', with_header m2 hr), s3)) as Hp.
  { unfold preparePublish. rewrite Hg, Hv, Hty. simpl. rewrite E1, Hm1. change (Encode (with_header m (Header m1))) with (Encode m).
    rewrite He, <- Hm1, E2, E3. done. }
  destruct (PublishMessage_prepared p sp ctx subject m w _ _ _ Hp) as (x & w' & -> & Hw & Hj & Hs & Hd & Hh).
  destruct (PublishMessage p sp ctx subject m w) as [e w1]. simpl in Hw, Hj. subst w1. exists x.
  split; [done|]. split; [done|]. split; [done|]. rewrite Hd, Hh. split.
  - intros k Hk. rewrite sent_header_lookup. apply K3. unfold publish_keys in Hk. set_solver.
  - destruct (decompress_applied (payloadCompression p) b (Header m2) s2 subject d' hr s3) as (nm & Hm & Hmd & Hmh); [done| |done|done|].
    { rewrite K2; [done|]. apply not_elem_of_app. split; apply (bool_decide_unpack _); vm_compute; exact I. }
    exists nm. split_and!; [done|done| |].
    + pose proof (decompress_subject (NMsg subject d' (sent_header s3 (Header (with_header m2 hr))))) as Hsub.
      simpl in Hsub. by rewrite Hm in Hsub.
    + intros k Hk. rewrite Hmh, K2; [done|unfold publish_keys in Hk; set_solver..].
Qed.

(** ** Theorems *)

(** The errors of a call carry those of [e]: [errors.Is] answers the same. *)
Definition carries_error (o : option err) (e : err) : Prop :=
  exists e', o = Some e' /\ forall t, errors_is e' t = errors_is e t.

Lemma world_same w : with_objs w (objs w) = w.
Proof. by destruct w. Qed.

Lemma admitted_guards p subject :
  admitted p subject -> guardConnected p = None /\ pub_validateSubject p subject = None.
Proof.
  unfold guardConnected, pub_validateSubject, validateOutboundSubject, admitted. intros [H1 H2]. split.
  - destruct (reconnectBufDisabled p); [|done]. by rewrite H1.
  - destruct (skipSubjectValidation p); [done|]. by rewrite H2.
Qed.

(** C39: every guard of a publish, in order, with its error; a refused call hands
    nothing to JetStream and one that passes hands over exactly one message and
    reports JetStream's verdict.  No connection while the reconnect buffer is
    disabled: [ErrNatsConnectionNotEstablished].  Otherwise, unless validation is
    skipped, an invalid subject: [ErrEmptySubjectNotAllowed] for the empty one,
    else the validator's error.  Otherwise an unknown message type:
    [ErrInvalidMessageType].  Otherwise an encoding failure: its error.
    Otherwise one message on the subject is sent, and the call fails exactly if
    JetStream does, with its error. *)
Theorem publish_gate p sp ctx subject m w :
  let '(e, w') := PublishMessage p sp ctx subject m w in
  let connected := reconnectBufDisabled p = true -> conn p = Some true in
  (reconnectBufDisabled p = true -> conn p <> Some true -> e = Some (Sentinel ErrNatsConnectionNotEstablished) /\ w' = w) /\
  (connected -> skipSubjectValidation p = false -> forall ve, ValidatePublishSubject subject = Some ve ->
     w' = w /\ carries_error e (if IsEmpty subject then Sentinel ErrEmptySubjectNotAllowed else ve)) /\
  (admitted p subject -> validMessageType (MType m) = false ->
     w' = w /\ carries_error e (Sentinel ErrInvalidMessageType)) /\
  (admitted p subject -> validMessageType (MType m) = true -> forall ee, Encode m = Er ee ->
     sent w' = sent w /\ carries_error e ee) /\
  (admitted p subject -> validMessageType (MType m) = true -> forall b, Encode m = Ok b ->
     exists x, sent w' = sent w ++ [x] /\ wSubject x = subject /\
       match js_publish (sent w) x with None => e = None | Some je => carries_error e je end).
Proof.
  destruct (PublishMessage p sp ctx subject m w) as [e w'] eqn:E. unfold PublishMessage, preparePublish in E.
  split_and!.
  - intros Hb Hc. unfold guardConnected in E. rewrite Hb in E. simpl in E.
    destruct (conn p) as [[]|]; [done|..]; simplify_eq; by rewrite world_same.
  - intros Hc Hskip ve Hve.
    assert (guardConnected p = None) as Hg.
    { unfold guardConnected. destruct (reconnectBufDisabled p); [|done]. by rewrite Hc. }
    unfold pub_validateSubject, validateOutboundSubject in E. rewrite Hg, Hskip, Hve in E.
    destruct (IsEmpty subject) eqn:Ei.
    + apply IsEmpty_spec in Ei as ->. vm_compute in Hve. injection Hve as <-. simpl in E. simplify_eq.
      rewrite world_same. split; [done|]. eexists. split; [done|]. intros t. apply errors_is_wrapf.
    + rewrite andb_false_r in E. simplify_eq. rewrite world_same. split; [done|]. eexists. split; [done|].
      intros t. apply errors_is_wrapf.
  - intros [Hg Hv]%admitted_guards Hty. rewrite Hg, Hv, Hty in E. simpl in E. simplify_eq. rewrite world_same.
    split; [done|]. eexists. split; [done|]. intros t. apply errors_is_wrapf.
  - intros [Hg Hv]%admitted_guards Hty ee He. rewrite Hg, Hv, Hty in E. simpl in E.
    destruct (if allowTracing p then _ else _) as [m1 s1] eqn:E1.
    assert (Encode m1 = Er ee) as He1.
    { rewrite <- He. unfold injectTraceContext in E1. by repeat case_match; simplify_eq. }
    rewrite He1 in E. simplify_eq. split; [done|]. eexists. split; [done|]. intros t. apply errors_is_wrapf.
  - intros [Hg Hv]%admitted_guards Hty b He. rewrite Hg, Hv, Hty in E. cbn [negb] in E.
    destruct (if allowTracing p then _ else _) as [m1 s1] eqn:E1.
    assert (Encode m1 = Ok b) as He1.
    { rewrite <- He. unfold injectTraceContext in E1. by repeat case_match; simplify_eq. }
    rewrite He1 in E. destruct (if needsContentTypeHeader s1 m1 then _ else _) as [m2 s2].
    destruct (applyPayloadCompression _ b (Header m2) s2) as [[d' hr] s3].
    destruct (publishMsg ctx subject d' (with_header m2 hr) (with_objs w s3)) as [e1 w1] eqn:Ep.
    destruct (publishMsg_sent _ _ _ _ _ _ _ Ep) as (x & -> & -> & H1 & _ & _). exists x.
    cbn [sent with_objs] in E.
    destruct (js_publish (sent w) x) as [je|] eqn:Ej; injection E as <- <-; (split; [done|]); (split; [done|]); [|done].
    eexists. split; [done|]. intros t. apply errors_is_wrapf.
Qed.

(** C14: end to end, what a publisher sends a consumer decodes: for a JSON,
    protobuf or MessagePack message without content headers of its own, under
    any compression mode, the consumer side (expand by Content-Encoding, pick
    the type from the content-type header, decode) recovers the value. *)
Theorem publish_consume_roundtrip p sp ctx subject m w w' :
  msg_ok (objs w) m -> encodable (MType m) = true -> wire_safe (Data m) ->
  allowTracing p && recording sp = false ->
  map_or_empty (objs w) (Header m) !! HeaderNATSContentType = None ->
  map_or_empty (objs w) (Header m) !! HeaderContentEncoding = None ->
  (forall d, Encode m = Ok d -> slen d <= MaxPayloadDecompressBytes) ->
  PublishMessage p sp ctx subject m w = (None, w') ->
  exists x, sent w' = sent w ++ [x] /\
    DecodeMsgWithDecompress (NMsg subject (wData x) (wHeader x)) 0 (MType m =? Proto) = Ok (Data m).
Proof.
  intros Hok Ht Hsafe Htr Hct Hce Hsz Hpub.
  destruct (preparePublish p sp subject m (objs w)) as [[[d m']|e] s'] eqn:Hp;
    [|by unfold PublishMessage in Hpub; rewrite Hp in Hpub].
  destruct (PublishMessage_prepared p sp ctx subject m w d m' s' Hp) as (x & w1 & -> & Hw & _ & _ & Hd & Hx).
  rewrite Hpub in Hw. simpl in Hw. subst w'. exists x. split; [done|].
  destruct (preparePublish_Ok _ _ _ _ _ _ _ _ Hp) as (_ & _ & m1 & s1 & data & m2 & s2 & H1 & He & H2 & H3 & _).
  assert (m1 = m /\ s1 = objs w) as [-> ->].
  { unfold injectTraceContext in H1. destruct (allowTracing p); [|by simplify_eq].
    simpl in Htr. rewrite Htr in H1. simpl in H1. by simplify_eq. }
  destruct (content_type_step _ _ _ _ Hok Ht Hct H2) as (Hok2 & Hce2 & Hct2). rewrite Hce in Hce2.
  destruct (decompress_applied _ _ _ _ subject _ _ _ Hok2 Hce2 (Hsz _ He) H3) as (msg & Hm & Hmd & Hmh).
  unfold DecodeMsgWithDecompress. rewrite Hd, Hx, Hm. unfold DecodeMsg. simpl. rewrite Hmd.
  assert (Hty : MessageTypeFromHeader (nHeader msg) = MType m); [|rewrite Hty; by apply decode_encode].
  specialize (Hmh HeaderNATSContentType ltac:(done)).
  destruct Hct2 as [Hct2|[Hj Hct2]]; rewrite Hct2 in Hmh; destruct (nHeader msg) as [h|]; simpl in Hmh.
  - by apply content_type_type.
  - by repeat case_match.
  - unfold MessageTypeFromHeader. by rewrite (hget_absent h), Hj.
  - by rewrite Hj.
Qed.

(** Compression writes its label into the caller's own header map.  So
    publishing the same message value again (a retry) after a compressed
    attempt sends the uncompressed bytes under the compressed label. *)
Theorem republish_mislabels p sp ctx subject m w l d :
  msg_ok (objs w) m -> Header m = Some l -> allowTracing p = false -> Encode m = Ok d ->
  let '(e1, w1) := PublishMessage p sp ctx subject m w in
  let '(e2, w2) := PublishMessage p sp ctx subject m w1 in
  forall x1, sent w1 = sent w ++ [x1] -> wData x1 <> d ->
  exists x2, sent w2 = sent w1 ++ [x2] /\ wData x2 = d /\
    contentEncodingFromHeader (wHeader x2) = contentEncodingFromHeader (wHeader x1) /\
    contentEncodingFromHeader (wHeader x1) <> "".
Proof.
  intros [Hok _] Hl Htr He. destruct (Hok l Hl) as [h Hh].
  destruct (preparePublish p sp subject m (objs w)) as [[[d1 m']|e] s'] eqn:Hp; cycle 1.
  { unfold PublishMessage at 1. rewrite Hp. destruct (PublishMessage _ _ _ _ _ _). simpl.
    intros x1 E. apply (f_equal length) in E. rewrite length_app in E. simpl in E. lia. }
  destruct (PublishMessage_prepared p sp ctx subject m w d1 m' s' Hp) as (x & w1 & -> & Hw & _ & _ & Hd & Hx).
  destruct (PublishMessage p sp ctx subject m w) as [e1 w1']. simpl in Hw. subst w1'.
  destruct (PublishMessage p sp ctx subject m (log_sent x (with_objs w s'))) as [e2 w2] eqn:Hw2.
  intros x1 Hx1 Hne. apply sent_snoc in Hx1 as ->. rewrite Hd in Hne.
  destruct (preparePublish_Ok _ _ _ _ _ _ _ _ Hp) as (_ & Hv & m1 & s1 & data & m2 & t2 & H1 & He1 & H2 & H3 & _).
  rewrite Htr in H1. simplify_eq.
  destruct (content_type_keeps _ _ _ _ _ _ Hl Hh H2) as (Hl2 & h2 & Hh2 & _).
  rewrite He in He1. injection He1 as <-.
  rewrite Hl2 in H3. destruct (compressed_labels _ _ _ _ _ _ _ _ Hh2 H3 Hne) as [Hr [enc Hlab]].
  unfold preparePublish in Hp. destruct (guardConnected p) eqn:Hg; [done|].
  destruct (pub_validateSubject p subject) eqn:Hvs; [done|]. clear Hp.
  destruct (prepare_labelled p sp subject m1 s' l d enc Hl Hlab Htr He Hg Hvs Hv) as (m3 & s3 & Hp & Hl3 & Hlab3).
  destruct (PublishMessage_prepared p sp ctx subject m1 (log_sent x1 (with_objs w s')) _ _ _ Hp)
    as (x2 & w3 & -> & Hw & _ & _ & Hd & Hh3).
  rewrite Hw2 in Hw. simpl in Hw. subst w2. exists x2. rewrite Hh3, Hl3, Hx, Hr.
  destruct (labelled_sent _ _ _ Hlab) as [-> ?], (labelled_sent _ _ _ Hlab3) as [-> ?]. done.
Qed.

(** [PublishAsyncComplete] reports the first asynchronous failure since the
    last call exactly once: after any sequence of error notifications it
    returns the first one, and asking again finds nothing left. *)
Theorem async_error_first_once (es : list (option err)) w :
  asyncErr w = None ->
  let w' := fold_left (fun w e => noteAsyncErr e w) es w in
  let '(e, w1) := PublishAsyncComplete EvDone w' in
  e = (o ← head (filter is_Some es); o) /\ (PublishAsyncComplete EvDone w1).1 = None /\
  sent w1 = sent w.
Proof.
  intros Hn. assert (Hg : forall es w, sent (fold_left (fun w e => noteAsyncErr e w) es w) = sent w /\
    asyncErr (fold_left (fun w e => noteAsyncErr e w) es w) =
      match asyncErr w with Some e => Some e | None => o ← head (filter is_Some es); o end).
  { clear. induction es as [|e es IH]; intros w; simpl; [by destruct (asyncErr w)|].
    destruct (IH (noteAsyncErr e w)) as [H1 H2]. rewrite H1, H2.
    destruct e as [e|]; simpl; destruct (asyncErr w) eqn:E; simpl; rewrite ?E; done. }
  destruct (Hg es w) as [H1 H2]. rewrite Hn in H2. simpl. by rewrite H1, H2.
Qed.

(** An asynchronous publish below the pending limit hands over the message the
    synchronous one would: same subject, payload, options and header entries,
    after the same guards, with the same errors of the preparation and the same
    changes to the caller's maps. *)
Theorem async_sends_same p sp subject m w :
  guardAsyncPending p w = None ->
  let '(ea, wa) := PublishAsync p sp subject m w in
  let '(es, ws) := PublishMessage p sp false subject m w in
  objs wa = objs ws /\
  ((sent wa = sent w /\ sent ws = sent w /\ ea = es /\ ea <> None) \/
   exists x y, sent wa = sent w ++ [x] /\ sent ws = sent w ++ [y] /\ wSubject x = wSubject y /\ wData x = wData y /\
     wOpts x = wOpts y /\ default ∅ (wHeader x) = default ∅ (wHeader y) /\
     (ea = None <-> js_async (sent w) x = None) /\ (es = None <-> js_publish (sent w) y = None)).
Proof.
  intros Hg. unfold PublishAsync, publishAsync, PublishMessage. rewrite Hg.
  destruct (preparePublish p sp subject m (objs w)) as [[[d m']|er] s']; [|split; [done|left; done]].
  unfold publishAsyncMsg, publishMsg. simpl. rewrite app_nil_r. set (o := publishOptsFromMessage s' m').
  set (x := if header_empty s' m' && _ then _ else _). set (y := if header_empty s' m' then _ else _).
  assert (wSubject x = wSubject y /\ wData x = wData y /\ wOpts x = wOpts y /\ default ∅ (wHeader x) = default ∅ (wHeader y))
    as (H1 & H2 & H3 & H4).
  { unfold x, y, header_empty. case_bool_decide as Eh; [|done]. rewrite Eh.
    assert (msg_id_opt ∅ = []) as -> by (unfold msg_id_opt; by rewrite hget_absent). rewrite app_nil_r. by destruct o. }
  destruct (js_async (sent w) x) eqn:Ea, (js_publish (sent w) y) eqn:Es; (split; [done|]); right; exists x, y; split_and!; rewrite ?Ea, ?Es; (done || naive_solver).
Qed.

(** The limit on pending asynchronous publishes holds: when a publish adds at
    most one to what nats.go reports as pending, no sequence of asynchronous
    publishes takes it above [MaxAsyncPending]; at the limit a publish fails with
    its own error and leaves everything as it was. *)
Theorem async_pending_bounded p sp (ms : list (string * Message)) w :
  (forall st x, js_pending (st ++ [x]) <= js_pending st + 1) ->
  0 <= maxAsyncPending p -> js_pending (sent w) <= maxAsyncPending p ->
  let w' := foldl (fun w m => (PublishAsync p sp m.1 m.2 w).2) w ms in
  js_pending (sent w') <= maxAsyncPending p /\
  (js_pending (sent w') = maxAsyncPending p -> forall s m, PublishAsync p sp s m w' = (Some (Sentinel ErrAsyncPublishPendingLimit), w')).
Proof.
  intros Hg Hm. revert w. assert (forall w s m, js_pending (sent w) = maxAsyncPending p ->
    PublishAsync p sp s m w = (Some (Sentinel ErrAsyncPublishPendingLimit), w)) as Hfull.
  { intros w s m E. unfold PublishAsync, publishAsync, guardAsyncPending.
    destruct (Z.ltb_spec (maxAsyncPending p) 0); [lia|]. destruct (Z.leb_spec (maxAsyncPending p) (js_pending (sent w))); [done|lia]. }
  induction ms as [|[s m] ms IH]; intros w Hw; simpl; [auto|]. apply IH.
  destruct (decide (js_pending (sent w) = maxAsyncPending p)) as [E|E]; [by rewrite Hfull|].
  assert (sent (PublishAsync p sp s m w).2 = sent w \/ exists x, sent (PublishAsync p sp s m w).2 = sent w ++ [x]) as [->|[x ->]]; [|done|].
  { unfold PublishAsync, publishAsync. destruct (guardAsyncPending p w); [by left|].
    destruct (preparePublish p sp s m (objs w)) as [[[d m']|er] s']; [|by left]. right. eexists.
    unfold publishAsyncMsg. simpl. by destruct (js_async _ _). }
  specialize (Hg (sent w) x). lia.
Qed.

End Publisher.

(** ** Examples *)

Definition demo_publisher : publisher := MkPublisher (Some true) 1024 PayloadCompressionAuto false false true.
Definition js_ok (_ : list wire) (_ : wire) : option err := None.
Definition demo_msg : Message := Msg (ABytes toy_payload) (Some 0%nat) None JSON.
Definition demo_world : world := World (Store [ {[ "k" := ["v"] ]} ] []) [] None.

Lemma demo_msg_ok : msg_ok (objs demo_world) demo_msg.
Proof. split; intros l E; simplify_eq/=. by eexists. Qed.

Lemma toy_encode_json b r : Encode (Msg (ABytes b) r None JSON) = Ok b.
Proof. unfold Encode, encodeJSONPooled. simpl. by rewrite trim_newline_app. Qed.

Lemma toy_payload_fits : slen toy_payload <= MaxPayloadDecompressBytes.
Proof. vm_compute. discriminate. Qed.

Lemma publish_consume_roundtrip_witness :
  exists w' x, PublishMessage js_ok demo_publisher no_span true "a.b" demo_msg demo_world = (None, w') /\
    sent w' = [x] /\
    DecodeMsgWithDecompress (NMsg "a.b" (wData x) (wHeader x)) 0 false = Ok (ABytes toy_payload).
Proof.
  assert (Hp : exists w', PublishMessage js_ok demo_publisher no_span true "a.b" demo_msg demo_world =
    (None, w')) by (eexists; vm_compute; reflexivity).
  destruct Hp as [w' Hp]. exists w'.
  destruct (publish_consume_roundtrip js_ok demo_publisher no_span true "a.b" demo_msg demo_world w'
              demo_msg_ok) as (x & Hx & Hd); [reflexivity|exact I|reflexivity..| |exact Hp|].
  - intros d Hd. unfold demo_msg in Hd. rewrite toy_encode_json in Hd. apply Ok_inj in Hd. rewrite <- Hd.
    apply toy_payload_fits.
  - exists x. split; [exact Hp|]. split; [exact Hx|exact Hd].
Defined.

(** The retry of the example: the second copy cannot be expanded. *)
Lemma republish_mislabels_witness :
  exists w1 x2,
    PublishMessage js_ok demo_publisher no_span true "a.b" demo_msg demo_world = (None, w1) /\
    sent (PublishMessage js_ok demo_publisher no_span true "a.b" demo_msg w1).2 = sent w1 ++ [x2] /\
    wData x2 = toy_payload /\ contentEncodingFromHeader (wHeader x2) = "br".
Proof.
  pose proof (republish_mislabels js_ok demo_publisher no_span true "a.b" demo_msg demo_world 0
    toy_payload demo_msg_ok eq_refl eq_refl (toy_encode_json _ _)) as Hr.
  assert (Hp : exists w1 x1, PublishMessage js_ok demo_publisher no_span true "a.b" demo_msg
    demo_world = (None, w1) /\ sent w1 = [x1] /\ wData x1 = "z" /\
    contentEncodingFromHeader (wHeader x1) = "br") by (do 2 eexists; split_and!; vm_compute; reflexivity).
  destruct Hp as (w1 & x1 & Hp1 & Hs & Hd & Hb). rewrite Hp1 in Hr. exists w1.
  destruct (PublishMessage _ _ _ _ _ _ w1) as [e2 w2].
  destruct (Hr x1) as (x2 & H1 & H2 & H3 & _); [exact Hs|rewrite Hd; intros E; discriminate E|].
  exists x2. rewrite Hb in H3. auto.
Defined.

Lemma async_error_first_once_witness :
  (PublishAsyncComplete EvDone (noteAsyncErr (Some (errorf "late"))
     (noteAsyncErr (Some (errorf "first")) demo_world))).1 = Some (errorf "first").
Proof.
  pose proof (async_error_first_once [Some (errorf "first"); Some (errorf "late")] demo_world eq_refl) as H.
  cbn [fold_left] in H. destruct (PublishAsyncComplete _ _) as [e w1]. apply H.
Defined.

(** Two may be pending and nothing is acknowledged: the third publish is refused. *)
Lemma async_pending_bounded_witness :
  let p := MkPublisher (Some true) 2 PayloadCompressionAuto false false true in
  let w := foldl (fun w m => (PublishAsync js_ok (fun st => Z.of_nat (length st)) p no_span m.1 m.2 w).2) demo_world
    [("a.b", demo_msg); ("a.b", demo_msg)] in
  (PublishAsync js_ok (fun st => Z.of_nat (length st)) p no_span "a.b" demo_msg w).1 = Some (Sentinel ErrAsyncPublishPendingLimit).
Proof.
  cbv zeta. set (p := MkPublisher _ _ _ _ _ _).
  destruct (async_pending_bounded js_ok (fun st => Z.of_nat (length st)) p no_span [("a.b", demo_msg); ("a.b", demo_msg)] demo_world)
    as [_ H]; [intros st x; rewrite length_app; simpl; lia|discriminate|discriminate|].
  rewrite H; [reflexivity|vm_compute; reflexivity].
Defined.

Lemma async_sends_same_witness :
  exists x, sent (PublishAsync js_ok (fun _ => 0) demo_publisher no_span "a.b" demo_msg demo_world).2 = [x] /\ wData x = "z".
Proof.
  pose proof (async_sends_same js_ok js_ok (fun _ => 0) demo_publisher no_span "a.b" demo_msg demo_world eq_refl) as H.
  destruct (PublishAsync _ _ _ _ _ _ _) as [ea wa] eqn:Ea. destruct (PublishMessage _ _ _ _ _ _ _) as [es ws] eqn:Es.
  vm_compute in Ea. vm_compute in Es. injection Es as <- <-.
  destruct H as [_ [(_ & _ & _ & Hn)|(x & y & Hx & Hy & _ & Hd & _)]]; injection Ea as <- <-; [by destruct Hn|].
  exists x. split; [exact Hx|]. rewrite Hd. injection Hy as <-. reflexivity.
Defined.
