(* ===== verification/Rpc.v ===== *)
(** * Core request/reply (requester.go, responder.go, handler_safe.go)

    The connection is a parameter: [request] answers [RequestMsgWithContext],
    [respond] answers [Msg.Respond]/[RespondMsg] and [subscribe] the
    subscription calls.  Spans, metrics and the drain-on-cancel goroutine are
    left out. *)

From S2P Require Import Prelude GoStr Validate Message Compress Codec Publisher.

Definition defaultRequestTimeout : Z := 2 * 10 ^ 9.

Record requester := MkRequester {
  rConn : bool; rTimeout : Z; rTracing : bool; rSkipValidation : bool;
  rCompression : Z; rDecompression : bool
}.

Record RequesterConfig := MkRequesterConfig {
  qTimeout : Z; qTracing : bool; qSkip : bool; qCompression : Z; qDecompression : bool
}.

Definition newRequester (cfg : RequesterConfig) (conn tracing : bool) : requester :=
  MkRequester conn (if qTimeout cfg <=? 0 then defaultRequestTimeout else qTimeout cfg)
    (tracing && qTracing cfg) (qSkip cfg) (qCompression cfg) (qDecompression cfg).

(** [withTimeout]: the effective deadline, from now, of a request. *)
Definition withTimeout (r : requester) (deadline : option Z) : Z := default (rTimeout r) deadline.

Record responder := MkResponder { sConn : bool; sTracing : bool; sCompression : Z; sDecompression : bool }.

(** A handler either returns an error value or panics with one (or with a
    value that is not an error). *)
Inductive outcome := Returned (e : option err) | Panicked (e : option err).

(** [invokeMsgHandler]: a panic becomes an error. *)
Definition invokeMsgHandler (o : outcome) : option err :=
  match o with
  | Returned e => e
  | Panicked (Some e) => Some (wrapf "handler panic: %w" e)
  | Panicked None => Some (errorf "handler panic: %v")
  end.

Section Rpc.
Context `{NH : NatsHeader} `{CP : Compressors} `{CD : Codecs}.
Variable request : wire -> res NatsMsg.
Variable respond : wire -> option err.
Variable subscribe : string -> option string -> option err.

Definition RequestMessage (r : requester) (sp : span) (subject : string) (m0 : Message) (s : store)
  : res NatsMsg * store :=
  if negb (rConn r) then (Er (Sentinel ErrNatsConnectionNotEstablished), s)
  else match validateOutboundSubject subject "request" (rSkipValidation r) with
  | Some e => (Er e, s)
  | None =>
  let m := if MType m0 =? 0 then Msg (Data m0) (Header m0) (Expect m0) JSON else m0 in
  if negb (validMessageType (MType m))
  then (Er (wrapf "request subject=%q: %w" (Sentinel ErrInvalidMessageType)), s)
  else
    let '(m1, s1) := if rTracing r then injectTraceContext sp m s else (m, s) in
    match Encode m1 with
    | Er e => (Er (wrapf "request encode subject=%q: %w" e), s1)
    | Ok data =>
        let '(m2, s2) :=
          if needsContentTypeHeader s1 m1 || (MType m1 =? Proto) || (MType m1 =? MessagePack)
          then applyContentTypeHeader m1 s1 else (m1, s1) in
        let '(data', h, s3) := applyPayloadCompression (rCompression r) data (Header m2) s2 in
        match request (Wire subject data' (read_map s3 h) []) with
        | Er e => (Er (wrapf "request subject=%q: %w" e), s3)
        | Ok reply =>
            if rDecompression r then
              match maybeDecompressMsg reply with
              | (Some e, _) => (Er (wrapf "request decompress reply subject=%q: %w" e), s3)
              | (None, reply') => (Ok reply', s3)
              end
            else (Ok reply, s3)
        end
    end
  end.

Definition RequestBytes r sp subject b := RequestMessage r sp subject (plain (ABytes b) Raw).
Definition RequestJSON r sp subject v := RequestMessage r sp subject (plain v JSON).
Definition RequestMsgPack r sp subject v := RequestMessage r sp subject (plain v MessagePack).
Definition RequestProto r sp subject v := RequestMessage r sp subject (plain v Proto).

Definition RequestJSONInto r sp subject v s : res any :=
  reply <-! (RequestJSON r sp subject v s).1 ;; Decode (nData reply) JSON false.
Definition RequestMsgPackInto r sp subject v s : res any :=
  reply <-! (RequestMsgPack r sp subject v s).1 ;; Decode (nData reply) MessagePack false.
Definition RequestProtoInto r sp subject v s : res any :=
  reply <-! (RequestProto r sp subject v s).1 ;; DecodeProto (nData reply).

(** ** Responder *)

Definition Subscribe (r : responder) (subject : string) (nil_handler : bool) : option err :=
  if negb (sConn r) then Some (Sentinel ErrNatsConnectionNotEstablished)
  else match ValidateSubject subject with
       | Some e => Some (wrapf "responder subscribe subject=%q: %w" e)
       | None =>
           if nil_handler then Some (errorf "responder subscribe subject=%q: nil handler")
           else match subscribe subject None with
                | Some e => Some (wrapf "responder subscribe subject=%q: %w" e)
                | None => None
                end
       end.

Definition QueueSubscribe (r : responder) (queue subject : string) (nil_handler : bool) : option err :=
  if negb (sConn r) then Some (Sentinel ErrNatsConnectionNotEstablished)
  else match ValidateSubject subject with
       | Some e => Some (wrapf "responder queue subscribe subject=%q: %w" e)
       | None =>
       match ValidateQueueName queue with
       | Some e => Some (wrapf "responder queue subscribe queue=%q: %w" e)
       | None =>
           if nil_handler then Some (errorf "responder queue subscribe subject=%q: nil handler")
           else match subscribe subject (Some queue) with
                | Some e => Some (wrapf "responder queue subscribe subject=%q queue=%q: %w" e)
                | None => None
                end
       end end.

(** The wrapped handler: the message the user's handler is called with, if it
    is called, and the error recorded for the span. *)
Definition wrap (r : responder) (handler : NatsMsg -> outcome) (msg : NatsMsg)
  : option NatsMsg * option err :=
  if sDecompression r then
    match maybeDecompressMsg msg with
    | (Some e, _) => (None, Some e)
    | (None, msg') => (Some msg', invokeMsgHandler (handler msg'))
    end
  else (Some msg, invokeMsgHandler (handler msg)).

(** A reply: the wire message handed to the connection, if any, and the error. *)
Definition respondBytes (nil_msg : bool) (data : string) (mode : Z) (s : store)
  : option wire * option err * store :=
  if nil_msg then (None, Some (errorf "respond bytes: nil message"), s)
  else if mode =? PayloadCompressionOff then
    let x := Wire "" data None [] in (Some x, respond x, s)
  else
    let '(data', h, s1) := applyPayloadCompression mode data None s in
    let x := Wire "" data' (sent_header s1 h) [] in (Some x, respond x, s1).

Definition respondEncoded (nil_msg : bool) (m : Message) (mode : Z) (s : store)
  : option wire * option err * store :=
  if nil_msg then (None, Some (errorf "respond: nil message"), s)
  else match Encode m with
       | Er e => (None, Some (wrapf "respond encode: %w" e), s)
       | Ok data =>
           let '(m1, s1) := applyContentTypeHeader m s in
           let '(data', h, s2) := applyPayloadCompression mode data (Header m1) s1 in
           let x := Wire "" data' (sent_header s2 h) [] in (Some x, respond x, s2)
       end.

Definition RespondJSON (r : responder) nil_msg v := respondEncoded nil_msg (plain v JSON) (sCompression r).
Definition RespondMsgPack (r : responder) nil_msg v := respondEncoded nil_msg (plain v MessagePack) (sCompression r).
Definition RespondProto (r : responder) nil_msg v := respondEncoded nil_msg (plain v Proto) (sCompression r).
Definition RespondBytes (r : responder) nil_msg b := respondBytes nil_msg b (sCompression r).
(** The package's functions of the same names never compress. *)
Definition package_RespondJSON nil_msg v := respondEncoded nil_msg (plain v JSON) PayloadCompressionOff.
Definition package_RespondMsgPack nil_msg v := respondEncoded nil_msg (plain v MessagePack) PayloadCompressionOff.
Definition package_RespondProto nil_msg v := respondEncoded nil_msg (plain v Proto) PayloadCompressionOff.
Definition package_RespondBytes nil_msg b := respondBytes nil_msg b PayloadCompressionOff.

(** ** Lemmas *)

(** The reply to an encodable value, expanded, is the encoded value. *)
Lemma reply_expands v typ mode s x e s' subject d :
  encodable typ = true -> Encode (plain v typ) = Ok d -> slen d <= MaxPayloadDecompressBytes ->
  respondEncoded false (plain v typ) mode s = (Some x, e, s') ->
  exists m, maybeDecompressMsg (NMsg subject (wData x) (wHeader x)) = (None, m) /\ nData m = d.
Proof.
  intros Ht He Hsz Hr. unfold respondEncoded in Hr. rewrite He in Hr.
  destruct (applyContentTypeHeader _ s) as [m1 s1] eqn:E1.
  destruct (applyPayloadCompression _ _ _ _) as [[d' h] s2] eqn:E2. simplify_eq/=.
  unfold applyContentTypeHeader in E1. simpl in E1.
  assert (Hm : exists v, Header m1 = Some (length (maps s)) /\
    read_map s1 (Header m1) = Some {[ HeaderNATSContentType := v ]}).
  { unfold encodable in Ht. destruct (typ =? Proto), (typ =? MessagePack), (typ =? Raw) eqn:Er;
      simplify_eq/=; try (eexists; split; [done|]; rewrite list_lookup_alter_eq, list_lookup_middle by done; done).
    apply Z.eqb_eq in Er. by subst typ. }
  destruct Hm as (ct & Hh & Hm).
  destruct (decompress_applied mode d (Header m1) s1 subject d' h s') as (m & Hmm & Hd & _);
    [by rewrite Hm| |done|done|by exists m].
  unfold map_or_empty. rewrite Hm. simpl. by rewrite lookup_singleton_ne.
Qed.

Lemma encode_traced sp m s : Encode (injectTraceContext sp m s).1 = Encode m.
Proof.
  unfold injectTraceContext. destruct (recording sp); [|done]. simpl.
  destruct (inject sp (Header m) s) as [h s1]. destruct (traceID sp); [|done].
  by destruct (ensure_map h s1).
Qed.

(** The requester's own guards and encoding do not fail. *)
Definition request_admitted (r : requester) (subject : string) (m : Message) : Prop :=
  rConn r = true /\ validateOutboundSubject subject "request" (rSkipValidation r) = None /\
  validMessageType (MType m) = true /\ exists d, Encode m = Ok d.

Lemma request_reply r sp subject m s reply reply' :
  request_admitted r subject m -> rDecompression r = true -> (forall x, request x = Ok reply) ->
  maybeDecompressMsg reply = (None, reply') ->
  (RequestMessage r sp subject m s).1 = Ok reply'.
Proof.
  intros (Hc & Hv & Ht & d & He) Hd Hq Hr. unfold RequestMessage. rewrite Hc, Hv, Hd.
  destruct (Z.eqb_spec (MType m) 0) as [E|_]; [by rewrite E in Ht|]. rewrite Ht. simpl.
  pose proof (encode_traced sp m s) as Hem.
  destruct (if rTracing r then _ else _) as [m1 s1] eqn:E1.
  assert (Encode m1 = Ok d) as ->.
  { destruct (rTracing r); [by rewrite E1 in Hem; simpl in Hem; rewrite Hem|by simplify_eq]. }
  destruct (if needsContentTypeHeader s1 m1 || _ || _ then _ else _) as [m2 s2].
  destruct (applyPayloadCompression _ _ _ _) as [[d' h] s3]. by rewrite Hq, Hr.
Qed.

(** A request/reply exchange recovers the responder's value: if the peer
    answers with what [Respond*] built for a JSON or MessagePack value under
    any compression mode, an admitted request of a requester with decompression
    enabled returns that very value. *)
Theorem request_reply_roundtrip r sp subject q v typ mode s x e s' :
  typ = JSON \/ typ = MessagePack -> wire_safe v -> rDecompression r = true ->
  respondEncoded false (plain v typ) mode s = (Some x, e, s') ->
  (forall d, Encode (plain v typ) = Ok d -> slen d <= MaxPayloadDecompressBytes) ->
  (forall y, request y = Ok (NMsg "_INBOX" (wData x) (wHeader x))) ->
  request_admitted r subject (plain q typ) ->
  forall st, (if typ =? JSON then RequestJSONInto r sp subject q st
              else RequestMsgPackInto r sp subject q st) = Ok v.
Proof.
  intros Ht Hs Hd Hr Hsz Hq Hadm st.
  assert (Hen : encodable typ = true) by (by destruct Ht as [-> | ->]).
  assert (He : exists d, Encode (plain v typ) = Ok d).
  { unfold respondEncoded in Hr. destruct (Encode _); [eauto|done]. }
  destruct He as [d He].
  destruct (reply_expands v typ mode s x e s' "_INBOX" d Hen He (Hsz d He) Hr) as (m & Hm & Hmd).
  pose proof (decode_encode (plain v typ) d Hen Hs He) as Hdec. simpl in Hdec.
  pose proof (request_reply r sp subject (plain q typ) st _ m Hadm Hd Hq Hm) as Hreq.
  destruct Ht as [-> | ->]; simpl; unfold RequestJSONInto, RequestMsgPackInto, RequestJSON, RequestMsgPack;
    by rewrite Hreq, Hmd.
Qed.
End Rpc.

Lemma request_reply_roundtrip_witness :
  RequestJSONInto (fun _ => Ok (NMsg "_INBOX" "hi" (Some {[ HeaderNATSContentType := ["json"] ]})))
    (MkRequester true 1 false false 0 true) no_span "a.b" (ABytes "ask") (Store [] []) = Ok (ABytes "hi").
Proof.
  pose proof (request_reply_roundtrip
    (fun _ => Ok (NMsg "_INBOX" "hi" (Some {[ HeaderNATSContentType := ["json"] ]}))) (fun _ => None)
    (MkRequester true 1 false false 0 true) no_span "a.b" (ABytes "ask") (ABytes "hi") JSON 1 (Store [] [])
    (Wire "" "hi" (Some {[ HeaderNATSContentType := ["json"] ]}) []) None
    (Store [ {[ HeaderNATSContentType := ["json"] ]} ] [])
    (or_introl eq_refl) I eq_refl eq_refl) as H.
  apply (H ltac:(intros d Hd; vm_compute in Hd; simplify_eq; vm_compute; discriminate) ltac:(reflexivity)).
  split_and!; [reflexivity..|eexists; reflexivity].
Defined.
