(* ===== verification/Pressure.v ===== *)
(** * Adaptive pressure and the fetch circuit (adaptive_pressure.go, circuit.go)

    The control step compares ratios in float64: the Standard Library's
    executable IEEE-754 operations ([SpecFloat], precision 53) are used, so a
    decimal constant of the source is the correctly rounded quotient of two
    integers.  [int] and [time.Duration] arithmetic wraps at 64 bits. *)

From Stdlib Require Import SpecFloat.
From S2P Require Import Prelude.

(** ** float64 *)

Definition f64_of_int (z : Z) : spec_float := binary_normalize 53 1024 z 0 false.
Definition f64_div : spec_float -> spec_float -> spec_float := SFdiv 53 1024.
(** [a >= b], false when either is NaN *)
Definition f64_ge (a b : spec_float) : bool :=
  match SFcompare a b with Some Gt | Some Eq => true | _ => false end.
Definition f64_ratio (a b : Z) : spec_float := f64_div (f64_of_int a) (f64_of_int b).

(** ** Levels and configuration *)

Definition PressureIdle : Z := 0.
Definition PressureWarm : Z := 1.
Definition PressureElevated : Z := 2.
Definition PressureHard : Z := 3.
Definition PressureCritical : Z := 4.

Record AdaptivePressureConfig := APConfig {
  apEnabled : bool; MinFetchBatch : Z; MaxFetchBatch : Z; MinAckPending : Z;
  NakDelayMin : Z; NakDelayMax : Z
}.

Definition pos_or (x d : Z) : Z := if x <=? 0 then d else x.

Definition ap_withDefaults (c : AdaptivePressureConfig) : AdaptivePressureConfig :=
  let mn := pos_or (MinFetchBatch c) 1 in
  let mx := pos_or (MaxFetchBatch c) 256 in
  {| apEnabled := apEnabled c; MinFetchBatch := mn;
     MaxFetchBatch := if mx <? mn then mn else mx;
     MinAckPending := pos_or (MinAckPending c) 50;
     NakDelayMin := pos_or (NakDelayMin c) (100 * 10 ^ 6);
     NakDelayMax := pos_or (NakDelayMax c) (5 * 10 ^ 9) |}.

Record AdaptivePressureInput := APInput {
  PoolDepth : Z; PoolCapacity : Z; HandlerLatency : Z; BaselineLatency : Z;
  Lag : Z; Pending : Z; CurrentBatch : Z; CurrentAckPend : Z; iMaxAckPending : Z
}.

Record AdaptivePressureDecision := APDecision {
  Level : Z; FetchBatch : Z; AckPending : Z; NakDelay : Z
}.
Definition zero_decision : AdaptivePressureDecision := APDecision 0 0 0 0.

(** ** The control step *)

Definition fill_of (i : AdaptivePressureInput) : spec_float :=
  if 0 <? PoolCapacity i then f64_ratio (PoolDepth i) (PoolCapacity i) else f64_of_int 0.
Definition latency_of (i : AdaptivePressureInput) : spec_float :=
  if (0 <? BaselineLatency i) && (0 <? HandlerLatency i)
  then f64_ratio (HandlerLatency i) (BaselineLatency i) else f64_of_int 1.

Definition pressure_level (i : AdaptivePressureInput) : Z :=
  let fill := fill_of i in let lat := latency_of i in
  if f64_ge fill (f64_ratio 95 100) || f64_ge lat (f64_of_int 5) || (10000 <? Lag i) then PressureCritical
  else if f64_ge fill (f64_ratio 7 10) || f64_ge lat (f64_of_int 3) || (5000 <? Pending i) then PressureHard
  else if f64_ge fill (f64_ratio 4 10) || f64_ge lat (f64_ratio 3 2) || (500 <? Lag i) then PressureElevated
  else if f64_ge fill (f64_ratio 15 100) || (50 <? Lag i) then PressureWarm
  else PressureIdle.

Definition DecideAdaptivePressure (cfg0 : AdaptivePressureConfig) (i : AdaptivePressureInput)
  : AdaptivePressureDecision :=
  let cfg := ap_withDefaults cfg0 in
  let level := pressure_level i in
  let batch := if CurrentBatch i <=? 0 then MaxFetchBatch cfg else CurrentBatch i in
  let ack1 := if CurrentAckPend i <=? 0 then iMaxAckPending i else CurrentAckPend i in
  let ack := if ack1 <=? 0 then i64 (MinAckPending cfg * 4) else ack1 in
  let '(batch1, ack2, nak) :=
    if level =? PressureIdle then
      let b := if 0 <? PoolCapacity i then Z.min (MaxFetchBatch cfg) (i64 (batch * 2)) else batch in
      (if b <? MinFetchBatch cfg then MinFetchBatch cfg else b,
       if 0 <? iMaxAckPending i then iMaxAckPending i else ack, 0)
    else if level =? PressureWarm then (batch, ack, 0)
    else if level =? PressureElevated then (Z.max (MinFetchBatch cfg) (Z.quot batch 2), ack, NakDelayMin cfg)
    else if level =? PressureHard then
      let n := i64 (NakDelayMin cfg * 2) in
      (MinFetchBatch cfg, Z.max (MinAckPending cfg) (Z.quot ack 2), if NakDelayMax cfg <? n then NakDelayMax cfg else n)
    else (MinFetchBatch cfg, MinAckPending cfg, NakDelayMax cfg) in
  let batch2 := if MaxFetchBatch cfg <? batch1 then MaxFetchBatch cfg else batch1 in
  let batch3 := if batch2 <? MinFetchBatch cfg then MinFetchBatch cfg else batch2 in
  APDecision level batch3 ack2 nak.

(** ** The controller object; [None] is a nil pointer *)

Record AdaptivePressure := AP { apCfg : AdaptivePressureConfig; decision : AdaptivePressureDecision }.

Definition NewAdaptivePressure (cfg : AdaptivePressureConfig) : AdaptivePressure :=
  let c := ap_withDefaults cfg in AP c (APDecision PressureIdle (MaxFetchBatch c) 0 0).

Definition Observe (a : option AdaptivePressure) (i : AdaptivePressureInput)
  : AdaptivePressureDecision * option AdaptivePressure :=
  match a with
  | Some ap =>
      if apEnabled (apCfg ap)
      then let d := DecideAdaptivePressure (apCfg ap) i in (d, Some (AP (apCfg ap) d))
      else (zero_decision, a)
  | None => (zero_decision, None)
  end.

Definition Decision (a : option AdaptivePressure) : AdaptivePressureDecision :=
  match a with Some ap => decision ap | None => zero_decision end.

Definition FetchBatchOr (a : option AdaptivePressure) (defaultBatch : Z) : Z :=
  match a with
  | Some ap =>
      if apEnabled (apCfg ap)
      then if 0 <? FetchBatch (Decision a) then FetchBatch (Decision a) else defaultBatch
      else defaultBatch
  | None => defaultBatch
  end.

(** ** Circuit breaker *)

Record CircuitConfig := CConfig { cPauseDuration : Z; OpenOnLevel : Z; cEnabled : bool }.

Definition circuit_withDefaults (c : CircuitConfig) : CircuitConfig :=
  CConfig (pos_or (cPauseDuration c) (10 ^ 9))
    (if OpenOnLevel c =? 0 then PressureCritical else OpenOnLevel c) (cEnabled c).

Record CircuitBreaker := CB { cbCfg : CircuitConfig; cbOpen : bool; opens : Z }.

Definition NewCircuitBreaker (c : CircuitConfig) : option CircuitBreaker :=
  if cEnabled c then Some (CB (circuit_withDefaults c) false 0) else None.

Definition ShouldPause (b : option CircuitBreaker) (d : AdaptivePressureDecision)
  : bool * option CircuitBreaker :=
  match b with
  | None => (false, None)
  | Some cb =>
      let open := OpenOnLevel (cbCfg cb) <=? Level d in
      (open, Some (CB (cbCfg cb) open (if open && negb (cbOpen cb) then i64 (opens cb + 1) else opens cb)))
  end.

Definition PauseDuration (b : option CircuitBreaker) : Z :=
  match b with Some cb => cPauseDuration (cbCfg cb) | None => 0 end.
Definition Opens (b : option CircuitBreaker) : Z := match b with Some cb => opens cb | None => 0 end.
Definition IsOpen (b : option CircuitBreaker) : bool := match b with Some cb => cbOpen cb | None => false end.

(** ** Lemmas *)

Lemma ap_defaults_ok c :
  let d := ap_withDefaults c in
  1 <= MinFetchBatch d <= MaxFetchBatch d /\ 0 < MinAckPending d /\ 0 < NakDelayMin d /\ 0 < NakDelayMax d.
Proof.
  unfold ap_withDefaults, pos_or. simpl.
  repeat match goal with |- context [if ?a <=? ?b then _ else _] => destruct (Z.leb_spec a b) end;
  repeat match goal with |- context [if ?a <? ?b then _ else _] => destruct (Z.ltb_spec a b) end; lia.
Qed.

Lemma ap_defaults_idem c : ap_withDefaults (ap_withDefaults c) = ap_withDefaults c.
Proof.
  pose proof (ap_defaults_ok c) as (H1 & H2 & H3 & H4). set (d := ap_withDefaults c) in *.
  unfold ap_withDefaults, pos_or.
  repeat match goal with |- context [if ?a <=? ?b then _ else _] => destruct (Z.leb_spec a b); [lia|] end.
  destruct (Z.ltb_spec (MaxFetchBatch d) (MinFetchBatch d)); [lia|]. by destruct d.
Qed.

Lemma level_range i : PressureIdle <= pressure_level i <= PressureCritical.
Proof. unfold pressure_level. repeat case_match; unfold PressureIdle, PressureWarm, PressureElevated, PressureHard, PressureCritical; lia. Qed.

Ltac decide_cases :=
  repeat match goal with
    | |- context [if ?a =? ?b then _ else _] => destruct (Z.eqb_spec a b)
    | |- context [if ?a <? ?b then _ else _] => destruct (Z.ltb_spec a b)
    | |- context [if ?a <=? ?b then _ else _] => destruct (Z.leb_spec a b)
    end.

(** Whatever the inputs (wrapped products included), the decision asks for
    a fetch batch between the configured minimum and maximum, both at least
    one, and its level is one of the five. *)
Theorem decision_fetch_bounds cfg i :
  let d := DecideAdaptivePressure cfg i in
  let c := ap_withDefaults cfg in
  1 <= MinFetchBatch c <= FetchBatch d /\ FetchBatch d <= MaxFetchBatch c /\
  PressureIdle <= Level d <= PressureCritical.
Proof.
  cbv zeta. pose proof (ap_defaults_ok cfg) as (H1 & _). pose proof (level_range i) as H2.
  unfold DecideAdaptivePressure. set (c := ap_withDefaults cfg) in *.
  destruct (if pressure_level i =? PressureIdle then _ else _) as [[b a] n].
  cbn [Level FetchBatch]. split_and!; try apply H2; decide_cases; lia.
Qed.

(** The actuators react in the right direction: a message is delayed
    exactly from the elevated level up, by at most the larger configured delay;
    at hard and critical levels the fetch batch is the minimum; at critical the
    ack window is the minimum and the delay the maximum. *)
Theorem decision_reacts cfg i :
  NakDelayMin cfg < 2 ^ 62 ->
  let d := DecideAdaptivePressure cfg i in
  let c := ap_withDefaults cfg in
  (0 < NakDelay d <-> PressureElevated <= Level d) /\
  0 <= NakDelay d <= Z.max (NakDelayMin c) (NakDelayMax c) /\
  (PressureHard <= Level d -> FetchBatch d = MinFetchBatch c) /\
  (Level d = PressureCritical -> AckPending d = MinAckPending c /\ NakDelay d = NakDelayMax c).
Proof.
  intros Hn. cbv zeta. pose proof (ap_defaults_ok cfg) as (H1 & H2 & H3 & H4).
  pose proof (level_range i) as H5.
  assert (Hw : i64 (NakDelayMin (ap_withDefaults cfg) * 2) = NakDelayMin (ap_withDefaults cfg) * 2).
  { apply i64_id. unfold in_i64. split; [lia|]. unfold ap_withDefaults, pos_or. simpl. case_match; lia. }
  unfold DecideAdaptivePressure. rewrite Hw. set (c := ap_withDefaults cfg) in *.
  unfold PressureIdle, PressureWarm, PressureElevated, PressureHard, PressureCritical in *.
  destruct (Z.eqb_spec (pressure_level i) 0); [|destruct (Z.eqb_spec (pressure_level i) 1);
    [|destruct (Z.eqb_spec (pressure_level i) 2); [|destruct (Z.eqb_spec (pressure_level i) 3)]]];
    cbn [Level FetchBatch AckPending NakDelay]; decide_cases; lia.
Qed.

(** Rising edges of a sequence of open/closed observations. *)
Fixpoint rising (was : bool) (l : list bool) : Z :=
  match l with
  | [] => 0
  | b :: l' => (if b && negb was then 1 else 0) + rising b l'
  end.

Definition run_circuit (b : option CircuitBreaker) (ds : list AdaptivePressureDecision) : option CircuitBreaker :=
  fold_left (fun b d => (ShouldPause b d).2) ds b.

Lemma rising_bounds was l : 0 <= rising was l <= Z.of_nat (length l).
Proof. revert was. induction l as [|b l IH]; intros was; simpl; [lia|]. specialize (IH b). case_match; lia. Qed.

Lemma run_circuit_opens cb ds :
  0 <= opens cb -> opens cb + Z.of_nat (length ds) < 2 ^ 63 ->
  let obs := List.map (fun d => OpenOnLevel (cbCfg cb) <=? Level d) ds in
  exists cb', run_circuit (Some cb) ds = Some cb' /\ cbCfg cb' = cbCfg cb /\
    opens cb' = opens cb + rising (cbOpen cb) obs /\
    cbOpen cb' = List.last obs (cbOpen cb).
Proof.
  revert cb. induction ds as [|d ds IH]; intros cb H0 H1; simpl in *.
  { exists cb. split_and!; try done. lia. }
  set (o := OpenOnLevel (cbCfg cb) <=? Level d).
  set (cb1 := CB (cbCfg cb) o (if o && negb (cbOpen cb) then i64 (opens cb + 1) else opens cb)).
  assert (Hop : opens cb1 = opens cb + (if o && negb (cbOpen cb) then 1 else 0)).
  { unfold cb1. simpl. case_match; [|lia]. apply i64_id. unfold in_i64. lia. }
  destruct (IH cb1) as (cb' & Hr & Hc & Ho & Hl).
  { rewrite Hop. case_match; lia. } { rewrite Hop. case_match; lia. }
  exists cb'. split_and!; [done|done|rewrite Ho, Hop; simpl; fold o; lia|].
  rewrite Hl. simpl. fold o. clear. destruct ds as [|d' ds]; [done|]. simpl.
  generalize (OpenOnLevel (cbCfg cb) <=? Level d') as x. induction ds as [|d2 ds IH]; intros x; [done|]. apply IH.
Qed.

(** The breaker's [Opens] counter counts exactly the transitions from
    closed to open over any sequence of decisions, and [IsOpen] is the last
    observation: a breaker that stays critical is counted once. *)
Theorem circuit_counts_openings c ds :
  cEnabled c = true -> Z.of_nat (length ds) < 2 ^ 63 ->
  let lvl := OpenOnLevel (circuit_withDefaults c) in
  let obs := List.map (fun d => lvl <=? Level d) ds in
  Opens (run_circuit (NewCircuitBreaker c) ds) = rising false obs /\
  IsOpen (run_circuit (NewCircuitBreaker c) ds) = List.last obs false.
Proof.
  intros He Hl. unfold NewCircuitBreaker. rewrite He.
  destruct (run_circuit_opens (CB (circuit_withDefaults c) false 0) ds) as (cb' & -> & _ & Ho & Hp);
    [done|simpl; lia|]. simpl in *. rewrite Ho, Hp. split; [lia|done].
Qed.

(** ** Examples *)

Definition ap_example : AdaptivePressureConfig := APConfig true 4 128 0 0 0.
Definition full_pool : AdaptivePressureInput := APInput 96 100 0 0 0 0 64 0 1000.

Lemma decision_reacts_witness :
  FetchBatch (DecideAdaptivePressure ap_example full_pool) = 4 /\
  Level (DecideAdaptivePressure ap_example full_pool) = PressureCritical.
Proof.
  assert (Hl : Level (DecideAdaptivePressure ap_example full_pool) = PressureCritical)
    by (vm_compute; reflexivity).
  split; [|exact Hl].
  destruct (decision_reacts ap_example full_pool) as (_ & _ & H & _); [reflexivity|].
  rewrite H; [reflexivity|]. rewrite Hl. discriminate.
Defined.

Lemma circuit_counts_openings_witness :
  Opens (run_circuit (NewCircuitBreaker (CConfig 0 0 true))
    [APDecision 4 1 1 1; APDecision 4 1 1 1; APDecision 0 1 1 1; APDecision 4 1 1 1]) = 2.
Proof.
  destruct (circuit_counts_openings (CConfig 0 0 true)
    [APDecision 4 1 1 1; APDecision 4 1 1 1; APDecision 0 1 1 1; APDecision 4 1 1 1]) as [H _];
    [reflexivity..|]. rewrite H. reflexivity.
Defined.
