(* ===== verification/Listeners.v ===== *)
(** * Registration of consumer listeners (consumer_push.go)

    [OnProcessSuccess] and [OnMessageHandled] append a callback to an immutable
    slice behind an atomic pointer with a compare-and-swap loop, concurrently
    with each other and with the notifications that read the slice.  A pointer
    is the index of its allocation, so that two slices with the same contents
    are different values for the comparison. *)
From S2P Require Import Prelude.

Section Listeners.
Context {F : Type}.

Inductive lpc := LLoad (fn : F) | LCas (fn : F) (old : option nat) | LDone (fn : F).

Record listeners := Lst { cell : option nat; heap : list (list F); regs : list lpc }.

(** The slice behind a pointer; the nil pointer has none. *)
Definition slice_at (h : list (list F)) (p : option nat) : list F :=
  match p with None => [] | Some i => default [] (h !! i) end.

(** One atomic action of registration [i]: the load, or the copy into a fresh
    slice followed by the compare-and-swap. *)
Definition OnProcessSuccess (i : nat) (s : listeners) : option listeners :=
  match regs s !! i with
  | Some (LLoad fn) => Some (Lst (cell s) (heap s) (<[i := LCas fn (cell s)]> (regs s)))
  | Some (LCas fn old) =>
      let next := slice_at (heap s) old ++ [fn] in
      let h := heap s ++ [next] in
      if decide (cell s = old)
      then Some (Lst (Some (length (heap s))) h (<[i := LDone fn]> (regs s)))
      else Some (Lst (cell s) h (<[i := LLoad fn]> (regs s)))
  | _ => None
  end.

Fixpoint reg_run (sched : list nat) (s : listeners) : option listeners :=
  match sched with [] => Some s | i :: l => match OnProcessSuccess i s with Some s' => reg_run l s' | None => None end end.

(** A registration that starts; a nil callback returns at once and never appears. *)
Definition register_all (fns : list F) : listeners := Lst None [] (LLoad <$> fns).

(** The callbacks [notifyProcessSuccess] calls, in order. *)
Definition notifyProcessSuccess (s : listeners) : list F := slice_at (heap s) (cell s).

(** [OnMessageHandled] is the same code on the list of the handled-message
    callbacks; its notification hands each the elapsed time. *)
Definition OnMessageHandled : nat -> listeners -> option listeners := OnProcessSuccess.
Definition notifyMessageHandled (elapsed : Z) (s : listeners) : list (F * Z) := (fun fn => (fn, elapsed)) <$> slice_at (heap s) (cell s).

Definition reg_fn (pc : lpc) : F := match pc with LLoad f | LCas f _ | LDone f => f end.
Definition reg_done (pc : lpc) : bool := match pc with LDone _ => true | _ => false end.
(** The callbacks whose registration has returned. *)
Definition registered (s : listeners) : list F := reg_fn <$> List.filter reg_done (regs s).

Definition ptr_ok (h : list (list F)) (p : option nat) : Prop :=
  match p with None => True | Some i => (i < length h)%nat end.

Record reg_inv (s : listeners) : Prop := {
  ri_perm : notifyProcessSuccess s ≡ₚ registered s;
  ri_cell : ptr_ok (heap s) (cell s);
  ri_old : Forall (fun pc => match pc with LCas _ p => ptr_ok (heap s) p | _ => True end) (regs s)
}.

Lemma slice_at_app h k p : ptr_ok h p -> slice_at (h ++ k) p = slice_at h p.
Proof. destruct p as [i|]; simpl; [|done]. intros H. by rewrite lookup_app_l. Qed.

Lemma ptr_ok_app h k p : ptr_ok h p -> ptr_ok (h ++ k) p.
Proof. destruct p; simpl; [|done]. rewrite length_app. lia. Qed.

Lemma registered_insert_same s i pc pc' c h :
  regs s !! i = Some pc -> reg_done pc = false -> reg_done pc' = false ->
  registered (Lst c h (<[i := pc']> (regs s))) = registered s.
Proof.
  unfold registered. simpl. intros Hi H1 H2. f_equal. revert i Hi.
  induction (regs s) as [|a l IH]; intros [|i] Hi; simplify_eq/=; [by rewrite H1, H2|].
  destruct (reg_done a); by rewrite (IH i Hi).
Qed.

Lemma registered_insert_done s i pc c h :
  regs s !! i = Some pc -> reg_done pc = false ->
  registered (Lst c h (<[i := LDone (reg_fn pc)]> (regs s))) ≡ₚ registered s ++ [reg_fn pc].
Proof.
  unfold registered. simpl. intros Hi H1. revert i Hi.
  induction (regs s) as [|a l IH]; intros [|i] Hi; simplify_eq/=.
  - rewrite H1. simpl. by rewrite <- Permutation_cons_append.
  - destruct (reg_done a); simpl; [constructor|]; by apply IH.
Qed.

Lemma old_insert (P : lpc -> Prop) l i pc : Forall P l -> P pc -> Forall P (<[i := pc]> l).
Proof. intros. by apply Forall_insert. Qed.

Lemma old_grow h k (l : list lpc) :
  Forall (fun pc => match pc with LCas _ p => ptr_ok h p | _ => True end) l ->
  Forall (fun pc => match pc with LCas _ p => ptr_ok (h ++ k) p | _ => True end) l.
Proof. intros H. eapply Forall_impl; [|exact H]. intros [| |]; auto using ptr_ok_app. Qed.

Lemma reg_step_inv i s s' : reg_inv s -> OnProcessSuccess i s = Some s' -> reg_inv s'.
Proof.
  intros [Hp Hc Ho] H. unfold OnProcessSuccess in H.
  destruct (regs s !! i) as [[fn|fn old|fn]|] eqn:Ei; simplify_eq.
  - split; simpl; [|done|by apply old_insert].
    rewrite (registered_insert_same s i (LLoad fn)) by done. exact Hp.
  - pose proof (Forall_lookup_1 _ _ _ _ Ho Ei) as Hold. simpl in Hold.
    case_decide as Ed; simplify_eq.
    + split; simpl; [|rewrite length_app; simpl; lia|by apply old_insert, I; apply old_grow].
      unfold notifyProcessSuccess. simpl. rewrite lookup_app_r, Nat.sub_diag by lia. simpl.
      rewrite (registered_insert_done s i (LCas fn (cell s))) by done. simpl. by rewrite <- Hp.
    + split; simpl; [|by apply ptr_ok_app|by apply old_insert, I; apply old_grow].
      rewrite (registered_insert_same s i (LCas fn old)) by done.
      unfold notifyProcessSuccess. simpl. by rewrite slice_at_app.
Qed.

(** ** Termination: a compare-and-swap fails only when another one has succeeded *)

Definition reg_weight (c : option nat) (pc : lpc) : nat :=
  match pc with LDone _ => 0 | LLoad _ => 2 | LCas _ p => if decide (p = c) then 1 else 3 end.
Definition pending (l : list lpc) : nat := length (List.filter (fun pc => negb (reg_done pc)) l).
Definition reg_measure (s : listeners) : nat :=
  sum_list_with (reg_weight (cell s)) (regs s) + pending (regs s) * pending (regs s).

Lemma weight_any c c' l :
  (sum_list_with (reg_weight c') l <= sum_list_with (reg_weight c) l + 2 * pending l)%nat.
Proof.
  unfold pending. induction l as [|[f|f p|f] l IH]; simpl; [lia|lia| |lia].
  repeat case_decide; simpl; lia.
Qed.

Lemma sum_insert (w : lpc -> nat) l i x y : l !! i = Some x ->
  (sum_list_with w (<[i := y]> l) + w x = sum_list_with w l + w y)%nat.
Proof.
  revert i. induction l as [|a l IH]; intros [|i] H; simplify_eq/=; [lia|]. specialize (IH i H). lia.
Qed.

Lemma pending_insert l i x y : l !! i = Some x -> reg_done x = false ->
  pending l = (pending (<[i := y]> l) + (if reg_done y then 1 else 0))%nat.
Proof.
  unfold pending. revert i. induction l as [|a l IH]; intros [|i] H Hx; simplify_eq/=.
  - rewrite Hx. simpl. destruct (reg_done y); simpl; lia.
  - destruct (reg_done a); simpl; rewrite (IH i H Hx); lia.
Qed.

Lemma reg_step_measure i s s' : OnProcessSuccess i s = Some s' -> (reg_measure s' < reg_measure s)%nat.
Proof.
  unfold OnProcessSuccess, reg_measure.
  destruct (regs s !! i) as [[fn|fn old|fn]|] eqn:Ei; [|case_decide as Ed|done|done]; intros [= <-]; simpl.
  - pose proof (sum_insert (reg_weight (cell s)) _ _ _ (LCas fn (cell s)) Ei) as Hs.
    pose proof (pending_insert _ _ _ (LCas fn (cell s)) Ei eq_refl) as Hp. simpl in Hs, Hp.
    rewrite decide_True in Hs by done. rewrite Hp, Nat.add_0_r. lia.
  - subst old. pose proof (sum_insert (reg_weight (cell s)) _ _ _ (LDone fn) Ei) as Hs.
    pose proof (pending_insert _ _ _ (LDone fn) Ei eq_refl) as Hp. simpl in Hs, Hp.
    rewrite decide_True in Hs by done.
    pose proof (weight_any (cell s) (Some (length (heap s))) (<[i := LDone fn]> (regs s))). nia.
  - pose proof (sum_insert (reg_weight (cell s)) _ _ _ (LLoad fn) Ei) as Hs.
    pose proof (pending_insert _ _ _ (LLoad fn) Ei eq_refl) as Hp. simpl in Hs, Hp.
    rewrite decide_False in Hs by congruence. rewrite Hp, Nat.add_0_r. lia.
Qed.

Lemma reg_run_inv sched s s' : reg_inv s -> reg_run sched s = Some s' ->
  reg_inv s' /\ (length sched + reg_measure s' <= reg_measure s)%nat /\ (reg_fn <$> regs s') = (reg_fn <$> regs s).
Proof.
  revert s. induction sched as [|i l IH]; intros s Hi H; simplify_eq/=; [done|].
  destruct (OnProcessSuccess i s) as [s1|] eqn:E; [|done].
  destruct (IH s1 (reg_step_inv _ _ _ Hi E) H) as (H1 & H2 & H3). pose proof (reg_step_measure _ _ _ E).
  split_and!; [done|lia|]. rewrite H3. clear -E. unfold OnProcessSuccess in E.
  destruct (regs s !! i) as [[fn|fn old|fn]|] eqn:Ei; [|case_decide| |]; simplify_eq/=;
    rewrite list_fmap_insert; apply list_insert_id; by rewrite list_lookup_fmap, Ei.
Qed.

Lemma register_all_inv fns : reg_inv (register_all fns).
Proof.
  unfold register_all. split; simpl; [|done|].
  - unfold notifyProcessSuccess, registered. simpl. by induction fns.
  - induction fns; simpl; by constructor.
Qed.

Lemma register_all_measure fns :
  reg_measure (register_all fns) = (length fns * (length fns + 2))%nat.
Proof.
  unfold reg_measure, pending, register_all. simpl.
  assert (sum_list_with (reg_weight None) (LLoad <$> fns) = (2 * length fns)%nat) as -> by (induction fns as [|f l IH]; [done|cbn; cbn in IH; lia]).
  assert (length (List.filter (fun pc => negb (reg_done pc)) (LLoad <$> fns)) = length fns) as -> by (induction fns as [|f l IH]; [done|cbn; f_equal; exact IH]).
  lia.
Qed.

(** C28: concurrent registrations of listeners never lose one and always finish.
    In every interleaving, the callbacks a notification calls are exactly those
    whose registration has returned, each once; no interleaving of [n]
    registrations has more than [n * (n + 2)] atomic actions, however often a
    compare-and-swap has to be retried; and while a registration has not
    returned it can act, so a schedule that cannot be extended has registered
    all of them. *)
Theorem listeners_none_lost fns sched s :
  reg_run sched (register_all fns) = Some s ->
  notifyProcessSuccess s ≡ₚ registered s /\
  (length sched <= length fns * (length fns + 2))%nat /\
  ((forall i, OnProcessSuccess i s = None) -> notifyProcessSuccess s ≡ₚ fns).
Proof.
  intros H. destruct (reg_run_inv _ _ _ (register_all_inv fns) H) as (Hi & Hm & Hf).
  rewrite register_all_measure in Hm. split_and!; [apply Hi|lia|].
  intros Hstuck. rewrite (ri_perm _ Hi). unfold registered.
  assert (Forall (fun pc => reg_done pc = true) (regs s)) as Hall.
  { apply Forall_lookup. intros i pc Hpc. specialize (Hstuck i). unfold OnProcessSuccess in Hstuck.
    rewrite Hpc in Hstuck. destruct pc; [done| |done]. by case_decide. }
  assert (List.filter reg_done (regs s) = regs s) as ->.
  { clear -Hall. induction Hall as [|pc l H _ IH]; simpl; [done|]. rewrite H. by rewrite IH. }
  rewrite Hf. unfold register_all. simpl. clear. by induction fns; simpl; [|constructor].
Qed.

End Listeners.

(** Two registrations load the same pointer; the loser retries. *)
Lemma listeners_none_lost_witness :
  exists s, reg_run [0; 1; 0; 1; 1; 1]%nat (register_all ["activity"; "fingerprint"]) = Some s /\
    notifyProcessSuccess s ≡ₚ registered s /\ notifyProcessSuccess s = ["activity"; "fingerprint"].
Proof.
  eexists. split; [vm_compute; reflexivity|]. split; [|reflexivity].
  refine (proj1 (listeners_none_lost ["activity"; "fingerprint"] [0; 1; 0; 1; 1; 1]%nat _ _)). vm_compute. reflexivity.
Defined.
