(* ===== verification/Consume.v ===== *)
(** * Message handling and acknowledgement (consumer_push.go, backpressure.go, ack.go)

    A delivered message carries whether it is bound to a subscription and the
    call that settled it (acked, nak'd or terminated), if any has.
    The settling calls are the interface [MsgApi].  The user's handler is a
    function on the message, which it may settle itself.  Metrics and spans are
    left out, the two listener notifications are events. *)

From S2P Require Import Prelude GoStr Validate Message Compress Codec Publisher Rpc Pressure WorkerPool.

Definition ErrPoolFull : string := "nats.ErrPoolFull".
Definition ErrBackpressureHandled : string := "nats.ErrBackpressureHandled".
Definition ErrDLQRouted : string := "dlq.ErrDLQRouted".
Definition ErrMsgAlreadyAckd : string := "nats.go.ErrMsgAlreadyAckd".
Definition ErrMsgNotBound : string := "nats.go.ErrMsgNotBound".

Definition BackpressureBlock : Z := 1.
Definition BackpressureNak : Z := 2.
Definition BackpressureTerm : Z := 3.
Definition BackpressureDrop : Z := 4.

(** ** Delivered messages and the settling calls of nats.go *)

Inductive settle_op := OpAck | OpNak | OpNakWithDelay (d : Z) | OpTerm | OpRespond (b : string).

(** [settlement]: the first settling call of this delivery the server took. *)
Record jmsg := JMsg { body : NatsMsg; bound : bool; settlement : option settle_op }.
Definition set_body (m : jmsg) (b : NatsMsg) : jmsg := JMsg b (bound m) (settlement m).
Definition settled (m : jmsg) : bool := match settlement m with Some _ => true | None => false end.

Definition is_respond (op : settle_op) : bool := match op with OpRespond _ => true | _ => false end.

(** [Ack], [Nak], [NakWithDelay], [Term] and a [+TERM] reply settle a message
    when they succeed, and may have when they fail; what settled it first
    stays.  A message settled by one of the first four refuses them with
    [ErrMsgAlreadyAckd] (a plain [Respond] neither marks the message nor is
    refused), and a message that belongs to no subscription refuses every call
    with [ErrMsgNotBound]; the errors are nats.go's own. *)
Class MsgApi := {
  do_op : settle_op -> jmsg -> option err * jmsg;
  api_body op m : body (do_op op m).2 = body m;
  api_bound op m : bound (do_op op m).2 = bound m;
  api_ok op m : (do_op op m).1 = None -> settled (do_op op m).2 = true;
  api_keep op m o : settlement m = Some o -> settlement (do_op op m).2 = Some o;
  api_new op m o : settlement m = None -> settlement (do_op op m).2 = Some o -> o = op;
  api_unbound op m : bound m = false -> do_op op m = (Some (Sentinel ErrMsgNotBound), m);
  api_again op m o : is_respond op = false -> bound m = true -> settlement m = Some o -> is_respond o = false ->
    do_op op m = (Some (Sentinel ErrMsgAlreadyAckd), m);
  api_foreign op m e : (do_op op m).1 = Some e ->
    errors_is e ErrPoolFull = false /\ errors_is e ErrBackpressureHandled = false
}.

(** The server is reachable: a call on a bound message fails only because the
    message is settled already. *)
Definition reliable `{MsgApi} : Prop :=
  forall op m, bound m = true -> settled m = false -> (do_op op m).1 = None.

(** A concrete message API for the examples. *)
Definition demo_op (op : settle_op) (m : jmsg) : option err * jmsg :=
  if negb (bound m) then (Some (Sentinel ErrMsgNotBound), m)
  else match settlement m with
       | None => (None, JMsg (body m) (bound m) (Some op))
       | Some o => if is_respond op || is_respond o then (None, m) else (Some (Sentinel ErrMsgAlreadyAckd), m)
       end.

#[global] Program Instance demo_api : MsgApi := {| do_op := demo_op |}.
Next Obligation. intros op m. unfold demo_op. by repeat case_match. Qed.
Next Obligation. intros op m. unfold demo_op. by repeat case_match. Qed.
Next Obligation. intros op m. unfold demo_op, settled. by repeat case_match; simplify_eq/=. Qed.
Next Obligation. intros op m o H. unfold demo_op. rewrite H. by repeat case_match. Qed.
Next Obligation. intros op m o H. unfold demo_op. rewrite H. repeat case_match; intros ?; simplify_eq/=; congruence. Qed.
Next Obligation. intros op m H. unfold demo_op. by rewrite H. Qed.
Next Obligation. intros op m o Hop Hb Hs Ho. unfold demo_op. by rewrite Hb, Hs, Hop, Ho. Qed.
Next Obligation. intros op m e. unfold demo_op. repeat case_match; intros E; by simplify_eq/=. Qed.

Lemma demo_reliable : reliable.
Proof. intros op m Hb Hs. simpl. unfold demo_op, settled in *. rewrite Hb. by destruct (settlement m). Qed.

Inductive event := EvMessageHandled | EvProcessSuccess.

Record RuntimeConsumerConfig := RCC {
  AckWait : Z; IdleHeartbeat : Z; FlowControl : bool; WorkerPoolEnabled : bool;
  WorkerPoolSize : Z; WorkerBufferSize : Z; PayloadDecompression : bool;
  cPendingMsgLimit : Z; cPendingMsgBuffer : Z
}.

Record BackpressureConfig := BPC {
  bpMode : Z; bpPendingMsgLimit : Z; bpPendingMsgBuffer : Z; bpMaxAckPending : Z
}.

Record consumer := MkConsumer {
  cfg : RuntimeConsumerConfig; backpressure : BackpressureConfig; adaptive : option AdaptivePressure
}.

(** What the handler does: its outcome and the message it leaves. *)
Definition MsgHandler := jmsg -> outcome * jmsg.

Section Consume.
Context `{NH : NatsHeader} `{CP : Compressors} `{MA : MsgApi}.

(** ** ack.go *)

Definition wrap_op (msg : string) (r : option err * jmsg) : option err * jmsg :=
  match r with (Some e, m) => (Some (wrapf msg e), m) | (None, m) => (None, m) end.

Definition NakWithDelay (m : option jmsg) (d : Z) : option err * option jmsg :=
  match m with
  | None => (Some (errorf "nak with delay: nil message"), None)
  | Some m => let '(e, m') := wrap_op "nak with delay subject=%q: %w" (do_op (OpNakWithDelay d) m) in (e, Some m')
  end.

(** [in_progress]: nats.go's call, which extends the acknowledgement wait and
    settles nothing. *)
Definition InProgress (in_progress : jmsg -> option err) (m : option jmsg) : option err :=
  match m with
  | None => Some (errorf "in progress: nil message")
  | Some m => match in_progress m with Some e => Some (wrapf "in progress subject=%q: %w" e) | None => None end
  end.

Definition TermWithReason (m : option jmsg) (reason : string) : option err * option jmsg :=
  match m with
  | None => (Some (errorf "term with reason: nil message"), None)
  | Some m =>
      let '(e, m') :=
        if IsEmpty reason then wrap_op "term subject=%q: %w" (do_op OpTerm m)
        else wrap_op "term with reason subject=%q: %w" (do_op (OpRespond ("+TERM " +:+ reason)) m) in
      (e, Some m')
  end.

(** ** processMessage *)

Definition recordProcessError (m : jmsg) : jmsg := (do_op OpNak m).2.

Definition processMessage (c : consumer) (handler : MsgHandler) (m : jmsg)
  : option err * jmsg * list event :=
  let '(derr, b) := if PayloadDecompression (cfg c) then maybeDecompressMsg (body m) else (None, body m) in
  match derr with
  | Some e => (Some (wrapf "message decompression failed subject=%q: %w" e), recordProcessError m, [])
  | None =>
      let '(o, m1) := handler (set_body m b) in
      let e := invokeMsgHandler o in
      if is_err e ErrDLQRouted then (None, m1, [EvMessageHandled; EvProcessSuccess])
      else match e with
           | Some e => (Some (wrapf "message processing failed subject=%q: %w" e), recordProcessError m1,
                        [EvMessageHandled])
           | None =>
               match do_op OpAck m1 with
               | (Some e, m2) =>
                   if errors_is e ErrMsgAlreadyAckd then (None, m2, [EvMessageHandled; EvProcessSuccess])
                   else (Some (wrapf "ack message subject=%q: %w" e), m2, [EvMessageHandled])
               | (None, m2) => (None, m2, [EvMessageHandled; EvProcessSuccess])
               end
           end
  end.

(** ** handlePoolBackpressure; [depth1] and [depth2] are the two reads of
    [QueueDepth], [None] a consumer without a pool *)

(** Settle by [op]; the policy has handled the message when that succeeds. *)
Definition bp_settle (msg : string) (op : settle_op) (m : jmsg) (c : consumer)
  : option err * jmsg * consumer :=
  match do_op op m with
  | (Some e, m') => (Some (wrapf msg e), m', c)
  | (None, m') => (Some (Sentinel ErrBackpressureHandled), m', c)
  end.

Definition handlePoolBackpressure (c : consumer) (depth1 : option Z) (depth2 : Z) (m : jmsg)
  : option err * jmsg * consumer :=
  match depth1 with
  | None => (None, m, c)
  | Some depth =>
      let capacity := WorkerBufferSize (cfg c) in
      if (capacity <=? 0) || (depth <? capacity) then (None, m, c)
      else
        let mode := if bpMode (backpressure c) =? 0 then BackpressureBlock else bpMode (backpressure c) in
        if mode =? BackpressureBlock then (Some (Sentinel ErrPoolFull), m, c)
        else if mode =? BackpressureNak then
          let '(delay, a) :=
            match adaptive c with
            | None => (0, None)
            | Some _ =>
                let '(d, a') := Observe (adaptive c)
                  (APInput depth2 capacity 0 0 0 0 0 0 (bpMaxAckPending (backpressure c))) in
                (NakDelay d, a')
            end in
          bp_settle "backpressure nak subject=%q: %w" (if 0 <? delay then OpNakWithDelay delay else OpNak) m
            (MkConsumer (cfg c) (backpressure c) a)
        else if mode =? BackpressureTerm then bp_settle "backpressure term subject=%q: %w" OpTerm m c
        else if mode =? BackpressureDrop then bp_settle "backpressure drop term subject=%q: %w" OpTerm m c
        else (Some (Sentinel ErrPoolFull), m, c)
  end.

(** ** wrapHandler

    What the pool answers to this delivery: the result of the non-blocking and
    of the blocking publish and the two depth reads. *)
Record pool_answers := PA { tryNB : bool * option err; tryB : option err; qd1 : Z; qd2 : Z }.

(** The message was handled inline, handed to the pool, or neither. *)
Inductive disposal := Inline | Queued | Kept.

Definition wrapHandler (c : consumer) (handler : MsgHandler) (pa : pool_answers) (m : jmsg)
  : option err * jmsg * disposal :=
  if negb (WorkerPoolEnabled (cfg c)) then
    let '(e, m', _) := processMessage c handler m in (e, m', Inline)
  else
    let mode := if bpMode (backpressure c) =? 0 then BackpressureBlock else bpMode (backpressure c) in
    if mode =? BackpressureNak then
      match tryNB pa with
      | (_, Some e) => (Some e, m, Kept)
      | (true, None) => (None, m, Queued)
      | (false, None) =>
          let '(e, m', _) := handlePoolBackpressure c (Some (qd1 pa)) (qd2 pa) m in (e, m', Kept)
      end
    else
      let '(e, m', _) := handlePoolBackpressure c (Some (qd1 pa)) (qd2 pa) m in
      let publish := match tryB pa with Some e => (Some e, m', Kept) | None => (None, m', Queued) end in
      match e with
      | None => publish
      | Some e =>
          if errors_is e ErrPoolFull then publish
          else if errors_is e ErrBackpressureHandled then (None, m', Kept)
          else (Some e, m', Kept)
      end.

(** ** Lemmas *)

Lemma settled_None m : settled m = false <-> settlement m = None.
Proof. unfold settled. by destruct (settlement m). Qed.

Lemma api_mono op m : settled m = true -> settled (do_op op m).2 = true.
Proof. unfold settled. destruct (settlement m) as [o|] eqn:E; [|done]. by rewrite (api_keep op m o E). Qed.

Lemma op_settles op m :
  reliable -> bound m = true -> settled (do_op op m).2 = true.
Proof.
  intros Hr Hb. destruct (settled m) eqn:Hs; [by apply api_mono|]. apply api_ok. by apply Hr.
Qed.

(** The first call decides how the message is settled. *)
Lemma op_decides op m :
  reliable -> bound m = true -> settlement m = None -> do_op op m = (None, (do_op op m).2) /\ settlement (do_op op m).2 = Some op.
Proof.
  intros Hr Hb Hn. pose proof (op_settles op m Hr Hb) as Hs. pose proof (api_new op m) as Hk.
  pose proof (Hr op m Hb (proj2 (settled_None m) Hn)) as He. split; [by destruct (do_op op m); simpl in *; subst|].
  unfold settled in Hs. destruct (settlement (do_op op m).2) as [o|]; [|done]. by rewrite (Hk o).
Qed.

Lemma op_error_settled op m e :
  reliable -> bound m = true -> (do_op op m).1 = Some e -> settled m = true.
Proof. intros Hr Hb He. destruct (settled m) eqn:Hs; [done|]. by rewrite Hr in He. Qed.

(** A handler does not detach the message from its subscription. *)
Definition keeps_bound (h : MsgHandler) : Prop := forall m, bound (h m).2 = bound m.

(** A handler that leaves settling to the consumer. *)
Definition leaves_unsettled (h : MsgHandler) : Prop := forall m, settlement (h m).2 = settlement m.

(** How such a message is settled: acked without an error, nak'd with one. *)
Lemma processMessage_kind c h m :
  reliable -> keeps_bound h -> leaves_unsettled h -> bound m = true -> settlement m = None ->
  (forall b, is_err (invokeMsgHandler (h (set_body m b)).1) ErrDLQRouted = false) ->
  let '(e, m', _) := processMessage c h m in
  settlement m' = Some (match e with None => OpAck | Some _ => OpNak end).
Proof.
  intros Hr Hk Hl Hb Hn Hd. unfold processMessage, recordProcessError.
  destruct (if PayloadDecompression (cfg c) then _ else _) as [[e|] b]; [by apply op_decides|].
  pose proof (Hk (set_body m b)) as Hb1. pose proof (Hl (set_body m b)) as Hl1. specialize (Hd b).
  destruct (h (set_body m b)) as [o m1]. simpl in Hb1, Hl1, Hd. rewrite Hd.
  rewrite Hb in Hb1. rewrite Hn in Hl1.
  destruct (invokeMsgHandler o) as [e|]; [by apply op_decides|].
  by destruct (op_decides OpAck m1 Hr Hb1 Hl1) as [-> ?].
Qed.

(** ** Theorems *)

(** C5: [processMessage] settles the message on every path, as long as the
    server answers: decompression failure, handler error, handler panic (nak)
    and success (ack, also when the handler settled it itself); the only other
    way out is a handler that reports the message routed to the dead-letter
    stream.  Success is notified exactly when no error is returned, and a message
    the handler neither settled nor routed is acked when no error is returned
    and nak'd otherwise. *)
Theorem processMessage_settles c h m :
  reliable -> keeps_bound h -> bound m = true ->
  let '(e, m', ev) := processMessage c h m in
  (settled m' = true \/
   (e = None /\ exists b, is_err (invokeMsgHandler (h (set_body m b)).1) ErrDLQRouted = true)) /\
  (e = None <-> EvProcessSuccess ∈ ev) /\
  (leaves_unsettled h -> settlement m = None ->
     (forall b, is_err (invokeMsgHandler (h (set_body m b)).1) ErrDLQRouted = false) ->
     settlement m' = Some (match e with None => OpAck | Some _ => OpNak end)).
Proof.
  intros Hr Hh Hb. pose proof (processMessage_kind c h m Hr Hh) as Hkind.
  cut (let '(e, m', ev) := processMessage c h m in
    (settled m' = true \/ (e = None /\ exists b, is_err (invokeMsgHandler (h (set_body m b)).1) ErrDLQRouted = true)) /\
    (e = None <-> EvProcessSuccess ∈ ev)).
  { destruct (processMessage c h m) as [[e m'] ev]. intros [H1 H2]. auto. }
  clear Hkind. unfold processMessage.
  destruct (if PayloadDecompression (cfg c) then _ else _) as [derr b].
  destruct derr as [e|]; [split; [left; by apply op_settles|split; [done|inversion 1]]|].
  pose proof (Hh (set_body m b)) as Hb1. destruct (h (set_body m b)) as [o m1] eqn:Eh. simpl in Hb1.
  destruct (is_err (invokeMsgHandler o) ErrDLQRouted) eqn:Ed.
  { split; [right; split; [done|exists b; by rewrite Eh]|]. split; [intros _; set_solver|done]. }
  destruct (invokeMsgHandler o) as [e|].
  { split; [left; apply op_settles; congruence || done|]. split; [done|set_solver]. }
  pose proof (op_settles OpAck m1 Hr ltac:(congruence)) as Hs.
  destruct (do_op OpAck m1) as [[e|] m2] eqn:Ea; simpl in Hs; [|split; [by left|split; [set_solver|done]]].
  destruct (errors_is e ErrMsgAlreadyAckd) eqn:Ee; [split; [by left|split; [set_solver|done]]|].
  split; [by left|]. split; [done|set_solver].
Qed.

(** A message that is not bound to a subscription, which is what the
    jetstream-API pull consumer builds, can never be settled: even when the
    handler succeeds, processing ends in [ErrMsgNotBound] and the message stays
    unacknowledged. *)
Theorem unbound_never_acked c (h : MsgHandler) m :
  bound m = false -> settled m = false -> PayloadDecompression (cfg c) = false ->
  h m = (Returned None, m) ->
  exists e, processMessage c h m = (Some e, m, [EvMessageHandled]) /\ errors_is e ErrMsgNotBound = true.
Proof.
  intros Hb Hs Hd Hh. unfold processMessage. rewrite Hd.
  assert (set_body m (body m) = m) as -> by (by destruct m). rewrite Hh. simpl.
  rewrite api_unbound by done. eexists. split; [reflexivity|]. by rewrite errors_is_wrapf.
Qed.

(** Every answer of the backpressure policy, when it says "handled". *)
Lemma bp_settle_spec msg op m c e m' c' :
  bp_settle msg op m c = (Some e, m', c') ->
  (errors_is e ErrBackpressureHandled = true -> settled m' = true) /\ errors_is e ErrPoolFull = false.
Proof.
  unfold bp_settle. destruct (do_op op m) as [[e1|] m1] eqn:Eo; intros E; simplify_eq.
  - rewrite !errors_is_wrapf. destruct (api_foreign op m e1) as [-> ->]; [by rewrite Eo|done].
  - split; [|done]. intros _. pose proof (api_ok op m) as Hk. rewrite Eo in Hk. by apply Hk.
Qed.

Lemma backpressure_handled c d1 d2 m e m' c' :
  handlePoolBackpressure c d1 d2 m = (Some e, m', c') ->
  (errors_is e ErrBackpressureHandled = true -> settled m' = true) /\
  (errors_is e ErrPoolFull = true -> m' = m).
Proof.
  unfold handlePoolBackpressure. intros E. destruct d1 as [d|]; [|done].
  destruct (_ || _); [done|].
  repeat match type of E with
    | (if ?b then _ else _) = _ => destruct b; [try (simplify_eq; by split)|try (simplify_eq; by split)]
    | (let '(_, _) := ?x in _) = _ => destruct x
    end; apply bp_settle_spec in E as [H1 H2]; split; try done; congruence.
Qed.

(** With a worker pool and any backpressure mode but nak, a delivery the
    wrapper reports as taken (nil error) is really owned by somebody: it sits
    in the pool's queue or it has been settled. *)
Theorem wrapHandler_owns c h pa m :
  WorkerPoolEnabled (cfg c) = true -> bpMode (backpressure c) <> BackpressureNak ->
  let '(e, m', d) := wrapHandler c h pa m in
  e = None -> d = Queued \/ settled m' = true.
Proof.
  intros Hw Hm. unfold wrapHandler. rewrite Hw. cbn [negb].
  assert (((if bpMode (backpressure c) =? 0 then BackpressureBlock else bpMode (backpressure c))
           =? BackpressureNak) = false) as ->.
  { destruct (Z.eqb_spec (bpMode (backpressure c)) 0); [done|]. by apply Z.eqb_neq. }
  destruct (handlePoolBackpressure c _ _ m) as [[[e|] m'] c'] eqn:Eb; [|by destruct (tryB pa); auto].
  destruct (backpressure_handled _ _ _ _ _ _ _ Eb) as [H1 _].
  destruct (errors_is e ErrPoolFull); [by destruct (tryB pa); auto|].
  destruct (errors_is e ErrBackpressureHandled); auto. done.
Qed.

(** In nak mode the wrapper can drop a message: when the pool refuses it
    but the policy then finds the queue below capacity (a worker has just taken
    a task, or the pool is unbuffered), it returns nil although the message was
    neither queued nor nak'd; only the ack-wait timeout brings it back. *)
Theorem nak_mode_drops_message c h pa m :
  WorkerPoolEnabled (cfg c) = true -> bpMode (backpressure c) = BackpressureNak ->
  tryNB pa = (false, None) ->
  WorkerBufferSize (cfg c) <= 0 \/ qd1 pa < WorkerBufferSize (cfg c) ->
  wrapHandler c h pa m = (None, m, Kept).
Proof.
  intros Hw Hm Ht Hc. unfold wrapHandler, handlePoolBackpressure. rewrite Hw, Hm, Ht. simpl.
  destruct Hc as [Hc|Hc]; [apply Z.leb_le in Hc; by rewrite Hc|].
  apply Z.ltb_lt in Hc. rewrite Hc, orb_true_r. done.
Qed.

End Consume.

(** ** Examples *)

Definition demo_cfg (pool : bool) (buf : Z) : RuntimeConsumerConfig :=
  RCC (30 * 10 ^ 9) 0 false pool 4 buf false 0 0.
Definition demo_consumer (pool : bool) (buf mode : Z) : consumer :=
  MkConsumer (demo_cfg pool buf) (BPC mode 0 0 1000) None.
Definition demo_jmsg (b : bool) : jmsg := JMsg (NMsg "orders.created" "x" None) b None.
Definition panicking : MsgHandler := fun m => (Panicked None, m).
Definition ok_handler : MsgHandler := fun m => (Returned None, m).

Lemma processMessage_settles_witness :
  settled (processMessage (demo_consumer false 0 0) panicking (demo_jmsg true)).1.2 = true.
Proof.
  pose proof (processMessage_settles (demo_consumer false 0 0) panicking (demo_jmsg true)
    demo_reliable (fun m => eq_refl) eq_refl) as H.
  destruct (processMessage _ _ _) as [[e m'] ev]. destruct H as [[H|[_ [b H]]] _]; [exact H|discriminate H].
Defined.

Lemma unbound_never_acked_witness :
  exists e, processMessage (demo_consumer false 0 0) ok_handler (demo_jmsg false) =
    (Some e, demo_jmsg false, [EvMessageHandled]).
Proof.
  destruct (unbound_never_acked (demo_consumer false 0 0) ok_handler (demo_jmsg false)) as (e & H & _);
    [reflexivity..|]. by exists e.
Defined.

Lemma wrapHandler_owns_witness :
  settled (wrapHandler (demo_consumer true 2 BackpressureTerm) ok_handler
             (PA (false, None) None 2 2) (demo_jmsg true)).1.2 = true.
Proof.
  pose proof (wrapHandler_owns (demo_consumer true 2 BackpressureTerm) ok_handler
    (PA (false, None) None 2 2) (demo_jmsg true) eq_refl ltac:(discriminate)) as H.
  destruct (wrapHandler _ _ _ _) as [[e m'] d] eqn:E. vm_compute in E. injection E as <- <- <-.
  destruct (H eq_refl) as [H'|H']; [discriminate H'|exact H'].
Defined.

Lemma nak_mode_drops_message_witness :
  wrapHandler (demo_consumer true 0 BackpressureNak) ok_handler (PA (false, None) None 1 1) (demo_jmsg true) =
    (None, demo_jmsg true, Kept) /\ settled (demo_jmsg true) = false.
Proof.
  split; [|reflexivity].
  apply nak_mode_drops_message; [reflexivity..|]. left. discriminate.
Defined.
