(* ===== verification/Pull.v ===== *)
(** * Pull consumers (consumer_pull.go, consumer_pull_v2.go)

    Fetch options, the three ways a fetched batch is processed (in order, by a
    bounded set of goroutines, through the worker pool) and one iteration of
    the [Process] loop.  What other goroutines and the server do during a batch
    is an oracle: the context's state at each check, how far the dispatch loop
    got before it saw an error, the pool's answers.  Metrics are left out. *)

From S2P Require Import Prelude GoStr Validate Message Compress Codec Publisher Rpc Pressure WorkerPool Consume.

Definition defaultFetchMaxWait : Z := 5 * 10 ^ 9.
Definition defaultFetchBatch : Z := 10.
Definition ErrTimeout : string := "nats.go.ErrTimeout".
Definition ErrNoHeartbeat : string := "nats.go.ErrNoHeartbeat".
Definition Canceled : string := "context.Canceled".
Definition DeadlineExceeded : string := "context.DeadlineExceeded".

(** ** Options *)

Record fetchConfig := FetchCfg { fMaxWait : Z; fHeartbeat : Z }.
Record processConfig := ProcCfg { pBatch : Z; pMaxWait : Z; pHeartbeat : Z; pConcurrency : Z }.

(** The options a fetch request carries: the deadline put on the context and
    the pull heartbeat. *)
Definition fetch_options (cfg : fetchConfig) : option Z * option Z :=
  (if 0 <? fMaxWait cfg then Some (fMaxWait cfg) else None,
   if 0 <? fHeartbeat cfg then
     let hb := if (0 <? fMaxWait cfg) && (fMaxWait cfg <=? fHeartbeat cfg)
               then Z.quot (fMaxWait cfg) 2 else fHeartbeat cfg in
     if 0 <? hb then Some hb else None
   else None).

Definition process_defaults (cfg : processConfig) (idle : Z) : processConfig :=
  ProcCfg (if pBatch cfg <=? 0 then defaultFetchBatch else pBatch cfg)
    (if pMaxWait cfg <=? 0 then defaultFetchMaxWait else pMaxWait cfg)
    (if (pHeartbeat cfg <=? 0) && (0 <? idle) then idle else pHeartbeat cfg)
    (pConcurrency cfg).

(** [jetstreamMsgToNATS]: the converted message has no subscription. *)
Definition jetstreamMsgToNATS (b : NatsMsg) : jmsg := JMsg b false None.

(** ** The subscription handle *)

Definition pull_subscription (sub : option unit) : option err :=
  match sub with None => Some (errorf "pull: subscription closed") | Some _ => None end.
(** [Close]: [unsub] answers Unsubscribe; a second call does nothing. *)
Definition pull_Close (sub : option unit) (unsub : option err) : option err * option unit :=
  match sub with None => (None, None) | Some _ => (unsub, None) end.

Section Pull.
Context `{NH : NatsHeader} `{CP : Compressors} `{MA : MsgApi}.

Definition nakRemaining (ms : list jmsg) : list jmsg := (fun m => (do_op OpNak m).2) <$> ms.

(** ** In order: [ctx i] is the context's error at the i-th check *)
Fixpoint process_seq (c : consumer) (h : nat -> MsgHandler) (ctx : nat -> option err) (i : nat)
  (ms : list jmsg) : option err * list jmsg :=
  match ms with
  | [] => (None, [])
  | m :: ms' =>
      match ctx i with
      | Some e => (Some (wrapf "pull process: %w" e), nakRemaining ms)
      | None =>
          let '(_, m', _) := processMessage c (h i) m in
          let '(e, rest) := process_seq c h ctx (S i) ms' in (e, m' :: rest)
      end
  end.

(** ** Concurrently: the dispatch loop hands over the first [cut] messages and
    naks the rest; a worker that sees the context done naks instead of
    processing ([late i]); [ctxEnd] is the context's error at the end *)
Definition process_conc (c : consumer) (h : nat -> MsgHandler) (cut : nat) (late : nat -> bool)
  (ctxEnd : option err) (ms : list jmsg) : option err * list jmsg :=
  (match ctxEnd with Some e => Some (wrapf "pull process: %w" e) | None => None end,
   imap (fun i m => if late i then (do_op OpNak m).2 else (processMessage c (h i) m).1.2) (take cut ms)
     ++ nakRemaining (drop cut ms)).

(** ** Through the pool *)

Definition enqueue (c : consumer) (pa : pool_answers) (m : jmsg) : option err * jmsg * bool :=
  match tryNB pa with
  | (_, Some e) => (Some e, m, false)
  | (true, None) => (None, m, true)
  | (false, None) =>
      let '(bpErr, m', _) := handlePoolBackpressure c (Some (qd1 pa)) (qd2 pa) m in
      if match bpErr with None => true | Some e => errors_is e ErrPoolFull end
      then match tryB pa with Some e => (Some e, m', false) | None => (None, m', true) end
      else if is_err bpErr ErrBackpressureHandled then (None, m', false)
      else (bpErr, m', false)
  end.

Fixpoint enqueue_all (c : consumer) (pas : nat -> pool_answers) (ctx : nat -> option err) (i : nat)
  (ms : list jmsg) : option err * list (jmsg * bool) :=
  match ms with
  | [] => (None, [])
  | m :: ms' =>
      match ctx i with
      | Some e => (Some (wrapf "pull process: %w" e), (fun m => (m, false)) <$> ms)
      | None =>
          match enqueue c (pas i) m with
          | (Some e, m', q) => (Some e, (m', q) :: ((fun m => (m, false)) <$> ms'))
          | (None, m', q) =>
              let '(e, rest) := enqueue_all c pas ctx (S i) ms' in (e, (m', q) :: rest)
          end
      end
  end.

(** The queued tasks run, those that [waits] says are left apart; the error of each. *)
Definition run_queued (c : consumer) (h : nat -> MsgHandler) (waits : nat -> bool) (l : list (jmsg * bool))
  : list (option err * jmsg) :=
  imap (fun i '(m, q) => if q && negb (waits i) then (processMessage c (h i) m).1 else (None, m)) l.

Definition first_error (l : list (option err)) : option err := o ← head (filter is_Some l); o.

(** [late]: the context ended before every queued task had finished, with that
    error; the tasks of [waits] have then not run yet and are still in the queue. *)
Definition process_pool (c : consumer) (h : nat -> MsgHandler) (pas : nat -> pool_answers)
  (ctx : nat -> option err) (late : option err) (waits : nat -> bool) (ms : list jmsg) : option err * list jmsg :=
  let '(e1, l) := enqueue_all c pas ctx 0 ms in
  let ran := run_queued c h (fun i => match late with None => false | Some _ => waits i end) l in
  let firstErr := first_error ([e1] ++ (fst <$> ran) ++
                    [match late with Some e => Some (wrapf "pull process: %w" e) | None => None end]) in
  match firstErr with
  | Some e => (Some e, nakRemaining (snd <$> ran))
  | None => (None, snd <$> ran)
  end.

(** What happens around a batch. *)
Record batch_env := BEnv {
  ctxAt : nat -> option err; cutAt : nat; lateAt : nat -> bool; ctxEnd : option err;
  poolAt : nat -> pool_answers
}.

Definition processBatch (c : consumer) (h : nat -> MsgHandler) (cfg0 : processConfig) (env : batch_env)
  (ms : list jmsg) : option err * list jmsg :=
  match ms with
  | [] => (None, [])
  | _ =>
      if WorkerPoolEnabled (cfg c) then process_pool c h (poolAt env) (ctxAt env) (ctxEnd env) (lateAt env) ms
      else if 1 <? pConcurrency cfg0 then process_conc c h (cutAt env) (lateAt env) (ctxEnd env) ms
      else process_seq c h (ctxAt env) 0 ms
  end.

(** ** One iteration of [Process]; [None] means the loop goes on.

    [fetched] is the fetch result, [pauseCtx] the context's error if it ends
    during a circuit pause. *)
Record iter_env := IEnv {
  ctxNow : option err; poolDepth : option Z; pauseCtx : option err;
  fetched : Z -> res (list jmsg); batchEnv : batch_env
}.

(** The adaptive controller's say on the batch size and on pausing. *)
Definition plan_fetch (c : consumer) (cb : option CircuitBreaker) (batch : Z) (depth : option Z)
  : Z * bool :=
  match adaptive c with
  | None => (batch, false)
  | Some _ =>
      let '(d, cap) := match depth with Some d => (d, WorkerBufferSize (cfg c)) | None => (0, 0) end in
      let dec := (Observe (adaptive c) (APInput d cap 0 0 0 0 batch 0 (bpMaxAckPending (backpressure c)))).1 in
      (if 0 <? FetchBatch dec then FetchBatch dec else batch, (ShouldPause cb dec).1)
  end.

Definition transient (e : err) : bool :=
  errors_is e ErrTimeout || errors_is e ErrNoHeartbeat || errors_is e DeadlineExceeded.
Definition stops_loop (e : err) : bool :=
  errors_is e Canceled || errors_is e DeadlineExceeded || errors_is e ErrPoolStopped.

Definition process_iter (c : consumer) (cb : option CircuitBreaker) (h : nat -> MsgHandler)
  (pc : processConfig) (env : iter_env) : option err :=
  match ctxNow env with
  | Some e => Some (wrapf "pull process: %w" e)
  | None =>
      let '(batch, pause) := plan_fetch c cb (pBatch pc) (poolDepth env) in
      if pause then match pauseCtx env with Some e => Some (wrapf "pull process: %w" e) | None => None end
      else match fetched env batch with
           | Er e => if transient e then None else Some (wrapf "pull process fetch: %w" e)
           | Ok ms =>
               match processBatch c h pc (batchEnv env) ms with
               | (Some e, _) => if stops_loop e then Some e else None
               | (None, _) => None
               end
           end
  end.

(** ** Lemmas *)

(** No handler reports the message as routed to the dead-letter stream. *)
Definition never_routes (h : nat -> MsgHandler) : Prop :=
  forall i m, is_err (invokeMsgHandler (h i m).1) ErrDLQRouted = false.

Lemma process_one c h m :
  reliable -> keeps_bound h -> (forall m, is_err (invokeMsgHandler (h m).1) ErrDLQRouted = false) ->
  bound m = true -> settled (processMessage c h m).1.2 = true.
Proof.
  intros Hr Hk Hn Hb. unfold processMessage.
  destruct (if PayloadDecompression (cfg c) then _ else _) as [[e|] b]; [by apply op_settles|].
  pose proof (Hk (set_body m b)) as Hb1. pose proof (Hn (set_body m b)) as Hn1.
  destruct (h (set_body m b)) as [o m1]. simpl in Hb1, Hn1. rewrite Hn1.
  assert (Hb2 : bound m1 = true) by congruence.
  destruct (invokeMsgHandler o) as [e|]; [by apply op_settles|].
  pose proof (op_settles OpAck m1 Hr Hb2) as Hs.
  destruct (do_op OpAck m1) as [[e|] m2]; [|done]. by destruct (errors_is e ErrMsgAlreadyAckd).
Qed.

Lemma nakRemaining_settles ms :
  reliable -> Forall (fun m => bound m = true) ms ->
  Forall (fun m => settled m = true) (nakRemaining ms).
Proof. intros Hr Hb. unfold nakRemaining. apply Forall_fmap. eapply Forall_impl; [|done].
  intros m Hm. by apply op_settles. Qed.

Section Settle.
Context (c : consumer) (h : nat -> MsgHandler).
Hypothesis Hr : reliable.
Hypothesis Hk : forall i, keeps_bound (h i).
Hypothesis Hn : never_routes h.

Lemma process_seq_settles ctx i ms :
  Forall (fun m => bound m = true) ms ->
  Forall (fun m => settled m = true) (process_seq c h ctx i ms).2 /\
  length (process_seq c h ctx i ms).2 = length ms.
Proof.
  revert i. induction ms as [|m ms IH]; intros i Hb; [done|]. inversion Hb; subst. simpl.
  destruct (ctx i) as [e|].
  { split; [by apply (nakRemaining_settles (m :: ms))|]. unfold nakRemaining. simpl. by rewrite length_fmap. }
  pose proof (process_one c (h i) m Hr (Hk i) (Hn i)) as Hm.
  destruct (processMessage c (h i) m) as [[e m'] ev]. destruct (IH (S i)) as [H1' H2']; [done|].
  destruct (process_seq c h ctx (S i) ms) as [e' rest]. simpl in *. split; [constructor; auto|lia].
Qed.

Lemma process_conc_settles cut late ce ms :
  Forall (fun m => bound m = true) ms ->
  Forall (fun m => settled m = true) (process_conc c h cut late ce ms).2 /\
  length (process_conc c h cut late ce ms).2 = length ms.
Proof.
  intros Hb. simpl. unfold nakRemaining. split.
  - apply Forall_app. split; [|apply nakRemaining_settles; [done|by apply Forall_drop]].
    apply Forall_lookup. intros i m Hi. apply list_lookup_imap_Some in Hi as (m0 & Hm0 & ->).
    assert (bound m0 = true).
    { apply (Forall_lookup_1 _ _ i m0 (Forall_take _ cut _ Hb) Hm0). }
    destruct (late i); [by apply op_settles|]. apply process_one; auto.
  - rewrite length_app, length_imap, length_fmap, <- length_app. by rewrite take_drop.
Qed.

Lemma enqueue_bound pa m : bound (enqueue c pa m).1.2 = bound m.
Proof.
  assert (Hs : forall msg op c0, bound (bp_settle msg op m c0).1.2 = bound m).
  { intros msg op c0. unfold bp_settle. pose proof (api_bound op m) as Hb.
    by destruct (do_op op m) as [[]]. }
  assert (Hp : bound (handlePoolBackpressure c (Some (qd1 pa)) (qd2 pa) m).1.2 = bound m).
  { unfold handlePoolBackpressure. repeat case_match; done. }
  unfold enqueue. destruct (tryNB pa) as [[] []]; try done.
  destruct (handlePoolBackpressure _ _ _ _) as [[e m'] c']. simpl in *. by repeat case_match.
Qed.

(** Without an error a message is in the queue or settled. *)
Lemma enqueue_None pa m m' q : enqueue c pa m = (None, m', q) -> q = true \/ settled m' = true.
Proof.
  unfold enqueue. destruct (tryNB pa) as [[] []]; try (intros; simplify_eq; by auto).
  destruct (handlePoolBackpressure _ _ _ _) as [[[e|] m1] c1] eqn:E.
  - destruct (backpressure_handled _ _ _ _ _ _ _ E) as [Hh _]. simpl.
    destruct (errors_is e ErrPoolFull); [by destruct (tryB pa); intros; simplify_eq; auto|].
    destruct (errors_is e ErrBackpressureHandled); intros; simplify_eq; auto.
  - destruct (tryB pa); intros; simplify_eq; auto.
Qed.

Lemma enqueue_all_spec pas ctx i ms :
  Forall (fun m => bound m = true) ms ->
  let '(e, l) := enqueue_all c pas ctx i ms in
  length l = length ms /\ Forall (fun x => bound x.1 = true) l /\
  (e = None -> Forall (fun x => x.2 = true \/ settled x.1 = true) l).
Proof.
  assert (Hf : forall l, Forall (fun m => bound m = true) l ->
    length ((fun m => (m, false)) <$> l) = length l /\
    Forall (fun x : jmsg * bool => bound x.1 = true) ((fun m => (m, false)) <$> l)).
  { intros l Hl. split; [by rewrite length_fmap|]. by apply Forall_fmap. }
  revert i. induction ms as [|m ms IH]; intros i Hb; [done|]. inversion Hb; subst. simpl.
  destruct (ctx i) as [e|]; [destruct (Hf (m :: ms) Hb); done|].
  pose proof (enqueue_bound (pas i) m) as Hbm. pose proof (enqueue_None (pas i) m) as Hq.
  destruct (enqueue c (pas i) m) as [[[e|] m'] q]; simpl in Hbm.
  - destruct (Hf ms) as [H1' H2']; [done|]. simpl. split_and!; [lia|constructor; simpl; [congruence|done]|done].
  - specialize (IH (S i) ltac:(done)). destruct (enqueue_all c pas ctx (S i) ms) as [e rest].
    destruct IH as (L1 & L2 & L3). split_and!; [simpl; lia|constructor; simpl; [congruence|done]|].
    intros ->. constructor; [by apply Hq|auto].
Qed.

Lemma handler_bound i m : bound (processMessage c (h i) m).1.2 = bound m.
Proof.
  unfold processMessage, recordProcessError.
  destruct (if PayloadDecompression (cfg c) then _ else _) as [[e|] b]; simpl; [apply api_bound|].
  pose proof (Hk i (set_body m b)) as Hb. destruct (h i (set_body m b)) as [o m1]. simpl in Hb.
  destruct (is_err _ _); [done|]. destruct (invokeMsgHandler o); simpl; [by rewrite api_bound|].
  pose proof (api_bound OpAck m1). destruct (do_op OpAck m1) as [[]]; simpl in *; [|congruence].
  case_match; simpl; congruence.
Qed.

Lemma process_pool_settles pas ctx late waits ms :
  Forall (fun m => bound m = true) ms ->
  Forall (fun m => settled m = true) (process_pool c h pas ctx late waits ms).2 /\
  length (process_pool c h pas ctx late waits ms).2 = length ms.
Proof.
  intros Hb. unfold process_pool. pose proof (enqueue_all_spec pas ctx 0 ms Hb) as Hs.
  destruct (enqueue_all c pas ctx 0 ms) as [e1 l]. destruct Hs as (L1 & L2 & L3).
  set (ran := run_queued c h _ l).
  assert (Hran : length ran = length l /\ Forall (fun m => bound m = true) (snd <$> ran) /\
    (late = None -> e1 = None -> Forall (fun m => settled m = true) (snd <$> ran))).
  { subst ran. unfold run_queued. rewrite length_imap. split_and!; [done| |intros -> ->].
    - apply Forall_fmap, Forall_lookup. intros i x Hi.
      apply list_lookup_imap_Some in Hi as ([m q] & Hm & ->).
      pose proof (Forall_lookup_1 _ _ i _ L2 Hm) as Hbm. simpl in *.
      destruct (q && _); [|done]. simpl. by rewrite handler_bound.
    - apply Forall_fmap, Forall_lookup. intros i x Hi.
      apply list_lookup_imap_Some in Hi as ([m q] & Hm & ->).
      pose proof (Forall_lookup_1 _ _ i _ L2 Hm) as Hbm.
      pose proof (Forall_lookup_1 _ _ i _ (L3 eq_refl) Hm) as [Hq|Hq]; simpl in *; subst.
      + apply process_one; auto.
      + destruct q; simpl; [apply process_one; auto|done]. }
  destruct Hran as (R1 & R2 & R3).
  destruct (first_error _) as [e|] eqn:Ef; simpl.
  - split; [by apply nakRemaining_settles|]. unfold nakRemaining. rewrite !length_fmap. lia.
  - split; [|rewrite length_fmap; lia]. unfold first_error in Ef.
    apply R3; [destruct late; [exfalso|done]|destruct e1; [by exfalso|done]].
    destruct (filter is_Some _) as [|x rest] eqn:Efl; [|simpl in Ef; subst].
    + assert (Hin : Some (wrapf "pull process: %w" e) ∈ filter is_Some
        ([e1] ++ (fst <$> ran) ++ [Some (wrapf "pull process: %w" e)])).
      { apply list_elem_of_filter. split; [by eexists|set_solver]. }
      rewrite Efl in Hin. by apply not_elem_of_nil in Hin.
    + assert (Hx : None ∈ filter is_Some ([e1] ++ (fst <$> ran) ++ [Some (wrapf "pull process: %w" e)])).
      { rewrite Efl. apply list_elem_of_here. }
      apply list_elem_of_filter in Hx as [[y Hy] _]. done.
Qed.
End Settle.

(** ** Theorems *)

(** C18: no fetched message is left hanging: whichever way the batch is
    processed (in order, concurrently, through the worker pool), wherever the
    context ends, whatever the pool answers and wherever dispatching stops after
    an error, every message of the batch comes out settled, provided the server
    answers and no handler claims a dead-letter routing. *)
Theorem processBatch_settles c h pc env ms :
  reliable -> (forall i, keeps_bound (h i)) -> never_routes h ->
  Forall (fun m => bound m = true) ms ->
  Forall (fun m => settled m = true) (processBatch c h pc env ms).2 /\
  length (processBatch c h pc env ms).2 = length ms.
Proof.
  intros Hr Hk Hn Hb. unfold processBatch. destruct ms as [|m ms]; [done|].
  destruct (WorkerPoolEnabled (cfg c)); [by apply process_pool_settles|].
  destruct (1 <? pConcurrency pc); [by apply process_conc_settles|by apply process_seq_settles].
Qed.

(** The [Process] loop ends only for a reason: the context is done, a fetch
    failed with something else than a timeout, a missed heartbeat or a deadline,
    or the batch was cancelled or hit a stopped pool; handler failures and idle
    fetches never end it. *)
Theorem process_iter_exits c cb h pc env e :
  process_iter c cb h pc env = Some e ->
  (exists ce, (ctxNow env = Some ce \/ pauseCtx env = Some ce) /\ e = wrapf "pull process: %w" ce) \/
  (exists b fe, fetched env b = Er fe /\ transient fe = false /\ e = wrapf "pull process fetch: %w" fe) \/
  (exists b ms, fetched env b = Ok ms /\ (processBatch c h pc (batchEnv env) ms).1 = Some e /\ stops_loop e = true).
Proof.
  unfold process_iter. destruct (ctxNow env) as [ce|] eqn:Ec; [intros; simplify_eq; left; eauto|].
  destruct (plan_fetch c cb (pBatch pc) (poolDepth env)) as [b []].
  - destruct (pauseCtx env) as [ce|] eqn:Ep; intros; simplify_eq. left; eauto.
  - right. destruct (fetched env b) as [ms|fe] eqn:Ef.
    + destruct (processBatch c h pc (batchEnv env) ms) as [[be|] r] eqn:Eb; [|done].
      destruct (stops_loop be) eqn:Es; intros; simplify_eq. right. exists b, ms. by rewrite Eb.
    + destruct (transient fe) eqn:Et; intros; simplify_eq. left. eauto 10.
Qed.

End Pull.

(** A fetch never carries a heartbeat its deadline cannot honour: when both
    are set the heartbeat is positive and strictly below the maximum wait. *)
Theorem fetch_heartbeat_below_wait cfg hb :
  snd (fetch_options cfg) = Some hb -> 0 < hb /\ (0 < fMaxWait cfg -> hb < fMaxWait cfg).
Proof.
  unfold fetch_options. simpl. destruct (Z.ltb_spec 0 (fHeartbeat cfg)); [|done].
  destruct (Z.ltb_spec 0 (fMaxWait cfg)), (Z.leb_spec (fMaxWait cfg) (fHeartbeat cfg)); simpl;
    case_match; intros; simplify_eq; rewrite ?Z.ltb_lt in *; try lia.
  split; [lia|]. intros _. pose proof (Z.quot_lt (fMaxWait cfg) 2). lia.
Qed.

(** ** Examples *)

Definition demo_batch : list jmsg := [demo_jmsg true; demo_jmsg true; demo_jmsg true].
(** The context is cancelled before the second message. *)
Definition demo_env : batch_env :=
  BEnv (fun i => if (i <? 1)%nat then None else Some (Sentinel Canceled)) 1 (fun _ => false) None
    (fun _ => PA (true, None) None 0 0).

Lemma processBatch_settles_witness :
  Forall (fun m => settled m = true)
    (processBatch (demo_consumer false 0 0) (fun _ => ok_handler) (ProcCfg 0 0 0 0) demo_env demo_batch).2 /\
  (processBatch (demo_consumer false 0 0) (fun _ => ok_handler) (ProcCfg 0 0 0 0) demo_env demo_batch).1 <> None.
Proof.
  split; [|discriminate].
  apply processBatch_settles; [apply demo_reliable|done|done|by repeat constructor].
Defined.

Lemma process_iter_exits_witness :
  exists b fe, transient fe = false /\
    (fun b => if b =? 10 then Er (errorf "boom") else Ok (@nil jmsg)) b = Er fe.
Proof.
  destruct (process_iter_exits (demo_consumer false 0 0) None (fun _ => ok_handler) (ProcCfg 10 0 0 0)
    (IEnv None None None (fun b => if b =? 10 then Er (errorf "boom") else Ok []) demo_env)
    (wrapf "pull process fetch: %w" (errorf "boom")) eq_refl) as [(ce & [H|H] & _)|[(b & fe & H1 & H2 & _)|(b & ms & H1 & H2 & _)]].
  - discriminate H.
  - discriminate H.
  - by exists b, fe.
  - simpl in H1. destruct (b =? 10); [discriminate H1|]. injection H1 as <-. discriminate H2.
Defined.

Lemma fetch_heartbeat_below_wait_witness : snd (fetch_options (FetchCfg 100 500)) = Some 50 /\ 50 < 100.
Proof. split; [reflexivity|]. apply (fetch_heartbeat_below_wait (FetchCfg 100 500) 50); reflexivity. Defined.
