(* ===== verification/Idempotency.v ===== *)
(** * Idempotent handling with claims (idempotency/idempotency.go, kv_store.go)

    The JetStream key-value bucket is the interface [KeyValue]: its contents
    and what its calls may do to them; a failing call may or may not have taken
    effect.  [WithHandler] is given twice: as the function one delivery runs,
    and as the steps of many deliveries interleaving on one bucket, each bucket
    call being one step.  Key expiry (bucket TTL) is not modelled. *)

From S2P Require Import Prelude GoStr Validate Message Compress Codec Publisher Rpc.

Definition ErrClaimInFlight : string := "idempotency.ErrClaimInFlight".
Definition ErrKeyExists : string := "nats.go.ErrKeyExists".
Definition ErrKeyNotFound : string := "nats.go.ErrKeyNotFound".

Definition pendingValue : string := "p".
Definition doneValue : string := "d".
Definition legacyMarkedValue : string := String "001" "".

(** nats.go's [KeyValue]: [view] is the bucket's current contents. [Create]
    fails with [ErrKeyExists] exactly when the key is present; a call that
    succeeds has its effect, a call that fails otherwise may have had it. *)
Class KeyValue (S : Type) := {
  view : S -> gmap string string;
  kv_get : string -> S -> res string;
  kv_put : string -> string -> S -> option err * S;
  kv_create : string -> string -> S -> option err * S;
  kv_purge : string -> S -> option err * S;
  get_ok k s v : kv_get k s = Ok v -> view s !! k = Some v;
  get_notfound k s e : kv_get k s = Er e -> errors_is e ErrKeyNotFound = true -> view s !! k = None;
  put_view k v s : view (kv_put k v s).2 = <[k := v]> (view s) \/
    ((kv_put k v s).1 <> None /\ view (kv_put k v s).2 = view s);
  create_view k v s :
    (view s !! k = None /\ is_err (kv_create k v s).1 ErrKeyExists = false /\
       view (kv_create k v s).2 = <[k := v]> (view s)) \/
    ((kv_create k v s).1 <> None /\ view (kv_create k v s).2 = view s);
  create_exists k v s : is_err (kv_create k v s).1 ErrKeyExists = true -> is_Some (view s !! k);
  purge_view k s : view (kv_purge k s).2 = delete k (view s) \/
    ((kv_purge k s).1 <> None /\ view (kv_purge k s).2 = view s)
}.

Section Idempotency.
Context {S : Type} `{KV : KeyValue S}.

(** ** kvStore *)

Definition isDoneValue (v : string) : bool := String.eqb v doneValue || String.eqb v legacyMarkedValue.

Definition Seen (id : string) (s : S) : res bool :=
  match ValidateKVKey id with
  | Some e => Er e
  | None =>
      match kv_get id s with
      | Ok v => Ok (isDoneValue v)
      | Er e => if errors_is e ErrKeyNotFound then Ok false else Er (wrapf "kv dedup seen %q: %w" e)
      end
  end.

Definition Mark (id : string) (s : S) : option err * S :=
  match ValidateKVKey id with
  | Some e => (Some e, s)
  | None =>
      match kv_put id doneValue s with
      | (Some e, s') => (Some (wrapf "kv dedup mark %q: %w" e), s')
      | (None, s') => (None, s')
      end
  end.

Definition Claim (id : string) (s : S) : res bool * S :=
  match ValidateKVKey id with
  | Some e => (Er e, s)
  | None =>
      match kv_create id pendingValue s with
      | (None, s') => (Ok true, s')
      | (Some e, s') => if errors_is e ErrKeyExists then (Ok false, s')
                        else (Er (wrapf "kv dedup claim %q: %w" e), s')
      end
  end.

Definition Release (id : string) (s : S) : option err * S :=
  match ValidateKVKey id with
  | Some e => (Some e, s)
  | None =>
      match kv_purge id s with
      | (Some e, s') => if errors_is e ErrKeyNotFound then (None, s')
                        else (Some (wrapf "kv dedup release %q: %w" e), s')
      | (None, s') => (None, s')
      end
  end.

(** [MsgIDFromHeader]: the id the handler deduplicates by. *)
Definition MsgIDFromHeader `{NatsHeader} (h : option header) : string :=
  match h with None => "" | Some m => hget m HeaderMsgID end.

(** ** WithHandler

    The handler either returns an error or panics; a panic leaves through
    [WithHandler] ([Panicked]) without running the code after the call. *)

Definition after_failed (what : string) (err0 : err) (id : string) (s : S) : outcome * S :=
  match Release id s with
  | (Some r, s') => (Returned (Some (wrapf2 "join" err0 (wrapf what r))), s')
  | (None, s') => (Returned (Some err0), s')
  end.

Definition withClaimHandler (id : string) (h : outcome) (s : S) : outcome * S :=
  match Claim id s with
  | (Er e, s1) => (Returned (Some e), s1)
  | (Ok false, s1) =>
      match Seen id s1 with
      | Er e => (Returned (Some e), s1)
      | Ok true => (Returned None, s1)
      | Ok false => (Returned (Some (wrapf "%w: id=%q" (Sentinel ErrClaimInFlight))), s1)
      end
  | (Ok true, s1) =>
      match h with
      | Panicked e => (Panicked e, s1)
      | Returned (Some e) => after_failed "idempotency release id=%q: %w" e id s1
      | Returned None =>
          match Mark id s1 with
          | (Some e, s2) => after_failed "idempotency release after mark id=%q: %w" e id s2
          | (None, s2) => (Returned None, s2)
          end
      end
  end.

(** [claimer]: the store also implements ClaimStore. *)
Definition WithHandler (claimer : bool) (id : string) (h : outcome) (s : S) : outcome * S :=
  if IsEmpty id then (h, s)
  else if claimer then withClaimHandler id h s
  else match Seen id s with
       | Er e => (Returned (Some e), s)
       | Ok true => (Returned None, s)
       | Ok false =>
           match h with
           | Returned None => let '(e, s') := Mark id s in (Returned e, s')
           | _ => (h, s)
           end
       end.

(** ** Interleaved deliveries *)

Inductive ipc :=
  | IClaim                       (* about to call Claim *)
  | ISeen                        (* claim refused: about to call Seen *)
  | IRun                         (* claim held: the handler runs *)
  | IMark                        (* handler succeeded: about to call Mark *)
  | IRelease (w : string) (e : err)   (* about to call Release after e *)
  | IEnd (o : outcome).

Record istate := IState {
  kv : S; procs : list (string * ipc);
  started : list string;         (* ids whose handler was started *)
  completed : list string        (* ids whose Mark succeeded *)
}.

Inductive ilabel := LSpawn (id : string) | LStep (i : nat) | LRun (i : nat) (o : outcome).

Definition set_pc (i : nat) (id : string) (pc : ipc) (s' : S) (st : istate) : istate :=
  IState s' (<[i := (id, pc)]> (procs st)) (started st) (completed st).

Definition istep (l : ilabel) (st : istate) : option istate :=
  match l with
  | LSpawn id => Some (IState (kv st) (procs st ++ [(id, IClaim)]) (started st) (completed st))
  | LRun i o =>
      match procs st !! i with
      | Some (id, IRun) =>
          Some (set_pc i id (match o with
                             | Panicked e => IEnd (Panicked e)
                             | Returned (Some e) => IRelease "idempotency release id=%q: %w" e
                             | Returned None => IMark
                             end) (kv st) st)
      | _ => None
      end
  | LStep i =>
      match procs st !! i with
      | Some (id, IClaim) =>
          let '(r, s') := Claim id (kv st) in
          match r with
          | Er e => Some (set_pc i id (IEnd (Returned (Some e))) s' st)
          | Ok false => Some (set_pc i id ISeen s' st)
          | Ok true => Some (IState s' (<[i := (id, IRun)]> (procs st)) (id :: started st) (completed st))
          end
      | Some (id, ISeen) =>
          Some (set_pc i id (IEnd (Returned (match Seen id (kv st) with
                  | Er e => Some e
                  | Ok true => None
                  | Ok false => Some (wrapf "%w: id=%q" (Sentinel ErrClaimInFlight))
                  end))) (kv st) st)
      | Some (id, IMark) =>
          match Mark id (kv st) with
          | (Some e, s') => Some (set_pc i id (IRelease "idempotency release after mark id=%q: %w" e) s' st)
          | (None, s') => Some (IState s' (<[i := (id, IEnd (Returned None))]> (procs st)) (started st)
                                  (id :: completed st))
          end
      | Some (id, IRelease w e) =>
          let '(r, s') := Release id (kv st) in
          Some (set_pc i id (IEnd (Returned (Some (match r with
                  | Some x => wrapf2 "join" e (wrapf w x)
                  | None => e
                  end)))) s' st)
      | _ => None
      end
  end.

Inductive ireach (s0 : S) : istate -> Prop :=
  | ireach_init : ireach s0 (IState s0 [] [] [])
  | ireach_step l st st' : ireach s0 st -> istep l st = Some st' -> ireach s0 st'.

Fixpoint irun (ls : list ilabel) (st : istate) : option istate :=
  match ls with [] => Some st | l :: ls' => st' ← istep l st; irun ls' st' end.

(** ** The invariant *)

(** The delivery holds the claim of [k]. *)
Definition holds (k : string) (p : string * ipc) : bool :=
  String.eqb p.1 k && match p.2 with IRun | IMark | IRelease _ _ => true | _ => false end.

Record claims_ok (st : istate) : Prop := {
  i_one k : cnt (holds k) (procs st) <= 1;
  i_held k : 0 < cnt (holds k) (procs st) -> is_Some (view (kv st) !! k);
  i_done k : k ∈ completed st ->
    view (kv st) !! k = Some doneValue /\ cnt (holds k) (procs st) = 0 /\
    cnt (String.eqb k) (completed st) = 1
}.

Lemma holds_other id k pc : id <> k -> holds k (id, pc) = false.
Proof. intros H. unfold holds. simpl. by apply String.eqb_neq in H as ->. Qed.

Lemma cnt_holds_other i id k pc pc' (ps : list (string * ipc)) :
  ps !! i = Some (id, pc) -> id <> k -> cnt (holds k) (<[i := (id, pc')]> ps) = cnt (holds k) ps.
Proof. intros Hi Hk. rewrite (cnt_insert _ _ _ _ _ Hi), !holds_other by done. simpl. lia. Qed.

Lemma cnt_eqb_not_in (l : list string) k : k ∉ l -> cnt (String.eqb k) l = 0.
Proof.
  intros H. apply cnt_all_false. intros x Hx. apply String.eqb_neq. intros ->. done.
Qed.

(** What one bucket call does to the contents, at the key and elsewhere. *)
Lemma claim_view id s r s' :
  Claim id s = (r, s') ->
  (view s !! id = None /\ view s' = <[id := pendingValue]> (view s) /\ r <> Ok false) \/
  (view s' = view s /\ r <> Ok true).
Proof.
  unfold Claim. destruct (ValidateKVKey id); [intros; simplify_eq; by right|].
  pose proof (create_view id pendingValue s) as Hc.
  destruct (kv_create id pendingValue s) as [[e|] s1] eqn:E; simpl in Hc; intros Hr.
  - destruct Hc as [(H1 & H2 & H3)|[_ H3]]; rewrite ?H2 in Hr; simplify_eq; [left; naive_solver|].
    right. split; [|by destruct (errors_is e ErrKeyExists); simplify_eq].
    destruct (errors_is e ErrKeyExists); simplify_eq; done.
  - destruct Hc as [(H1 & H2 & H3)|[H1 _]]; [|done]. simplify_eq. left. done.
Qed.

Lemma mark_view id s r s' :
  Mark id s = (r, s') ->
  view s' = <[id := doneValue]> (view s) \/ (r <> None /\ view s' = view s).
Proof.
  unfold Mark. destruct (ValidateKVKey id); [intros; simplify_eq; by right|].
  pose proof (put_view id doneValue s) as Hc.
  destruct (kv_put id doneValue s) as [[e|] s1] eqn:E; simpl in Hc; intros Hr; simplify_eq; naive_solver.
Qed.

Lemma release_view id s r s' :
  Release id s = (r, s') -> view s' = delete id (view s) \/ view s' = view s.
Proof.
  unfold Release. destruct (ValidateKVKey id); [intros; simplify_eq; by right|].
  pose proof (purge_view id s) as Hc.
  destruct (kv_purge id s) as [[e|] s1] eqn:E; simpl in Hc; intros Hr;
    [destruct (errors_is e ErrKeyNotFound)|]; simplify_eq; naive_solver.
Qed.

(** One delivery moves: enough to look at its own key. *)
Lemma claims_frame st i id pc pc' s' stt cmp :
  claims_ok st -> procs st !! i = Some (id, pc) ->
  (forall k, k <> id -> view s' !! k = view (kv st) !! k) ->
  let n := cnt (holds id) (procs st) - Z.b2z (holds id (id, pc)) + Z.b2z (holds id (id, pc')) in
  n <= 1 -> (0 < n -> is_Some (view s' !! id)) ->
  (cmp = completed st /\ (id ∈ completed st -> view s' !! id = Some doneValue /\ n = 0)) \/
  (cmp = id :: completed st /\ id ∉ completed st /\ view s' !! id = Some doneValue /\ n = 0) ->
  claims_ok (IState s' (<[i := (id, pc')]> (procs st)) stt cmp).
Proof.
  intros [H1 H2 H3] Hi Hv n Hn1 Hn2 Hc.
  assert (Hcnt : cnt (holds id) (<[i := (id, pc')]> (procs st)) = n) by (by rewrite (cnt_insert _ _ _ _ _ Hi)).
  constructor; simpl; intros k; destruct (decide (k = id)) as [->|Hk];
    try (rewrite Hcnt); try (rewrite (cnt_holds_other _ _ _ _ _ _ Hi) by done); try rewrite (Hv k Hk); auto.
  - intros Hin. destruct Hc as [[-> Hc]|(-> & Hni & Hd & Hz)].
    + destruct (Hc Hin) as [? ?]. split_and!; try done. by apply H3.
    + split_and!; try done. rewrite cnt_cons, String.eqb_refl, cnt_eqb_not_in by done. done.
  - intros Hin. destruct Hc as [[-> Hc]|(-> & Hni & Hd & Hz)]; [by apply H3|].
    apply elem_of_cons in Hin as [->|Hin]; [done|]. destruct (H3 k Hin) as (? & ? & ?).
    split_and!; try done. rewrite cnt_cons. apply String.eqb_neq in Hk as ->. simpl. lia.
Qed.

(** The steps that leave the bucket alone. *)
Lemma claims_local st i id pc pc' :
  claims_ok st -> procs st !! i = Some (id, pc) -> holds id (id, pc') = holds id (id, pc) ->
  claims_ok (set_pc i id pc' (kv st) st).
Proof.
  intros Hok Hi Hh. pose proof (i_one _ Hok id). pose proof (i_held _ Hok id) as Hh2.
  apply (claims_frame st i id pc pc'); try done.
  - rewrite Hh. lia.
  - rewrite Hh. intros. apply Hh2. lia.
  - left. split; [done|]. intros Hin. destruct (i_done _ Hok id Hin) as (? & ? & _). rewrite Hh. split; [done|lia].
Qed.

Lemma claims_give_up st i id pc o :
  claims_ok st -> procs st !! i = Some (id, pc) -> claims_ok (set_pc i id (IEnd o) (kv st) st).
Proof.
  intros Hok Hi. pose proof (i_one _ Hok id). pose proof (i_held _ Hok id) as Hh2.
  assert (Hz : holds id (id, IEnd o) = false) by (unfold holds; simpl; apply andb_false_r).
  pose proof (cnt_insert (holds id) _ _ _ (id, IEnd o) Hi) as Hins. rewrite Hz in Hins. simpl in Hins.
  pose proof (cnt_nonneg (holds id) (<[i := (id, IEnd o)]> (procs st))).
  apply (claims_frame st i id pc (IEnd o)); try done; rewrite Hz; simpl.
  - destruct (holds id (id, pc)); simpl in *; lia.
  - intros. apply Hh2. destruct (holds id (id, pc)); simpl in *; lia.
  - left. split; [done|]. intros Hin. destruct (i_done _ Hok id Hin) as (? & ? & _). split; [done|].
    destruct (holds id (id, pc)); simpl in *; lia.
Qed.

Lemma holds_self id pc : holds id (id, pc) = match pc with IRun | IMark | IRelease _ _ => true | _ => false end.
Proof. unfold holds. simpl. by rewrite String.eqb_refl. Qed.

Lemma completed_not_held st i id pc :
  claims_ok st -> procs st !! i = Some (id, pc) -> holds id (id, pc) = true -> id ∉ completed st.
Proof.
  intros Hok Hi Hh Hin. destruct (i_done _ Hok id Hin) as (_ & Hz & _).
  pose proof (cnt_pos _ _ _ _ Hi Hh). lia.
Qed.

Lemma claims_claim st i id :
  claims_ok st -> procs st !! i = Some (id, IClaim) ->
  forall r s', Claim id (kv st) = (r, s') ->
  forall pc' stt, (r = Ok true -> pc' = IRun) -> (r <> Ok true -> holds id (id, pc') = false) ->
  claims_ok (IState s' (<[i := (id, pc')]> (procs st)) stt (completed st)).
Proof.
  intros Hok Hi r s' Hc pc' stt Hrun Hno. pose proof (i_one _ Hok id). pose proof (i_held _ Hok id) as Hh2.
  pose proof (cnt_nonneg (holds id) (procs st)).
  assert (Hself : holds id (id, IClaim) = false) by apply holds_self.
  destruct (claim_view _ _ _ _ Hc) as [(Hn & Hv & _)|[Hv Hr]].
  - assert (Hz : cnt (holds id) (procs st) = 0).
    { destruct (Z.eq_dec (cnt (holds id) (procs st)) 0); [done|]. destruct Hh2 as [x Hx]; [lia|congruence]. }
    apply (claims_frame st i id IClaim); try done; rewrite ?Hself, ?Hz, ?Hv; simpl.
    + intros k Hk. by rewrite lookup_insert_ne.
    + destruct (holds id (id, pc')); simpl; lia.
    + intros _. rewrite lookup_insert_eq. by eexists.
    + left. split; [done|]. intros Hin. destruct (i_done _ Hok id Hin). congruence.
  - apply (claims_frame st i id IClaim); try done; rewrite ?Hself, ?(Hno Hr), ?Hv; simpl.
    + done.
    + lia.
    + intros. apply Hh2. lia.
    + left. split; [done|]. intros Hin. destruct (i_done _ Hok id Hin) as (? & ? & _). split; [done|lia].
Qed.

Lemma claims_step l st st' : claims_ok st -> istep l st = Some st' -> claims_ok st'.
Proof.
  intros Hok Hs. destruct l as [id|i|i o]; simpl in Hs.
  - simplify_eq. destruct Hok as [H1 H2 H3]. constructor; simpl; intros k;
      rewrite cnt_app, cnt_cons, cnt_nil; unfold holds at 2; simpl; rewrite andb_false_r; simpl;
      rewrite ?Z.add_0_r; auto.
  - destruct (procs st !! i) as [[id pc]|] eqn:Hi; [|done]. destruct pc; try done.
    + destruct (Claim id (kv st)) as [r s'] eqn:Hc.
      destruct r as [[]|e]; simplify_eq; unfold set_pc; eapply claims_claim; eauto; intros;
        try done; apply holds_self.
    + simplify_eq. by eapply claims_give_up.
    + destruct (Mark id (kv st)) as [[e|] s'] eqn:Hm; simplify_eq; unfold set_pc;
        pose proof (i_one _ Hok id); pose proof (i_held _ Hok id) as Hh2;
        pose proof (cnt_pos (holds id) _ _ _ Hi ltac:(apply holds_self));
        pose proof (completed_not_held _ _ _ _ Hok Hi ltac:(apply holds_self)) as Hni;
        (eapply claims_frame; [done|exact Hi|..]); rewrite ?holds_self; simpl.
      * intros k Hk. destruct (mark_view _ _ _ _ Hm) as [->|[_ ->]]; [by rewrite lookup_insert_ne|done].
      * lia.
      * intros _. destruct (mark_view _ _ _ _ Hm) as [->|[_ ->]]; [rewrite lookup_insert_eq; by eexists|].
        apply Hh2. lia.
      * by left.
      * intros k Hk. destruct (mark_view _ _ _ _ Hm) as [->|[? _]]; [by rewrite lookup_insert_ne|done].
      * lia.
      * lia.
      * right. split_and!; [done|done| |lia].
        destruct (mark_view _ _ _ _ Hm) as [->|[? _]]; [apply lookup_insert_eq|done].
    + destruct (Release id (kv st)) as [r s'] eqn:Hm; simplify_eq; unfold set_pc.
      pose proof (i_one _ Hok id). pose proof (cnt_pos (holds id) _ _ _ Hi ltac:(apply holds_self)).
      pose proof (completed_not_held _ _ _ _ Hok Hi ltac:(apply holds_self)) as Hni.
      eapply claims_frame; [done|exact Hi|..]; rewrite ?holds_self; simpl; [|lia|lia|by left].
      intros k Hk. destruct (release_view _ _ _ _ Hm) as [->| ->]; [by rewrite lookup_delete_ne|done].
  - destruct (procs st !! i) as [[id pc]|] eqn:Hi; [|done]. destruct pc; try done. simplify_eq.
    destruct o as [[e|]|e]; [| |by eapply claims_give_up];
      (eapply claims_local; [done|exact Hi|]); by rewrite !holds_self.
Qed.

Lemma ireach_claims s0 st : ireach s0 st -> claims_ok st.
Proof.
  induction 1; [|eauto using claims_step].
  constructor; simpl; intros k; rewrite ?cnt_nil; [lia|lia|]. by intros ?%not_elem_of_nil.
Qed.

(** The function and the steps agree: a delivery that is not interleaved with
    others goes through the steps of [withClaimHandler]. *)
Lemma steps_refine_function id h s :
  exists ls st, irun ls (IState s [(id, IClaim)] [] []) = Some st /\
    procs st = [(id, IEnd (withClaimHandler id h s).1)] /\ kv st = (withClaimHandler id h s).2.
Proof.
  unfold withClaimHandler. destruct (Claim id s) as [[[]|e] s1] eqn:Hc.
  - destruct h as [[e|]|e].
    + exists [LStep 0; LRun 0 (Returned (Some e)); LStep 0]. simpl. rewrite Hc. simpl. unfold after_failed.
      destruct (Release id s1) as [[] s2]; eexists; split; simpl; done.
    + destruct (Mark id s1) as [[e|] s2] eqn:Hm.
      * exists [LStep 0; LRun 0 (Returned None); LStep 0; LStep 0]. simpl. rewrite Hc. simpl. rewrite Hm.
        unfold after_failed. simpl. destruct (Release id s2) as [[] s3]; eexists; split; simpl; done.
      * exists [LStep 0; LRun 0 (Returned None); LStep 0]. simpl. rewrite Hc. simpl. rewrite Hm. by eexists.
    + exists [LStep 0; LRun 0 (Panicked e)]. simpl. rewrite Hc. by eexists.
  - exists [LStep 0; LStep 0]. simpl. rewrite Hc. simpl.
    destruct (Seen id s1) as [[]|]; by eexists.
  - exists [LStep 0]. simpl. rewrite Hc. by eexists.
Qed.

(** A present key refuses every claim. *)
Lemma claim_refused id s r s' :
  is_Some (view s !! id) -> Claim id s = (r, s') -> r <> Ok true /\ view s' = view s.
Proof. intros [v Hv] Hc. destruct (claim_view _ _ _ _ Hc) as [(? & _)|[? ?]]; [congruence|done]. Qed.

(** A key that is present and held by nobody: no step starts its handler or
    changes its value. *)
Definition settled_key (k v : string) (st : istate) : Prop :=
  view (kv st) !! k = Some v /\ cnt (holds k) (procs st) = 0.

Lemma not_held st i id pc k v : settled_key k v st -> procs st !! i = Some (id, pc) ->
  holds id (id, pc) = true -> id <> k.
Proof. intros [_ Hz] Hi Hh ->. pose proof (cnt_pos _ _ _ _ Hi Hh). lia. Qed.

Lemma settled_key_step l st st' k v :
  settled_key k v st -> istep l st = Some st' ->
  settled_key k v st' /\ cnt (String.eqb k) (started st') = cnt (String.eqb k) (started st).
Proof.
  intros Hk Hs. pose proof Hk as [Hv Hz]. unfold settled_key. destruct l as [id|i|i o]; simpl in Hs.
  - simplify_eq. simpl. rewrite cnt_app, cnt_cons, cnt_nil. unfold holds at 2. simpl.
    rewrite andb_false_r. simpl. split_and!; [done|lia|done].
  - destruct (procs st !! i) as [[id pc]|] eqn:Hi; [|done]. pose proof (not_held st i id pc k v Hk Hi) as Hne.
    rewrite holds_self in Hne.
    assert (Hcnt : forall pc', holds k (id, pc') = false -> cnt (holds k) (<[i := (id, pc')]> (procs st)) = 0).
    { intros pc' Hp. rewrite (cnt_insert _ _ _ _ _ Hi), Hp, Hz.
      rewrite (cnt_zero _ _ _ _ Hz Hi). done. }
    destruct pc; try done.
    + destruct (Claim id (kv st)) as [r s'] eqn:Hc. destruct (decide (id = k)) as [->|Hd].
      * destruct (claim_refused k (kv st) r s') as [Hr Hv']; [by eexists|done|].
        destruct r as [[]|e]; simplify_eq; simpl; rewrite Hv', Hcnt by apply holds_self; done.
      * assert (Hv' : view s' !! k = view (kv st) !! k).
        { destruct (claim_view _ _ _ _ Hc) as [(_ & -> & _)|[-> _]]; [by rewrite lookup_insert_ne|done]. }
        destruct r as [[]|e]; simplify_eq; simpl; rewrite Hv', Hcnt by (by apply holds_other);
          split_and!; try done. rewrite cnt_cons. apply not_eq_sym, String.eqb_neq in Hd. rewrite Hd. simpl. lia.
    + simplify_eq. simpl. rewrite Hcnt; [done|]. unfold holds. apply andb_false_r.
    + destruct (Mark id (kv st)) as [[e|] s'] eqn:Hm; simplify_eq; simpl;
        destruct (mark_view _ _ _ _ Hm) as [->|[? ->]]; rewrite ?lookup_insert_ne, Hcnt by (auto || by apply holds_other, Hne);
        done.
    + destruct (Release id (kv st)) as [r s'] eqn:Hm; simplify_eq; simpl.
      rewrite Hcnt by (by apply holds_other, Hne).
      destruct (release_view _ _ _ _ Hm) as [->| ->]; rewrite ?lookup_delete_ne by auto; done.
  - destruct (procs st !! i) as [[id pc]|] eqn:Hi; [|done]. destruct pc; try done. simplify_eq. simpl.
    pose proof (not_held st i id IRun k v Hk Hi (holds_self _ _)) as Hne.
    rewrite (cnt_holds_other _ _ _ _ _ _ Hi) by done. done.
Qed.

Lemma settled_key_run ls st st' k v :
  settled_key k v st -> irun ls st = Some st' ->
  settled_key k v st' /\ cnt (String.eqb k) (started st') = cnt (String.eqb k) (started st).
Proof.
  revert st. induction ls as [|l ls IH]; simpl; intros st Hk Hr; [by simplify_eq|].
  apply bind_Some in Hr as (s1 & H1 & H2). destruct (settled_key_step _ _ _ _ _ Hk H1) as [Hk1 He].
  destruct (IH s1 Hk1 H2) as [Hk2 He2]. split; [done|congruence].
Qed.

Lemma ireach_run s0 ls st st' : ireach s0 st -> irun ls st = Some st' -> ireach s0 st'.
Proof.
  revert st. induction ls as [|l ls IH]; simpl; intros st Hr Hs; [by simplify_eq|].
  apply bind_Some in Hs as (s1 & H1 & H2). eauto using ireach_step.
Qed.

(** ** Theorems *)

(** C3: mutual exclusion: in every interleaving of any number of deliveries,
    at most one at a time is between its claim and its mark or release, so two
    handlers never run for the same id; and the id's key stays in the bucket
    while it does. *)
Theorem claim_exclusive s0 st k :
  ireach s0 st -> cnt (holds k) (procs st) <= 1 /\
  (0 < cnt (holds k) (procs st) -> is_Some (view (kv st) !! k)).
Proof. intros Hr. pose proof (ireach_claims _ _ Hr) as H. split; [apply (i_one _ H)|apply (i_held _ H)]. Qed.

(** C15: exactly-once effect: once an id has been marked, whatever deliveries of
    it arrive in whatever order, its handler is never started again, it is
    never marked again and its marker stays. *)
Theorem completed_never_rerun s0 st ls st' k :
  ireach s0 st -> k ∈ completed st -> irun ls st = Some st' ->
  cnt (String.eqb k) (started st') = cnt (String.eqb k) (started st) /\
  view (kv st') !! k = Some doneValue /\ cnt (holds k) (procs st') = 0.
Proof.
  intros Hr Hk Hs. destruct (i_done _ (ireach_claims _ _ Hr) k Hk) as (H1 & H2 & _).
  destruct (settled_key_run ls st st' k doneValue (conj H1 H2) Hs) as [[H3 H4] H5]. done.
Qed.

Lemma seen_pending id s : view s !! id = Some pendingValue -> Seen id s <> Ok true.
Proof.
  intros Hv. unfold Seen. destruct (ValidateKVKey id); [done|].
  destruct (kv_get id s) as [v|e] eqn:E; [|by destruct (errors_is e ErrKeyNotFound)].
  apply get_ok in E. by simplify_eq.
Qed.

(** Deliveries of a key left pending do not succeed. *)
Lemma pending_no_success l st st' k :
  settled_key k pendingValue st -> istep l st = Some st' ->
  forall i, procs st' !! i = Some (k, IEnd (Returned None)) -> procs st !! i = Some (k, IEnd (Returned None)).
Proof.
  intros Hk Hs j Hj. pose proof Hk as [Hv Hz]. destruct l as [id|i|i o]; simpl in Hs.
  - simplify_eq. simpl in Hj. apply lookup_app_Some in Hj as [Hj|[_ Hj]]; [done|].
    apply list_lookup_singleton_Some in Hj as [_ Hj]. by simplify_eq.
  - destruct (procs st !! i) as [[id pc]|] eqn:Hi; [|done]. pose proof (not_held st i id pc k _ Hk Hi) as Hne.
    rewrite holds_self in Hne.
    assert (Hset : forall pc', procs st' = <[i := (id, pc')]> (procs st) ->
      (id = k -> pc' <> IEnd (Returned None)) -> procs st !! j = Some (k, IEnd (Returned None))).
    { intros pc' Hp Hpc. rewrite Hp in Hj. destruct (decide (i = j)) as [->|Hij].
      - rewrite list_lookup_insert_eq in Hj by (by eapply lookup_lt_Some). simplify_eq. by destruct Hpc.
      - by rewrite list_lookup_insert_ne in Hj. }
    destruct pc; try done.
    + destruct (Claim id (kv st)) as [[[]|e] s']; simplify_eq; eapply Hset; try reflexivity; done.
    + simplify_eq. eapply Hset; [reflexivity|]. intros ->. pose proof (seen_pending k (kv st) Hv).
      by destruct (Seen k (kv st)) as [[]|].
    + destruct (Mark id (kv st)) as [[e|] s']; simplify_eq; eapply Hset; try reflexivity; intros; by destruct Hne.
    + destruct (Release id (kv st)) as [r s']; simplify_eq; eapply Hset; try reflexivity; by intros.
  - destruct (procs st !! i) as [[id pc]|] eqn:Hi; [|done]. destruct pc; try done. simplify_eq.
    pose proof (not_held st i id IRun k _ Hk Hi (holds_self _ _)) as Hne. simpl in Hj.
    destruct (decide (i = j)) as [->|Hij].
    + rewrite list_lookup_insert_eq in Hj by (by eapply lookup_lt_Some). by simplify_eq.
    + by rewrite list_lookup_insert_ne in Hj.
Qed.

(** A handler panic leaves its claim behind, and it is never given back: as
    long as the key does not expire, no delivery of that id runs the handler
    again and none succeeds. *)
Theorem panic_blocks_id ls st st' i k e :
  claims_ok st -> view (kv st) !! k = Some pendingValue -> procs st !! i = Some (k, IRun) ->
  irun (LRun i (Panicked e) :: ls) st = Some st' ->
  cnt (String.eqb k) (started st') = cnt (String.eqb k) (started st) /\
  forall j, procs st' !! j = Some (k, IEnd (Returned None)) -> procs st !! j = Some (k, IEnd (Returned None)).
Proof.
  intros Hok Hv Hi Hr. simpl in Hr. rewrite Hi in Hr. simpl in Hr.
  set (s1 := set_pc i k (IEnd (Panicked e)) (kv st) st) in Hr.
  assert (Hk1 : settled_key k pendingValue s1).
  { split; [done|]. simpl. rewrite (cnt_insert _ _ _ _ _ Hi), !holds_self. simpl.
    pose proof (i_one _ Hok k). pose proof (cnt_pos (holds k) _ _ _ Hi (holds_self _ _)). lia. }
  assert (Hj1 : forall j, procs s1 !! j = Some (k, IEnd (Returned None)) -> procs st !! j = Some (k, IEnd (Returned None))).
  { intros j. simpl. destruct (decide (i = j)) as [->|Hij]; [|by rewrite list_lookup_insert_ne].
    rewrite list_lookup_insert_eq by (by eapply lookup_lt_Some). done. }
  change (started st) with (started s1). clearbody s1. clear Hi Hv Hok.
  revert s1 Hk1 Hj1 Hr. induction ls as [|l ls IH]; simpl; intros s1 Hk1 Hj1 Hr; [by simplify_eq|].
  apply bind_Some in Hr as (s2 & H1 & H2). destruct (settled_key_step _ _ _ _ _ Hk1 H1) as [Hk2 He].
  destruct (IH s2 Hk2) as [H3 H4]; [|done|split; [congruence|done]].
  intros j Hj. by eapply Hj1, pending_no_success.
Qed.

End Idempotency.

(** ** A concrete bucket for the examples *)

Definition toy_kv_create (k v : string) (s : gmap string string) : option err * gmap string string :=
  match s !! k with Some _ => (Some (Sentinel ErrKeyExists), s) | None => (None, <[k := v]> s) end.
Definition toy_kv_get (k : string) (s : gmap string string) : res string :=
  match s !! k with Some v => Ok v | None => Er (Sentinel ErrKeyNotFound) end.

#[global] Program Instance toy_kv : KeyValue (gmap string string) :=
  {| view := id; kv_get := toy_kv_get; kv_put := fun k v s => (None, <[k := v]> s);
     kv_create := toy_kv_create; kv_purge := fun k s => (None, delete k s) |}.
Next Obligation. intros k s v. unfold toy_kv_get. simpl. destruct (s !! k); naive_solver. Qed.
Next Obligation. intros k s e. unfold toy_kv_get. simpl. destruct (s !! k); naive_solver. Qed.
Next Obligation. intros k v s. by left. Qed.
Next Obligation. intros k v s. unfold toy_kv_create. simpl. destruct (s !! k) eqn:E; [by right|by left]. Qed.
Next Obligation. intros k v s. unfold toy_kv_create. simpl. destruct (s !! k) eqn:E; [by eexists|done]. Qed.
Next Obligation. intros k s. by left. Qed.

Definition no_keys : gmap string string := ∅.
Definition two_deliveries : list ilabel :=
  [LSpawn "id-1"; LSpawn "id-1"; LStep 0; LStep 1; LRun 0 (Returned None); LStep 0].

Definition after (ls : list ilabel) : istate :=
  default (IState no_keys [] [] []) (irun ls (IState no_keys [] [] [])).

Lemma claim_exclusive_witness :
  let st := after (take 4 two_deliveries) in
  cnt (holds "id-1") (procs st) = 1 /\ is_Some (view (kv st) !! "id-1").
Proof.
  cbv zeta. split; [vm_compute; reflexivity|].
  apply (claim_exclusive no_keys (after (take 4 two_deliveries)) "id-1"); [|vm_compute; reflexivity].
  apply (ireach_run no_keys (take 4 two_deliveries) (IState no_keys [] [] [])); [constructor|vm_compute; reflexivity].
Defined.

Lemma completed_never_rerun_witness :
  irun [LStep 1; LSpawn "id-1"; LStep 2] (after two_deliveries) =
    Some (after (two_deliveries ++ [LStep 1; LSpawn "id-1"; LStep 2])) /\
  cnt (String.eqb "id-1") (started (after (two_deliveries ++ [LStep 1; LSpawn "id-1"; LStep 2]))) = 1.
Proof.
  assert (Hs : irun [LStep 1; LSpawn "id-1"; LStep 2] (after two_deliveries) =
    Some (after (two_deliveries ++ [LStep 1; LSpawn "id-1"; LStep 2]))) by (vm_compute; reflexivity).
  split; [exact Hs|].
  destruct (completed_never_rerun no_keys (after two_deliveries) [LStep 1; LSpawn "id-1"; LStep 2]
    (after (two_deliveries ++ [LStep 1; LSpawn "id-1"; LStep 2])) "id-1") as [H _].
  - apply (ireach_run no_keys two_deliveries (IState no_keys [] [] [])); [constructor|vm_compute; reflexivity].
  - vm_compute. apply list_elem_of_here.
  - exact Hs.
  - rewrite H. vm_compute. reflexivity.
Defined.

Lemma panic_blocks_id_witness :
  let st := after [LSpawn "id-1"; LStep 0] in
  let st' := after [LSpawn "id-1"; LStep 0; LRun 0 (Panicked None); LSpawn "id-1"; LStep 1; LStep 1] in
  irun [LRun 0 (Panicked None); LSpawn "id-1"; LStep 1; LStep 1] st = Some st' /\
  cnt (String.eqb "id-1") (started st') = 1.
Proof.
  cbv zeta.
  assert (Hs : irun [LRun 0 (Panicked None); LSpawn "id-1"; LStep 1; LStep 1]
      (after [LSpawn "id-1"; LStep 0]) =
    Some (after [LSpawn "id-1"; LStep 0; LRun 0 (Panicked None); LSpawn "id-1"; LStep 1; LStep 1]))
    by (vm_compute; reflexivity).
  split; [exact Hs|].
  destruct (panic_blocks_id [LSpawn "id-1"; LStep 1; LStep 1] (after [LSpawn "id-1"; LStep 0])
    (after [LSpawn "id-1"; LStep 0; LRun 0 (Panicked None); LSpawn "id-1"; LStep 1; LStep 1])
    0 "id-1" None) as [H _].
  - apply (ireach_claims no_keys), (ireach_run no_keys [LSpawn "id-1"; LStep 0] (IState no_keys [] [] []));
      [constructor|vm_compute; reflexivity].
  - vm_compute. reflexivity.
  - vm_compute. reflexivity.
  - exact Hs.
  - rewrite H. vm_compute. reflexivity.
Defined.
