(* ===== verification/OnceRefine.v ===== *)
(** * Idempotent handling refines an at-most-once machine

    The contract of the idempotency package, without buckets, values and calls.
    An id is free, held by one delivery, stuck (its key is taken and no delivery
    holds it: a holder panicked or could not release, or a claim failed after
    taking effect), or done.  A delivery starts the work of an id only while it
    is free and then is its holder; only the holder finishes it or gives it up;
    nothing ever happens to an id that is done.  Every run of the interleaved
    deliveries of [Idempotency], over any bucket that meets the interface, is a
    run of this machine with the same visible events. *)
From S2P Require Import Prelude GoStr Validate Message Compress Codec Publisher Rpc Idempotency.

(** ** The abstract machine *)

Inductive phase := Free | Held (d : nat) | Stuck | Done.
(** What delivery [d] does to an id. *)
Inductive act := Start (d : nat) | Finish (d : nat) | GiveUp (d : nat).

(** One id: a visible event, or none; a claim that fails after taking effect
    leaves a free id stuck without an event. *)
Definition phase_step (a : option act) (p p' : phase) : Prop :=
  match a with
  | Some (Start d) => p = Free /\ p' = Held d
  | Some (Finish d) => p = Held d /\ p' = Done
  | Some (GiveUp d) => p = Held d /\ (p' = Free \/ p' = Stuck)
  | None => p = p' \/ (p = Free /\ p' = Stuck)
  end.

(** All ids at once; [e] is the event of the step and its id. *)
Definition event := (act * string)%type.
Definition act_on (e : option event) (id : string) : option act :=
  match e with Some (a, i) => if String.eqb i id then Some a else None | None => None end.
Definition once_step (e : option event) (c c' : string -> phase) : Prop := forall id, phase_step (act_on e id) (c id) (c' id).

Inductive once_run : (string -> phase) -> list event -> (string -> phase) -> Prop :=
  | once_nil c : once_run c [] c
  | once_tau c c1 c2 tr : once_step None c c1 -> once_run c1 tr c2 -> once_run c tr c2
  | once_visible c c1 c2 e tr : once_step (Some e) c c1 -> once_run c1 tr c2 -> once_run c (e :: tr) c2.

Create HintDb once discriminated.
#[local] Hint Constructors once_run : once.

(** The events of one id, and the traces the machine allows it from a given
    holder: attempts that each start and give up, by the same delivery, then
    possibly one that starts and finishes, and nothing after that. *)
Definition acts_of (id : string) (tr : list event) : list act := omap (fun e => act_on (Some e) id) tr.

Lemma acts_of_cons id a i tr :
  acts_of id ((a, i) :: tr) = if String.eqb i id then a :: acts_of id tr else acts_of id tr.
Proof. unfold acts_of. simpl. by destruct (String.eqb i id). Qed.

Fixpoint legal (h : option nat) (l : list act) : bool :=
  match h, l with
  | _, [] => true
  | None, Start d :: l' => legal (Some d) l'
  | Some d, GiveUp d' :: l' => (d =? d')%nat && legal None l'
  | Some d, [Finish d'] => (d =? d')%nat
  | _, _ => false
  end.

Definition holder (p : phase) : option nat := match p with Held d => Some d | _ => None end.

Lemma done_silent c tr c' id : once_run c tr c' -> c id = Done -> acts_of id tr = [].
Proof.
  induction 1 as [c|c c1 c2 tr Hs Hr IH|c c1 c2 [a i] tr Hs Hr IH]; intros Hd; [done| |];
    specialize (Hs id); rewrite Hd in Hs.
  - apply IH. by destruct Hs as [<-|[? _]].
  - rewrite acts_of_cons. simpl in Hs. destruct (String.eqb i id); [by destruct a; destruct Hs|].
    apply IH. by destruct Hs as [<-|[? _]].
Qed.

Lemma once_legal c tr c' id : once_run c tr c' -> legal (holder (c id)) (acts_of id tr) = true.
Proof.
  induction 1 as [c|c c1 c2 tr Hs Hr IH|c c1 c2 [a i] tr Hs Hr IH]; [by destruct (holder _)| |];
    specialize (Hs id).
  - destruct Hs as [->|[E1 E2]]; [done|]. by rewrite E1, E2 in *.
  - rewrite acts_of_cons. simpl in Hs. destruct (String.eqb i id).
    + destruct a; destruct Hs as [E1 E2]; rewrite E1; simpl.
      * by rewrite E2 in IH.
      * by rewrite (done_silent _ _ _ _ Hr E2), Nat.eqb_refl.
      * rewrite Nat.eqb_refl. by destruct E2 as [E2|E2]; rewrite E2 in IH.
    + destruct Hs as [->|[E1 E2]]; [done|]. by rewrite E1, E2 in *.
Qed.

(** ** The simulation *)

Section Simulation.
Context {S : Type} `{KV : KeyValue S}.

(** The phase of an id: completed, in the hands of a delivery, or as the bucket says. *)
Definition phase_of (st : istate) (id : string) : phase :=
  if bool_decide (id ∈ completed st) then Done
  else match list_find (fun p => holds id p = true) (procs st) with
       | Some (d, _) => Held d
       | None => match view (kv st) !! id with Some _ => Stuck | None => Free end
       end.

(** The visible event of a step: its handler starts, its completion is marked,
    it releases the claim or leaves by a panic. *)
Definition event_of (l : ilabel) (st : istate) : option event :=
  match l with
  | LStep i =>
      match procs st !! i with
      | Some (id, IClaim) => match (Claim id (kv st)).1 with Ok true => Some (Start i, id) | _ => None end
      | Some (id, IMark) => match (Mark id (kv st)).1 with None => Some (Finish i, id) | Some _ => None end
      | Some (id, IRelease _ _) => Some (GiveUp i, id)
      | _ => None
      end
  | LRun i (Panicked _) => match procs st !! i with Some (id, IRun) => Some (GiveUp i, id) | _ => None end
  | _ => None
  end.
Fixpoint trace_of (ls : list ilabel) (st : istate) : list event :=
  match ls with
  | [] => []
  | l :: ls' => option_list (event_of l st) ++ match istep l st with Some st' => trace_of ls' st' | None => [] end
  end.

Lemma unique_holder (ps : list (string * ipc)) id i j p q :
  cnt (holds id) ps <= 1 -> ps !! i = Some p -> ps !! j = Some q -> holds id p = true -> holds id q = true -> i = j.
Proof.
  intros H1 Hi Hj Hp Hq. destruct (decide (i = j)) as [|Hne]; [done|exfalso].
  pose proof (cnt_insert (holds id) ps i p (id, IClaim) Hi) as E. rewrite Hp in E.
  assert (<[i := (id, IClaim)]> ps !! j = Some q) as Hj' by (by rewrite list_lookup_insert_ne).
  pose proof (cnt_pos (holds id) _ _ _ Hj' Hq). rewrite (holds_self id IClaim) in E. simpl in E. lia.
Qed.

Lemma phase_held st id i pc :
  claims_ok st -> procs st !! i = Some (id, pc) -> holds id (id, pc) = true -> phase_of st id = Held i.
Proof.
  intros Hok Hi Hh. unfold phase_of. rewrite bool_decide_false by (by eapply completed_not_held).
  destruct (list_find (fun p => holds id p = true) (procs st)) as [[j q]|] eqn:E.
  - apply list_find_Some in E as (Hj & Hq & _). f_equal. symmetry. by apply (unique_holder (procs st) id i j (id, pc) q (i_one _ Hok id)).
  - apply list_find_None in E. rewrite Forall_lookup in E. by destruct (E i _ Hi).
Qed.

Lemma phase_unheld st id :
  cnt (holds id) (procs st) = 0 -> id ∉ completed st ->
  phase_of st id = match view (kv st) !! id with Some _ => Stuck | None => Free end.
Proof.
  intros H0 Hn. unfold phase_of. rewrite bool_decide_false by done.
  destruct (list_find (fun p => holds id p = true) (procs st)) as [[j q]|] eqn:E; [|done]. apply list_find_Some in E as (Hj & Hq & _).
  by rewrite (cnt_zero _ _ _ _ H0 Hj) in Hq.
Qed.

Lemma phase_done st id : id ∈ completed st -> phase_of st id = Done.
Proof. intros H. unfold phase_of. by rewrite bool_decide_true. Qed.

Definition first_holder (id : string) (ps : list (string * ipc)) : option nat :=
  fst <$> list_find (fun p => holds id p = true) ps.

Lemma phase_of_alt st id :
  phase_of st id = if bool_decide (id ∈ completed st) then Done
    else match first_holder id (procs st) with
         | Some d => Held d
         | None => match view (kv st) !! id with Some _ => Stuck | None => Free end
         end.
Proof. unfold phase_of, first_holder. destruct (bool_decide _); [done|]. by destruct (list_find (fun p => holds id p = true) (procs st)) as [[]|]. Qed.

Lemma first_holder_ext k (ps ps' : list (string * ipc)) :
  holds k <$> ps' = holds k <$> ps -> first_holder k ps' = first_holder k ps.
Proof.
  revert ps'. induction ps as [|p ps IH]; intros [|p' ps'] H; simplify_eq/=; [done|].
  unfold first_holder in *. simpl. repeat case_decide; try congruence; [done|].
  match goal with H : holds k <$> _ = _ |- _ => specialize (IH _ H) end.
  destruct (list_find (fun p => holds k p = true) ps') as [[]|], (list_find (fun p => holds k p = true) ps) as [[]|]; by simplify_eq/=.
Qed.

(** A step that leaves who holds [k], its key and its completion as they were. *)
Lemma phase_same st i p p' s' stt cmp k :
  procs st !! i = Some p -> holds k p' = holds k p -> view s' !! k = view (kv st) !! k ->
  (k ∈ cmp <-> k ∈ completed st) ->
  phase_of (IState s' (<[i := p']> (procs st)) stt cmp) k = phase_of st k.
Proof.
  intros Hi Hk Hv Hc. rewrite !phase_of_alt. simpl. rewrite Hv, (bool_decide_ext _ _ Hc).
  rewrite (first_holder_ext k (procs st)); [done|]. rewrite list_fmap_insert, Hk. apply list_insert_id.
  by rewrite list_lookup_fmap, Hi.
Qed.

(** So it is enough to look at its own id. *)
Lemma step_own st i id pc pc' s' stt cmp a :
  procs st !! i = Some (id, pc) ->
  (forall k, k <> id -> view s' !! k = view (kv st) !! k) -> (forall k, k <> id -> k ∈ cmp <-> k ∈ completed st) ->
  let st' := IState s' (<[i := (id, pc')]> (procs st)) stt cmp in
  phase_step a (phase_of st id) (phase_of st' id) ->
  once_step ((fun x => (x, id)) <$> a) (phase_of st) (phase_of st').
Proof.
  intros Hi Hv Hc st' Hs k. destruct (decide (k = id)) as [->|Hk].
  - destruct a; simpl; [by rewrite String.eqb_refl|done].
  - assert (act_on ((fun x => (x, id)) <$> a) k = None) as ->.
    { destruct a; simpl; [|done]. by apply not_eq_sym, String.eqb_neq in Hk as ->. }
    left. symmetry. apply (phase_same st i (id, pc)); auto. by rewrite !holds_other by done.
Qed.

(** A holder stays one, or stops being one. *)
Lemma own_keeps (st : @istate S) i id pc' s' stt cmp :
  let st' := IState s' (<[i := (id, pc')]> (procs st)) stt cmp in
  (i < length (procs st))%nat -> claims_ok st' -> holds id (id, pc') = true -> phase_of st' id = Held i.
Proof. intros st' Hi Hok Hh. apply (phase_held st' id i pc'); [done| |done]. by apply list_lookup_insert_eq. Qed.

Lemma own_leaves st i id pc pc' s' stt cmp :
  claims_ok st -> procs st !! i = Some (id, pc) -> holds id (id, pc) = true -> holds id (id, pc') = false ->
  cnt (holds id) (<[i := (id, pc')]> (procs st)) = 0 /\
  (id ∉ cmp -> let p' := phase_of (IState s' (<[i := (id, pc')]> (procs st)) stt cmp) id in p' = Free \/ p' = Stuck).
Proof.
  intros Hok Hi H1 H2. pose proof (i_one _ Hok id). pose proof (cnt_pos _ _ _ _ Hi H1).
  assert (cnt (holds id) (<[i := (id, pc')]> (procs st)) = 0) as Hz
    by (rewrite (cnt_insert _ _ _ _ _ Hi), H1, H2; simpl; lia).
  split; [done|]. intros Hn. simpl. rewrite phase_unheld by done. simpl. destruct (view s' !! id); auto.
Qed.

Lemma claim_sim st st' i id : claims_ok st -> claims_ok st' -> procs st !! i = Some (id, IClaim) ->
  istep (LStep i) st = Some st' -> once_step (event_of (LStep i) st) (phase_of st) (phase_of st').
Proof.
  intros Hok Hok' Hi Hs. pose proof (lookup_lt_Some _ _ _ Hi) as Hlt. simpl in *. rewrite Hi in *.
  destruct (Claim id (kv st)) as [r s'] eqn:Hc.
  destruct (claim_view _ _ _ _ Hc) as [(Hn & Hv & Hr)|[Hv Hr]].
  - assert (id ∉ completed st) as Hnc by (intros Hin; destruct (i_done _ Hok id Hin); congruence).
    assert (cnt (holds id) (procs st) = 0) as H0.
    { pose proof (cnt_nonneg (holds id) (procs st)). destruct (Z.eq_dec (cnt (holds id) (procs st)) 0); [done|].
      destruct (i_held _ Hok id) as [v ?]; [lia|congruence]. }
    assert (phase_of st id = Free) as Hf by (rewrite phase_unheld, Hn by done; done).
    assert (forall k, k <> id -> view s' !! k = view (kv st) !! k) as Ho
      by (intros k Hk; rewrite Hv; by apply lookup_insert_ne).
    destruct r as [[]|e]; simpl; [|done|]; simplify_eq.
    + apply (step_own st i id IClaim IRun s' _ _ (Some (Start i))); [done|done|done|]. split; [done|].
      apply own_keeps; [done|done|apply holds_self].
    + apply (step_own st i id IClaim _ s' _ _ None); [done|done|done|]. right. split; [done|].
      rewrite phase_unheld; simpl; [by rewrite Hv, lookup_insert_eq| |done].
      rewrite (cnt_insert _ _ _ _ _ Hi), !holds_self, H0. done.
  - destruct r as [[]|e]; [done|..]; simpl; simplify_eq;
      (apply (step_own st i id IClaim _ s' _ _ None); [done|by intros; rewrite Hv|done|]; left; symmetry;
       apply (phase_same st i (id, IClaim)); [done|by rewrite !holds_self|by rewrite Hv|done]).
Qed.

Lemma mark_sim st st' i id : claims_ok st -> claims_ok st' -> procs st !! i = Some (id, IMark) ->
  istep (LStep i) st = Some st' -> once_step (event_of (LStep i) st) (phase_of st) (phase_of st').
Proof.
  intros Hok Hok' Hi Hs. pose proof (lookup_lt_Some _ _ _ Hi) as Hlt.
  pose proof (phase_held st id i IMark Hok Hi (holds_self _ _)) as Hp.
  simpl in *. rewrite Hi in *. destruct (Mark id (kv st)) as [[e|] s'] eqn:Hm; simplify_eq; simpl;
    pose proof (mark_view _ _ _ _ Hm) as Hv.
  - apply (step_own st i id IMark _ s' _ _ None); [done| |done|].
    + intros k Hk. destruct Hv as [->|[_ ->]]; [by rewrite lookup_insert_ne|done].
    + left. rewrite Hp. symmetry. apply own_keeps; [done|done|apply holds_self].
  - destruct Hv as [Hv|[? _]]; [|done].
    apply (step_own st i id IMark _ s' _ _ (Some (Finish i))); [done| |set_solver|].
    + intros k Hk. rewrite Hv. by apply lookup_insert_ne.
    + split; [done|]. apply phase_done, list_elem_of_here.
Qed.

Lemma run_end_sim st i id o st' : claims_ok st -> claims_ok st' -> procs st !! i = Some (id, IRun) ->
  istep (LRun i o) st = Some st' -> once_step (event_of (LRun i o) st) (phase_of st) (phase_of st').
Proof.
  intros Hok Hok' Hi Hs. pose proof (lookup_lt_Some _ _ _ Hi) as Hlt.
  pose proof (phase_held st id i IRun Hok Hi (holds_self _ _)) as Hp.
  simpl in *. rewrite Hi in *. simplify_eq. unfold set_pc in *.
  destruct o as [[e|]|e]; [apply (step_own st i id IRun _ (kv st) _ _ None)..|
    apply (step_own st i id IRun _ (kv st) _ _ (Some (GiveUp i)))]; try done.
  - left. rewrite Hp. symmetry. apply own_keeps; [done|done|apply holds_self].
  - left. rewrite Hp. symmetry. apply own_keeps; [done|done|apply holds_self].
  - split; [done|]. eapply own_leaves; [done|exact Hi|apply holds_self|apply holds_self|].
    by eapply completed_not_held; [done|exact Hi|apply holds_self].
Qed.

Lemma step_sim l st st' : claims_ok st -> istep l st = Some st' ->
  once_step (event_of l st) (phase_of st) (phase_of st').
Proof.
  intros Hok Hs. pose proof (claims_step _ _ _ Hok Hs) as Hok'. destruct l as [id|i|i o].
  - simpl in *. simplify_eq. intros k. left. rewrite !phase_of_alt. simpl. unfold first_holder.
    destruct (list_find (fun p => holds k p = true) (procs st)) as [[j q]|] eqn:E.
    + by rewrite (list_find_app_l _ _ _ _ _ E).
    + rewrite list_find_app_r by done. simpl. rewrite decide_False; [done|].
      unfold holds. simpl. by rewrite andb_false_r.
  - destruct (procs st !! i) as [[id pc]|] eqn:Hi; [|simpl in Hs; by rewrite Hi in Hs]. destruct pc.
    + by apply (claim_sim st st' i id).
    + simpl in *. rewrite Hi in *. simplify_eq. apply (step_own st i id ISeen _ (kv st) _ _ None); [done..|].
      left. symmetry. apply (phase_same st i (id, ISeen)); [done|by rewrite !holds_self|done|done].
    + simpl in Hs. by rewrite Hi in Hs.
    + by apply (mark_sim st st' i id).
    + simpl in *. rewrite Hi in *. destruct (Release id (kv st)) as [r s'] eqn:Hr. simplify_eq.
      apply (step_own st i id (IRelease w e) _ s' _ _ (Some (GiveUp i))); [done| |done|].
      * intros k Hk. destruct (release_view _ _ _ _ Hr) as [->| ->]; [by rewrite lookup_delete_ne|done].
      * split; [eapply phase_held; [done|exact Hi|apply holds_self]|].
        eapply own_leaves; [done|exact Hi|apply holds_self|apply holds_self|].
        by eapply completed_not_held; [done|exact Hi|apply holds_self].
    + simpl in Hs. by rewrite Hi in Hs.
  - pose proof Hs as Hs0. simpl in Hs0. destruct (procs st !! i) as [[id pc]|] eqn:Hi; [|done]. destruct pc; try done.
    by apply (run_end_sim st i id o st').
Qed.

Lemma run_sim ls st st' : claims_ok st -> irun ls st = Some st' -> once_run (phase_of st) (trace_of ls st) (phase_of st').
Proof.
  revert st. induction ls as [|l ls IH]; intros st Hok Hr; simpl in *; [simplify_eq; constructor|].
  apply bind_Some in Hr as (s1 & H1 & H2). rewrite H1. pose proof (step_sim l st s1 Hok H1) as Hs.
  specialize (IH s1 (claims_step _ _ _ Hok H1) H2). destruct (event_of l st); simpl; eauto with once.
Qed.

(** The events of the trace are the starts and completions the run records. *)
Lemma event_records l st st' : istep l st = Some st' ->
  started st' = match event_of l st with Some (Start _, id) => [id] | _ => [] end ++ started st /\
  completed st' = match event_of l st with Some (Finish _, id) => [id] | _ => [] end ++ completed st.
Proof.
  destruct l as [id|i|i o]; simpl; intros Hs; [by simplify_eq| |].
  - destruct (procs st !! i) as [[id pc]|]; [|done]. destruct pc; try done.
    + destruct (Claim id (kv st)) as [[[]|] s']; by simplify_eq.
    + by simplify_eq.
    + destruct (Mark id (kv st)) as [[|] s']; by simplify_eq.
    + destruct (Release id (kv st)) as [r s']. by simplify_eq.
  - destruct (procs st !! i) as [[id pc]|]; [|done]. destruct pc; try done. by destruct o as [[]|]; simplify_eq.
Qed.

Definition starts (tr : list event) : list string := omap (fun e => match e with (Start _, id) => Some id | _ => None end) tr.
Definition finishes (tr : list event) : list string := omap (fun e => match e with (Finish _, id) => Some id | _ => None end) tr.

Lemma trace_records ls st st' : irun ls st = Some st' ->
  reverse (started st') = reverse (started st) ++ starts (trace_of ls st) /\
  reverse (completed st') = reverse (completed st) ++ finishes (trace_of ls st).
Proof.
  revert st. induction ls as [|l ls IH]; intros st Hr; simpl in *; [simplify_eq; by rewrite !app_nil_r|].
  apply bind_Some in Hr as (s1 & H1 & H2). rewrite H1. destruct (event_records l st s1 H1) as [E1 E2].
  destruct (IH s1 H2) as [-> ->]. rewrite E1, E2, !reverse_app.
  destruct (event_of l st) as [[[] id]|]; simpl; by rewrite <- ?app_assoc.
Qed.

(** C4: refinement.  Every interleaving of any number of deliveries, with bucket
    calls that fail before or after taking effect and handlers that fail or
    panic, is a run of the at-most-once machine, whose starts and completions
    are exactly the handler starts and marked completions of the run, in order.
    So for every id the events form a legal sequence: the work starts only when
    nobody holds the id, the next event is by that same holder, which gives up
    or finishes it, and nothing follows a completion. *)
Theorem idempotency_refines_once s0 ls st :
  irun ls (IState s0 [] [] []) = Some st ->
  let tr := trace_of ls (IState s0 [] [] []) in
  once_run (phase_of (IState s0 [] [] [])) tr (phase_of st) /\
  starts tr = reverse (started st) /\ finishes tr = reverse (completed st) /\
  forall id, legal None (acts_of id tr) = true.
Proof.
  intros Hr tr. pose proof (run_sim ls _ st (ireach_claims s0 _ (ireach_init s0)) Hr) as H.
  destruct (trace_records ls _ st Hr) as [H1 H2]. split_and!; [exact H|by rewrite H1|by rewrite H2|].
  intros id. fold tr in H. apply (once_legal _ _ _ id) in H.
  unfold phase_of in H. simpl in H. by destruct (view s0 !! id).
Qed.

End Simulation.

(** Two deliveries of one id: the second finds the work done. *)
Lemma idempotency_refines_once_witness :
  trace_of (two_deliveries ++ [LStep 1]) (IState no_keys [] [] []) = [(Start 0, "id-1"); (Finish 0, "id-1")] /\
  once_run (phase_of (IState no_keys [] [] [])) [(Start 0, "id-1"); (Finish 0, "id-1")] (phase_of (after (two_deliveries ++ [LStep 1]))).
Proof.
  assert (trace_of (two_deliveries ++ [LStep 1]) (IState no_keys [] [] []) = [(Start 0, "id-1"); (Finish 0, "id-1")]) as E
    by (vm_compute; reflexivity).
  split; [exact E|]. rewrite <- E.
  refine (proj1 (idempotency_refines_once no_keys (two_deliveries ++ [LStep 1]) (after (two_deliveries ++ [LStep 1])) _)).
  vm_compute. reflexivity.
Defined.
