(* ===== verification/Dlq.v ===== *)
(** * Dead-letter routing and redrive (dlq/dlq.go, dlq/replay.go, dlq_reexport.go)

    The publisher is a parameter answering each publish; SHA-256 and the stack
    dump are parameters producing text.  [With] returns, besides the handler's
    outcome and the message, what was published and what was recorded. *)

From stdpp Require Import pretty.
From S2P Require Import Prelude GoStr Validate Message Compress Codec Publisher Rpc Pressure WorkerPool Consume.

Definition ErrSendToDLQ : string := "dlq.ErrSendToDLQ".

Definition HeaderOriginalSubject : string := "X-NATS-Original-Subject".
Definition HeaderStream : string := "X-NATS-Stream".
Definition HeaderSequence : string := "X-NATS-Stream-Sequence".
Definition HeaderNumDelivered : string := "X-NATS-Num-Delivered".
Definition HeaderReason : string := "X-NATS-DLQ-Reason".
Definition HeaderConsumer : string := "X-NATS-Consumer".
Definition HeaderAutopsyError : string := "X-NATS-Autopsy-Error".
Definition HeaderAutopsyHash : string := "X-NATS-Autopsy-Hash".
Definition HeaderAutopsyStack : string := "X-NATS-Autopsy-Stack".

Definition defaultAutopsyMaxErrorBytes : Z := 512.
Definition defaultAutopsyMaxStackBytes : Z := 2048.

Record AutopsyConfig := Autopsy { auEnabled : bool; IncludeStack : bool; MaxErrorBytes : Z; MaxStackBytes : Z }.
Definition autopsy_withDefaults (c : AutopsyConfig) : AutopsyConfig :=
  Autopsy (auEnabled c) (IncludeStack c) (pos_or (MaxErrorBytes c) defaultAutopsyMaxErrorBytes)
    (pos_or (MaxStackBytes c) defaultAutopsyMaxStackBytes).

Record RawPublish := RawPub { rpSubject : string; rpHeader : header; rpData : string }.

Record Config := DlqConfig {
  dPublisher : bool;             (* a publisher is set *)
  dRecorder : bool;              (* a recorder is set *)
  dSubject : string; dReason : string; dAutopsy : AutopsyConfig; MaxDeliver : Z
}.

(** JetStream metadata; absent when [msg.Metadata()] fails. *)
Record MsgMetadata := Meta { mdStream : string; mdConsumer : string; mdSeq : Z; NumDelivered : Z }.

Record autopsyInfo := AInfo { aiErr : string; aiStack : string }.

(** A recorded incident: subject, stream, consumer, reason, error text when an
    autopsy is made, sequence. *)
Record dlq_record := DlqRec {
  drSubject : string; drStream : string; drConsumer : string; drReason : string;
  drError : option string; drSeq : Z
}.

Definition dec (n : Z) : string := pretty (Z.to_N n).

Definition truncateString (s : string) (maxBytes : Z) : string :=
  if (maxBytes <=? 0) || (slen s <=? maxBytes) then s else substring 0 (Z.to_nat maxBytes) s.

(** What a routing run leaves behind. *)
Record routing := Routing { published : list RawPublish; recorded : list dlq_record }.
Definition nothing : routing := Routing [] [].

Section Dlq.
Context `{NH : NatsHeader} `{CP : Compressors} `{MA : MsgApi}.
Variable publish : RawPublish -> option err.
Variable sha256hex : string -> string.
Variable stack_dump : Z -> string.
Variable err_text : err -> string.

Definition applyAutopsyHeaders (h : header) (c : AutopsyConfig) (data : string) (info : autopsyInfo) : header :=
  let h1 := <[HeaderAutopsyHash := [sha256hex data]]> h in
  let h2 := if IsEmpty (aiErr info) then h1
            else <[HeaderAutopsyError := [truncateString (aiErr info) (MaxErrorBytes c)]]> h1 in
  if IncludeStack c && negb (IsEmpty (aiStack info))
  then <[HeaderAutopsyStack := [truncateString (aiStack info) (MaxStackBytes c)]]> h2 else h2.

Definition fillAutopsyStack (e : string) (c : AutopsyConfig) : autopsyInfo :=
  if IncludeStack c then AInfo e (stack_dump (pos_or (MaxStackBytes c) defaultAutopsyMaxStackBytes))
  else AInfo e "".

(** Copy one of the original message's headers when it has a value. *)
Definition carry (k : string) (from : option header) (h : header) : header :=
  match from with
  | None => h
  | Some m => let v := hget m k in if IsEmpty v then h else <[k := [v]]> h
  end.

(** The headers of the dead-letter copy. *)
Definition dlq_headers (c : Config) (m : NatsMsg) (meta : option MsgMetadata) (reason : string)
  (info : autopsyInfo) : header :=
  let h0 : header := <[HeaderReason := [reason]]> {[ HeaderOriginalSubject := [nSubject m] ]} in
  let h1 := carry HeaderContentType (nHeader m) (carry HeaderMsgID (nHeader m) (carry HeaderTraceID (nHeader m) h0)) in
  let h2 := match meta with
            | Some d => <[HeaderConsumer := [mdConsumer d]]> (<[HeaderNumDelivered := [dec (NumDelivered d)]]>
                          (<[HeaderSequence := [dec (mdSeq d)]]> (<[HeaderStream := [mdStream d]]> h1)))
            | None => h1
            end in
  let h3 := if auEnabled (dAutopsy c) then applyAutopsyHeaders h2 (dAutopsy c) (nData m) info else h2 in
  if match h3 !! HeaderMsgID with Some (v :: _) => IsEmpty v | _ => true end
  then match meta with
       | Some d => <[HeaderMsgID := ["dlq-" +:+ mdStream d +:+ "-" +:+ dec (mdSeq d)]]> h3
       | None => h3
       end
  else h3.

(** [for range 3 { termErr = msg.Term(); if termErr == nil { break } }] *)
Fixpoint term_retry (n : nat) (m : jmsg) : option err * jmsg :=
  match n with
  | O => (None, m)
  | S n' =>
      match do_op OpTerm m with
      | (None, m') => (None, m')
      | (Some e, m') => match n' with O => (Some e, m') | _ => term_retry n' m' end
      end
  end.

Definition dlq_record_of (c : Config) (m : NatsMsg) (meta : option MsgMetadata) (reason : string)
  (info : autopsyInfo) : list dlq_record :=
  if dRecorder c then
    [DlqRec (nSubject m) (from_option mdStream "" meta) (from_option mdConsumer "" meta) reason
       (if auEnabled (dAutopsy c) then Some (aiErr info) else None) (from_option mdSeq 0 meta)]
  else [].

Definition route (c : Config) (meta : option MsgMetadata) (reason : string) (info : autopsyInfo) (m : jmsg)
  : option err * jmsg * routing :=
  let p := RawPub (dSubject c) (dlq_headers c (body m) meta reason info) (nData (body m)) in
  match publish p with
  | Some e => (Some (wrapf "publish to dlq subject=%q: %w" e), m, Routing [p] [])
  | None =>
      match term_retry 3 m with
      | (Some e, m') =>
          (Some (wrapf2 "%w: term after dlq subject=%q: %w" (Sentinel ErrDLQRouted) e), m', Routing [p] [])
      | (None, m') => (None, m', Routing [p] (dlq_record_of c (body m) meta reason info))
      end
  end.

(** The delivery is beyond the configured number of attempts. *)
Definition over_delivered (c : Config) (meta : option MsgMetadata) : bool :=
  (0 <? MaxDeliver c) && match meta with Some d => MaxDeliver c <? NumDelivered d | None => false end.

(** The wrapped handler; [meta] is the message's metadata. *)
Definition With (c0 : Config) (meta : option MsgMetadata) (handler : MsgHandler) (m : jmsg)
  : outcome * jmsg * routing :=
  if negb (dPublisher c0) || IsEmpty (dSubject c0) then let '(o, m') := handler m in (o, m', nothing)
  else
    let c := DlqConfig (dPublisher c0) (dRecorder c0) (dSubject c0)
               (if IsEmpty (dReason c0) then "max_deliver" else dReason c0)
               (autopsy_withDefaults (dAutopsy c0)) (MaxDeliver c0) in
    if over_delivered c meta then
      let info := fillAutopsyStack (dReason c) (dAutopsy c) in
      match route c meta (dReason c) info m with
      | (Some e, m', r) => (Returned (Some e), m', r)
      | (None, m', r) => (Returned (Some (Sentinel ErrDLQRouted)), m', r)
      end
    else
      match handler m with
      | (Returned (Some e), m1) =>
          if errors_is e ErrSendToDLQ then
            let info := fillAutopsyStack (err_text e) (dAutopsy c) in
            match route c meta "handler_requested" info m1 with
            | (Some e', m', r) => (Returned (Some (wrapf "dlq after handler request: %w" e')), m', r)
            | (None, m', r) => (Returned (Some (Sentinel ErrDLQRouted)), m', r)
            end
          else (Returned (Some e), m1, nothing)
      | (o, m1) => (o, m1, nothing)
      end.

(** As a handler of the consumer. *)
Definition dlq_handler (c : Config) (meta : option MsgMetadata) (h : MsgHandler) : MsgHandler :=
  fun m => let '(o, m', _) := With c meta h m in (o, m').

(** ** Lemmas *)

Lemma term_retry_settles n m :
  reliable -> bound m = true -> settled (term_retry (S n) m).2 = true.
Proof.
  intros Hr. revert m. induction n as [|n IH]; intros m Hb; simpl;
    pose proof (op_settles OpTerm m Hr Hb) as Hs; pose proof (api_bound OpTerm m) as Hb';
    destruct (do_op OpTerm m) as [[e|] m']; simpl in *; try done.
  apply IH. congruence.
Qed.

(** With a server that answers, the first [Term] terminates an unsettled message. *)
Lemma term_retry_terminates n m :
  reliable -> bound m = true -> settlement m = None ->
  (term_retry (S n) m).1 = None /\ settlement (term_retry (S n) m).2 = Some OpTerm.
Proof. intros Hr Hb Hn. simpl. by destruct (op_decides OpTerm m Hr Hb Hn) as [-> ?]. Qed.

Lemma term_retry_bound n m : bound (term_retry n m).2 = bound m.
Proof.
  revert m. induction n as [|n IH]; intros m; [done|]. simpl. pose proof (api_bound OpTerm m) as Hb.
  destruct (do_op OpTerm m) as [[e|] m']; simpl in *; [|done]. destruct n; [done|]. by rewrite IH.
Qed.

Lemma route_cases c meta reason info m e m' r :
  route c meta reason info m = (e, m', r) ->
  exists p, published r = [p] /\ rpSubject p = dSubject c /\ rpData p = nData (body m) /\
  ((exists pe, e = Some (wrapf "publish to dlq subject=%q: %w" pe) /\ m' = m /\ publish p = Some pe) \/
   (publish p = None /\ m' = (term_retry 3 m).2 /\
    match (term_retry 3 m).1 with
    | None => e = None
    | Some te => e = Some (wrapf2 "%w: term after dlq subject=%q: %w" (Sentinel ErrDLQRouted) te) /\ recorded r = []
    end)).
Proof.
  unfold route. set (p := RawPub _ _ _). intros E. exists p. destruct (publish p) as [pe|] eqn:Ep.
  - simplify_eq/=. split_and!; try done. left; eauto.
  - destruct (term_retry 3 m) as [[te|] m1] eqn:Et; simplify_eq; split_and!; try done; right; split_and!; done.
Qed.

(** The inner handler does not itself claim a routing, and the publisher's
    errors are not this package's. *)
Definition honest (h : MsgHandler) : Prop :=
  keeps_bound h /\ (forall m, is_err (invokeMsgHandler (h m).1) ErrDLQRouted = false).
Definition publish_foreign : Prop := forall p e, publish p = Some e -> errors_is e ErrDLQRouted = false.

(** The outcome says "routed" exactly when one copy of [m1] was accepted and
    [m1] then terminated, in up to three attempts; the outcome tells whether the
    last one failed. *)
Definition routed_ok (subject : string) (m1 : jmsg) (o : option err) (m' : jmsg) (r : routing) : Prop :=
  (is_err o ErrDLQRouted = true ->
     (exists p, published r = [p] /\ publish p = None /\ rpSubject p = subject /\ rpData p = nData (body m1)) /\
     bound m1 = true /\ m' = (term_retry 3 m1).2 /\
     match (term_retry 3 m1).1 with
     | None => o = Some (Sentinel ErrDLQRouted)
     | Some te => recorded r = [] /\ forall x, errors_is te x = true -> is_err o x = true
     end) /\
  (is_err o ErrDLQRouted = false -> Forall (fun p => publish p <> None) (published r)).

Lemma routed_nothing subject m1 o m' : is_err o ErrDLQRouted = false -> routed_ok subject m1 o m' nothing.
Proof. intros H. split; [congruence|constructor]. Qed.

Lemma route_routed c meta reason info m e m' r (wrap : err -> err) :
  (forall x y, errors_is (wrap x) y = errors_is x y) ->
  publish_foreign -> bound m = true -> route c meta reason info m = (e, m', r) ->
  bound m' = true /\
  routed_ok (dSubject c) m (Some (match e with Some e => wrap e | None => Sentinel ErrDLQRouted end)) m' r.
Proof.
  intros Hw Hp Hb Er.
  destruct (route_cases _ _ _ _ _ _ _ _ Er) as (p & Hpub & Hs & Hd & [(pe & -> & -> & Hpe)|(Hpe & -> & He)]);
    unfold routed_ok; rewrite Hpub; cbn [is_err].
  - rewrite Hw, errors_is_wrapf, (Hp _ _ Hpe). split; [done|]. split; [done|].
    intros _. constructor; [by rewrite Hpe|constructor].
  - rewrite term_retry_bound. split; [done|]. split.
    + intros _. split; [by exists p|]. split; [done|]. split; [done|].
      destruct (term_retry 3 m).1 as [te|]; [|by subst]. destruct He as [-> ?]. split; [done|].
      intros x Hx. by rewrite Hw, errors_is_wrapf2, Hx, orb_true_r.
    + destruct (term_retry 3 m).1 as [te|]; [|by subst]. destruct He as [-> ?]. by rewrite Hw, errors_is_wrapf2.
Qed.

(** The message that is routed: the delivered one beyond the limit, else the one
    the handler leaves. *)
Definition routed_message (c : Config) (meta : option MsgMetadata) (h : MsgHandler) (m : jmsg) : jmsg :=
  if over_delivered c meta then m else (h m).2.

Lemma With_routed c meta h m o m' r :
  honest h -> publish_foreign -> bound m = true -> With c meta h m = (o, m', r) ->
  bound m' = true /\ routed_ok (dSubject c) (routed_message c meta h m) (invokeMsgHandler o) m' r.
Proof.
  intros [Hk Hh] Hp Hb Hw. pose proof (Hh m) as Hm. pose proof (Hk m) as Hkm. unfold With in Hw. unfold routed_message.
  destruct (negb (dPublisher c) || IsEmpty (dSubject c)).
  { destruct (h m) as [o1 m1]. simplify_eq/=. split; [congruence|by apply routed_nothing]. }
  change (over_delivered (DlqConfig _ _ _ _ _ _) meta) with (over_delivered c meta) in Hw.
  destruct (over_delivered c meta).
  - destruct (route _ _ _ _ m) as [[e m1] r1] eqn:Er.
    destruct (route_routed _ _ _ _ _ _ _ _ (fun x => x) ltac:(done) Hp Hb Er) as [H1 H2].
    destruct e; simplify_eq; done.
  - destruct (h m) as [o1 m1]. simpl in Hm, Hkm |- *.
    assert (Hb1 : bound m1 = true) by congruence.
    destruct o1 as [[e|]|e]; [|simplify_eq; split; [done|by apply routed_nothing]..].
    destruct (errors_is e ErrSendToDLQ); [|simplify_eq; split; [done|by apply routed_nothing]].
    destruct (route _ _ _ _ m1) as [[e1 m2] r1] eqn:Er.
    destruct (route_routed _ _ _ _ _ _ _ _ (wrapf "dlq after handler request: %w")
      (fun x y => errors_is_wrapf _ x y) Hp Hb1 Er) as [H1 H2].
    destruct e1; simplify_eq; done.
Qed.

(** ** Theorems *)

(** C6: dead-letter routing never loses a message.  The wrapped handler reports
    "routed" only when the publisher accepted exactly one copy of the message
    (the delivered one beyond the delivery limit, else the one the handler left)
    on the configured subject and [Term] was then tried, up to three times: the
    plain [ErrDLQRouted] when it succeeded, and an error that also carries the
    last failure, with nothing recorded, when it did not; an unsettled message
    is terminated whenever the server answers.  Whenever the handler reports
    anything else no copy was accepted, so the normal ack/nak path applies. *)
Theorem dlq_routed_means_published c meta h m :
  honest h -> publish_foreign -> bound m = true ->
  let '(o, m', r) := With c meta h m in
  let m1 := routed_message c meta h m in
  (is_err (invokeMsgHandler o) ErrDLQRouted = true ->
     (exists p, published r = [p] /\ publish p = None /\ rpSubject p = dSubject c /\ rpData p = nData (body m1)) /\
     m' = (term_retry 3 m1).2 /\
     match (term_retry 3 m1).1 with
     | None => invokeMsgHandler o = Some (Sentinel ErrDLQRouted)
     | Some te => recorded r = [] /\ forall x, errors_is te x = true -> is_err (invokeMsgHandler o) x = true
     end /\
     (reliable -> settlement m1 = None -> settlement m' = Some OpTerm)) /\
  (is_err (invokeMsgHandler o) ErrDLQRouted = false -> Forall (fun p => publish p <> None) (published r)).
Proof.
  intros Hh Hp Hb. destruct (With c meta h m) as [[o m'] r] eqn:Ew.
  destruct (With_routed _ _ _ _ _ _ _ Hh Hp Hb Ew) as [_ [H1 H2]]. split; [|done].
  intros Hx. destruct (H1 Hx) as (Hpub & Hb1 & -> & Ht). split_and!; [done..|].
  intros Hr Hn. by apply term_retry_terminates.
Qed.

(** With a dead-letter handler every processed message ends up settled:
    acked, nak'd, or published to the dead-letter subject and terminated; the
    exception left open by [processMessage] is closed by [With]. *)
Theorem dlq_process_settles cons c meta h m :
  reliable -> honest h -> publish_foreign -> bound m = true ->
  settled (processMessage cons (dlq_handler c meta h) m).1.2 = true.
Proof.
  intros Hr Hh Hp Hb. unfold processMessage.
  destruct (if PayloadDecompression (cfg cons) then _ else _) as [[e|] b]; [by apply op_settles|].
  unfold dlq_handler. destruct (With c meta h (set_body m b)) as [[o m1] r] eqn:Ew.
  destruct (With_routed c meta h (set_body m b) o m1 r Hh Hp Hb Ew) as [Hb1 [Hrt _]].
  destruct (is_err (invokeMsgHandler o) ErrDLQRouted) eqn:Ed.
  { destruct (Hrt eq_refl) as (_ & Hb2 & -> & _). by apply term_retry_settles. }
  destruct (invokeMsgHandler o) as [e|]; [by apply op_settles|].
  pose proof (op_settles OpAck m1 Hr Hb1) as Hs.
  destruct (do_op OpAck m1) as [[e|] m2]; [|done]. by destruct (errors_is e ErrMsgAlreadyAckd).
Qed.

(** Delivery counting: with [MaxDeliver = N > 0] the inner handler runs on
    deliveries 1..N and is not called on later ones, which are routed; so it
    gets exactly N attempts. *)
Theorem dlq_attempts c meta h m :
  dPublisher c = true -> dSubject c <> "" -> 0 < MaxDeliver c ->
  (NumDelivered meta <= MaxDeliver c ->
     (forall e, (h m).1 = Returned (Some e) -> errors_is e ErrSendToDLQ = false) ->
     With c (Some meta) h m = ((h m).1, (h m).2, nothing)) /\
  (MaxDeliver c < NumDelivered meta ->
     forall h', With c (Some meta) h' m = With c (Some meta) h m /\ published (With c (Some meta) h m).2 <> []).
Proof.
  intros Hp Hs Hm. apply IsEmpty_false in Hs. unfold With, over_delivered. rewrite Hp, Hs. simpl.
  apply Z.ltb_lt in Hm as Hm'. rewrite Hm'. simpl. split; intros Hd.
  - intros He. destruct (Z.ltb_spec (MaxDeliver c) (NumDelivered meta)); [lia|].
    destruct (h m) as [[[e|]|e] m1]; try done. simpl. by rewrite He.
  - apply Z.ltb_lt in Hd. rewrite Hd. intros h'. split; [done|].
    destruct (route _ _ _ _ m) as [[e m1] r] eqn:Er.
    destruct (route_cases _ _ _ _ _ _ _ _ Er) as (p & Hpub & _). destruct e; simpl; by rewrite Hpub.
Qed.

(** The deduplication id of a dead-letter copy. *)
Lemma dlq_headers_msgid c m d r i :
  dlq_headers c m (Some d) r i !! HeaderMsgID =
  Some [match nHeader m with
        | Some h => if IsEmpty (hget h HeaderMsgID) then "dlq-" +:+ mdStream d +:+ "-" +:+ dec (mdSeq d)
                    else hget h HeaderMsgID
        | None => "dlq-" +:+ mdStream d +:+ "-" +:+ dec (mdSeq d)
        end].
Proof.
  unfold dlq_headers. set (h1 := carry HeaderContentType _ _). simpl.
  assert (H1 : h1 !! HeaderMsgID = match nHeader m with
    | Some h => if IsEmpty (hget h HeaderMsgID) then None else Some [hget h HeaderMsgID] | None => None end).
  { unfold h1, carry. destruct (nHeader m) as [h|]; [|done].
    repeat case_match; rewrite ?lookup_insert_ne, ?lookup_insert_eq, ?lookup_insert_ne by done; done. }
  set (h3 := if auEnabled (dAutopsy c) then _ else _).
  assert (H3 : h3 !! HeaderMsgID = h1 !! HeaderMsgID).
  { unfold h3, applyAutopsyHeaders. repeat case_match; by rewrite !lookup_insert_ne by done. }
  rewrite H3, H1. destruct (nHeader m) as [h|]; [|apply lookup_insert_eq].
  destruct (IsEmpty (hget h HeaderMsgID)) eqn:E; [apply lookup_insert_eq|]. rewrite E. by rewrite H3, H1.
Qed.

(** The copy carries no content encoding: its payload is the expanded one. *)
Lemma dlq_headers_plain c m d r i : dlq_headers c m d r i !! HeaderContentEncoding = None.
Proof.
  assert (forall k from h, k <> HeaderContentEncoding -> carry k from h !! HeaderContentEncoding = h !! HeaderContentEncoding) as Hc.
  { intros k from h Hk. unfold carry. destruct from; [|done]. destruct (IsEmpty _); [done|]. by rewrite lookup_insert_ne. }
  unfold dlq_headers. cbv zeta. set (h1 := carry HeaderContentType _ _).
  assert (h1 !! HeaderContentEncoding = None) as H1 by (unfold h1; by rewrite !Hc).
  set (h2 := match d with Some d => _ | None => h1 end).
  assert (h2 !! HeaderContentEncoding = None) as H2 by (unfold h2; destruct d; by rewrite ?lookup_insert_ne).
  set (h3 := if auEnabled _ then _ else h2).
  assert (h3 !! HeaderContentEncoding = None) as H3.
  { unfold h3, applyAutopsyHeaders. destruct (auEnabled _); [|done].
    destruct (_ && _), (IsEmpty (aiErr i)); by rewrite !lookup_insert_ne. }
  destruct (match h3 !! HeaderMsgID with Some _ => _ | None => _ end); [|done]. destruct d; by rewrite ?lookup_insert_ne.
Qed.

(** A redelivered message gives its dead-letter copies the same
    deduplication id: the id depends on the original's id, or else on its stream
    and sequence, and not on the attempt. *)
Theorem dlq_msgid_stable c m d n1 n2 reason1 reason2 info1 info2 :
  let copy n r i := dlq_headers c m (Some (Meta (mdStream d) (mdConsumer d) (mdSeq d) n)) r i in
  copy n1 reason1 info1 !! HeaderMsgID = copy n2 reason2 info2 !! HeaderMsgID /\
  exists id, copy n1 reason1 info1 !! HeaderMsgID = Some [id] /\ id <> "".
Proof.
  cbv beta zeta. rewrite !dlq_headers_msgid. simpl. split; [done|]. eexists. split; [done|].
  destruct (nHeader m) as [h|]; [|done]. destruct (IsEmpty _) eqn:E; [done|]. by apply IsEmpty_false.
Qed.

End Dlq.

(** ** Redrive: ReplayToStream

    [get] and [next] are the message source ([GetMsg], [GetNextMsgAfter]),
    [publish] the publisher.  [ctx i] is the context's error at the i-th
    iteration and [wait i] at the rate-limit pause after it.  The fallback of
    [headerGet] ranges over a map, in the order [order] gives; [unicode_fold]
    is the case folding of non-ASCII runes. *)

Record RawMsg := Raw_ { rmSeq : Z; rmHeader : option header; rmData : string }.

Record ReplayConfig := ReplayCfg {
  SourceStream : string; DestSubject : string; ReasonFilter : string; SubjectFilter : string;
  StartSeq : Z; Limit : Z; RateLimit : Z; DryRun : bool; StripDLQHeaders : bool
}.

Record ReplayResult := ReplayRes {
  Considered : Z; Matched : Z; Published : Z; Skipped : Z; LastSeq : Z
}.

Section Redrive.
Variable get next : Z -> res RawMsg.
Variable publish : list RawPublish -> RawPublish -> option err.
Variable ctx wait : nat -> option err.
Variable order : header -> list (string * list string).
Variable unicode_fold : Z -> Z.

Definition fold_rune (r : Z) : Z :=
  if r <? 128 then (if (65 <=? r) && (r <=? 90) then r + 32 else r)
  else if r =? 383 then 115 else if r =? 8490 then 107 else unicode_fold r.
(** strings.EqualFold *)
Definition EqualFold (a b : string) : bool :=
  bool_decide ((fold_rune <$> runes a) = (fold_rune <$> runes b)).

Definition headerGet (h : option header) (key : string) : string :=
  match h with
  | None => ""
  | Some m =>
      match m !! key with
      | Some (v :: _) => v
      | _ =>
          match List.find (fun '(k, vals) => EqualFold k key && negb (bool_decide (vals = []))) (order m) with
          | Some (_, v :: _) => v
          | _ => ""
          end
      end
  end.

Definition matchReplayFilters (h : option header) (c : ReplayConfig) : bool :=
  (IsEmpty (ReasonFilter c) || EqualFold (headerGet h HeaderReason) (ReasonFilter c)) &&
  (IsEmpty (SubjectFilter c) || String.eqb (headerGet h HeaderOriginalSubject) (SubjectFilter c)).

Definition dlq_keys : list string :=
  [HeaderOriginalSubject; HeaderStream; HeaderSequence; HeaderNumDelivered; HeaderReason;
   HeaderConsumer; HeaderAutopsyError; HeaderAutopsyHash; HeaderAutopsyStack].
Definition stripDLQHeaders (h : header) : header := foldr delete h dlq_keys.

Definition fetch_raw (c : ReplayConfig) (first : bool) (seq : Z) : res RawMsg :=
  if first then match get seq with Ok r => Ok r | Er _ => next (u64 (seq - 1)) end else next seq.

(** The loop; [n] is [cfg.Limit - out.Considered], which every round lowers. *)
Fixpoint replay_loop (n : nat) (c : ReplayConfig) (i : nat) (seq : Z) (out : ReplayResult)
  (pubs : list RawPublish) : ReplayResult * option err * list RawPublish :=
  match n with
  | O => (out, None, pubs)
  | S n' =>
      match ctx i with
      | Some e => (out, Some e, pubs)
      | None =>
          match fetch_raw c (Considered out =? 0) seq with
          | Er _ => (out, None, pubs)
          | Ok raw =>
              let out1 := ReplayRes (Considered out + 1) (Matched out) (Published out) (Skipped out) (rmSeq raw) in
              if negb (matchReplayFilters (rmHeader raw) c) then
                replay_loop n' c (S i) (rmSeq raw)
                  (ReplayRes (Considered out1) (Matched out1) (Published out1) (Skipped out1 + 1) (LastSeq out1)) pubs
              else
                let out2 := ReplayRes (Considered out1) (Matched out1 + 1) (Published out1) (Skipped out1) (LastSeq out1) in
                if DryRun c then replay_loop n' c (S i) (rmSeq raw) out2 pubs
                else
                  let h := default ∅ (rmHeader raw) in
                  let p := RawPub (DestSubject c) (if StripDLQHeaders c then stripDLQHeaders h else h) (rmData raw) in
                  match publish pubs p with
                  | Some e => (out2, Some (wrapf "dlq replay publish seq=%d: %w" e), pubs)
                  | None =>
                      let out3 := ReplayRes (Considered out2) (Matched out2) (Published out2 + 1) (Skipped out2) (LastSeq out2) in
                      let cont := replay_loop n' c (S i) (rmSeq raw) out3 (pubs ++ [p]) in
                      if 0 <? RateLimit c then
                        match wait i with Some e => (out3, Some e, pubs ++ [p]) | None => cont end
                      else cont
                  end
          end
      end
  end.

Definition ReplayToStream (have : bool) (c0 : ReplayConfig) : option ReplayResult * option err * list RawPublish :=
  if negb have then (None, Some (errorf "dlq replay: source and publisher are required"), [])
  else if IsEmpty (SourceStream c0) then (None, Some (errorf "dlq replay: SourceStream is required"), [])
  else if IsEmpty (DestSubject c0) then (None, Some (errorf "dlq replay: DestSubject is required"), [])
  else
    let limit := if Limit c0 <=? 0 then 100 else Limit c0 in
    let start := if StartSeq c0 =? 0 then 1 else StartSeq c0 in
    let '(out, e, ps) := replay_loop (Z.to_nat limit) c0 0 start (ReplayRes 0 0 0 0 0) [] in
    (Some out, e, ps).

(** Counters of a partial run. *)
Record replay_ok (n : nat) (limit : Z) (out : ReplayResult) (ps : list RawPublish) (c : ReplayConfig) : Prop := {
  rp_sum : Considered out = Matched out + Skipped out;
  rp_lim : Considered out + Z.of_nat n = limit;
  rp_pub : Published out = Z.of_nat (length ps);
  rp_le : 0 <= Published out <= Matched out /\ 0 <= Skipped out;
  rp_dry : DryRun c = true -> ps = [];
  rp_all : DryRun c = false -> Published out = Matched out;
  rp_dest : Forall (fun p => rpSubject p = DestSubject c) ps
}.

Lemma replay_loop_ok n c i seq out ps limit out' e ps' :
  replay_ok n limit out ps c -> replay_loop n c i seq out ps = (out', e, ps') ->
  Considered out' = Matched out' + Skipped out' /\ Considered out' <= limit /\
  Published out' = Z.of_nat (length ps') /\ 0 <= Published out' <= Matched out' /\
  (DryRun c = true -> ps' = []) /\ (DryRun c = false -> e = None -> Published out' = Matched out') /\
  Forall (fun p => rpSubject p = DestSubject c) ps'.
Proof.
  revert i seq out ps. induction n as [|n IH]; intros i seq out ps [H1 H2 H3 H4 H5 H6 H7] Hr; simpl in Hr.
  { simplify_eq. split_and!; auto; lia. }
  destruct (ctx i); [simplify_eq; split_and!; auto; lia|].
  destruct (fetch_raw c (Considered out =? 0) seq) as [raw|]; [|simplify_eq; split_and!; auto; lia].
  destruct (matchReplayFilters (rmHeader raw) c); simpl in Hr.
  - destruct (DryRun c) eqn:Ed.
    { apply IH in Hr; [done|]. constructor; simpl; rewrite ?Ed; auto; lia. }
    destruct (publish ps _); [simplify_eq/=; rewrite ?Ed; split_and!; auto; try lia; done|].
    assert (Hn : forall n', replay_ok n' (limit - Z.of_nat n + Z.of_nat n')
      (ReplayRes (Considered out + 1) (Matched out + 1) (Published out + 1) (Skipped out) (rmSeq raw))
      (ps ++ [RawPub (DestSubject c) (if StripDLQHeaders c then stripDLQHeaders (default ∅ (rmHeader raw))
                else default ∅ (rmHeader raw)) (rmData raw)]) c).
    { intros n'. specialize (H6 eq_refl). constructor; simpl; rewrite ?Ed, ?length_app; simpl; try done; try lia.
      apply Forall_app. split; [done|]. by repeat constructor. }
    destruct (0 <? RateLimit c); [destruct (wait i)|].
    + simplify_eq. destruct (Hn 0%nat) as [N1 N2 N3 N4 N5 N6 N7]. rewrite Ed in *. simpl in *. split_and!; auto; try lia.
    + apply IH in Hr; [by rewrite ?Ed in *|]. specialize (Hn n). by replace (limit - Z.of_nat n + Z.of_nat n) with limit in Hn by lia.
    + apply IH in Hr; [by rewrite ?Ed in *|]. specialize (Hn n). by replace (limit - Z.of_nat n + Z.of_nat n) with limit in Hn by lia.
  - apply IH in Hr; [done|]. constructor; simpl; auto; lia.
Qed.

(** A redrive run keeps its books: every considered message is matched or
    skipped, at most [Limit] are considered (so the loop ends), the publisher
    accepted exactly [Published] copies, all on the destination subject; a dry
    run publishes nothing and an error-free real run publishes every match. *)
Theorem replay_accounting c out e ps :
  ReplayToStream true c = (Some out, e, ps) ->
  Considered out = Matched out + Skipped out /\
  Considered out <= (if Limit c <=? 0 then 100 else Limit c) /\
  Published out = Z.of_nat (length ps) /\ 0 <= Published out <= Matched out /\
  (DryRun c = true -> ps = []) /\ (DryRun c = false -> e = None -> Published out = Matched out) /\
  Forall (fun p => rpSubject p = DestSubject c) ps.
Proof.
  unfold ReplayToStream. simpl. destruct (IsEmpty (SourceStream c)); [done|].
  destruct (IsEmpty (DestSubject c)); [done|].
  destruct (replay_loop _ _ _ _ _ _) as [[out1 e1] ps1] eqn:El. intros; simplify_eq.
  eapply replay_loop_ok; [|exact El]. destruct (Z.leb_spec (Limit c) 0); constructor; simpl; auto; lia.
Qed.

End Redrive.

(** ** Examples *)

Definition dlq_demo : Config := DlqConfig true true "orders.dlq" "" (Autopsy true false 0 0) 3.
Definition accept_all (_ : RawPublish) : option err := None.
Definition poison : MsgHandler := fun m => (Returned (Some (wrapf "bad" (Sentinel ErrSendToDLQ))), m).
Definition sha_stub (_ : string) : string := "00".

Lemma poison_honest : honest poison.
Proof. split; [by intros m|by intros m]. Qed.

Lemma dlq_routed_means_published_witness :
  let '(o, m', r) := With accept_all sha_stub (fun _ => "") (fun _ => "bad") dlq_demo None poison (demo_jmsg true) in
  is_err (invokeMsgHandler o) ErrDLQRouted = true /\ length (published r) = 1%nat /\ settlement m' = Some OpTerm.
Proof.
  pose proof (dlq_routed_means_published accept_all sha_stub (fun _ => "") (fun _ => "bad") dlq_demo None poison
    (demo_jmsg true) poison_honest ltac:(by intros p e) eq_refl) as H.
  destruct (With _ _ _ _ _ _ _ _) as [[o m'] r] eqn:E.
  assert (Ho : is_err (invokeMsgHandler o) ErrDLQRouted = true).
  { apply (f_equal (fun x => is_err (invokeMsgHandler x.1.1) ErrDLQRouted)) in E. cbn [fst] in E. rewrite <- E. vm_compute. reflexivity. }
  split; [exact Ho|]. destruct H as [H _]. destruct (H Ho) as ((p & -> & _) & _ & _ & Ht). split; [reflexivity|].
  apply Ht; [apply demo_reliable|reflexivity].
Defined.

Lemma dlq_process_settles_witness :
  settled (processMessage (demo_consumer false 0 0)
    (dlq_handler accept_all sha_stub (fun _ => "") (fun _ => "bad") dlq_demo None poison) (demo_jmsg true)).1.2 = true.
Proof.
  apply dlq_process_settles; [apply demo_reliable|apply poison_honest|by intros p e|reflexivity].
Defined.

Lemma dlq_attempts_witness :
  published (With accept_all sha_stub (fun _ => "") (fun _ => "bad") dlq_demo (Some (Meta "ORDERS" "c" 9 4))
    ok_handler (demo_jmsg true)).2 <> [].
Proof.
  apply (dlq_attempts accept_all sha_stub (fun _ => "") (fun _ => "bad") dlq_demo (Meta "ORDERS" "c" 9 4)
    ok_handler (demo_jmsg true)); [reflexivity|discriminate|reflexivity|reflexivity|exact ok_handler].
Defined.

Definition one_msg (seq : Z) : res RawMsg :=
  if seq <? 5 then Ok (Raw_ 5 (Some {[ HeaderReason := ["max_deliver"] ]}) "x") else Er (errorf "no more").
Definition replay_demo : ReplayConfig := ReplayCfg "DLQ" "orders.retry" "MAX_DELIVER" "" 0 0 0 false true.

Lemma replay_accounting_witness :
  exists out e ps, ReplayToStream one_msg one_msg (fun _ _ => None) (fun _ => None) (fun _ => None)
    map_to_list (fun r => r) true replay_demo = (Some out, e, ps) /\
    Published out = 1 /\ Considered out = Matched out + Skipped out.
Proof.
  assert (E : exists out e ps, ReplayToStream one_msg one_msg (fun _ _ => None) (fun _ => None) (fun _ => None)
    map_to_list (fun r => r) true replay_demo = (Some out, e, ps) /\ Published out = 1)
    by (do 3 eexists; split; vm_compute; reflexivity).
  destruct E as (out & e & ps & E & Hp). exists out, e, ps.
  destruct (replay_accounting _ _ _ _ _ _ _ _ _ _ _ E) as [H _]. auto.
Defined.
