(* ===== verification/Delivery.v ===== *)
(** * A message's way through the consumer

    The pieces composed: [processMessage] of the consumer running a handler
    wrapped by the idempotency package, for every redelivery of one message.
    The server redelivers a message that was naked, and may redeliver one that
    was acknowledged (the acknowledgement was lost); the business handler is
    the sequence of what it would return on each delivery.  The second part
    follows a message whose handler always fails through the dead-letter wrapper
    until the server stops delivering it. *)
From S2P Require Import Prelude GoStr Validate Message Compress Codec Publisher Rpc Pressure Consume Idempotency Dlq.

Section Delivery.
Context `{NH : NatsHeader} `{CP : Compressors} `{MA : MsgApi} {S : Type} `{KV : KeyValue S}.

(** The wrapped handler on one delivery; [h] is what the business handler
    returns if it is called, [id] the message's deduplication id. *)
Definition idem_handler (id : string) (h : outcome) (s : S) : MsgHandler := fun m => ((WithHandler true id h s).1, m).

(** The business handler is called. *)
Definition invoked (id : string) (s : S) : bool :=
  if IsEmpty id then true else match (Claim id s).1 with Ok true => true | _ => false end.

(** The payload reaches the handler. *)
Definition decodes (c : consumer) (m : jmsg) : bool :=
  if PayloadDecompression (cfg c) then match (maybeDecompressMsg (body m)).1 with None => true | Some _ => false end else true.

(** One delivery: the error processing ends with, the message as it is left,
    what the business handler did, and the bucket. *)
Definition deliver_once (c : consumer) (id : string) (m : jmsg) (h : outcome) (s : S) : option err * jmsg * list outcome * S :=
  let '(e, m', _) := processMessage c (idem_handler id h s) m in
  if decodes c m then (e, m', if invoked id s then [h] else [], (WithHandler true id h s).2) else (e, m', [], s).

(** All deliveries of the message, in order. *)
Fixpoint deliver_all (c : consumer) (id : string) (m : jmsg) (hs : list outcome) (s : S)
  : list (option err * jmsg) * list outcome * S :=
  match hs with
  | [] => ([], [], s)
  | h :: hs' =>
      let '(e, m', ran, s1) := deliver_once c id m h s in
      let '(rs, runs, s2) := deliver_all c id m hs' s1 in
      ((e, m') :: rs, ran ++ runs, s2)
  end.

(** ** Lemmas *)

(** A bucket that answers: calls fail only for the reasons the interface names. *)
Record healthy : Prop := {
  h_put k v s : (kv_put k v s).1 = None;
  h_purge k s : (kv_purge k s).1 = None;
  h_create k v s : view s !! k = None -> (kv_create k v s).1 = None;
  h_exists k v s w : view s !! k = Some w -> is_err (kv_create k v s).1 ErrKeyExists = true;
  h_get k s v : view s !! k = Some v -> kv_get k s = Ok v
}.

Hypothesis Hh : healthy.

Lemma claim_free id s : ValidateKVKey id = None -> view s !! id = None ->
  exists s', Claim id s = (Ok true, s') /\ view s' = <[id := pendingValue]> (view s).
Proof.
  intros Hk Hv. pose proof (h_create Hh id pendingValue s Hv) as H. pose proof (create_view id pendingValue s) as Hc.
  unfold Claim. rewrite Hk. destruct (kv_create id pendingValue s) as [o s']. simpl in *. subst o.
  exists s'. split; [done|]. destruct Hc as [(_ & _ & ?)|[? _]]; done.
Qed.

Lemma claim_taken id s v : ValidateKVKey id = None -> view s !! id = Some v ->
  exists s', Claim id s = (Ok false, s') /\ view s' = view s.
Proof.
  intros Hk Hv. pose proof (h_exists Hh id pendingValue s v Hv) as H. pose proof (create_view id pendingValue s) as Hc.
  unfold Claim. rewrite Hk. destruct (kv_create id pendingValue s) as [[e|] s']; [|done]. simpl in *. rewrite H.
  exists s'. split; [done|]. destruct Hc as [(Hn & _)|[_ ?]]; [congruence|done].
Qed.

Lemma release_ok id s : ValidateKVKey id = None -> exists s', Release id s = (None, s') /\ view s' = delete id (view s).
Proof.
  intros Hk. pose proof (h_purge Hh id s) as H. pose proof (purge_view id s) as Hc. unfold Release. rewrite Hk.
  destruct (kv_purge id s) as [o s']. simpl in *. subst o. exists s'. split; [done|]. by destruct Hc as [?|[? _]].
Qed.

Lemma mark_ok id s : ValidateKVKey id = None -> exists s', Mark id s = (None, s') /\ view s' = <[id := doneValue]> (view s).
Proof.
  intros Hk. pose proof (h_put Hh id doneValue s) as H. pose proof (put_view id doneValue s) as Hc. unfold Mark. rewrite Hk.
  destruct (kv_put id doneValue s) as [o s']. simpl in *. subst o. exists s'. split; [done|]. by destruct Hc as [?|[? _]].
Qed.

Lemma valid_not_empty id : ValidateKVKey id = None -> IsEmpty id = false.
Proof. unfold ValidateKVKey. by destruct (IsEmpty id). Qed.

(** The wrapper on a free id, by what the handler returns, and on a done id. *)
Lemma with_free id o s : ValidateKVKey id = None -> view s !! id = None -> exists s',
  WithHandler true id (Returned o) s = (Returned o, s') /\ invoked id s = true /\
  view s' !! id = match o with None => Some doneValue | Some _ => None end.
Proof.
  intros Hk Hv. unfold WithHandler, withClaimHandler, invoked. rewrite (valid_not_empty id Hk).
  destruct (claim_free id s Hk Hv) as (s1 & -> & E1). destruct o as [e|]; simpl.
  - unfold after_failed. destruct (release_ok id s1 Hk) as (s2 & -> & E2). exists s2. split_and!; [done..|].
    by rewrite E2, lookup_delete_eq.
  - destruct (mark_ok id s1 Hk) as (s2 & -> & E2). exists s2. split_and!; [done..|]. by rewrite E2, lookup_insert_eq.
Qed.

Lemma with_done id h s : ValidateKVKey id = None -> view s !! id = Some doneValue -> exists s',
  WithHandler true id h s = (Returned None, s') /\ invoked id s = false /\ view s' !! id = Some doneValue.
Proof.
  intros Hk Hv. unfold WithHandler, withClaimHandler, invoked. rewrite (valid_not_empty id Hk).
  destruct (claim_taken id s _ Hk Hv) as (s1 & -> & E1). simpl. unfold Seen. rewrite Hk, (h_get Hh id s1 doneValue) by congruence.
  exists s1. split_and!; [done..|]. congruence.
Qed.

(** What processing makes of a handler that returns [o] and leaves the message. *)
Lemma process_returns c m o : reliable -> bound m = true -> settled m = false -> decodes c m = true ->
  is_err o ErrDLQRouted = false ->
  exists e m', (processMessage c (fun x => (Returned o, x)) m).1 = (e, m') /\
    settlement m' = Some (match o with None => OpAck | Some _ => OpNak end) /\ (e = None <-> o = None).
Proof.
  intros Hr Hb Hs Hd Ho. unfold processMessage.
  assert (exists b, (if PayloadDecompression (cfg c) then maybeDecompressMsg (body m) else (None, body m)) = (None, b)) as [b ->].
  { unfold decodes in Hd. destruct (PayloadDecompression (cfg c)); [|by eexists].
    destruct (maybeDecompressMsg (body m)) as [[e|] b]; [done|by eexists]. }
  simpl. rewrite Ho. destruct o as [e|]; simpl.
  - eexists _, _. split; [reflexivity|]. split; [|done]. apply op_decides; [done|done|by apply settled_None].
  - destruct (op_decides OpAck (set_body m b) Hr Hb) as [-> Hk]; [by apply settled_None|].
    eexists _, _. split; [reflexivity|]. done.
Qed.

(** ** Effectively once *)

Definition no_panic (h : outcome) : Prop := exists o, h = Returned o /\ is_err o ErrDLQRouted = false.
Definition succeeds (h : outcome) : bool := match h with Returned None => true | _ => false end.

(** The calls of the business handler: until it first succeeds. *)
Fixpoint until_success (hs : list outcome) : list outcome :=
  match hs with [] => [] | h :: hs' => if succeeds h then [h] else h :: until_success hs' end.
(** Which deliveries end without an error. *)
Fixpoint acked_from_success (hs : list outcome) : list bool :=
  match hs with [] => [] | h :: hs' => if succeeds h then replicate (length hs) true else false :: acked_from_success hs' end.

Definition without_error (r : option err * jmsg) : bool := match r.1 with None => true | Some _ => false end.

Section Once.
Context (c : consumer) (id : string) (m : jmsg).
Hypothesis Hid : ValidateKVKey id = None.
Hypothesis Hrel : reliable.
Hypothesis Hb : bound m = true.
Hypothesis Hs : settled m = false.
Hypothesis Hd : decodes c m = true.

Lemma deliver_returns o h s s1 : WithHandler true id h s = (Returned o, s1) -> is_err o ErrDLQRouted = false ->
  exists e m', deliver_once c id m h s = (e, m', if invoked id s then [h] else [], s1) /\
    settlement m' = Some (match o with None => OpAck | Some _ => OpNak end) /\ (e = None <-> o = None).
Proof.
  intros Hw Ho. unfold deliver_once, idem_handler. rewrite Hw, Hd. simpl.
  destruct (process_returns c m o Hrel Hb Hs Hd Ho) as (e & m' & E & H1 & H2).
  destruct (processMessage c _ m) as [[e0 m0] ev]. simpl in E. simplify_eq. eauto.
Qed.

Lemma after_done hs s : view s !! id = Some doneValue ->
  let '(rs, runs, s') := deliver_all c id m hs s in
  runs = [] /\ without_error <$> rs = replicate (length hs) true /\
  (fun r => settlement r.2) <$> rs = replicate (length hs) (Some OpAck) /\ view s' !! id = Some doneValue.
Proof.
  revert s. induction hs as [|h hs IH]; intros s Hv; [done|]. simpl.
  destruct (with_done id h s Hid Hv) as (s1 & Hw & Hi & Hv1).
  destruct (deliver_returns None h s s1 Hw eq_refl) as (e & m' & -> & H1 & [_ H2]). rewrite Hi, (H2 eq_refl).
  specialize (IH s1 Hv1). destruct (deliver_all c id m hs s1) as [[rs runs] s2]. destruct IH as (-> & E & F & G).
  split_and!; [done| | |done]; rewrite fmap_cons, ?E, ?F; [done|]. simpl. by rewrite H1.
Qed.

(** How the server is answered on each delivery. *)
Definition answer (ok : bool) : option settle_op := Some (if ok then OpAck else OpNak).


End Once.
End Delivery.

(** ** Poison messages *)

Section Poison.
Context `{NH : NatsHeader} `{CP : Compressors} `{MA : MsgApi}.
Variable publish : RawPublish -> option err.
Variable sha256hex : string -> string.
Variable stack_dump : Z -> string.
Variable err_text : err -> string.
(** The [MaxDeliver] of the durable consumer: 0 or less for no limit. *)
Variable server_max : Z.
Context (cons : consumer) (c : Config) (h : MsgHandler) (m : jmsg) (meta : Z -> MsgMetadata).

Definition accepted (p : RawPublish) : bool := match publish p with None => true | Some _ => false end.

(** The k-th delivery: the message as processing leaves it and the dead-letter
    copies accepted. *)
Definition dlq_delivery (k : Z) : jmsg * list RawPublish :=
  let m' := (processMessage cons (dlq_handler publish sha256hex stack_dump err_text c (Some (meta k)) h) m).1.2 in
  match (if PayloadDecompression (cfg cons) then maybeDecompressMsg (body m) else (None, body m)) with
  | (Some _, _) => (m', [])
  | (None, b) => (m', List.filter accepted (published (With publish sha256hex stack_dump err_text c (Some (meta k)) h (set_body m b)).2))
  end.

(** Acknowledged and terminated messages are not delivered again; one that was
    nak'd, or not settled at all, is. *)
Definition final (x : jmsg) : bool :=
  match settlement x with Some OpAck | Some OpTerm | Some (OpRespond _) => true | _ => false end.

(** Deliveries from the k-th on, while the message is not settled for good and
    the server delivers it: the copies accepted, the number of deliveries, and
    whether it was settled for good. *)
Fixpoint lifetime (fuel : nat) (k : Z) : list RawPublish * Z * bool :=
  match fuel with
  | O => ([], 0, false)
  | S f =>
      if (0 <? server_max) && (server_max <? k) then ([], 0, false)
      else let '(m', ps) := dlq_delivery k in
           if final m' then (ps, 1, true)
           else let '(ps', n, b) := lifetime f (k + 1) in (ps ++ ps', n + 1, b)
  end.

Variable strm : string.
Variable sq : Z.
Hypothesis Hmeta : forall k, NumDelivered (meta k) = k /\ mdStream (meta k) = strm /\ mdSeq (meta k) = sq.
Hypothesis Hpub : dPublisher c = true.
Hypothesis Hsub : dSubject c <> "".
Hypothesis Hmax : 0 < MaxDeliver c.
Hypothesis Hd : decodes cons m = true.
Hypothesis Hb : bound m = true.
Hypothesis Hn : settlement m = None.
Variable e0 : err.
Hypothesis Hfail : forall x, h x = (Returned (Some e0), x).
Hypothesis He0 : errors_is e0 ErrDLQRouted = false /\ errors_is e0 ErrSendToDLQ = false.
Hypothesis Haccept : forall p, publish p = None.

Lemma decoded : exists b, (if PayloadDecompression (cfg cons) then maybeDecompressMsg (body m) else (None, body m)) = (None, b).
Proof.
  unfold decodes in Hd. destruct (PayloadDecompression (cfg cons)); [|by eexists].
  destruct (maybeDecompressMsg (body m)) as [[e|] b]; [done|by eexists].
Qed.

(** The payload the handler sees, and the deduplication id of its copies. *)
Definition payload : NatsMsg := if PayloadDecompression (cfg cons) then (maybeDecompressMsg (body m)).2 else body m.
Definition copy_id : string :=
  match nHeader payload with
  | Some hd => if IsEmpty (hget hd HeaderMsgID) then "dlq-" +:+ strm +:+ "-" +:+ dec sq else hget hd HeaderMsgID
  | None => "dlq-" +:+ strm +:+ "-" +:+ dec sq
  end.
Definition is_copy (p : RawPublish) : Prop :=
  rpSubject p = dSubject c /\ rpData p = nData payload /\ rpHeader p !! HeaderMsgID = Some [copy_id].

Lemma decoded_payload :
  (if PayloadDecompression (cfg cons) then maybeDecompressMsg (body m) else (None, body m)) = (None, payload).
Proof.
  destruct decoded as [b E]. unfold payload. destruct (PayloadDecompression (cfg cons)); [|done]. by rewrite E.
Qed.

Lemma nak_not_final x : settlement x = None -> final (do_op OpNak x).2 = false.
Proof.
  intros Hx. unfold final. destruct (settlement (do_op OpNak x).2) as [o|] eqn:E; [|done].
  by rewrite (api_new OpNak x o Hx E).
Qed.

Lemma within_limit k : k <= MaxDeliver c -> exists m', dlq_delivery k = (m', []) /\ final m' = false.
Proof.
  intros Hk. unfold dlq_delivery, processMessage, dlq_handler. rewrite decoded_payload.
  assert (With publish sha256hex stack_dump err_text c (Some (meta k)) h (set_body m payload) = (Returned (Some e0), set_body m payload, nothing)) as ->.
  { unfold With, over_delivered. apply IsEmpty_false in Hsub. rewrite Hpub, Hsub. simpl. rewrite (proj1 (Hmeta k)).
    destruct (Z.ltb_spec (MaxDeliver c) k); [lia|]. rewrite andb_false_r, Hfail. by rewrite (proj2 He0). }
  simpl. rewrite (proj1 He0). simpl. eexists. split; [done|]. by apply nak_not_final.
Qed.

Lemma beyond_limit k : MaxDeliver c < k ->
  exists p, dlq_delivery k = ((term_retry 3 (set_body m payload)).2, [p]) /\ is_copy p.
Proof.
  intros Hk. unfold dlq_delivery, processMessage, dlq_handler. rewrite decoded_payload.
  unfold With, over_delivered. apply IsEmpty_false in Hsub. rewrite Hpub, Hsub. cbn [negb orb MaxDeliver].
  destruct (Hmeta k) as (Hk1 & Hk2 & Hk3). rewrite Hk1.
  destruct (Z.ltb_spec (MaxDeliver c) k); [|lia]. destruct (Z.ltb_spec 0 (MaxDeliver c)); [|lia]. cbn [andb].
  unfold route. rewrite Haccept. cbn [body set_body].
  assert (forall r i, is_copy (RawPub (dSubject c) (dlq_headers sha256hex (DlqConfig (dPublisher c) (dRecorder c) (dSubject c)
    (if IsEmpty (dReason c) then "max_deliver" else dReason c) (autopsy_withDefaults (dAutopsy c)) (MaxDeliver c))
    payload (Some (meta k)) r i) (nData payload))) as Hc.
  { intros r i. split; [done|]. split; [done|]. cbn [rpHeader]. rewrite dlq_headers_msgid, Hk2, Hk3. done. }
  destruct (term_retry 3 (set_body m payload)) as [[te|] m'];
    cbn [invokeMsgHandler is_err List.filter published fst snd]; rewrite ?errors_is_wrapf2; cbn;
    (unfold accepted; rewrite Haccept; eexists; split; [reflexivity|apply Hc]).
Qed.

Lemma reliable_final : reliable -> final (term_retry 3 (set_body m payload)).2 = true.
Proof.
  intros Hr. destruct (term_retry_terminates 2 (set_body m payload) Hr Hb Hn) as [_ E]. unfold final. by rewrite E.
Qed.

Lemma lifetime_within fuel k : reliable -> 1 <= k -> server_max <= 0 \/ MaxDeliver c < server_max -> k <= MaxDeliver c + 1 ->
  (Z.to_nat (MaxDeliver c + 1 - k) < fuel)%nat ->
  exists p, lifetime fuel k = ([p], MaxDeliver c + 2 - k, true) /\ is_copy p.
Proof.
  intros Hr H1 Hs. revert k H1. induction fuel as [|f IH]; intros k H1 H2 Hf; [lia|]. cbn [lifetime].
  assert ((0 <? server_max) && (server_max <? k) = false) as -> by
    (destruct (Z.ltb_spec 0 server_max), (Z.ltb_spec server_max k); simpl; try lia; done).
  destruct (decide (k = MaxDeliver c + 1)) as [->|Hne].
  - destruct (beyond_limit (MaxDeliver c + 1)) as (p & -> & Hp); [lia|]. rewrite (reliable_final Hr).
    exists p. split; [f_equal; f_equal; lia|done].
  - destruct (within_limit k) as (m' & -> & ->); [lia|]. destruct (IH (k + 1)) as (p & -> & Hp); [lia..|].
    exists p. split; [simpl; f_equal; f_equal; lia|done].
Qed.

Lemma lifetime_dropped fuel k : 0 < server_max <= MaxDeliver c -> (lifetime fuel k).1.1 = [] /\ (lifetime fuel k).2 = false.
Proof.
  intros Hs. revert k. induction fuel as [|f IH]; intros k; [done|]. simpl.
  destruct (Z.ltb_spec 0 server_max); [|lia]. destruct (Z.ltb_spec server_max k); simpl; [done|].
  destruct (within_limit k) as (m' & -> & ->); [lia|]. specialize (IH (k + 1)). by destruct (lifetime f (k + 1)) as [[ps n] b].
Qed.

Lemma lifetime_copies fuel k : Forall is_copy (lifetime fuel k).1.1.
Proof.
  revert k. induction fuel as [|f IH]; intros k; [constructor|]. cbn [lifetime].
  destruct (_ && _); [constructor|]. specialize (IH (k + 1)).
  destruct (Z.leb_spec k (MaxDeliver c)).
  - destruct (within_limit k) as (m' & -> & ->); [lia|]. by destruct (lifetime f (k + 1)) as [[ps n] b].
  - destruct (beyond_limit k) as (p & -> & Hp); [lia|].
    destruct (final _); [simpl; by constructor; [|constructor]|].
    destruct (lifetime f (k + 1)) as [[ps n] b]. simpl. by constructor.
Qed.

(** [Term] keeps failing, without effect. *)
Definition term_fails (te : err) : Prop :=
  forall x, bound x = true -> settlement x = None -> do_op OpTerm x = (Some te, x).

Lemma lifetime_again te n k : term_fails te -> server_max <= 0 -> MaxDeliver c < k ->
  length (lifetime n k).1.1 = n /\ (lifetime n k).2 = false.
Proof.
  intros Ht Hs. revert k. induction n as [|n IH]; intros k Hk; [done|]. cbn [lifetime].
  destruct (Z.ltb_spec 0 server_max); [lia|]. cbn [andb]. destruct (beyond_limit k) as (p & -> & _); [lia|].
  assert ((term_retry 3 (set_body m payload)).2 = set_body m payload) as ->
    by (simpl; rewrite !(Ht (set_body m payload)) by done; done).
  assert (final (set_body m payload) = false) as -> by (unfold final; simpl; by rewrite Hn).
  destruct (IH (k + 1)) as [H1 H2]; [lia|]. destruct (lifetime n (k + 1)) as [[ps q] b]. simpl in *. by rewrite H1.
Qed.

Lemma lifetime_skip n k : server_max <= 0 -> 1 <= k <= MaxDeliver c + 1 ->
  exists q, lifetime (Z.to_nat (MaxDeliver c + 1 - k) + n) k = ((lifetime n (MaxDeliver c + 1)).1.1, q, (lifetime n (MaxDeliver c + 1)).2).
Proof.
  intros Hs Hk. remember (Z.to_nat (MaxDeliver c + 1 - k)) as d eqn:Ed. revert k Hk Ed.
  induction d as [|d IH]; intros k Hk Ed.
  - assert (k = MaxDeliver c + 1) as -> by lia. simpl. destruct (lifetime n _) as [[ps q] b]. by exists q.
  - cbn [Nat.add lifetime]. destruct (Z.ltb_spec 0 server_max); [lia|]. cbn [andb].
    destruct (within_limit k) as (m' & -> & ->); [lia|].
    destruct (IH (k + 1)) as [q ->]; [lia..|]. by eexists.
Qed.

(** C8: the fate of a poison message, one whose handler always fails, when a
    nak'd or unsettled delivery is delivered again.  With a server that answers
    it is copied to the dead-letter subject once, after exactly [MaxDeliver]
    failed attempts, and then terminated, provided the durable consumer allows
    one delivery more than that.  If the consumer's own limit is the same or
    smaller, the server stops delivering before the wrapper routes: no copy is
    ever published and the message is never settled for good, in any number of
    deliveries.  If [Term] keeps failing, every delivery beyond the limit makes
    another copy; all copies ever made have the dead-letter subject, the
    message's payload and one and the same deduplication id. *)
Theorem poison_fate :
  (reliable -> server_max <= 0 \/ MaxDeliver c < server_max ->
     exists p, lifetime (S (Z.to_nat (MaxDeliver c))) 1 = ([p], MaxDeliver c + 1, true)) /\
  (0 < server_max <= MaxDeliver c -> forall fuel, (lifetime fuel 1).1.1 = [] /\ (lifetime fuel 1).2 = false) /\
  (forall fuel, Forall is_copy (lifetime fuel 1).1.1) /\
  (forall te n, term_fails te -> server_max <= 0 ->
     length (lifetime (Z.to_nat (MaxDeliver c) + n) 1).1.1 = n /\ (lifetime (Z.to_nat (MaxDeliver c) + n) 1).2 = false).
Proof.
  split_and!; [|intros; by apply lifetime_dropped|intros; apply lifetime_copies|].
  - intros Hr Hs.
    destruct (lifetime_within (S (Z.to_nat (MaxDeliver c))) 1) as (p & -> & Hp); [done|lia|done|lia|lia|].
    exists p. f_equal; f_equal; lia.
  - intros te n Ht Hs. destruct (lifetime_skip n 1) as [q E]; [done|lia|].
    replace (MaxDeliver c + 1 - 1) with (MaxDeliver c) in E by lia. rewrite E. simpl.
    apply (lifetime_again te); [done|done|lia].
Qed.

End Poison.

(** ** Witnesses *)

Lemma toy_healthy : healthy (S := gmap string string).
Proof.
  constructor; intros; simpl in *; unfold toy_kv_create, toy_kv_get, id in *; by repeat (case_match; simplify_eq).
Qed.

Definition flaky : list outcome := [Returned (Some (errorf "try later")); Returned None; Returned None].


(** The limits of the example worker: 5 attempts for the wrapper, 5 deliveries
    for the durable. *)
Definition five : Config := DlqConfig true false "orders.dlq" "" (Autopsy false false 0 0) 5.
Definition always_failing : MsgHandler := fun m => (Returned (Some (errorf "poison")), m).
Definition nth_delivery (k : Z) : MsgMetadata := Meta "ORDERS" "worker" 7 k.
Definition five_life (server_max : Z) : nat -> Z -> list RawPublish * Z * bool :=
  lifetime accept_all sha_stub (fun _ => "") (fun _ => "poison") server_max (demo_consumer false 0 0) five always_failing (demo_jmsg true) nth_delivery.

(** A server that never takes a [Term]. *)
Definition stubborn_op (op : settle_op) (m : jmsg) : option err * jmsg :=
  match op with
  | OpTerm => if bound m && negb (settled m) then (Some (errorf "nats: timeout"), m) else demo_op op m
  | _ => demo_op op m
  end.

Ltac stubborn op m :=
  unfold stubborn_op; destruct op; try done; destruct (bound m && negb (settled m)) eqn:?; try done.

Program Definition stubborn_api : MsgApi := {| do_op := stubborn_op |}.
Next Obligation. intros op m. pose proof (api_body op m). by stubborn op m. Qed.
Next Obligation. intros op m. pose proof (api_bound op m). by stubborn op m. Qed.
Next Obligation. intros op m. pose proof (api_ok op m). by stubborn op m. Qed.
Next Obligation. intros op m o H. pose proof (api_keep op m o H). by stubborn op m. Qed.
Next Obligation.
  intros op m o H. pose proof (api_new op m o H). stubborn op m. simpl. by rewrite H.
Qed.
Next Obligation. intros op m H. pose proof (api_unbound op m H). unfold stubborn_op. rewrite H. by destruct op. Qed.
Next Obligation.
  intros op m o H1 H2 H3 H4. pose proof (api_again op m o H1 H2 H3 H4). stubborn op m.
  unfold settled in *. rewrite H3, andb_false_r in *. done.
Qed.
Next Obligation.
  intros op m e. pose proof (api_foreign op m e). stubborn op m. simpl. intros. by simplify_eq.
Qed.

Definition stubborn_life (n : nat) : list RawPublish * Z * bool :=
  lifetime (MA := stubborn_api) accept_all sha_stub (fun _ => "") (fun _ => "poison") 0 (demo_consumer false 0 0) five always_failing (demo_jmsg true) nth_delivery n 1.

Lemma poison_fate_witness :
  (exists p, five_life 6 6 1 = ([p], 6, true)) /\ (forall fuel, (five_life 5 fuel 1).1.1 = []) /\
  length (stubborn_life 7).1.1 = 2%nat.
Proof.
  split_and!.
  - refine (proj1 (poison_fate accept_all sha_stub (fun _ => "") (fun _ => "poison") 6 (demo_consumer false 0 0) five always_failing
      (demo_jmsg true) nth_delivery "ORDERS" 7 _ _ _ _ _ _ _ (errorf "poison") _ _ _) demo_reliable _); try reflexivity; try done. by right.
  - intros fuel. refine (proj1 (proj1 (proj2 (poison_fate accept_all sha_stub (fun _ => "") (fun _ => "poison") 5 (demo_consumer false 0 0) five always_failing
      (demo_jmsg true) nth_delivery "ORDERS" 7 _ _ _ _ _ _ _ (errorf "poison") _ _ _)) _ fuel)); try reflexivity; done.
  - refine (proj1 (proj2 (proj2 (proj2 (poison_fate (MA := stubborn_api) accept_all sha_stub (fun _ => "") (fun _ => "poison") 0 (demo_consumer false 0 0) five always_failing
      (demo_jmsg true) nth_delivery "ORDERS" 7 _ _ _ _ _ _ _ (errorf "poison") _ _ _))) (errorf "nats: timeout") 2%nat _ _)); try reflexivity; try done.
    intros x H1 H2. simpl. unfold stubborn_op, settled. by rewrite H1, H2.
Defined.
