(* ===== verification/DlqPublish.v ===== *)
(** * Dead letters through the client's publisher (dlq_reexport.go)

    [WithDLQ] gives the dead-letter wrapper of [Dlq] the publisher of
    [Publisher].  The server is the interface [DedupServer]: it stores what it is
    sent, unless a message with the same [Nats-Msg-Id] is already in the stream
    that captures the subject; such a duplicate is acknowledged and dropped
    (JetStream's duplicate window, here not yet over). *)
From S2P Require Import Prelude GoStr Validate Message Compress Codec Publisher Rpc Consume Dlq.

(** ** The server *)

Definition msg_id (x : wire) : string :=
  match wHeader x with Some h => match h !! HeaderMsgID with Some (v :: _) => v | _ => "" end | None => "" end.
(** A message with the same, non-empty id is in the stream [x] belongs to. *)
Definition duplicate (stream : string -> string) (x : wire) (st : list wire) : bool :=
  negb (IsEmpty (msg_id x)) &&
  existsb (fun y => String.eqb (stream (wSubject y)) (stream (wSubject x)) && String.eqb (msg_id y) (msg_id x)) st.

(** [stream]: the stream that captures a subject; [stored]: what the streams hold
    of the messages sent while the duplicate window is open, in order. *)
Class DedupServer := {
  stream : string -> string;
  stored : list wire -> list wire;
  stored_nil : stored [] = [];
  stored_snoc l x : stored (l ++ [x]) = if duplicate stream x (stored l) then stored l else stored l ++ [x]
}.

Section DlqPublish.
Context `{NH : NatsHeader} `{CP : Compressors} `{CD : Codecs} `{MA : MsgApi} `{DS : DedupServer}.
Variable sha256hex : string -> string.
Variable stack_dump : Z -> string.
Variable err_text : err -> string.
(** ** The adapter *)

Definition dlqPublisherAdapter (js : list wire -> wire -> option err) (p : publisher) (sp : span) (rp : RawPublish) (w : world)
  : option err * world :=
  let '(l, s1) := alloc_map (rpHeader rp) (objs w) in
  PublishMessage js p sp true (rpSubject rp) (Msg (ABytes (rpData rp)) (Some l) None Raw) (with_objs w s1).

(** The wrapped handler, with the world its publish leaves: a delivery publishes
    at most once. *)
Definition WithDLQ (js : list wire -> wire -> option err) (p : publisher) (sp : span) (c : Config) (meta : option MsgMetadata)
  (handler : MsgHandler) (m : jmsg) (w : world) : outcome * jmsg * routing * world :=
  let '(o, m', r) := With (fun rp => (dlqPublisherAdapter js p sp rp w).1) sha256hex stack_dump err_text c meta handler m in
  (o, m', r, match published r with rp :: _ => (dlqPublisherAdapter js p sp rp w).2 | [] => w end).

(** ** Lemmas *)

(** The copy a dead-letter publish puts on the wire: its subject, its id, and a
    payload that a consumer expands to the original's. *)
Definition copy_of (subject id data : string) (x : wire) : Prop :=
  wSubject x = subject /\ msg_id x = id /\
  exists nm, maybeDecompressMsg (NMsg subject (wData x) (wHeader x)) = (None, nm) /\ nData nm = data /\
    default ∅ (nHeader nm) !! HeaderMsgID = Some [id].

Lemma msg_id_lookup x id : default ∅ (wHeader x) !! HeaderMsgID = Some [id] -> msg_id x = id.
Proof. unfold msg_id. destruct (wHeader x) as [h|]; simpl; [by intros ->|done]. Qed.

Lemma adapter_sends js p sp rp w id :
  guardConnected p = None -> pub_validateSubject p (rpSubject rp) = None -> traces_tame p sp ->
  rpHeader rp !! HeaderMsgID = Some [id] -> rpHeader rp !! HeaderContentEncoding = None ->
  slen (rpData rp) <= MaxPayloadDecompressBytes ->
  exists x, sent (dlqPublisherAdapter js p sp rp w).2 = sent w ++ [x] /\
    ((dlqPublisherAdapter js p sp rp w).1 = None <-> js (sent w) x = None) /\
    copy_of (rpSubject rp) id (rpData rp) x.
Proof.
  intros Hg Hv Ht Hid Hce Hsz. unfold dlqPublisherAdapter. simpl. set (l := length (maps (objs w))).
  set (s1 := Store (maps (objs w) ++ [rpHeader rp]) (exps (objs w))). set (m0 := Msg (ABytes (rpData rp)) (Some l) None Raw).
  assert (read_map s1 (Some l) = Some (rpHeader rp)) as Hl by (simpl; rewrite lookup_app_r by done; by rewrite Nat.sub_diag).
  assert (map_or_empty s1 (Some l) = rpHeader rp) as Hm by (unfold map_or_empty; by rewrite Hl).
  pose proof (publish_delivers js p sp true (rpSubject rp) m0 (with_objs w s1) (rpData rp) Ht Hg Hv eq_refl eq_refl Hsz
    (fun _ => ex_intro _ _ Hl) (eq_trans (f_equal (fun h => h !! HeaderContentEncoding) Hm) Hce)) as H.
  destruct (PublishMessage js p sp true (rpSubject rp) m0 (with_objs w s1)) as [e w'].
  destruct H as (x & Hx & Hs & He & Hk & nm & Hn & Hd & _ & Hnk). exists x. split; [done|]. split; [done|].
  assert (HeaderMsgID ∉ publish_keys) as Hpk by (apply (bool_decide_unpack _); vm_compute; exact I).
  split; [done|]. split.
  - apply msg_id_lookup. rewrite Hk by done. simpl. by rewrite Hm.
  - exists nm. split; [done|]. split; [done|]. rewrite Hnk by done. simpl. by rewrite Hm.
Qed.


(** The deduplication id of the copy of [m]. *)
Definition copy_id (m : NatsMsg) (d : MsgMetadata) : string :=
  match nHeader m with
  | Some h => if IsEmpty (hget h HeaderMsgID) then "dlq-" +:+ mdStream d +:+ "-" +:+ dec (mdSeq d) else hget h HeaderMsgID
  | None => "dlq-" +:+ mdStream d +:+ "-" +:+ dec (mdSeq d)
  end.

(** Routing a message through a publisher whose server accepts: one copy, and the
    message is terminated. *)
Lemma route_sends p sp c d reason info m w :
  guardConnected p = None -> pub_validateSubject p (dSubject c) = None -> traces_tame p sp ->
  slen (nData (body m)) <= MaxPayloadDecompressBytes ->
  exists rp x e m' r,
    route (fun rp => (dlqPublisherAdapter js_ok p sp rp w).1) sha256hex c (Some d) reason info m = (e, m', r) /\
    published r = [rp] /\ m' = (term_retry 3 m).2 /\ (e = None \/ is_err e ErrDLQRouted = true) /\
    sent (dlqPublisherAdapter js_ok p sp rp w).2 = sent w ++ [x] /\
    copy_of (dSubject c) (copy_id (body m) d) (nData (body m)) x.
Proof.
  intros Hg Hv Ht Hsz. unfold route. set (rp := RawPub _ _ _).
  assert (rpHeader rp !! HeaderMsgID = Some [copy_id (body m) d]) as Hrp by (simpl; by rewrite dlq_headers_msgid).
  destruct (adapter_sends js_ok p sp rp w (copy_id (body m) d) Hg Hv Ht Hrp (dlq_headers_plain _ _ _ _ _ _) Hsz)
    as (x & Hx & Hack & Hc).
  rewrite (proj2 Hack eq_refl). exists rp, x.
  destruct (term_retry 3 m) as [[te|] m2]; eexists _, _, _; (split; [reflexivity|]); split_and!; auto.
Qed.

(** C9: the fate of a dead-letter copy.  A message with a [Nats-Msg-Id] that has
    been delivered too often is sent to the dead-letter subject through the
    client's publisher, traced or not and compressed or not, and reported as
    routed; the copy has the message's id and expands to its payload, and the
    original is terminated when the server answers, so it is not delivered
    again.  When the stream that captures the dead-letter subject already holds a
    message with that id, as the stream of the original does, the server drops
    the copy: nothing is added to what it stores; otherwise exactly the copy is
    added. *)
Theorem dlq_copy_fate p sp c meta h m w hd :
  dPublisher c = true -> dSubject c <> "" -> 0 < MaxDeliver c < NumDelivered meta ->
  guardConnected p = None -> pub_validateSubject p (dSubject c) = None -> traces_tame p sp ->
  slen (nData (body m)) <= MaxPayloadDecompressBytes ->
  nHeader (body m) = Some hd -> hget hd HeaderMsgID <> "" ->
  let '(o, m', r, w') := WithDLQ js_ok p sp c (Some meta) h m w in
  is_err (invokeMsgHandler o) ErrDLQRouted = true /\
  (reliable -> bound m = true -> settlement m = None -> settlement m' = Some OpTerm) /\
  exists x, sent w' = sent w ++ [x] /\ copy_of (dSubject c) (hget hd HeaderMsgID) (nData (body m)) x /\
    (if existsb (fun y => String.eqb (stream (wSubject y)) (stream (dSubject c)) && String.eqb (msg_id y) (hget hd HeaderMsgID))
          (stored (sent w))
     then stored (sent w') = stored (sent w) else stored (sent w') = stored (sent w) ++ [x]).
Proof.
  intros Hp Hs [Hm Hn] Hg Hv Ht Hsz Hh Hid. unfold WithDLQ. set (pub := fun rp => _).
  destruct (With pub _ _ _ c (Some meta) h m) as [[o m'] r] eqn:Ew. unfold With, over_delivered in Ew.
  apply IsEmpty_false in Hs, Hid. apply Z.ltb_lt in Hm, Hn. rewrite Hp, Hs in Ew. simpl in Ew. rewrite Hm, Hn in Ew. simpl in Ew.
  set (c' := DlqConfig _ _ _ _ _ _) in Ew.
  match type of Ew with context [route pub _ c' _ ?reason ?info m] => destruct (route_sends p sp c' meta reason info m w Hg Hv Ht Hsz)
    as (rp & x & e & m1 & r1 & Er & Hr1 & Hm1 & He1 & Hx & Hcp) end.
  fold pub in Er. rewrite Er in Ew.
  assert (copy_id (body m) meta = hget hd HeaderMsgID) as Hcopy by (unfold copy_id; by rewrite Hh, Hid). rewrite Hcopy in Hcp.
  assert (m' = m1 /\ r = r1 /\ is_err (invokeMsgHandler o) ErrDLQRouted = true) as (-> & -> & Ho) by (destruct e, He1; by simplify_eq).
  rewrite Hr1. split; [done|]. split; [intros; subst m1; by apply term_retry_terminates|].
  exists x. split; [done|]. split; [done|]. destruct Hcp as (Hsx & Hmid & _).
  rewrite Hx, stored_snoc. unfold duplicate. rewrite Hmid, Hid, Hsx. simpl. by destruct (existsb _ _).
Qed.
End DlqPublish.

(** ** Witness *)

Definition demo_dlq : Config := DlqConfig true false "orders.dlq.poison" "" (Autopsy false false 0 0) 5.
Definition demo_poison : jmsg := JMsg (NMsg "orders.created" "x" (Some {[ HeaderMsgID := ["o-1"] ]})) true None.
(** One stream that captures everything and whose window is always open. *)
Definition store_one (st : list wire) (x : wire) : list wire := if duplicate (fun _ => "ORDERS") x st then st else st ++ [x].
#[global] Program Instance one_stream : DedupServer := {| stream := fun _ => "ORDERS"; stored := foldl store_one [] |}.
Next Obligation. done. Qed.
Next Obligation. intros l x. by rewrite foldl_app. Qed.

Definition demo_original : wire := Wire "orders.created" "x" (Some {[ HeaderMsgID := ["o-1"] ]}) [].

Definition demo_traced : publisher := MkPublisher (Some true) 1024 PayloadCompressionAuto true false true.

Lemma dlq_copy_fate_witness :
  let '(_, m', _, w') := WithDLQ id (fun _ => "") (fun _ => "") js_ok demo_traced demo_span demo_dlq (Some (Meta "ORDERS" "worker" 7 6))
     (fun m => (Returned None, m)) demo_poison (World (Store [] []) [demo_original] None) in
  settlement m' = Some OpTerm /\ length (sent w') = 2%nat /\ stored (sent w') = [demo_original].
Proof.
  assert (pub_validateSubject demo_traced (dSubject demo_dlq) = None) as Hv by reflexivity.
  pose proof (dlq_copy_fate id (fun _ => "") (fun _ => "") demo_traced demo_span demo_dlq (Meta "ORDERS" "worker" 7 6)
    (fun m => (Returned None, m)) demo_poison (World (Store [] []) [demo_original] None) {[ HeaderMsgID := ["o-1"] ]}
    eq_refl ltac:(discriminate) (conj eq_refl eq_refl) eq_refl Hv (fun _ => demo_span_tame) ltac:(vm_compute; discriminate) eq_refl ltac:(discriminate)) as H.
  destruct (WithDLQ _ _ _ _ _ _ _ _ _ _ _) as [[[o m'] r] w']. destruct H as (_ & Ht & x & Hx & _ & Hs).
  split; [apply Ht; [apply demo_reliable|reflexivity..]|]. rewrite Hs, Hx. split; reflexivity.
Defined.
