(* ===== verification/StreamRead.v ===== *)
(** * Reading a stream by sequence and by time (replay.go, stream_manager.go)

    The server's [GetMsg] and [StreamInfo] are parameters.  The loops run with
    fuel: [None] means the fuel ran out, and the theorems say which fuel is
    enough, or that none is.  Sequences are uint64; times are integers. *)

From S2P Require Import Prelude GoStr Validate Message Compress Codec.

Definition ErrMsgNotFound : string := "nats.go.ErrMsgNotFound".
Definition ErrInvalidReplayBound : string := "nats.ErrInvalidReplayBound".
Definition DefaultMsgRangeMax : Z := 1000.

Record RawStreamMsg := RawS { rSeq : Z; rSubject : string; rTime : Z; rData : string; rHeader : option header }.
Record StoredMessage := Stored {
  sTime : Z; sHeader : option header; sSubject : string; sData : string; sSequence : Z; sType : Z
}.

(** ** Range options *)
Definition WithMaxMessages (n : Z) (max : Z) : Z := if 0 <? n then n else max.
Definition applyMsgRangeOpts (opts : list (option (Z -> Z))) : Z :=
  let max := fold_left (fun m o => match o with Some f => f m | None => m end) opts DefaultMsgRangeMax in
  if max <=? 0 then DefaultMsgRangeMax else max.

Section StreamRead.
Context `{NH : NatsHeader}.
Variable js_get : Z -> res RawStreamMsg.
Variable js_info : res (Z * Z).        (* FirstSeq, LastSeq *)

Definition storedMessageFromRaw (raw : RawStreamMsg) : StoredMessage :=
  Stored (rTime raw) (rHeader raw) (rSubject raw) (rData raw) (rSeq raw)
    (match rHeader raw with Some _ => MessageTypeFromHeader (rHeader raw) | None => JSON end).

(** ** stream_manager.go *)

Definition StreamInfo (stream : string) : res (Z * Z) :=
  guard_err ValidateStreamName stream ;;
  match js_info with Ok i => Ok i | Er e => Er (wrapf "stream info %q: %w" e) end.

Definition GetMsg (stream : string) (seq : Z) : res RawStreamMsg :=
  guard_err ValidateStreamName stream ;;
  match js_get seq with Ok m => Ok m | Er e => Er (wrapf "get msg stream=%q seq=%d: %w" e) end.

(** The loop of [getNextMsgAfterKnownLast] at [next]. *)
Fixpoint next_walk (fuel : nat) (next last : Z) : option (res RawStreamMsg) :=
  match fuel with
  | O => None
  | S f =>
      if next <=? last then
        match js_get next with
        | Ok m => Some (Ok m)
        | Er e => if errors_is e ErrMsgNotFound then next_walk f (u64 (next + 1)) last
                  else Some (Er (wrapf "get next msg stream=%q after=%d at=%d: %w" e))
        end
      else Some (Er (wrapf "get next msg stream=%q after=%d: %w" (Sentinel ErrMsgNotFound)))
  end.

Definition GetNextMsgAfter (fuel : nat) (stream : string) (seq : Z) : option (res RawStreamMsg) :=
  match ValidateStreamName stream with
  | Some e => Some (Er e)
  | None =>
      match StreamInfo stream with
      | Er e => Some (Er e)
      | Ok (_, last) => next_walk fuel (u64 (seq + 1)) last
      end
  end.

(** ** GetMsgRange *)

(** [nextExisting]: the loop at [seq]. *)
Fixpoint next_existing (fuel : nat) (stream : string) (seq endSeq : Z) : option (res RawStreamMsg) :=
  match fuel with
  | O => None
  | S f =>
      if seq <=? endSeq then
        match GetMsg stream seq with
        | Ok m => Some (Ok m)
        | Er e => if errors_is e ErrMsgNotFound then next_existing f stream (u64 (seq + 1)) endSeq
                  else Some (Er e)
        end
      else Some (Er (Sentinel ErrMsgNotFound))
  end.

Fixpoint range_loop (fuel walk : nat) (stream : string) (endSeq max : Z) (out : list StoredMessage) (cur : Z)
  : option (res (list StoredMessage * bool)) :=
  match fuel with
  | O => None
  | S f =>
      if max <=? Z.of_nat (length out) then
        if cur <? endSeq then
          match next_existing walk stream (u64 (cur + 1)) endSeq with
          | None => None
          | Some (Ok _) => Some (Ok (out, true))
          | Some (Er e) => if errors_is e ErrMsgNotFound then Some (Ok (out, false)) else Some (Er e)
          end
        else Some (Ok (out, false))
      else if endSeq <=? cur then Some (Ok (out, false))
      else match next_existing walk stream (u64 (cur + 1)) endSeq with
           | None => None
           | Some (Ok m) => range_loop f walk stream endSeq max (out ++ [storedMessageFromRaw m]) (rSeq m)
           | Some (Er e) =>
               if errors_is e ErrMsgNotFound then Some (Ok (out, false))
               else Some (Er (wrapf "replay get msg range stream=%q after=%d: %w" e))
           end
  end.

Definition GetMsgRange (fuel : nat) (stream : string) (startSeq endSeq0 : Z) (opts : list (option (Z -> Z)))
  : option (res (list StoredMessage * bool)) :=
  match ValidateStreamName stream with
  | Some e => Some (Er e)
  | None =>
    if (startSeq =? 0) || (endSeq0 =? 0)
    then Some (Er (wrapf "%w: startSeq and endSeq must be >= 1" (Sentinel ErrInvalidReplayBound)))
    else if endSeq0 <? startSeq
    then Some (Er (wrapf "%w: endSeq %d < startSeq %d" (Sentinel ErrInvalidReplayBound)))
    else
      let max := applyMsgRangeOpts opts in
      match StreamInfo stream with
      | Er e => Some (Er (wrapf "replay get msg range stream=%q: %w" e))
      | Ok (_, last) =>
        let endSeq := if last <? endSeq0 then last else endSeq0 in
        if last <? startSeq then Some (Ok ([], false))
        else match GetMsg stream startSeq with
             | Ok raw => range_loop fuel fuel stream endSeq max [storedMessageFromRaw raw] startSeq
             | Er e =>
                 if errors_is e ErrMsgNotFound then
                   match next_existing fuel stream (u64 (u64 (startSeq - 1) + 1)) endSeq with
                   | None => None
                   | Some (Ok m) => range_loop fuel fuel stream endSeq max [storedMessageFromRaw m] (rSeq m)
                   | Some (Er e') =>
                       if errors_is e' ErrMsgNotFound then Some (Ok ([], false))
                       else Some (Er (wrapf "replay get msg range stream=%q start=%d: %w" e'))
                   end
                 else Some (Er (wrapf "replay get msg range stream=%q start=%d: %w" e))
             end
      end
  end.

(** ** Seeking by time *)

(** The bounded backwards walk of [getExistingAtOrNear]. *)
Fixpoint prev_walk (steps : nat) (stream : string) (prev first : Z) : res RawStreamMsg :=
  match steps with
  | O => Er (Sentinel ErrMsgNotFound)
  | S n =>
      if first <=? prev then
        match GetMsg stream prev with
        | Ok m => Ok m
        | Er e => if errors_is e ErrMsgNotFound then
                    if prev =? 0 then Er (Sentinel ErrMsgNotFound) else prev_walk n stream (prev - 1) first
                  else Er e
        end
      else Er (Sentinel ErrMsgNotFound)
  end.

Definition getExistingAtOrNear (fuel : nat) (stream : string) (seq0 first last : Z) : option (res RawStreamMsg) :=
  let seq1 := if seq0 <? first then first else seq0 in
  let seq := if last <? seq1 then last else seq1 in
  match GetMsg stream seq with
  | Ok m => Some (Ok m)
  | Er e =>
      if errors_is e ErrMsgNotFound then
        match GetNextMsgAfter fuel stream seq with
        | None => None
        | Some (Ok m) => Some (Ok m)
        | Some (Er e') => if errors_is e' ErrMsgNotFound then Some (prev_walk 128 stream seq first)
                          else Some (Er e')
        end
      else Some (Er e)
  end.

(** The bisection; [fwd] is [FindFirstSeqAtOrAfter], otherwise
    [FindLastSeqAtOrBefore]. A result [Ok 0] stands for "not found yet". *)
Fixpoint bisect (fuel walk : nat) (fwd : bool) (stream : string) (t first last lo hi found : Z)
  : option (res Z) :=
  match fuel with
  | O => None
  | S f =>
      if lo <=? hi then
        match getExistingAtOrNear walk stream (lo + Z.quot (hi - lo) 2) first last with
        | None => None
        | Some (Er e) => Some (Er e)
        | Some (Ok msg) =>
            let go_left found' :=
              if rSeq msg =? 0 then Some (Ok found')
              else let hi' := rSeq msg - 1 in
                   if hi' <? first then Some (Ok found') else bisect f walk fwd stream t first last lo hi' found' in
            let go_right found' := bisect f walk fwd stream t first last (u64 (rSeq msg + 1)) hi found' in
            if fwd
            then if t <=? rTime msg then go_left (rSeq msg) else go_right found
            else if rTime msg <=? t then go_right (rSeq msg) else go_left found
        end
      else Some (Ok found)
  end.

Definition find_seq (fuel : nat) (fwd : bool) (stream : string) (t : Z) : option (res Z) :=
  match ValidateStreamName stream with
  | Some e => Some (Er e)
  | None =>
      match StreamInfo stream with
      | Er e => Some (Er e)
      | Ok (first, last) =>
          if (last =? 0) || (first =? 0) then Some (Er (Sentinel ErrMsgNotFound))
          else match bisect fuel fuel fwd stream t first last first last 0 with
               | Some (Ok 0) => Some (Er (Sentinel ErrMsgNotFound))
               | r => r
               end
      end
  end.

Definition FindFirstSeqAtOrAfter (fuel : nat) := find_seq fuel true.
Definition FindLastSeqAtOrBefore (fuel : nat) := find_seq fuel false.

Definition GetMsgRangeByTime (fuel : nat) (stream : string) (start end_ : Z) (opts : list (option (Z -> Z)))
  : option (res (list StoredMessage * bool)) :=
  if end_ <? start then Some (Er (wrapf "%w: end time before start time" (Sentinel ErrInvalidReplayBound)))
  else match FindFirstSeqAtOrAfter fuel stream start with
       | None => None
       | Some (Er e) => Some (Er e)
       | Some (Ok s) =>
           match FindLastSeqAtOrBefore fuel stream end_ with
           | None => None
           | Some (Er e) => Some (Er e)
           | Some (Ok l) => if l <? s then Some (Ok ([], false)) else GetMsgRange fuel stream s l opts
           end
       end.

(** ** Reference: what is stored between two sequences *)

Definition get_opt (seq : Z) : option RawStreamMsg := match js_get seq with Ok m => Some m | Er _ => None end.
Definition existing (a b : Z) : list RawStreamMsg := omap get_opt (seqZ a (b - a + 1)).

(** The server answers: a stored message comes back under its own sequence,
    and the only refusal is "no such message". *)
Definition server_ok : Prop :=
  (forall k m, js_get k = Ok m -> rSeq m = k) /\
  (forall k e, js_get k = Er e -> errors_is e ErrMsgNotFound = true).

(** ** Lemmas *)

Lemma existing_nil a b : b < a -> existing a b = [].
Proof. intros H. unfold existing. rewrite seqZ_nil by lia. done. Qed.

Lemma existing_step a b :
  a <= b -> existing a b = match get_opt a with Some m => m :: existing (a + 1) b | None => existing (a + 1) b end.
Proof.
  intros H. unfold existing. rewrite seqZ_cons by lia. simpl.
  replace (Z.pred (b - a + 1)) with (b - (a + 1) + 1) by lia. rewrite <- Z.add_1_r. done.
Qed.

Lemma existing_head a b m l :
  server_ok -> existing a b = m :: l ->
  a <= rSeq m <= b /\ l = existing (rSeq m + 1) b /\ js_get (rSeq m) = Ok m.
Proof.
  intros [Hs _]. remember (Z.to_nat (b - a + 1)) as n eqn:Hn. revert a Hn.
  induction n as [|n IH]; intros a Hn E.
  { rewrite existing_nil in E by lia. done. }
  rewrite existing_step in E by lia. unfold get_opt in E. destruct (js_get a) as [m'|e] eqn:Eg.
  - simplify_eq. pose proof (Hs _ _ Eg) as Ha. rewrite Ha. split_and!; [lia|lia|done|done].
  - destruct (IH (a + 1)) as (H1 & H2 & H3); [lia|done|]. split_and!; [lia|lia|done|done].
Qed.

Lemma existing_split a f b : a <= f <= b + 1 -> existing a b = existing a (f - 1) ++ existing f b.
Proof.
  intros H. unfold existing. rewrite <- omap_app. f_equal.
  replace (b - a + 1) with ((f - 1 - a + 1) + (b - f + 1)) by lia. rewrite seqZ_app by lia.
  by replace (a + (f - 1 - a + 1)) with f by lia.
Qed.

Lemma existing_length a b : (length (existing a b) <= Z.to_nat (b - a + 1))%nat.
Proof.
  unfold existing. etrans; [|apply Nat.eq_le_incl, (length_seqZ a)]. generalize (seqZ a (b - a + 1)).
  induction l as [|x l IH]; [done|]. change (omap get_opt (x :: l)) with (match get_opt x with Some y => y :: omap get_opt l | None => omap get_opt l end).
  destruct (get_opt x); simpl length; lia.
Qed.

Section Walks.
Hypothesis Hsrv : server_ok.
Variable stream : string.
Hypothesis Hname : ValidateStreamName stream = None.

Lemma GetMsg_name seq : GetMsg stream seq =
  match js_get seq with Ok m => Ok m | Er e => Er (wrapf "get msg stream=%q seq=%d: %w" e) end.
Proof. unfold GetMsg. by rewrite Hname. Qed.

Lemma next_existing_spec fuel seq endSeq :
  0 <= seq -> endSeq < 2 ^ 64 - 1 -> Z.max 0 (endSeq - seq + 1) < Z.of_nat fuel ->
  match existing seq endSeq with
  | [] => exists e, next_existing fuel stream seq endSeq = Some (Er e) /\ errors_is e ErrMsgNotFound = true
  | m :: _ => next_existing fuel stream seq endSeq = Some (Ok m)
  end.
Proof.
  revert seq. induction fuel as [|f IH]; intros seq H0 He Hf; [lia|].
  simpl. rewrite GetMsg_name. destruct (Z.leb_spec seq endSeq) as [Hle|Hgt].
  - rewrite existing_step by done. unfold get_opt. destruct (js_get seq) as [m|e] eqn:Eg; [done|].
    rewrite errors_is_wrapf, (proj2 Hsrv _ _ Eg). rewrite u64_id by (unfold in_u64; lia).
    apply IH; lia.
  - rewrite existing_nil by lia. eexists. split; [done|]. done.
Qed.

Lemma range_loop_spec fuel walk endSeq max out cur :
  0 <= cur -> endSeq < 2 ^ 64 - 1 ->
  Z.max 0 (endSeq - cur) + 1 < Z.of_nat walk -> Z.max 0 (endSeq - cur) < Z.of_nat fuel ->
  let rest := existing (cur + 1) endSeq in
  let k := Z.to_nat (max - Z.of_nat (length out)) in
  range_loop fuel walk stream endSeq max out cur =
    Some (Ok (out ++ (storedMessageFromRaw <$> take k rest), (k <? length rest)%nat)).
Proof.
  revert out cur. induction fuel as [|f IH]; intros out cur H0 He Hw Hf; [lia|]. cbv zeta.
  pose proof (next_existing_spec walk (cur + 1) endSeq ltac:(lia) He ltac:(lia)) as Hn.
  simpl. destruct (Z.leb_spec max (Z.of_nat (length out))) as [Hm|Hm].
  - replace (Z.to_nat (max - Z.of_nat (length out))) with 0%nat by lia. simpl. rewrite app_nil_r.
    destruct (Z.ltb_spec cur endSeq).
    + rewrite u64_id by (unfold in_u64; lia).
      destruct (existing (cur + 1) endSeq) as [|m l]; [|by rewrite Hn].
      destruct Hn as (e & -> & ->). done.
    + rewrite existing_nil by lia. done.
  - destruct (Z.leb_spec endSeq cur) as [Hc|Hc].
    { rewrite existing_nil by lia. rewrite take_nil. simpl. rewrite app_nil_r.
      destruct (Z.to_nat (max - Z.of_nat (length out))); done. }
    rewrite u64_id by (unfold in_u64; lia).
    destruct (existing (cur + 1) endSeq) as [|m l] eqn:El.
    { destruct Hn as (e & -> & ->). rewrite take_nil. simpl. rewrite app_nil_r.
      destruct (Z.to_nat (max - Z.of_nat (length out))); done. }
    rewrite Hn. destruct (existing_head _ _ _ _ Hsrv El) as (Hr & -> & _).
    rewrite IH by lia. rewrite length_app. simpl.
    replace (Z.to_nat (max - Z.of_nat (length out))) with (S (Z.to_nat (max - Z.of_nat (length out + 1)))) by lia.
    simpl. rewrite <- app_assoc. done.
Qed.

End Walks.

Lemma GetMsgRange_eq stream first last startSeq endSeq opts fuel :
  server_ok -> ValidateStreamName stream = None -> js_info = Ok (first, last) ->
  1 <= startSeq <= endSeq -> last < 2 ^ 64 - 1 -> last + 2 < Z.of_nat fuel ->
  let all := existing startSeq (Z.min endSeq last) in
  let max := Z.to_nat (applyMsgRangeOpts opts) in
  GetMsgRange fuel stream startSeq endSeq opts =
    Some (Ok (storedMessageFromRaw <$> take max all, (max <? length all)%nat)).
Proof.
  intros Hsrv Hname Hinfo Hb Hl Hf. cbv zeta. unfold GetMsgRange, StreamInfo. rewrite Hname, Hinfo.
  destruct (Z.eqb_spec startSeq 0); [lia|]. destruct (Z.eqb_spec endSeq 0); [lia|].
  destruct (Z.ltb_spec endSeq startSeq); [lia|]. simpl.
  assert (Hmax : 0 < applyMsgRangeOpts opts).
  { unfold applyMsgRangeOpts. case_match eqn:Ex; [done|]. by apply Z.leb_gt in Ex. }
  assert (Hend : (if last <? endSeq then last else endSeq) = Z.min endSeq last).
  { destruct (Z.ltb_spec last endSeq); lia. }
  rewrite Hend. destruct (Z.ltb_spec last startSeq).
  { rewrite existing_nil by lia. rewrite take_nil. simpl. by destruct (Z.to_nat _). }
  assert (Hone : forall m l, existing startSeq (Z.min endSeq last) = m :: l ->
    range_loop fuel fuel stream (Z.min endSeq last) (applyMsgRangeOpts opts) [storedMessageFromRaw m] (rSeq m) =
    Some (Ok (storedMessageFromRaw <$> take (Z.to_nat (applyMsgRangeOpts opts)) (m :: l),
      (Z.to_nat (applyMsgRangeOpts opts) <? length (m :: l))%nat))).
  { intros m l El. destruct (existing_head _ _ _ _ Hsrv El) as (Hr & -> & _).
    rewrite (range_loop_spec Hsrv stream Hname) by lia. cbn [length].
    replace (Z.to_nat (applyMsgRangeOpts opts)) with (S (Z.to_nat (applyMsgRangeOpts opts - Z.of_nat 1))) by lia.
    simpl. done. }
  pose proof (next_existing_spec Hsrv stream Hname fuel startSeq (Z.min endSeq last) ltac:(lia) ltac:(lia) ltac:(lia)) as Hn.
  rewrite (GetMsg_name stream Hname). destruct (js_get startSeq) as [m|e] eqn:Eg.
  - pose proof (proj1 Hsrv _ _ Eg) as Hs.
    assert (El : existing startSeq (Z.min endSeq last) = m :: existing (startSeq + 1) (Z.min endSeq last)).
    { rewrite existing_step by lia. unfold get_opt. by rewrite Eg. }
    rewrite El. rewrite <- (Hone _ _ El). by rewrite Hs.
  - rewrite errors_is_wrapf, (proj2 Hsrv _ _ Eg).
    replace (u64 (u64 (startSeq - 1) + 1)) with startSeq
      by (rewrite (u64_id (startSeq - 1)) by (unfold in_u64; lia); rewrite u64_id; [lia|unfold in_u64; lia]).
    destruct (existing startSeq (Z.min endSeq last)) as [|m l] eqn:El.
    + destruct Hn as (e' & -> & ->). rewrite take_nil. simpl. by destruct (Z.to_nat _).
    + rewrite Hn. by apply Hone.
Qed.

(** C25: a range read returns exactly the stored messages of the interval, in
    order, cut at the maximum, and says so: with enough fuel for the interval,
    [GetMsgRange start end] yields the first [max] messages stored between
    [start] and the smaller of [end] and the last sequence, and [truncated] is
    true exactly when more are stored. *)
Theorem GetMsgRange_spec stream first last startSeq endSeq opts fuel :
  server_ok -> ValidateStreamName stream = None -> js_info = Ok (first, last) ->
  1 <= startSeq <= endSeq -> last < 2 ^ 64 - 1 -> last + 2 < Z.of_nat fuel ->
  let all := existing startSeq (Z.min endSeq last) in
  let max := Z.to_nat (applyMsgRangeOpts opts) in
  GetMsgRange fuel stream startSeq endSeq opts =
    Some (Ok (storedMessageFromRaw <$> take max all, (max <? length all)%nat)).
Proof. apply GetMsgRange_eq. Qed.

(** ** Seeking by time: correct without gaps, endless with them *)

Definition time_of (k : Z) : Z := match js_get k with Ok m => rTime m | Er _ => 0 end.

(** No gaps and non-decreasing timestamps between [first] and [last]. *)
Definition dense (first last : Z) : Prop :=
  (forall k, first <= k <= last -> exists m, js_get k = Ok m) /\
  (forall i j, first <= i -> i <= j -> j <= last -> time_of i <= time_of j).

Section Bisect.
Hypothesis Hsrv : server_ok.
Variable stream : string.
Hypothesis Hname : ValidateStreamName stream = None.
Variable t first last : Z.
Hypothesis Hfirst : 1 <= first.
Hypothesis Hlast : last < 2 ^ 64 - 1.
Hypothesis Hdense : dense first last.

Lemma probe_dense walk mid :
  first <= mid <= last ->
  exists m, getExistingAtOrNear walk stream mid first last = Some (Ok m) /\ rSeq m = mid /\ rTime m = time_of mid.
Proof.
  intros Hm. destruct (proj1 Hdense mid Hm) as [m Hg]. exists m. unfold getExistingAtOrNear.
  destruct (Z.ltb_spec mid first); [lia|]. destruct (Z.ltb_spec last mid); [lia|].
  rewrite (GetMsg_name stream Hname), Hg. unfold time_of. rewrite Hg. split_and!; try done.
  by apply (proj1 Hsrv).
Qed.

Lemma mid_range lo hi : lo <= hi -> lo <= lo + Z.quot (hi - lo) 2 <= hi.
Proof. intros H. rewrite Z.quot_div_nonneg by lia. pose proof (Z.div_mod (hi - lo) 2). pose proof (Z.mod_pos_bound (hi - lo) 2). lia. Qed.

(** The least sequence at or after [t], or zero. *)
Definition first_at (r : Z) : Prop :=
  (r = 0 /\ forall k, first <= k <= last -> time_of k < t) \/
  (first <= r <= last /\ t <= time_of r /\ forall k, first <= k < r -> time_of k < t).

Lemma bisect_first fuel walk lo hi found :
  first <= lo -> hi <= last -> lo <= hi + 1 -> hi - lo + 1 < Z.of_nat fuel ->
  (forall k, first <= k < lo -> time_of k < t) ->
  (found = 0 /\ hi = last) \/ (found = hi + 1 /\ found <= last /\ t <= time_of found) ->
  exists r, bisect fuel walk true stream t first last lo hi found = Some (Ok r) /\ first_at r.
Proof.
  revert lo hi found. induction fuel as [|f IH]; intros lo hi found H1 H2 H3 Hf Hlo Hfound; [lia|].
  simpl. destruct (Z.leb_spec lo hi) as [Hle|Hgt].
  - pose proof (mid_range lo hi Hle) as Hmid. set (mid := lo + Z.quot (hi - lo) 2) in *.
    destruct (probe_dense walk mid ltac:(lia)) as (m & -> & -> & Hmt). rewrite Hmt.
    destruct (Z.leb_spec t (time_of mid)) as [Ht|Ht].
    + destruct (Z.eqb_spec mid 0); [lia|]. destruct (Z.ltb_spec (mid - 1) first).
      * exists mid. split; [done|]. right. split_and!; [lia|lia|done|]. intros k Hk. lia.
      * apply IH; [lia|lia|lia|lia|done|]. right. split_and!; [lia|lia|done].
    + rewrite u64_id by (unfold in_u64; lia). apply IH; [lia|lia|lia|lia| |done].
      intros k Hk. pose proof (proj2 Hdense k mid ltac:(lia) ltac:(lia) ltac:(lia)). lia.
  - exists found. split; [done|]. destruct Hfound as [[-> ->]|(-> & Hl & Ht)].
    + left. split; [done|]. intros k Hk. apply Hlo. lia.
    + right. split_and!; [lia|lia|done|]. intros k Hk. apply Hlo. lia.
Qed.

(** The greatest sequence at or before [t], or zero. *)
Definition last_at (r : Z) : Prop :=
  (r = 0 /\ forall k, first <= k <= last -> t < time_of k) \/
  (first <= r <= last /\ time_of r <= t /\ forall k, r < k <= last -> t < time_of k).

Lemma bisect_last fuel walk lo hi found :
  first <= lo -> hi <= last -> lo <= hi + 1 -> hi - lo + 1 < Z.of_nat fuel ->
  (forall k, hi < k <= last -> t < time_of k) ->
  (found = 0 /\ lo = first) \/ (found = lo - 1 /\ first <= found /\ time_of found <= t) ->
  exists r, bisect fuel walk false stream t first last lo hi found = Some (Ok r) /\ last_at r.
Proof.
  revert lo hi found. induction fuel as [|f IH]; intros lo hi found H1 H2 H3 Hf Hhi Hfound; [lia|].
  simpl. destruct (Z.leb_spec lo hi) as [Hle|Hgt].
  - pose proof (mid_range lo hi Hle) as Hmid. set (mid := lo + Z.quot (hi - lo) 2) in *.
    destruct (probe_dense walk mid ltac:(lia)) as (m & -> & -> & Hmt). rewrite Hmt.
    destruct (Z.leb_spec (time_of mid) t) as [Ht|Ht].
    + rewrite u64_id by (unfold in_u64; lia). apply IH; [lia|lia|lia|lia|done|].
      right. split_and!; [lia|lia|done].
    + assert (Hhi' : forall k, mid - 1 < k <= last -> t < time_of k).
      { intros k Hk. pose proof (proj2 Hdense mid k ltac:(lia) ltac:(lia) ltac:(lia)). lia. }
      destruct (Z.eqb_spec mid 0); [lia|]. destruct (Z.ltb_spec (mid - 1) first).
      * exists found. split; [done|]. destruct Hfound as [[-> ->]|(-> & Hl & Ht')]; [|lia].
        left. split; [done|]. intros k Hk. apply Hhi'. lia.
      * apply IH; [lia|lia|lia|lia|done|done].
  - exists found. split; [done|]. destruct Hfound as [[-> ->]|(-> & Hl & Ht)].
    + left. split; [done|]. intros k Hk. apply Hhi. lia.
    + right. split_and!; [lia|lia|done|]. intros k Hk. apply Hhi. lia.
Qed.
End Bisect.

(** On a stream without gaps the two time seeks are correct and terminate:
    with fuel for the stream's length, [FindFirstSeqAtOrAfter] returns the
    least sequence stamped at or after [t] and [FindLastSeqAtOrBefore] the
    greatest one stamped at or before [t], or both report "not found". *)
Theorem seek_by_time_dense stream first last t fuel :
  server_ok -> ValidateStreamName stream = None -> js_info = Ok (first, last) ->
  1 <= first <= last -> last < 2 ^ 64 - 1 -> dense first last -> last + 2 < Z.of_nat fuel ->
  (exists r, first_at t first last r /\ FindFirstSeqAtOrAfter fuel stream t =
     Some (if r =? 0 then Er (Sentinel ErrMsgNotFound) else Ok r)) /\
  (exists r, last_at t first last r /\ FindLastSeqAtOrBefore fuel stream t =
     Some (if r =? 0 then Er (Sentinel ErrMsgNotFound) else Ok r)).
Proof.
  intros Hsrv Hname Hinfo Hb Hl Hd Hf.
  unfold FindFirstSeqAtOrAfter, FindLastSeqAtOrBefore, find_seq, StreamInfo. rewrite Hname, Hinfo.
  destruct (Z.eqb_spec last 0); [lia|]. destruct (Z.eqb_spec first 0); [lia|]. simpl.
  destruct (bisect_first Hsrv stream Hname t first last ltac:(lia) Hl Hd fuel fuel first last 0)
    as (r & -> & Hr); [lia|lia|lia|lia|intros; lia|by left|].
  destruct (bisect_last Hsrv stream Hname t first last ltac:(lia) Hl Hd fuel fuel first last 0)
    as (r' & -> & Hr'); [lia|lia|lia|lia|intros; lia|by left|].
  split; [exists r; split; [done|]; by destruct r|exists r'; split; [done|]; by destruct r'].
Qed.
End StreamRead.

(** ** Examples *)

Definition msg_at (k : Z) : RawStreamMsg := RawS k "orders.created" (100 * k) "x" None.
(** A stream holding exactly the given sequences. *)
Definition stream_of (ks : list Z) (k : Z) : res RawStreamMsg :=
  if existsb (Z.eqb k) ks then Ok (msg_at k) else Er (Sentinel ErrMsgNotFound).

Lemma stream_of_ok ks : server_ok (stream_of ks).
Proof.
  unfold stream_of. split; intros k x H; destruct (existsb (Z.eqb k) ks); simplify_eq; done.
Qed.

(** With a gap the bisection can go on for ever: on a stream holding only
    sequences 1 and 8, looking for the first message at or after its very
    first timestamp probes 4, is answered 8, sets the upper end to 7 and probes
    4 again; no number of rounds ends it, although each probe is answered. *)
Theorem seek_by_time_gap_diverges :
  (forall fuel walk, bisect (stream_of [1; 8]) (Ok (1, 8)) fuel walk true "ORDERS" 100 1 8 1 8 0 = None) /\
  getExistingAtOrNear (stream_of [1; 8]) (Ok (1, 8)) 10 "ORDERS" 4 1 8 = Some (Ok (msg_at 8)) /\
  server_ok (stream_of [1; 8]).
Proof.
  split_and!; [|reflexivity|apply stream_of_ok].
  assert (Hp : forall walk, getExistingAtOrNear (stream_of [1; 8]) (Ok (1, 8)) walk "ORDERS" 4 1 8 = None \/
    getExistingAtOrNear (stream_of [1; 8]) (Ok (1, 8)) walk "ORDERS" 4 1 8 = Some (Ok (msg_at 8))).
  { intros [|[|[|[|walk]]]]; [by left..|by right]. }
  assert (Hl : forall fuel walk, bisect (stream_of [1; 8]) (Ok (1, 8)) fuel walk true "ORDERS" 100 1 8 1 7 8 = None).
  { induction fuel as [|f IH]; intros walk; [done|]. cbn [bisect]. change (1 <=? 7) with true.
    change (1 + Z.quot (7 - 1) 2) with 4. cbv iota. destruct (Hp walk) as [-> | ->]; [done|]. apply IH. }
  intros [|f] walk; [done|]. cbn [bisect]. change (1 <=? 8) with true. change (1 + Z.quot (8 - 1) 2) with 4.
  cbv iota. destruct (Hp walk) as [-> | ->]; [done|]. apply Hl.
Qed.

Lemma GetMsgRange_spec_witness :
  GetMsgRange (stream_of [1; 3; 4; 8]) (Ok (1, 8)) 20 "ORDERS" 2 100 [Some (WithMaxMessages 2)] =
    Some (Ok (storedMessageFromRaw <$> [msg_at 3; msg_at 4], true)).
Proof.
  rewrite (GetMsgRange_spec (stream_of [1; 3; 4; 8]) (Ok (1, 8)) "ORDERS" 1 8 2 100 _ 20);
    [reflexivity|apply stream_of_ok|reflexivity|reflexivity|lia|reflexivity|reflexivity].
Defined.

Lemma seek_by_time_dense_witness :
  exists r, FindFirstSeqAtOrAfter (stream_of [3; 4; 5; 6]) (Ok (3, 6)) 30 "ORDERS" 450 = Some (Ok r) /\ r = 5.
Proof.
  destruct (seek_by_time_dense (stream_of [3; 4; 5; 6]) (Ok (3, 6)) "ORDERS" 3 6 450 30) as [(r & Hr & H) _];
    [apply stream_of_ok|reflexivity|reflexivity|lia|reflexivity| |reflexivity|].
  - split.
    + intros k Hk. assert (k = 3 \/ k = 4 \/ k = 5 \/ k = 6) as [-> | [-> | [-> | ->]]] by lia; by eexists.
    + intros i j H1 H2 H3.
      assert (i = 3 \/ i = 4 \/ i = 5 \/ i = 6) as Hi by lia. assert (j = 3 \/ j = 4 \/ j = 5 \/ j = 6) as Hj by lia.
      destruct Hi as [-> | [-> | [-> | ->]]], Hj as [-> | [-> | [-> | ->]]]; unfold time_of; simpl; lia.
  - exists 5. split; [reflexivity|reflexivity].
Defined.
