(* ===== verification/Cursor.v ===== *)
(** * Reading a stream message by message (replay.go, stream_manager.go)

    The single-message reads of [Replay] and the loop a caller writes with
    [GetNextMsgAfter].  The stream is [StreamRead]'s: what the server answers for
    a sequence, and the last message of a subject as a parameter. *)
From S2P Require Import Prelude GoStr Validate Message StreamRead.

Section Cursor.
Context `{NH : NatsHeader}.
Variable js_get : Z -> res RawStreamMsg.
Variable js_info : res (Z * Z).
Variable js_get_last : string -> res RawStreamMsg.

Definition GetLastMsg (stream subject : string) : res RawStreamMsg :=
  guard_err ValidateStreamName stream ;;
  guard_err ValidateSubject subject ;;
  match js_get_last subject with Ok m => Ok m | Er e => Er (wrapf "get last msg stream=%q subject=%q: %w" e) end.

Definition stored_or (what : string) (r : res RawStreamMsg) : res StoredMessage :=
  match r with Ok raw => Ok (storedMessageFromRaw raw) | Er e => Er (wrapf what e) end.

Definition replay_GetMsg (stream : string) (seq : Z) : res StoredMessage :=
  guard_err ValidateStreamName stream ;; stored_or "replay get msg stream=%q seq=%d: %w" (GetMsg js_get stream seq).
Definition GetLastMsgForSubject (stream subject : string) : res StoredMessage :=
  guard_err ValidateStreamName stream ;; stored_or "replay get last msg stream=%q subject=%q: %w" (GetLastMsg stream subject).
Definition replay_GetNextMsgAfter (fuel : nat) (stream : string) (seq : Z) : option (res StoredMessage) :=
  match ValidateStreamName stream with
  | Some e => Some (Er e)
  | None => stored_or "replay get next msg stream=%q after=%d: %w" <$> GetNextMsgAfter js_get js_info fuel stream seq
  end.

(** A caller that reads on from the sequence of the message it got, until there
    is no next one; [n] reads at most. *)
Fixpoint read_on (n fuel : nat) (stream : string) (seq : Z) : option (list StoredMessage * option err) :=
  match n with
  | O => Some ([], None)
  | S n =>
      match replay_GetNextMsgAfter fuel stream seq with
      | None => None
      | Some (Er e) => Some ([], Some e)
      | Some (Ok m) => '(l, e) ← read_on n fuel stream (sSequence m); Some (m :: l, e)
      end
  end.

Section Walk.
Hypothesis Hsrv : server_ok js_get.
Variables (stream : string) (first last : Z).
Hypothesis Hname : ValidateStreamName stream = None.
Hypothesis Hinfo : js_info = Ok (first, last).
Hypothesis Hlast : last < 2 ^ 64 - 1.

Lemma next_walk_spec fuel next : 0 <= next -> Z.max 0 (last - next + 1) < Z.of_nat fuel ->
  match existing js_get next last with
  | [] => exists e, next_walk js_get fuel next last = Some (Er e) /\ errors_is e ErrMsgNotFound = true
  | m :: _ => next_walk js_get fuel next last = Some (Ok m)
  end.
Proof.
  revert next. induction fuel as [|f IH]; intros next H0 Hf; [lia|]. simpl. destruct (Z.leb_spec next last).
  - rewrite existing_step by done. unfold get_opt. destruct (js_get next) as [m|e] eqn:Eg; [done|].
    rewrite (proj2 Hsrv _ _ Eg), u64_id by (unfold in_u64; lia). apply IH; lia.
  - rewrite existing_nil by lia. eexists. split; [done|]. done.
Qed.

Lemma replay_next_spec fuel seq : 0 <= seq -> seq <= last -> last - seq + 1 < Z.of_nat fuel ->
  match existing js_get (seq + 1) last with
  | [] => exists e, replay_GetNextMsgAfter fuel stream seq = Some (Er e) /\ errors_is e ErrMsgNotFound = true
  | m :: _ => replay_GetNextMsgAfter fuel stream seq = Some (Ok (storedMessageFromRaw m))
  end.
Proof.
  intros H0 Hl Hf. unfold replay_GetNextMsgAfter, GetNextMsgAfter, StreamInfo. rewrite Hname, Hinfo.
  rewrite u64_id by (unfold in_u64; lia). pose proof (next_walk_spec fuel (seq + 1) ltac:(lia) ltac:(lia)) as Hw.
  destruct (existing js_get (seq + 1) last) as [|m l]; [|by rewrite Hw].
  destruct Hw as (e & -> & He). eexists. split; [done|]. by rewrite errors_is_wrapf.
Qed.

Lemma read_on_eq n fuel seq : 0 <= seq <= last -> last - seq + 1 < Z.of_nat fuel ->
  (length (existing js_get (seq + 1) last) < n)%nat ->
  exists e, read_on n fuel stream seq = Some (storedMessageFromRaw <$> existing js_get (seq + 1) last, Some e) /\
    errors_is e ErrMsgNotFound = true.
Proof.
  revert seq. induction n as [|n IH]; intros seq Hs Hf Hn; [lia|]. simpl.
  pose proof (replay_next_spec fuel seq ltac:(lia) ltac:(lia) Hf) as Hr.
  destruct (existing js_get (seq + 1) last) as [|m l] eqn:E.
  - destruct Hr as (e & -> & He). by exists e.
  - rewrite Hr. destruct (existing_head _ _ _ _ _ Hsrv E) as (Hm & Hl & _).
    replace (sSequence (storedMessageFromRaw m)) with (rSeq m) by done. simpl in Hn.
    destruct (IH (rSeq m)) as (e & -> & He); [lia|lia|rewrite <- Hl; lia|]. exists e. rewrite <- Hl. done.
Qed.
End Walk.

(** Reading on reaches everything.  A caller that starts at a sequence and
    asks for the next message after the one it got receives exactly the stored
    messages after that sequence, once each and in order, gaps of any size
    included, and then an error that is [ErrMsgNotFound]. *)
Theorem cursor_reads_all stream first last seq fuel n :
  server_ok js_get -> ValidateStreamName stream = None -> js_info = Ok (first, last) -> last < 2 ^ 64 - 1 ->
  0 <= seq <= last -> last - seq + 1 < Z.of_nat fuel -> (length (existing js_get (seq + 1) last) < n)%nat ->
  exists e, read_on n fuel stream seq = Some (storedMessageFromRaw <$> existing js_get (seq + 1) last, Some e) /\
    errors_is e ErrMsgNotFound = true.
Proof. intros Hsrv Hname Hinfo Hl Hs Hf Hn. by apply (read_on_eq Hsrv stream first last Hname Hinfo Hl). Qed.
End Cursor.

Lemma cursor_reads_all_witness : exists e,
  read_on (stream_of [1; 3; 8]) (Ok (1, 8)) 3 20 "ORDERS" 1 = Some (storedMessageFromRaw <$> [msg_at 3; msg_at 8], Some e) /\
  errors_is e ErrMsgNotFound = true.
Proof.
  apply (cursor_reads_all (stream_of [1; 3; 8]) (Ok (1, 8)) "ORDERS" 1 8 1 20 3);
    [apply stream_of_ok|reflexivity|reflexivity|reflexivity|lia|lia|vm_compute; lia].
Defined.
