(* ===== verification/Supervisor.v ===== *)
(** * Subscription supervision (supervisor.go)

    The supervising goroutine and [Stop] share the current subscription, so
    they are steps of a small machine: [pc] is where the loop is, [stopPc]
    where the (single) body of [Stop] is.  Subscriptions are numbered;
    [live] are those created and not yet unsubscribed.  What an [Unsubscribe]
    answers comes with the step that calls it; the loop ignores the error, and
    [leaked] collects the subscriptions for which there was one.  Emitted events
    are kept in order; metrics are left out; the event channel is in [Events]
    and the methods of the handle are in [Handles]. *)

From S2P Require Import Prelude GoStr.

Definition ErrSupervisorGiveUp : string := "nats.ErrSupervisorGiveUp".
Definition Canceled : string := "context.Canceled".
Definition DeadlineExceeded : string := "context.DeadlineExceeded".

Definition defaultSupervisorMaxRetries : Z := 10.
Definition defaultSupervisorInitialBackoff : Z := 10 ^ 9.
Definition defaultSupervisorMaxBackoff : Z := 30 * 10 ^ 9.
Definition defaultSupervisorCheckInterval : Z := 10 ^ 9.

Record SupervisorConfig := SupCfg {
  InitialBackoff : Z; MaxBackoff : Z; CheckInterval : Z; HealthyBackoffInterval : Z;
  HealthyChecksBeforeBackoff : Z; MaxRetries : Z
}.

Definition sup_withDefaults (c : SupervisorConfig) : SupervisorConfig :=
  SupCfg (if InitialBackoff c <=? 0 then defaultSupervisorInitialBackoff else InitialBackoff c)
    (if MaxBackoff c <=? 0 then defaultSupervisorMaxBackoff else MaxBackoff c)
    (if CheckInterval c <=? 0 then defaultSupervisorCheckInterval else CheckInterval c)
    (HealthyBackoffInterval c) (HealthyChecksBeforeBackoff c)
    (if MaxRetries c =? 0 then defaultSupervisorMaxRetries else MaxRetries c).

Definition nextBackoff (current maxBackoff : Z) : Z :=
  let next := i64 (current * 2) in if maxBackoff <? next then maxBackoff else next.

Inductive SupervisorEvent := SupervisorResubscribed (n : Z) | SupervisorGiveUp (n : Z) | SupervisorInvalid (n : Z).

(** ** The loop and Stop *)

Inductive sup_pc :=
  | PSelect                      (* the outer select *)
  | PWait                        (* the backoff select *)
  | PSubscribe                   (* subscribe(ctx) runs *)
  | PInstall (n : nat)           (* s.sub = newSub *)
  | PUnsubOld (old : option nat) (* old.Unsubscribe() *)
  | PCleanup (o : option nat)    (* sub.Unsubscribe() of cleanupSub *)
  | PExit.                       (* the loop has returned *)
Inductive stop_pc := StIdle | StRead | StUnsub (s : option nat) | StDone.

Record sup := Sup {
  cur : option nat; live : gset nat; leaked : gset nat; nextId : nat;
  pc : sup_pc; stopPc : stop_pc; stopClosed : bool; ctxDone : bool;
  attempts : Z; backoff : Z; healthyStreak : Z; currentInterval : Z;
  events : list SupervisorEvent
}.

Inductive sup_label :=
  | LTick (valid : bool)         (* a check finds the subscription valid or not *)
  | LCtxDone | LStopCh           (* the select takes ctx.Done / stopCh *)
  | LAfter                       (* the backoff timer fires *)
  | LSubscribed (ok : bool)      (* subscribe returns *)
  | LLoop (ok : bool)            (* the loop's next statement; [ok] is what an Unsubscribe answers *)
  | LStop (ok : bool)            (* Stop's next statement, likewise *)
  | LCancelCtx.                  (* the context is cancelled *)

Definition with_pc (p : sup_pc) (s : sup) : sup :=
  Sup (cur s) (live s) (leaked s) (nextId s) p (stopPc s) (stopClosed s) (ctxDone s) (attempts s) (backoff s)
    (healthyStreak s) (currentInterval s) (events s).
Definition with_cur (o : option nat) (s : sup) : sup :=
  Sup o (live s) (leaked s) (nextId s) (pc s) (stopPc s) (stopClosed s) (ctxDone s) (attempts s) (backoff s)
    (healthyStreak s) (currentInterval s) (events s).
Definition with_stop (p : stop_pc) (closed : bool) (s : sup) : sup :=
  Sup (cur s) (live s) (leaked s) (nextId s) (pc s) p closed (ctxDone s) (attempts s) (backoff s)
    (healthyStreak s) (currentInterval s) (events s).
Definition with_backoff (b : Z) (s : sup) : sup :=
  Sup (cur s) (live s) (leaked s) (nextId s) (pc s) (stopPc s) (stopClosed s) (ctxDone s) (attempts s) b
    (healthyStreak s) (currentInterval s) (events s).
Definition sup_emit (ev : SupervisorEvent) (s : sup) : sup :=
  Sup (cur s) (live s) (leaked s) (nextId s) (pc s) (stopPc s) (stopClosed s) (ctxDone s) (attempts s) (backoff s)
    (healthyStreak s) (currentInterval s) (events s ++ [ev]).

(** [if sub != nil { sub.Unsubscribe() }], answered with [ok]. *)
Definition unsub (o : option nat) (ok : bool) (s : sup) : sup :=
  match o with
  | None => s
  | Some n =>
      Sup (cur s) (if ok then live s ∖ {[ n ]} else live s) (if ok then leaked s else leaked s ∪ {[ n ]}) (nextId s) (pc s)
        (stopPc s) (stopClosed s) (ctxDone s) (attempts s) (backoff s) (healthyStreak s) (currentInterval s) (events s)
  end.

(** [cleanupSub]: takes the subscription out under the lock; unsubscribing it and
    returning is the next statement. *)
Definition cleanupSub (s : sup) : sup := with_pc (PCleanup (cur s)) (with_cur None s).

(** The poll interval after a healthy check. *)
Definition healthy_interval (c : SupervisorConfig) (streak interval : Z) : Z :=
  if (0 <? HealthyBackoffInterval c) && (0 <? HealthyChecksBeforeBackoff c)
     && (HealthyChecksBeforeBackoff c <=? streak) && (interval <? HealthyBackoffInterval c)
  then let next := i64 (interval * 2) in
       if HealthyBackoffInterval c <? next then HealthyBackoffInterval c else next
  else interval.

Definition tick (c : SupervisorConfig) (valid : bool) (s : sup) : sup :=
  if valid then
    let streak := if (0 <? HealthyBackoffInterval c) && (0 <? HealthyChecksBeforeBackoff c)
                  then healthyStreak s + 1 else healthyStreak s in
    Sup (cur s) (live s) (leaked s) (nextId s) PSelect (stopPc s) (stopClosed s) (ctxDone s) 0 (InitialBackoff c)
      streak (healthy_interval c streak (currentInterval s)) (events s)
  else
    let s1 := sup_emit (SupervisorInvalid (attempts s))
                (Sup (cur s) (live s) (leaked s) (nextId s) (pc s) (stopPc s) (stopClosed s) (ctxDone s) (attempts s)
                   (backoff s) 0 (CheckInterval c) (events s)) in
    if (0 <=? MaxRetries c) && (MaxRetries c <=? attempts s) then cleanupSub (sup_emit (SupervisorGiveUp (attempts s)) s1)
    else Sup (cur s1) (live s1) (leaked s1) (nextId s1) PWait (stopPc s1) (stopClosed s1) (ctxDone s1) (attempts s1 + 1)
           (backoff s1) (healthyStreak s1) (currentInterval s1) (events s1).

(** The next statement of [Stop]'s once-body: closing the channel, reading the
    subscription under the lock, unsubscribing it. *)
Definition sup_stop_step (ok : bool) (s : sup) : option sup :=
  match stopPc s with
  | StIdle => Some (with_stop StRead true s)
  | StRead => Some (with_stop (StUnsub (cur s)) (stopClosed s) s)
  | StUnsub o => Some (with_stop StDone (stopClosed s) (unsub o ok s))
  | StDone => None
  end.

Definition sup_step (c : SupervisorConfig) (l : sup_label) (s : sup) : option sup :=
  match l, pc s with
  | LCancelCtx, _ =>
      Some (Sup (cur s) (live s) (leaked s) (nextId s) (pc s) (stopPc s) (stopClosed s) true (attempts s) (backoff s)
              (healthyStreak s) (currentInterval s) (events s))
  | LStop ok, _ => sup_stop_step ok s
  | LTick v, PSelect => if v && bool_decide (cur s = None) then None else Some (tick c v s)
  | LCtxDone, PSelect | LCtxDone, PWait => if ctxDone s then Some (cleanupSub s) else None
  | LStopCh, PSelect | LStopCh, PWait => if stopClosed s then Some (with_pc PExit s) else None
  | LAfter, PWait => Some (with_pc PSubscribe s)
  | LSubscribed false, PSubscribe => Some (with_pc PSelect (with_backoff (nextBackoff (backoff s) (MaxBackoff c)) s))
  | LSubscribed true, PSubscribe =>
      Some (Sup (cur s) (live s ∪ {[ nextId s ]}) (leaked s) (S (nextId s)) (PInstall (nextId s)) (stopPc s) (stopClosed s)
              (ctxDone s) (attempts s) (backoff s) (healthyStreak s) (currentInterval s) (events s))
  | LLoop _, PInstall n => Some (with_pc (PUnsubOld (cur s)) (with_cur (Some n) s))
  | LLoop ok, PUnsubOld o =>
      Some (with_pc PSelect (with_backoff (InitialBackoff c) (sup_emit (SupervisorResubscribed (attempts s)) (unsub o ok s))))
  | LLoop ok, PCleanup o => Some (with_pc PExit (unsub o ok s))
  | _, _ => None
  end.

(** Subscription 0 exists when the loop starts. *)
Definition sup_init (c : SupervisorConfig) : sup :=
  Sup (Some 0%nat) {[ 0%nat ]} ∅ 1 PSelect StIdle false false 0 (InitialBackoff c) 0 (CheckInterval c) [].

(** [Supervise]: the machine its goroutine runs, or the error it returns; [first]
    is the error of the initial subscribe. *)
Definition Supervise (haveFn : bool) (first : option err) (c0 : SupervisorConfig) : res (SupervisorConfig * sup) :=
  if negb haveFn then Er (errorf "supervise: subscribe fn is nil") else
  let c := sup_withDefaults c0 in
  match first with
  | Some e => Er (wrapf "supervise initial subscribe: %w" e)
  | None => Ok (c, sup_init c)
  end.

Fixpoint sup_run (c : SupervisorConfig) (ls : list sup_label) (s : sup) : option sup :=
  match ls with [] => Some s | l :: ls' => s' ← sup_step c l s; sup_run c ls' s' end.

(** ** SupervisePullProcess: [runs i] is the error of the i-th run, [ctx i] the
    context's error during the i-th backoff; the trace holds the events and the
    completed waits in order *)

Inductive pull_obs := PEvent (ev : SupervisorEvent) | PWaited (d : Z).

Fixpoint pull_loop (fuel : nat) (c : SupervisorConfig) (runs ctx : nat -> option err) (i : nat) (att bo : Z)
  (tr : list pull_obs) : option (option err * list pull_obs) :=
  match fuel with
  | O => None
  | S f =>
      match runs i with
      | None => Some (None, tr)
      | Some e =>
          if errors_is e Canceled || errors_is e DeadlineExceeded then Some (Some e, tr)
          else if (0 <=? MaxRetries c) && (MaxRetries c <=? att)
          then Some (Some (wrapf2 "%w: %w" (Sentinel ErrSupervisorGiveUp) e), tr ++ [PEvent (SupervisorGiveUp att)])
          else
            let tr1 := tr ++ [PEvent (SupervisorResubscribed (att + 1))] in
            match ctx i with
            | Some ce => Some (Some ce, tr1)
            | None => pull_loop f c runs ctx (S i) (att + 1) (nextBackoff bo (MaxBackoff c)) (tr1 ++ [PWaited bo])
            end
      end
  end.

Definition SupervisePullProcess (fuel : nat) (haveRun : bool) (c0 : SupervisorConfig) (runs ctx : nat -> option err)
  : option (option err * list pull_obs) :=
  if negb haveRun then Some (Some (errorf "supervise pull: run fn is nil"), []) else
  let c := sup_withDefaults c0 in pull_loop fuel c runs ctx 0 0 (InitialBackoff c) [].

(** The client's helper: a run binds a new pull consumer, processes and closes
    what it bound; [pulls i] and [process i] are the errors of the i-th [Pull] and
    [Process]. *)
Definition client_pull_run (pull process : option err) : option err :=
  match pull with Some e => Some e | None => process end.
Definition client_SupervisePullProcess (fuel : nat) (c0 : SupervisorConfig) (pulls process ctx : nat -> option err)
  : option (option err * list pull_obs) :=
  SupervisePullProcess fuel true c0 (fun i => client_pull_run (pulls i) (process i)) ctx.

(** ** Lemmas *)

Lemma nextBackoff_double b mx : 0 <= b <= mx -> mx < 2 ^ 62 -> nextBackoff b mx = Z.min mx (b * 2).
Proof.
  intros Hb Hm. unfold nextBackoff. rewrite i64_id by (unfold in_i64; lia).
  destruct (Z.ltb_spec mx (b * 2)); lia.
Qed.

(** The [n]-th backoff in a row. *)
Definition backoff_at (c : SupervisorConfig) (n : nat) : Z :=
  Z.min (MaxBackoff c) (InitialBackoff c * 2 ^ Z.of_nat n).

Lemma nextBackoff_at c n :
  0 < InitialBackoff c <= MaxBackoff c -> MaxBackoff c < 2 ^ 62 ->
  nextBackoff (backoff_at c n) (MaxBackoff c) = backoff_at c (S n).
Proof.
  intros Hi Hm. assert (0 < 2 ^ Z.of_nat n) by (apply Z.pow_pos_nonneg; lia).
  rewrite nextBackoff_double; [|unfold backoff_at; nia|done]. unfold backoff_at.
  rewrite Nat2Z.inj_succ, Z.pow_succ_r by lia. nia.
Qed.

(** Every live subscription is in the loop's hands, or an [Unsubscribe] of it failed. *)
Definition owned (s : sup) (n : nat) : Prop :=
  cur s = Some n \/ pc s = PInstall n \/ pc s = PUnsubOld (Some n) \/ pc s = PCleanup (Some n).
Definition accounted (s : sup) : Prop := forall n, n ∈ live s -> owned s n \/ n ∈ leaked s.

(** The loop is in [cleanupSub] or past it. *)
Definition ending (s : sup) : Prop := pc s = PExit \/ exists o, pc s = PCleanup o.
Definition closing (s : sup) : Prop := cur s = None /\ ending s.

(** What one step may do to the subscriptions. *)
Lemma accounted_mono s s' :
  accounted s -> live s' ⊆ live s -> leaked s ⊆ leaked s' ->
  (forall n, n ∈ live s' -> owned s n -> owned s' n \/ n ∈ leaked s') -> accounted s'.
Proof. intros H Hl Hk Ho n Hn. destruct (H n (Hl n Hn)) as [Hw|Hw]; [by apply Ho|right; by apply Hk]. Qed.

Lemma unsub_live o ok s : live (unsub o ok s) ⊆ live s /\ leaked s ⊆ leaked (unsub o ok s) /\
  forall n, o = Some n -> n ∈ live (unsub o ok s) -> n ∈ leaked (unsub o ok s).
Proof. destruct o as [n|]; [destruct ok|]; simpl; set_solver. Qed.

Lemma unsub_same o ok s : cur (unsub o ok s) = cur s /\ pc (unsub o ok s) = pc s /\ events (unsub o ok s) = events s.
Proof. by destruct o. Qed.

Lemma unsub_accounted o ok s : accounted s -> accounted (unsub o ok s).
Proof.
  intros H. destruct (unsub_live o ok s) as (H1 & H2 & _). apply (accounted_mono s); [done..|].
  intros n _ Hn. left. destruct (unsub_same o ok s) as (Hc & Hp & _). unfold owned. by rewrite Hc, Hp.
Qed.

(** A step from a select that keeps the subscription. *)
Lemma accounted_move s s' :
  accounted s -> pc s = PSelect \/ pc s = PWait \/ pc s = PSubscribe ->
  cur s' = cur s -> live s' = live s -> leaked s' = leaked s -> accounted s'.
Proof.
  intros H Hp Hc Hl Hk. apply (accounted_mono s); [done|set_solver|set_solver|]. unfold owned. rewrite Hc.
  intros n _ [E|E]; [by left; left|]. destruct E as [E|[E|E]]; destruct Hp as [|[|]]; congruence.
Qed.

(** Taking the subscription out for the cleanup, on the way out of a select. *)
Lemma accounted_cleanup s : accounted s -> pc s = PSelect \/ pc s = PWait -> accounted (cleanupSub s).
Proof.
  intros H Hp. apply (accounted_mono s); [done..|]. intros n _ [E|E].
  - left. right. right. right. simpl. by rewrite E.
  - destruct E as [E|[E|E]]; destruct Hp; congruence.
Qed.

Lemma tick_accounted c v s : accounted s -> pc s = PSelect -> accounted (tick c v s).
Proof.
  intros H Hp. unfold tick. destruct v; [apply (accounted_move s); auto|].
  case_match; [|apply (accounted_move s); auto]. apply accounted_cleanup; [apply (accounted_move s); auto|by left].
Qed.

Lemma loop_accounted c ok s s' : accounted s -> sup_step c (LLoop ok) s = Some s' -> accounted s'.
Proof.
  intros H Hs. simpl in Hs. destruct (pc s) as [| | |m|o|o|] eqn:Ep; simplify_eq.
  - apply (accounted_mono s); [done..|]. unfold owned. simpl. intros n _ [E|[E|[E|E]]]; rewrite ?Ep in *; simplify_eq; auto.
    left. right. right. left. congruence.
  - destruct (unsub_live o ok s) as (H1 & H2 & H3). apply (accounted_mono s); [done..|]. unfold owned. rewrite Ep.
    simpl. destruct (unsub_same o ok s) as (-> & _). intros n Hn [E|[E|[E|E]]]; simplify_eq; auto.
  - destruct (unsub_live o ok s) as (H1 & H2 & H3). apply (accounted_mono s); [done..|]. unfold owned. rewrite Ep.
    simpl. destruct (unsub_same o ok s) as (-> & _). intros n Hn [E|[E|[E|E]]]; simplify_eq; auto.
Qed.

Lemma accounted_step c l s s' : accounted s -> sup_step c l s = Some s' -> accounted s'.
Proof.
  intros H Hs. destruct l; [| | | | |by eapply loop_accounted| |]; simpl in Hs.
  - destruct (pc s) eqn:Ep; try done. case_match; simplify_eq. by apply tick_accounted.
  - destruct (pc s) eqn:Ep; try done; destruct (ctxDone s); simplify_eq; apply accounted_cleanup; auto.
  - destruct (pc s) eqn:Ep; try done; destruct (stopClosed s); simplify_eq; apply (accounted_move s); auto.
  - destruct (pc s) eqn:Ep; try done. simplify_eq. apply (accounted_move s); auto.
  - destruct (pc s) eqn:Ep; destruct ok; try done; simplify_eq; [|apply (accounted_move s); auto].
    intros n [Hn|Hn%elem_of_singleton]%elem_of_union; [|left; right; left; simpl; congruence].
    destruct (H n Hn) as [[E|[E|[E|E]]]|E]; [by left; left|congruence..|by right].
  - unfold sup_stop_step in Hs. destruct (stopPc s); simplify_eq; [exact H|exact H|]. by apply (unsub_accounted _ ok s).
  - by simplify_eq.
Qed.

(** Once the loop closes it stays so, whatever [Stop] does. *)
Lemma closing_step c l s s' : closing s -> sup_step c l s = Some s' -> closing s'.
Proof.
  intros [Hc He] Hs. assert (l = LCancelCtx \/ (exists ok, l = LStop ok) \/ exists ok o, l = LLoop ok /\ pc s = PCleanup o) as Hl.
  { unfold sup_step in Hs. destruct He as [Ep|[o Ep]]; rewrite Ep in Hs; destruct l as [| | | |[]| | |]; try done; eauto 10. }
  destruct Hl as [-> | [(ok & ->)|(ok & o & -> & Ep)]]; simpl in Hs; simplify_eq; [done| |].
  - unfold sup_stop_step in Hs. destruct (stopPc s) as [| |o|]; simplify_eq; [done|done|].
    destruct (unsub_same o ok s) as (E1 & E2 & _). unfold closing, ending. simpl. by rewrite E1, E2.
  - rewrite Ep in Hs. simplify_eq. split; [simpl; by rewrite (proj1 (unsub_same o ok s))|by left].
Qed.

(** The loop ends by the stop channel or through the cleanup. *)
Lemma ending_step c l s s' :
  (ending s -> closing s) -> sup_step c l s = Some s' -> l <> LStopCh -> ending s' -> closing s'.
Proof.
  intros Hi Hs Hl He.
  assert (forall (P : Prop), (ending s -> P) -> (~ ending s -> P) -> P) as Hcase.
  { intros P H1 H2. unfold ending in H1, H2. destruct (pc s); eauto; apply H2; intros [|[? ?]]; done. }
  apply Hcase; [intros H; eapply closing_step; [|done]; auto|]. clear Hcase. intros Hn. destruct l as [v| | | |[]|ok|ok|]; simpl in Hs.
  - destruct (pc s) eqn:Ep; try done. destruct (v && _); simplify_eq. unfold tick in *. destruct v; [by destruct He as [|[? ?]]|].
    case_match; [split; [done|right; eauto]|by destruct He as [|[? ?]]].
  - destruct (pc s) eqn:Ep; try done; destruct (ctxDone s); simplify_eq; (split; [done|right; eauto]).
  - done.
  - destruct (pc s) eqn:Ep; try done. simplify_eq. by destruct He as [|[? ?]].
  - destruct (pc s) eqn:Ep; try done. simplify_eq. by destruct He as [|[? ?]].
  - destruct (pc s) eqn:Ep; try done. simplify_eq. by destruct He as [|[? ?]].
  - destruct (pc s) eqn:Ep; simplify_eq; [by destruct He as [|[? ?]]..|]. exfalso. apply Hn. right. eauto.
  - exfalso. apply Hn. unfold sup_stop_step in Hs. destruct (stopPc s) as [| |o|]; simplify_eq.
    unfold ending in *. simpl in He. by rewrite (proj1 (proj2 (unsub_same o ok s))) in He.
  - by simplify_eq.
Qed.

(** A give-up is announced only on the way into the cleanup. *)
Definition gave_up (s : sup) : Prop := exists n, SupervisorGiveUp n ∈ events s.

Lemma gave_up_step c l s s' : sup_step c l s = Some s' -> gave_up s' -> gave_up s \/ closing s'.
Proof.
  intros Hs [n Hn]. destruct l as [v| | | |[]|ok|ok|]; simpl in Hs.
  - destruct (pc s) eqn:Ep; try done. destruct (v && _); simplify_eq. unfold tick in *. destruct v; [left; by exists n|].
    case_match; [right; split; [done|right; eauto]|]. left. exists n. simpl in Hn. set_solver.
  - destruct (pc s) eqn:Ep; try done; destruct (ctxDone s); simplify_eq; left; by exists n.
  - destruct (pc s) eqn:Ep; try done; destruct (stopClosed s); simplify_eq; left; by exists n.
  - destruct (pc s) eqn:Ep; try done. simplify_eq. left. by exists n.
  - destruct (pc s) eqn:Ep; try done. simplify_eq. left. by exists n.
  - destruct (pc s) eqn:Ep; try done. simplify_eq. left. by exists n.
  - left. exists n. destruct (pc s) as [| | |m|o|o|] eqn:Ep; simplify_eq; simpl in Hn;
      rewrite ?(proj2 (proj2 (unsub_same _ _ _))) in Hn; set_solver.
  - left. exists n. unfold sup_stop_step in Hs. destruct (stopPc s) as [| |o|]; simplify_eq; [done|done|].
    simpl in Hn. by rewrite (proj2 (proj2 (unsub_same _ _ _))) in Hn.
  - simplify_eq. left. by exists n.
Qed.

Lemma cancel_closes c s s' : sup_step c LCtxDone s = Some s' -> closing s'.
Proof. simpl. destruct (pc s); try done; destruct (ctxDone s); intros; simplify_eq; (split; [done|right; eauto]). Qed.

(** What a whole run establishes, from any accounted state. *)
Lemma sup_run_facts c ls s s' :
  sup_run c ls s = Some s' -> accounted s ->
  accounted s' /\ (closing s -> closing s') /\
  ((ending s -> closing s) -> LStopCh ∉ ls -> ending s' -> closing s') /\
  (LCtxDone ∈ ls -> closing s') /\ ((gave_up s -> closing s) -> gave_up s' -> closing s').
Proof.
  revert s. induction ls as [|l ls IH]; simpl; intros s Hs Ha; [simplify_eq; split_and!; auto; by intros ?%elem_of_nil|].
  apply bind_Some in Hs as (s1 & H1 & H2). destruct (IH _ H2 (accounted_step _ _ _ _ Ha H1)) as (I1 & I2 & I3 & I4 & I5).
  split_and!; [done|..].
  - intros Hc. apply I2. by eapply closing_step.
  - intros Hi [Hl Hls]%not_elem_of_cons He. apply I3; [|done|done]. intros E. by eapply ending_step.
  - intros [<- |Hl]%elem_of_cons; [|by apply I4]. apply I2. by eapply cancel_closes.
  - intros Hg. apply I5. intros E. destruct (gave_up_step _ _ _ _ H1 E) as [Hg0|]; [|done]. eapply closing_step; eauto.
Qed.

Lemma sup_init_accounted c : accounted (sup_init c).
Proof. intros n Hn. left. left. simpl in *. f_equal. set_solver. Qed.

(** Leaving the cleanup, only a subscription whose [Unsubscribe] failed is left. *)
Lemma closed_live s : accounted s -> cur s = None -> pc s = PExit -> live s ⊆ leaked s.
Proof. intros H Hc Hp n Hn. destruct (H n Hn) as [[E|[E|[E|E]]]|E]; [congruence..|done]. Qed.

(** ** Theorems *)

(** C26: a supervisor cleans up after itself.  In every interleaving of the loop
    with [Stop], once the loop has taken the cancellation of its context, in
    either select, or has announced that it gives up, it is in [cleanupSub] or
    has returned; and when it has returned other than through the stop channel,
    no subscription is left alive, however often it resubscribed, but one whose
    [Unsubscribe] failed.  A cancelled context is taken by both selects, and
    while the loop runs at most the current subscription and the one being
    swapped or cleaned up are alive. *)
Theorem supervisor_cleans_up c ls s :
  sup_run c ls (sup_init c) = Some s ->
  (LCtxDone ∈ ls \/ (exists n, SupervisorGiveUp n ∈ events s) -> (exists o, pc s = PCleanup o) \/ (pc s = PExit /\ live s ⊆ leaked s)) /\
  (LStopCh ∉ ls -> pc s = PExit -> live s ⊆ leaked s) /\
  (ctxDone s = true -> pc s = PSelect \/ pc s = PWait -> is_Some (sup_step c LCtxDone s)) /\
  (forall n, n ∈ live s -> n ∈ leaked s \/ cur s = Some n \/ pc s = PInstall n \/ pc s = PUnsubOld (Some n) \/ pc s = PCleanup (Some n)).
Proof.
  intros Hr. destruct (sup_run_facts _ _ _ _ Hr (sup_init_accounted c)) as (H1 & _ & H3 & H4 & H5).
  assert (closing s -> (exists o, pc s = PCleanup o) \/ (pc s = PExit /\ live s ⊆ leaked s)) as Hcl.
  { intros [Hc [E|E]]; [right|by left]. split; [done|by apply closed_live]. }
  split_and!.
  - intros [Hl|Hg]; apply Hcl; [by apply H4|]. apply H5; [|done]. by intros [n ?%elem_of_nil].
  - intros Hl He. apply closed_live; [done| |done]. apply H3; [|done|by left]. by intros [|[? ?]].
  - intros Hd [E|E]; simpl; rewrite E, Hd; eauto.
  - intros n Hn. destruct (H1 n Hn) as [?|?]; [right|left]; done.
Qed.

(** The race: [Stop] runs while the loop is resubscribing. *)
Definition stop_race : list sup_label :=
  [LTick false; LAfter; LStop true; LStop true; LStop true; LSubscribed true; LLoop true; LLoop true; LStopCh].

(** [Stop] can leave a live subscription although every [Unsubscribe] succeeds:
    when it runs while the loop is inside [subscribe], it unsubscribes the old
    one, the loop then installs the new one, sees the stop channel closed and
    returns without unsubscribing it. *)
Theorem stop_race_leaks c :
  MaxRetries c <> 0 ->
  exists s, sup_run c stop_race (sup_init c) = Some s /\ stopPc s = StDone /\ pc s = PExit /\ cur s = Some 1%nat /\
    live s = {[ 1%nat ]} /\ leaked s = ∅.
Proof.
  intros Hm.
  assert (Hcond : (0 <=? MaxRetries c) && (MaxRetries c <=? 0) = false).
  { destruct (Z.leb_spec 0 (MaxRetries c)), (Z.leb_spec (MaxRetries c) 0); simpl; try done; lia. }
  assert (Hr : exists s, sup_run c stop_race (sup_init c) = Some s /\ stopPc s = StDone /\ pc s = PExit /\
    cur s = Some 1%nat /\ live s = ({[ 0%nat ]} ∖ {[ 0%nat ]} ∪ {[ 1%nat ]}) ∖ {[ 0%nat ]} /\ leaked s = ∅).
  { unfold stop_race, sup_run, sup_init. simpl. unfold tick. simpl. rewrite Hcond. simpl. eexists. split; [done|]. done. }
  destruct Hr as (s & Hr & H1 & H2 & H3 & H4 & H5). exists s. split_and!; [done..| |done]. rewrite H4. set_solver.
Qed.

Lemma pull_loop_retry f c runs ctx i att bo tr e :
  runs i = Some e -> errors_is e Canceled = false -> errors_is e DeadlineExceeded = false ->
  att < MaxRetries c -> ctx i = None ->
  pull_loop (S f) c runs ctx i att bo tr =
    pull_loop f c runs ctx (S i) (att + 1) (nextBackoff bo (MaxBackoff c))
      (tr ++ [PEvent (SupervisorResubscribed (att + 1)); PWaited bo]).
Proof.
  intros Hr H1 H2 Hm Hc. simpl. rewrite Hr, H1, H2, Hc. simpl.
  destruct (Z.leb_spec (MaxRetries c) att); [lia|]. by rewrite andb_false_r, <- app_assoc.
Qed.

(** What the [n]-th retry shows: the event, then its wait. *)
Definition retry_obs (c : SupervisorConfig) (n : nat) : list pull_obs :=
  [PEvent (SupervisorResubscribed (Z.of_nat (S n)));
   PWaited (Z.min (MaxBackoff c) (InitialBackoff c * 2 ^ Z.of_nat n))].

(** The run of failures from attempt [k] on. *)
Lemma pull_loop_fails c runs ctx k n tr e :
  0 < InitialBackoff c <= MaxBackoff c -> MaxBackoff c < 2 ^ 62 -> 0 <= MaxRetries c ->
  (forall i, exists e, runs i = Some e /\ errors_is e Canceled = false /\ errors_is e DeadlineExceeded = false) ->
  (forall i, ctx i = None) -> runs (k + n)%nat = Some e -> Z.of_nat (k + n) = MaxRetries c ->
  pull_loop (S n) c runs ctx k (Z.of_nat k) (backoff_at c k) tr =
    Some (Some (wrapf2 "%w: %w" (Sentinel ErrSupervisorGiveUp) e),
          tr ++ (seq k n ≫= retry_obs c) ++ [PEvent (SupervisorGiveUp (MaxRetries c))]).
Proof.
  intros Hi Hm Hmax Hruns Hctx. revert k tr. induction n as [|n IH]; intros k tr He Hk.
  - rewrite Nat.add_0_r in *. destruct (Hruns k) as (e' & Hr & H1 & H2). simpl. rewrite He in *. simplify_eq.
    rewrite H1, H2. simpl. destruct (Z.leb_spec 0 (MaxRetries c)), (Z.leb_spec (MaxRetries c) (Z.of_nat k)); try lia.
    simpl. by rewrite Hk.
  - destruct (Hruns k) as (e' & Hr & H1 & H2).
    rewrite (pull_loop_retry (S n) c runs ctx k _ _ _ e'), nextBackoff_at by (done || lia || apply Hctx).
    replace (Z.of_nat k + 1) with (Z.of_nat (S k)) by lia. rewrite IH; [|by rewrite Nat.add_succ_comm|lia].
    by rewrite <- app_assoc.
Qed.

(** C21: retry policy of a supervised pull loop whose runs keep failing: it runs
    exactly [MaxRetries + 1] times, announces each retry before waiting the
    capped exponential backoff initial, 2*initial, 4*initial, ... never above
    the maximum, announces the give-up last, and returns an error that is both
    [ErrSupervisorGiveUp] and the last failure. *)
Theorem pull_supervision_gives_up c0 runs ctx e :
  let c := sup_withDefaults c0 in
  0 < MaxRetries c -> InitialBackoff c <= MaxBackoff c -> MaxBackoff c < 2 ^ 62 ->
  (forall i, exists e, runs i = Some e /\ errors_is e Canceled = false /\ errors_is e DeadlineExceeded = false) ->
  (forall i, ctx i = None) -> runs (Z.to_nat (MaxRetries c)) = Some e ->
  exists g, SupervisePullProcess (S (Z.to_nat (MaxRetries c))) true c0 runs ctx =
      Some (Some g, (seq 0 (Z.to_nat (MaxRetries c)) ≫= retry_obs c) ++ [PEvent (SupervisorGiveUp (MaxRetries c))]) /\
    errors_is g ErrSupervisorGiveUp = true /\ (forall name, errors_is e name = true -> errors_is g name = true).
Proof.
  intros c Hm Hi Hx Hruns Hctx He. unfold SupervisePullProcess. fold c. cbn [negb].
  assert (Hpos : 0 < InitialBackoff c).
  { unfold c, sup_withDefaults. simpl. destruct (Z.leb_spec (InitialBackoff c0) 0); [done|lia]. }
  eexists. split.
  - pose proof (pull_loop_fails c runs ctx 0 (Z.to_nat (MaxRetries c)) [] e) as Hl.
    replace (backoff_at c 0) with (InitialBackoff c) in Hl
      by (unfold backoff_at; change (2 ^ Z.of_nat 0) with 1; lia).
    apply Hl; try done; lia.
  - split; [done|]. intros name Hn. rewrite errors_is_wrapf2, Hn. apply orb_true_r.
Qed.

(** A supervised pull loop heals: when the first [k] attempts fail (to bind, or
    while processing) and the next one ends without an error, it returns without
    an error after [k] announced retries, provided [k] is within [MaxRetries]; a
    run that ends because its context ended is never retried. *)
Theorem client_pull_heals c0 pulls process ctx k :
  let c := sup_withDefaults c0 in
  MaxRetries c < 0 \/ Z.of_nat k <= MaxRetries c ->
  (forall i, (i < k)%nat -> exists e, client_pull_run (pulls i) (process i) = Some e /\ errors_is e Canceled = false /\ errors_is e DeadlineExceeded = false) ->
  (forall i, ctx i = None) ->
  (client_pull_run (pulls k) (process k) = None ->
   exists tr, client_SupervisePullProcess (S k) c0 pulls process ctx = Some (None, tr) /\
     omap (fun o => match o with PEvent ev => Some ev | PWaited _ => None end) tr =
       (fun i => SupervisorResubscribed (Z.of_nat (S i))) <$> seq 0 k) /\
  (forall e, client_pull_run (pulls k) (process k) = Some e -> errors_is e Canceled = true ->
   exists tr, client_SupervisePullProcess (S k) c0 pulls process ctx = Some (Some e, tr)).
Proof.
  intros c Hm Hruns Hctx. unfold client_SupervisePullProcess, SupervisePullProcess. fold c. cbn [negb].
  set (runs := fun i => client_pull_run (pulls i) (process i)). fold (runs k).
  assert (forall j, (j <= k)%nat -> exists tr' bo', pull_loop (S k) c runs ctx 0 0 (InitialBackoff c) [] =
    pull_loop (S (k - j)) c runs ctx j (Z.of_nat j) bo' tr' /\
    omap (fun o => match o with PEvent ev => Some ev | PWaited _ => None end) tr' =
      (fun i => SupervisorResubscribed (Z.of_nat (S i))) <$> seq 0 j) as Hreach.
  { intros j Hj. induction j as [|j IH]; [exists [], (InitialBackoff c); by rewrite Nat.sub_0_r|].
    destruct (IH ltac:(lia)) as (tr & bo & -> & Htr). destruct (Hruns j ltac:(lia)) as (e & He & H1 & H2).
    replace (S (k - j))%nat with (S (S (k - S j)))%nat by lia. cbn [pull_loop]. unfold runs at 1. rewrite He, H1, H2. cbn [orb].
    destruct (Z.leb_spec 0 (MaxRetries c)), (Z.leb_spec (MaxRetries c) (Z.of_nat j)); cbn [andb]; try lia;
      rewrite Hctx; eexists _, _; (split; [replace (Z.of_nat (S j)) with (Z.of_nat j + 1) by lia; reflexivity|]); rewrite !omap_app, Htr, seq_S, fmap_app; cbn;
      rewrite app_nil_r; do 4 f_equal; lia. }
  destruct (Hreach k ltac:(lia)) as (tr & bo & -> & Htr). rewrite Nat.sub_diag. cbn [pull_loop]. split.
  - intros E. change (runs k = None) in E. rewrite E. eauto.
  - intros e E Hc. change (runs k = Some e) in E. rewrite E, Hc. cbn [orb]. eauto.
Qed.

(** ** Examples *)

Definition sup_demo : SupervisorConfig := SupCfg 0 0 0 0 0 3.

(** It resubscribes once and is cancelled during the next backoff. *)
Definition heal_then_cancel : list sup_label :=
  [LTick false; LAfter; LSubscribed true; LLoop true; LLoop true; LTick false; LCancelCtx; LCtxDone; LLoop true].
Definition healed : sup := default (sup_init sup_demo) (sup_run sup_demo heal_then_cancel (sup_init sup_demo)).

Lemma supervisor_cleans_up_witness : pc healed = PExit /\ nextId healed = 2%nat /\ live healed ⊆ ∅.
Proof.
  assert (Hr : sup_run sup_demo heal_then_cancel (sup_init sup_demo) = Some healed) by (vm_compute; reflexivity).
  destruct (supervisor_cleans_up sup_demo heal_then_cancel healed Hr) as (H & _).
  assert (He : pc healed = PExit) by (vm_compute; reflexivity).
  assert (Hk : leaked healed = ∅) by (vm_compute; reflexivity). rewrite Hk in H.
  destruct H as [[o Ho]|[_ H]]; [left; set_solver|rewrite He in Ho; discriminate Ho|].
  split; [exact He|]. split; [vm_compute; reflexivity|exact H].
Defined.

Lemma stop_race_leaks_witness : exists s, sup_run sup_demo stop_race (sup_init sup_demo) = Some s /\ live s = {[ 1%nat ]}.
Proof. destruct (stop_race_leaks sup_demo) as (s & H1 & _ & _ & _ & H2 & _); [discriminate|]. by exists s. Defined.

Lemma pull_supervision_gives_up_witness :
  exists g, SupervisePullProcess 4 true sup_demo (fun _ => Some (errorf "boom")) (fun _ => None) =
    Some (Some g, [PEvent (SupervisorResubscribed 1); PWaited (10 ^ 9); PEvent (SupervisorResubscribed 2);
      PWaited (2 * 10 ^ 9); PEvent (SupervisorResubscribed 3); PWaited (4 * 10 ^ 9); PEvent (SupervisorGiveUp 3)]).
Proof.
  destruct (pull_supervision_gives_up sup_demo (fun _ => Some (errorf "boom")) (fun _ => None) (errorf "boom"))
    as (g & Hg & _); [reflexivity|discriminate|reflexivity|by eexists|reflexivity|reflexivity|].
  exists g. exact Hg.
Defined.

(** The durable appears after two failed binds. *)
Lemma client_pull_heals_witness :
  exists tr, client_SupervisePullProcess 3 sup_demo (fun i => if (i <? 2)%nat then Some (errorf "consumer not found") else None)
    (fun _ => None) (fun _ => None) = Some (None, tr).
Proof.
  destruct (client_pull_heals sup_demo (fun i => if (i <? 2)%nat then Some (errorf "consumer not found") else None)
    (fun _ => None) (fun _ => None) 2) as [H _].
  - right. discriminate.
  - intros i Hi. exists (errorf "consumer not found"). split; [|split; reflexivity].
    destruct i as [|[|i]]; [reflexivity|reflexivity|lia].
  - reflexivity.
  - destruct (H eq_refl) as (tr & Ht & _). exists tr. exact Ht.
Defined.
