(* ===== verification/Watch.v ===== *)
(** * Flight recorder and consumer watchers (flight_recorder.go, slow_consumer.go, soft_liveness.go)

    The recorder is a ring buffer; the two watchers are loops over polls, given
    here as one step per poll on the loop's variables.  Logs and metrics are left
    out; a step returns the event it emits, and how it is delivered is in
    [Events]. *)

From Stdlib Require Import SpecFloat.
From S2P Require Import Prelude GoStr Pressure Supervisor.

(** ** Flight recorder *)
Module Recorder.

Definition defaultFlightRecorderCapacity : Z := 128.
Definition IncidentSupervisor : Z := 1.
Definition IncidentStall : Z := 2.
Definition IncidentDLQ : Z := 3.
Definition IncidentReconnect : Z := 4.
Definition IncidentShadow : Z := 5.

Record IncidentEvent := Incident {
  iTime : Z; Detail : string; iSubject : string; iStream : string; iConsumer : string; iReason : string;
  iErr : string; iSequence : Z; iNumPending : Z; iAttempt : Z; Kind : Z
}.
Definition no_event : IncidentEvent := Incident 0 "" "" "" "" "" "" 0 0 0 0.

Record FlightRecorder := FR { buf : list IncidentEvent; rcap : nat; rnext : nat; full : bool }.

Definition NewFlightRecorder (capacity : Z) : FlightRecorder :=
  let c := Z.to_nat (if capacity <=? 0 then defaultFlightRecorderCapacity else capacity) in
  FR (replicate c no_event) c 0 false.

(** A zero time is replaced by the clock. *)
Definition stamp (now : Z) (ev : IncidentEvent) : IncidentEvent :=
  if iTime ev =? 0
  then Incident now (Detail ev) (iSubject ev) (iStream ev) (iConsumer ev) (iReason ev) (iErr ev)
         (iSequence ev) (iNumPending ev) (iAttempt ev) (Kind ev)
  else ev.

Definition Record_ (now : Z) (ev : IncidentEvent) (r : FlightRecorder) : FlightRecorder :=
  let next' := ((rnext r + 1) mod rcap r)%nat in
  FR (<[rnext r := stamp now ev]> (buf r)) (rcap r) next' (if (next' =? 0)%nat then true else full r).

Definition Snapshot (r : FlightRecorder) : list IncidentEvent :=
  if negb (full r) then take (rnext r) (buf r)
  else drop (rnext r) (buf r) ++ take (rnext r) (buf r).

Definition RecordDLQ (now : Z) (subject stream consumer reason : string) (seq : Z) : FlightRecorder -> FlightRecorder :=
  Record_ now (Incident 0 "dlq_route" subject stream consumer reason "" seq 0 0 IncidentDLQ).
Definition RecordDLQAutopsy (now : Z) (subject stream consumer reason errStr : string) (seq : Z)
  : FlightRecorder -> FlightRecorder :=
  Record_ now (Incident 0 "autopsy" subject stream consumer reason errStr seq 0 0 IncidentDLQ).
Definition RecordReconnect (now : Z) (detail : string) : FlightRecorder -> FlightRecorder :=
  Record_ now (Incident 0 detail "" "" "" "" "" 0 0 0 IncidentReconnect).

Definition supervisorKindName (ev : SupervisorEvent) : string :=
  match ev with
  | SupervisorResubscribed _ => "resubscribed"
  | SupervisorGiveUp _ => "give_up"
  | SupervisorInvalid _ => "invalid"
  end.
Definition event_attempt (ev : SupervisorEvent) : Z :=
  match ev with SupervisorResubscribed n | SupervisorGiveUp n | SupervisorInvalid n => n end.
(** [AttachSupervisor]: the incident recorded for a supervisor event. *)
Definition supervisor_incident (ev : SupervisorEvent) (errText : string) : IncidentEvent :=
  Incident 0 (supervisorKindName ev) "" "" "" "" errText 0 0 (event_attempt ev) IncidentSupervisor.
(** [AttachSoftLiveness]: the incident recorded for a stall. *)
Definition stall_incident (numPending : Z) (errText : string) : IncidentEvent :=
  Incident 0 "consumer_stall" "" "" "" "" errText 0 numPending 0 IncidentStall.

(** Record a list of (clock, event) pairs. *)
Definition record_all (evs : list (Z * IncidentEvent)) (r : FlightRecorder) : FlightRecorder :=
  fold_left (fun r e => Record_ e.1 e.2 r) evs r.
Definition stamped (evs : list (Z * IncidentEvent)) : list IncidentEvent := (fun e => stamp e.1 e.2) <$> evs.

(** The ring holds the last [rcap] events of the history [h]. *)
Record ring_ok (h : list IncidentEvent) (r : FlightRecorder) : Prop := {
  ro_cap : (0 < rcap r)%nat;
  ro_len : length (buf r) = rcap r;
  ro_next : (rnext r < rcap r)%nat;
  ro_part : full r = false -> take (rnext r) (buf r) = h /\ length h = rnext r;
  ro_full : full r = true -> drop (rnext r) (buf r) ++ take (rnext r) (buf r) = drop (length h - rcap r) h /\
    (rcap r <= length h)%nat
}.

Lemma ring_init c : ring_ok [] (NewFlightRecorder c).
Proof.
  assert (0 < (if c <=? 0 then defaultFlightRecorderCapacity else c))
    by (destruct (Z.leb_spec c 0); unfold defaultFlightRecorderCapacity; lia).
  constructor; simpl; [lia|by rewrite length_replicate|lia|done|done].
Qed.

Lemma take_drop_written (l : list IncidentEvent) i x :
  (i < length l)%nat -> take (S i) (<[i := x]> l) = take i l ++ [x] /\ drop (S i) (<[i := x]> l) = drop (S i) l.
Proof.
  intros Hi. split; [|by rewrite drop_insert_lt by lia].
  rewrite (take_S_r _ _ x) by (rewrite list_lookup_insert; case_decide; naive_solver).
  by rewrite take_insert_ge by lia.
Qed.

(** Where the write index goes: one up, or back to 0 from the last slot. *)
Lemma next_index r : (rnext r < rcap r)%nat ->
  let n := ((rnext r + 1) mod rcap r)%nat in
  (n = S (rnext r) /\ (n < rcap r)%nat) \/ (n = 0%nat /\ S (rnext r) = rcap r).
Proof.
  intros H. simpl. rewrite Nat.add_1_r. destruct (Nat.eq_dec (S (rnext r)) (rcap r)) as [E|E].
  - right. rewrite E, Nat.Div0.mod_same. auto.
  - left. rewrite Nat.mod_small by lia. split; [done|lia].
Qed.

Lemma drop_one_more (h : list IncidentEvent) c x y l : (c <= length h)%nat ->
  y :: l = drop (length h - c) h -> l ++ [x] = drop (length (h ++ [x]) - c) (h ++ [x]).
Proof.
  intros Hc E. rewrite length_app. simpl. replace (length h + 1 - c)%nat with (S (length h - c)) by lia.
  assert (S (length h - c) <= length h)%nat.
  { apply (f_equal length) in E. rewrite length_drop in E. simpl in E. lia. }
  rewrite drop_app_le by done.
  replace (S (length h - c)) with (length h - c + 1)%nat by lia. by rewrite <- drop_drop, <- E.
Qed.

Lemma ring_record h r now ev : ring_ok h r -> ring_ok (h ++ [stamp now ev]) (Record_ now ev r).
Proof.
  intros [H1 H2 H3 H4 H5]. unfold Record_. set (x := stamp now ev).
  destruct (take_drop_written (buf r) (rnext r) x) as [Et Ed]; [lia|].
  assert (length (<[rnext r := x]> (buf r)) = rcap r) as El by (by rewrite length_insert).
  destruct (lookup_lt_is_Some_2 (buf r) (rnext r)) as [y Hy]; [lia|].
  assert (full r = true -> y :: (drop (S (rnext r)) (buf r) ++ take (rnext r) (buf r)) = drop (length h - rcap r) h)
    as Hf by (intros F; rewrite <- (proj1 (H5 F)); by rewrite (drop_S _ _ _ Hy)).
  destruct (next_index r H3) as [[En Hn]|[En Hn]]; rewrite En; constructor; simpl; try done; try lia.
  - intros F. destruct (H4 F) as [<- L]. rewrite Et, length_app. simpl. split; [done|lia].
  - intros F. destruct (H5 F) as [_ L]. rewrite Et, Ed, app_assoc.
    split; [eapply drop_one_more; eauto|rewrite length_app; lia].
  - intros _. rewrite app_nil_r, <- (firstn_all (<[rnext r:=x]> (buf r))), El, <- Hn, Et.
    destruct (full r) eqn:F.
    + destruct (H5 eq_refl) as [_ L]. split; [|rewrite length_app; simpl; lia].
      rewrite Hn. eapply drop_one_more; [done|]. rewrite <- Hf by done. by rewrite drop_ge by lia.
    + destruct (H4 eq_refl) as [<- L]. rewrite length_app in *. simpl. split; [|lia].
      by replace (length (take (rnext r) (buf r)) + 1 - S (rnext r))%nat with 0%nat by lia.
Qed.

Lemma ring_record_all evs h r : ring_ok h r -> ring_ok (h ++ stamped evs) (record_all evs r).
Proof.
  revert h r. induction evs as [|[t e] evs IH]; intros h r H; simpl.
  - by rewrite app_nil_r.
  - rewrite cons_middle, app_assoc. apply IH. by apply ring_record.
Qed.

Lemma rcap_record_all evs r : rcap (record_all evs r) = rcap r.
Proof. revert r. induction evs as [|[t e] evs IH]; intros r; [done|]. simpl. by rewrite IH. Qed.

(** Whatever was recorded, in whatever amount, the snapshot is the last
    [capacity] incidents, oldest first, each with its own time or the time it was
    recorded at; nothing else is ever in it. *)
Theorem Snapshot_is_recent_history (capacity : Z) (evs : list (Z * IncidentEvent)) :
  Snapshot (record_all evs (NewFlightRecorder capacity)) =
  drop (length evs - rcap (NewFlightRecorder capacity)) (stamped evs).
Proof.
  pose proof (ring_record_all evs [] _ (ring_init capacity)) as H. simpl in H.
  destruct H as [H1 H2 H3 H4 H5]. unfold Snapshot.
  assert (length (stamped evs) = length evs) as Ls by apply length_fmap.
  rewrite rcap_record_all in *. destruct (full _) eqn:F; simpl.
  - destruct (H5 eq_refl) as [-> _]. by rewrite Ls.
  - destruct (H4 eq_refl) as [-> L].
    by replace (length evs - _)%nat with 0%nat by (simpl in *; lia).
Qed.
End Recorder.

(** ** Slow-consumer watcher *)
Module Slow.

Definition second : Z := 1000000000.
Definition defaultSlowConsumerPollInterval : Z := 2 * second.
Definition defaultSlowConsumerSustainFor : Z := 30 * second.
Definition defaultSlowConsumerPendingThresh : Z := 1000.
Definition defaultSlowConsumerLagThresh : Z := 1000.
Definition defaultSlowConsumerAckPendingRatio : spec_float := f64_ratio 9 10.
Definition SlowReasonPending : string := "pending".
Definition SlowReasonLag : string := "lag".
Definition SlowReasonAckPending : string := "ack_pending".

Record SlowConsumerConfig := SlowCfg {
  PollInterval : Z; SustainFor : Z; PendingThreshold : Z; LagThreshold : Z; AckPendingRatio : spec_float;
  CircuitStop : bool
}.

Definition slow_withDefaults (c : SlowConsumerConfig) : SlowConsumerConfig :=
  SlowCfg (if PollInterval c <=? 0 then defaultSlowConsumerPollInterval else PollInterval c)
    (if SustainFor c <=? 0 then defaultSlowConsumerSustainFor else SustainFor c)
    (if PendingThreshold c =? 0 then defaultSlowConsumerPendingThresh else PendingThreshold c)
    (if LagThreshold c =? 0 then defaultSlowConsumerLagThresh else LagThreshold c)
    (if SFleb (AckPendingRatio c) (f64_of_int 0) then defaultSlowConsumerAckPendingRatio else AckPendingRatio c)
    (CircuitStop c).

(** The fields of [nats.ConsumerInfo] the loop reads. *)
Record ConsumerInfo := CInfo {
  ciStream : string; ciName : string; ciNumPending : Z; ciNumAckPending : Z; ciMaxAckPending : Z;
  ciDeliveredStream : Z
}.
Record SlowConsumerEvent := SlowEv {
  seStream : string; seDurable : string; seReasons : list string; sePending : Z; seLag : Z;
  seAckPending : Z; seMaxAckPending : Z; seSustainedFor : Z
}.

(** [int(f)]: truncation toward zero.  The language leaves the result open when
    the value does not fit an int; [bad] stands for it. *)
Definition f64_to_int (bad : spec_float -> Z) (f : spec_float) : Z :=
  match f with
  | S754_zero _ => 0
  | S754_finite s m e =>
      let a := Z.shiftl (Zpos m) e in
      let z := if s then - a else a in
      if (- 2 ^ 63 <=? z) && (z <? 2 ^ 63) then z else bad f
  | _ => bad f
  end.

(** [ConsumerLagMessages] *)
Definition ConsumerLagMessages (streamLastSeq deliveredStreamSeq : Z) : Z :=
  if streamLastSeq <=? deliveredStreamSeq then 0 else streamLastSeq - deliveredStreamSeq.

Section Watcher.
Context (bad : spec_float -> Z).

Definition ack_limit (cfg : SlowConsumerConfig) (maxAckPending : Z) : Z :=
  let limit := f64_to_int bad (SFmul 53 1024 (f64_of_int maxAckPending) (AckPendingRatio cfg)) in
  if limit <? 1 then 1 else limit.

Definition EvaluateSlowConsumer (pending lag ackPending maxAckPending : Z) (cfg0 : SlowConsumerConfig)
  : bool * list string :=
  let cfg := slow_withDefaults cfg0 in
  let reasons :=
    (if PendingThreshold cfg <=? pending then [SlowReasonPending] else []) ++
    (if LagThreshold cfg <=? lag then [SlowReasonLag] else []) ++
    (if (0 <? maxAckPending) && (ack_limit cfg maxAckPending <=? ackPending) then [SlowReasonAckPending] else []) in
  (negb (bool_decide (reasons = [])), reasons).

(** One poll: the clock, what [ConsumerInfo] returned ([None] for an error or a
    nil info) and the stream tip ([streamLastSeq]: [None] for a nil function or
    an error). *)
Record slow_poll_in := SlowPoll { pNow : Z; pInfo : option ConsumerInfo; pTip : string -> option Z }.

Record slow_state := SlowSt { breachStart : Z; haveBreach : bool; sSlow : bool; sRunning : bool }.
Definition slow_init : slow_state := SlowSt 0 false false true.

Definition poll_lag (p : slow_poll_in) (info : ConsumerInfo) : Z :=
  let lastSeq := if String.eqb (ciStream info) "" then 0 else default 0 (pTip p (ciStream info)) in
  ConsumerLagMessages lastSeq (ciDeliveredStream info).

(** The body of [loop] on a tick. *)
Definition slow_tick (cfg : SlowConsumerConfig) (p : slow_poll_in) (s : slow_state)
  : slow_state * option SlowConsumerEvent :=
  let clear := (SlowSt (breachStart s) false (sSlow s) (sRunning s), None) in
  if negb (sRunning s) then (s, None) else
  match pInfo p with
  | None => clear
  | Some info =>
      let lag := poll_lag p info in
      let '(slowNow, reasons) :=
        EvaluateSlowConsumer (ciNumPending info) lag (ciNumAckPending info) (ciMaxAckPending info) cfg in
      if negb slowNow then clear else
      let start := if haveBreach s then breachStart s else pNow p in
      let sustained := pNow p - start in
      let wait := (SlowSt start true (sSlow s) (sRunning s), None) in
      if sustained <? SustainFor cfg then wait
      else if sSlow s && negb (CircuitStop cfg) then wait
      else
        let ev := SlowEv (ciStream info) (ciName info) reasons (ciNumPending info) lag
                    (ciNumAckPending info) (ciMaxAckPending info) sustained in
        if CircuitStop cfg then (SlowSt start true true false, Some ev)
        else (SlowSt 0 false true true, Some ev)
  end.

(** The loop after it has taken its stop case. *)
Definition slow_stop (s : slow_state) : slow_state :=
  SlowSt (breachStart s) (haveBreach s) (sSlow s) false.

Fixpoint slow_watch (cfg : SlowConsumerConfig) (ps : list slow_poll_in) (s : slow_state)
  : slow_state * list SlowConsumerEvent :=
  match ps with
  | [] => (s, [])
  | p :: ps' =>
      let '(s1, ev) := slow_tick cfg p s in
      let '(s2, evs) := slow_watch cfg ps' s1 in
      (s2, option_list ev ++ evs)
  end.

(** [WatchSlowConsumer]: [None] for the nil-subscription error; the loop runs on
    the defaulted config. *)
Definition WatchSlowConsumer (haveSub : bool) (cfg : SlowConsumerConfig) (ps : list slow_poll_in)
  : option (slow_state * list SlowConsumerEvent) :=
  if haveSub then Some (slow_watch (slow_withDefaults cfg) ps slow_init) else None.

(** The client's helper: the tip comes from its stream manager, if it has one;
    [info] is the answer of [StreamInfo], [Ok None] a nil info, which counts as
    an empty stream. *)
Definition client_tip (haveStreams : bool) (info : string -> res (option Z)) (stream : string) : option Z :=
  if negb haveStreams then None else
  match info stream with Er _ => None | Ok None => Some 0 | Ok (Some lastSeq) => Some lastSeq end.
Definition client_poll (haveStreams : bool) (q : Z * option ConsumerInfo * (string -> res (option Z))) : slow_poll_in :=
  SlowPoll q.1.1 q.1.2 (client_tip haveStreams q.2).
Definition client_WatchSlowConsumer (haveStreams haveSub : bool) (cfg : SlowConsumerConfig)
  (qs : list (Z * option ConsumerInfo * (string -> res (option Z)))) : option (slow_state * list SlowConsumerEvent) :=
  WatchSlowConsumer haveSub cfg (client_poll haveStreams <$> qs).

(** A poll that meets a threshold. *)
Definition breaching (cfg : SlowConsumerConfig) (p : slow_poll_in) : bool :=
  match pInfo p with
  | None => false
  | Some info =>
      (EvaluateSlowConsumer (ciNumPending info) (poll_lag p info) (ciNumAckPending info) (ciMaxAckPending info) cfg).1
  end.

(** One tick, by whether the poll breaches. *)
Lemma slow_tick_cases cfg p s : sRunning s = true ->
  let start := if haveBreach s then breachStart s else pNow p in
  (breaching cfg p = false /\ slow_tick cfg p s = (SlowSt (breachStart s) false (sSlow s) true, None)) \/
  (breaching cfg p = true /\ (pNow p - start < SustainFor cfg \/ sSlow s && negb (CircuitStop cfg) = true) /\
     slow_tick cfg p s = (SlowSt start true (sSlow s) true, None)) \/
  (breaching cfg p = true /\ SustainFor cfg <= pNow p - start /\ sSlow s && negb (CircuitStop cfg) = false /\
     exists ev, slow_tick cfg p s =
       (if CircuitStop cfg then SlowSt start true true false else SlowSt 0 false true true, Some ev) /\
       seSustainedFor ev = pNow p - start).
Proof.
  intros Hr. unfold slow_tick, breaching. rewrite Hr. cbv zeta. cbn [negb].
  destruct (pInfo p) as [info|]; [|left; done].
  destruct (EvaluateSlowConsumer (ciNumPending info) (poll_lag p info) (ciNumAckPending info)
    (ciMaxAckPending info) cfg) as [slowNow reasons]. simpl.
  destruct slowNow; simpl; [right|left; done].
  destruct (Z.ltb_spec (pNow p - (if haveBreach s then breachStart s else pNow p)) (SustainFor cfg)); [left; auto|].
  destruct (sSlow s && negb (CircuitStop cfg)) eqn:E; [left; auto|right].
  split; [done|]. split; [done|]. split; [done|].
  destruct (CircuitStop cfg); eexists; (split; [reflexivity|done]).
Qed.

(** The watcher has reported and will not report again. *)
Definition spent (cfg : SlowConsumerConfig) (s : slow_state) : Prop :=
  sSlow s = true /\ (CircuitStop cfg = false \/ sRunning s = false).

Lemma spent_stays cfg ps s : spent cfg s ->
  spent cfg (slow_watch cfg ps s).1 /\ (slow_watch cfg ps s).2 = [].
Proof.
  revert s. induction ps as [|p ps IH]; intros s Hs; [done|]. simpl.
  assert (exists s1, slow_tick cfg p s = (s1, None) /\ spent cfg s1) as (s1 & -> & H1).
  { destruct Hs as [E1 E2]. destruct (sRunning s) eqn:Hr.
    - destruct E2 as [E2|]; [|done].
      destruct (slow_tick_cases cfg p s Hr) as [[_ ->]|[(_ & _ & ->)|(_ & _ & H & _)]].
      + eexists; split; [done|]. split; simpl; auto.
      + eexists; split; [done|]. split; simpl; auto.
      + by rewrite E1, E2 in H.
    - exists s. unfold slow_tick. rewrite Hr. split; [done|]. split; auto. }
  specialize (IH s1 H1). by destruct (slow_watch cfg ps s1).
Qed.

(** A watcher that has not reported: the two ways it can go. *)
Lemma fresh_tick cfg p s : sRunning s = true -> sSlow s = false ->
  (exists s1, slow_tick cfg p s = (s1, None) /\ sRunning s1 = true /\ sSlow s1 = false) \/
  (exists s1 ev, slow_tick cfg p s = (s1, Some ev) /\ spent cfg s1).
Proof.
  intros Hr Hs. destruct (slow_tick_cases cfg p s Hr) as [[_ ->]|[(_ & _ & ->)|(_ & _ & _ & ev & -> & _)]].
  - left. eexists; split; [done|]. auto.
  - left. eexists; split; [done|]. auto.
  - right. destruct (CircuitStop cfg) eqn:E; do 2 eexists; (split; [done|]); unfold spent; simpl; auto.
Qed.

(** However often the backlog builds up, clears and builds up again, a watcher
    reports once in its lifetime, with or without [CircuitStop]; [Slow] is true
    exactly when it has.  The comments in the loop promise another report after
    the backlog has cleared, but the sticky flag is never reset. *)
Theorem slow_reports_once (cfg : SlowConsumerConfig) (ps : list slow_poll_in) :
  forall s evs, WatchSlowConsumer true cfg ps = Some (s, evs) ->
  (length evs <= 1)%nat /\ (sSlow s = true <-> evs <> []).
Proof.
  unfold WatchSlowConsumer. intros s evs [= H]. revert H.
  generalize (slow_withDefaults cfg). intros c.
  assert (sRunning slow_init = true /\ sSlow slow_init = false) as [Hr Hs] by done.
  revert Hr Hs. generalize slow_init. revert s evs.
  induction ps as [|p ps IH]; intros s evs s0 Hr Hs H; simpl in H.
  - injection H as <- <-. rewrite Hs. simpl. split; [lia|]. split; congruence.
  - destruct (fresh_tick c p s0 Hr Hs) as [(s1 & E & H1 & H2)|(s1 & ev & E & H1)]; rewrite E in H.
    + destruct (slow_watch c ps s1) as [s2 evs2] eqn:E2. injection H as <- <-. simpl. eauto.
    + destruct (spent_stays c ps s1 H1) as [H2 H3]. destruct (slow_watch c ps s1). simpl in *. subst.
      injection H as <- <-. simpl. split; [lia|]. destruct H2 as [-> _]. split; [by intros|done].
Qed.

(** The trailing run of breaching polls, latest first. *)
Fixpoint trailing (cfg : SlowConsumerConfig) (rev_ps : list slow_poll_in) : list slow_poll_in :=
  match rev_ps with
  | p :: ps => if breaching cfg p then p :: trailing cfg ps else []
  | [] => []
  end.
(** The oldest poll of a non-empty run. *)
Fixpoint oldest (p : slow_poll_in) (run : list slow_poll_in) : slow_poll_in :=
  match run with [] => p | q :: run' => oldest q run' end.
(** How long the backlog has been sustained at the end of [ps]. *)
Definition sustained_for (cfg : SlowConsumerConfig) (ps : list slow_poll_in) : option Z :=
  match trailing cfg (reverse ps) with
  | [] => None
  | p :: run => Some (pNow p - pNow (oldest p run))
  end.

Lemma slow_watch_snoc cfg h p s :
  slow_watch cfg (h ++ [p]) s =
  let '(s1, evs) := slow_watch cfg h s in
  let '(s2, ev) := slow_tick cfg p s1 in (s2, evs ++ option_list ev).
Proof.
  revert s. induction h as [|q h IH]; intros s; simpl.
  - destruct (slow_tick cfg p s) as [? ev]. by rewrite app_nil_r.
  - destruct (slow_tick cfg q s) as [s1 e]. rewrite IH. destruct (slow_watch cfg h s1) as [s2 evs].
    destruct (slow_tick cfg p s2). by rewrite app_assoc.
Qed.

(** The loop variables of a watcher that has not reported: when the backlog run
    began. *)
Definition tracks (cfg : SlowConsumerConfig) (h : list slow_poll_in) (s : slow_state) : Prop :=
  sRunning s = true /\ sSlow s = false /\
  match trailing cfg (reverse h) with
  | [] => haveBreach s = false
  | q :: run => haveBreach s = true /\ breachStart s = pNow (oldest q run)
  end.

Lemma sustained_snoc cfg h p s : tracks cfg h s -> breaching cfg p = true ->
  sustained_for cfg (h ++ [p]) = Some (pNow p - (if haveBreach s then breachStart s else pNow p)) /\
  tracks cfg (h ++ [p]) (SlowSt (if haveBreach s then breachStart s else pNow p) true (sSlow s) true).
Proof.
  intros (H1 & H2 & H3) Hb. unfold sustained_for, tracks. rewrite reverse_snoc. simpl. rewrite Hb, H2.
  destruct (trailing cfg (reverse h)) as [|q run].
  - rewrite H3. simpl. auto.
  - destruct H3 as [-> ->]. simpl. auto.
Qed.

Lemma tracks_watch cfg h : (slow_watch cfg h slow_init).2 = [] -> tracks cfg h (slow_watch cfg h slow_init).1.
Proof.
  induction h as [|p h IH] using rev_ind; [by intros|]. rewrite slow_watch_snoc.
  destruct (slow_watch cfg h slow_init) as [s evs]. simpl in IH.
  destruct (slow_tick cfg p s) as [s1 ev] eqn:Et. simpl. intros [-> E]%app_nil.
  specialize (IH eq_refl).
  destruct (slow_tick_cases cfg p s) as [[Hb Hq]|[(Hb & _ & Hq)|(_ & _ & _ & e & Hq & _)]]; [by destruct IH|..];
    rewrite Hq in Et; injection Et as <- <-.
  - destruct IH as (H1 & H2 & H3). unfold tracks. rewrite reverse_snoc. simpl. by rewrite Hb.
  - by destruct (sustained_snoc cfg h p s IH Hb).
  - done.
Qed.

(** Detection is exact: a watcher that has not reported yet reports at a poll
    precisely when that poll ends an unbroken run of polls over a threshold that
    spans at least [SustainFor], and the event carries that span. *)
Theorem slow_detection_exact (cfg : SlowConsumerConfig) (h : list slow_poll_in) (p : slow_poll_in) (d : Z) :
  let c := slow_withDefaults cfg in
  (slow_watch c h slow_init).2 = [] ->
  (exists ev, (slow_watch c (h ++ [p]) slow_init).2 = [ev] /\ seSustainedFor ev = d) <->
  (sustained_for c (h ++ [p]) = Some d /\ SustainFor c <= d).
Proof.
  intros c Hq. clearbody c. pose proof (tracks_watch c h Hq) as Ht. rewrite slow_watch_snoc.
  destruct (slow_watch c h slow_init) as [s evs]. simpl in *. subst evs.
  assert (sRunning s = true) as Hr by apply Ht.
  destruct (slow_tick_cases c p s Hr) as [[Hb ->]|[(Hb & Hw & ->)|(Hb & Hw & _ & e & -> & He)]]; simpl.
  - unfold sustained_for. rewrite reverse_snoc. simpl. rewrite Hb. naive_solver.
  - destruct (sustained_snoc c h p s Ht Hb) as [-> _]. destruct Ht as (_ & Hs & _). rewrite Hs in Hw.
    split; [naive_solver|]. intros [[= <-] ?]. destruct Hw as [?|?]; [lia|done].
  - destruct (sustained_snoc c h p s Ht Hb) as [-> _]. split.
    + intros (ev & [= <-] & <-). by rewrite He.
    + intros [[= <-] _]. eauto.
Qed.

(** Every event is what some poll made of some state. *)
Lemma slow_watch_origin cfg ps s ev : ev ∈ (slow_watch cfg ps s).2 -> exists p s', p ∈ ps /\ (slow_tick cfg p s').2 = Some ev.
Proof.
  revert s. induction ps as [|p ps IH]; intros s; simpl; [by intros ?%elem_of_nil|].
  destruct (slow_tick cfg p s) as [s1 o] eqn:E. specialize (IH s1). destruct (slow_watch cfg ps s1) as [s2 evs]. simpl in *.
  rewrite elem_of_app. intros [H|H].
  - exists p, s. rewrite E. split; [by left|]. destruct o as [e|]; simpl in H; [|by apply elem_of_nil in H].
    apply list_elem_of_singleton in H. by subst.
  - destruct (IH H) as (q & s' & Hq & Ht). exists q, s'. split; [by right|done].
Qed.

Lemma slow_tick_event cfg p s ev : (slow_tick cfg p s).2 = Some ev ->
  exists i, pInfo p = Some i /\ seLag ev = poll_lag p i /\
    seReasons ev = (EvaluateSlowConsumer (ciNumPending i) (poll_lag p i) (ciNumAckPending i) (ciMaxAckPending i) cfg).2.
Proof.
  unfold slow_tick. destruct (negb (sRunning s)); [done|]. destruct (pInfo p) as [i|]; [|done].
  cbv zeta. destruct (EvaluateSlowConsumer _ _ _ _ _) as [slowNow reasons] eqn:E. cbn [snd].
  repeat case_match; cbn [snd]; try done; intros [= <-]; exists i; (split; [done|]); (split; [done|]); by rewrite E.
Qed.

Lemma zero_lag_no_reason pending ack mx cfg : 0 <= LagThreshold cfg ->
  SlowReasonLag ∉ (EvaluateSlowConsumer pending 0 ack mx cfg).2.
Proof.
  intros Hl. unfold EvaluateSlowConsumer. cbn [snd]. set (c := slow_withDefaults cfg).
  assert (0 < LagThreshold c) as Hp by (unfold c, slow_withDefaults; cbn [LagThreshold]; destruct (Z.eqb_spec (LagThreshold cfg) 0); [done|lia]).
  destruct (Z.leb_spec (LagThreshold c) 0); [lia|]. rewrite !elem_of_app.
  intros [H'|[H'|H']]; try (match type of H' with context [if ?b then _ else _] => destruct b end); by rewrite ?list_elem_of_singleton, ?elem_of_nil in H'.
Qed.

(** The lag needs the stream: a client whose stream manager is missing, or whose
    stream information cannot be read, never reports a lag, however far the
    consumer is behind; the lag of its events is zero and the reasons are the
    other two. *)
Theorem lag_needs_stream_info haveStreams (cfg : SlowConsumerConfig) qs s evs :
  0 <= LagThreshold cfg ->
  (forall q, q ∈ qs -> (exists i, q.1.2 = Some i /\ 0 <= ciDeliveredStream i) \/ q.1.2 = None) ->
  (haveStreams = true -> forall q st, q ∈ qs -> exists e, q.2 st = Er e) ->
  client_WatchSlowConsumer haveStreams true cfg qs = Some (s, evs) ->
  Forall (fun ev => seLag ev = 0 /\ SlowReasonLag ∉ seReasons ev) evs.
Proof.
  unfold client_WatchSlowConsumer, WatchSlowConsumer. intros Hl Hd Hf [= H]. apply List.Forall_forall. intros ev Hev%list_elem_of_In.
  assert (ev ∈ (slow_watch (slow_withDefaults cfg) (client_poll haveStreams <$> qs) slow_init).2) as Hin by by rewrite H.
  destruct (slow_watch_origin _ _ _ _ Hin) as (p & s' & Hp & Ht). apply list_elem_of_fmap in Hp as (q & -> & Hq).
  assert (forall i, q.1.2 = Some i -> poll_lag (client_poll haveStreams q) i = 0) as Hlag.
  { intros i Hi. unfold poll_lag, client_poll, client_tip. simpl. destruct (Hd q Hq) as [(i' & Hi' & Hpos)|Hn]; [|congruence].
    rewrite Hi in Hi'. injection Hi' as <-.
    assert ((if String.eqb (ciStream i) "" then 0 else default 0
      (if negb haveStreams then None else match q.2 (ciStream i) with Er _ => None | Ok None => Some 0 | Ok (Some n) => Some n end)) = 0) as ->.
    { destruct (String.eqb _ _); [done|]. destruct haveStreams; [|done]. by destruct (Hf eq_refl q (ciStream i) Hq) as [e ->]. }
    unfold ConsumerLagMessages. by destruct (Z.leb_spec 0 (ciDeliveredStream i)); [|lia]. }
  destruct (slow_tick_event _ _ _ _ Ht) as (i & Hi & -> & ->). simpl in Hi. rewrite (Hlag i Hi). split; [done|].
  apply zero_lag_no_reason. simpl. by destruct (Z.eqb_spec (LagThreshold cfg) 0).
Qed.

End Watcher.
End Slow.

(** ** Soft-liveness watcher *)
Module Soft.

Definition defaultSoftLivenessPollInterval : Z := 2 * Slow.second.
Definition defaultSoftLivenessStallAfter : Z := 10 * Slow.second.
Definition defaultSoftLivenessRisingWindows : Z := 3.
Definition maxDuration : Z := 2 ^ 63 - 1.

Record SoftLivenessConfig := SoftCfg {
  softPollInterval : Z; StallAfter : Z; RisingWindows : Z; softCircuitStop : bool
}.
Definition soft_withDefaults (c : SoftLivenessConfig) : SoftLivenessConfig :=
  SoftCfg (if softPollInterval c <=? 0 then defaultSoftLivenessPollInterval else softPollInterval c)
    (if StallAfter c <=? 0 then defaultSoftLivenessStallAfter else StallAfter c)
    (if RisingWindows c <=? 0 then defaultSoftLivenessRisingWindows else RisingWindows c)
    (softCircuitStop c).

(** [ProcessActivity]: the last success in Unix nanoseconds, 0 for none. *)
Definition Touch (now : Z) (lastUnixNano : Z) : Z := now.
(** [time.Since(LastSuccess())]; the zero time is further back than a Duration
    reaches. *)
Definition idle_since (now lastUnixNano : Z) : Z :=
  if lastUnixNano =? 0 then maxDuration else now - lastUnixNano.

Record SoftLivenessEvent := SoftEv { slNumPending : Z; slStalledFor : Z }.
(** One poll: the clock, the activity tracker and [NumPending] ([None] for an
    error or a nil info). *)
Record soft_poll_in := SoftPoll { oNow : Z; oLast : Z; oPending : option Z }.
Record soft_state := SoftSt { prevPending : Z; havePrev : bool; rising : Z; stalled : bool; softRunning : bool }.
Definition soft_init : soft_state := SoftSt 0 false 0 false true.

(** The body of [loop] on a tick. *)
Definition soft_tick (cfg : SoftLivenessConfig) (p : soft_poll_in) (s : soft_state)
  : soft_state * option SoftLivenessEvent :=
  if negb (softRunning s) then (s, None) else
  match oPending p with
  | None => (s, None)
  | Some pending =>
      let r := if havePrev s && (prevPending s <? pending) then rising s + 1 else 0 in
      let idle := idle_since (oNow p) (oLast p) in
      if (r <? RisingWindows cfg) || (idle <? StallAfter cfg) || (pending =? 0)
      then (SoftSt pending true r (stalled s) true, None)
      else (SoftSt pending true (if softCircuitStop cfg then r else 0) true (negb (softCircuitStop cfg)),
            Some (SoftEv pending idle))
  end.

Fixpoint soft_watch (cfg : SoftLivenessConfig) (ps : list soft_poll_in) (s : soft_state)
  : soft_state * list SoftLivenessEvent :=
  match ps with
  | [] => (s, [])
  | p :: ps' =>
      let '(s1, ev) := soft_tick cfg p s in
      let '(s2, evs) := soft_watch cfg ps' s1 in
      (s2, option_list ev ++ evs)
  end.

Definition WatchSoftLiveness (haveSub : bool) (cfg : SoftLivenessConfig) (ps : list soft_poll_in)
  : option (soft_state * list SoftLivenessEvent) :=
  if haveSub then Some (soft_watch (soft_withDefaults cfg) ps soft_init) else None.

(** The backlog sizes that polls reported, oldest first. *)
Definition backlogs (ps : list soft_poll_in) : list Z := omap oPending ps.

Fixpoint strictly_rising (a : Z) (l : list Z) : Prop :=
  match l with [] => True | b :: l' => a < b /\ strictly_rising b l' end.

Fixpoint final (a : Z) (l : list Z) : Z := match l with [] => a | b :: l' => final b l' end.

(** The reported backlogs end in [a :: run], [run] rising, as long as the
    counter. *)
Definition rising_ok (h : list soft_poll_in) (s : soft_state) : Prop :=
  0 <= rising s /\
  (havePrev s = false -> rising s = 0) /\
  (havePrev s = true -> exists pre a run, backlogs h = pre ++ a :: run /\ strictly_rising a run /\
     Z.of_nat (length run) = rising s /\ final a run = prevPending s).

Lemma strictly_rising_snoc a run x :
  strictly_rising a run -> final a run < x -> strictly_rising a (run ++ [x]).
Proof.
  revert a. induction run as [|b run IH]; intros a; simpl; [auto|]. intros [H1 H2] Hx. auto.
Qed.
Lemma final_snoc a run x : final a (run ++ [x]) = x.
Proof. revert a. induction run; simpl; auto. Qed.

(** The counter after a poll that reported [pending]. *)
Definition next_rising (s : soft_state) (pending : Z) : Z :=
  if havePrev s && (prevPending s <? pending) then rising s + 1 else 0.

Lemma rising_extend h s p pending : rising_ok h s -> oPending p = Some pending ->
  exists pre a run, backlogs (h ++ [p]) = pre ++ a :: run /\ strictly_rising a run /\
    Z.of_nat (length run) = next_rising s pending /\ final a run = pending.
Proof.
  intros (H0 & H1 & H2) Hp. unfold backlogs in *. rewrite omap_app. simpl. rewrite Hp.
  assert (next_rising s pending = 0 ->
    exists pre a run, omap oPending h ++ [pending] = pre ++ a :: run /\ strictly_rising a run /\
      Z.of_nat (length run) = next_rising s pending /\ final a run = pending) as Hz.
  { intros ->. exists (omap oPending h), pending, []. done. }
  unfold next_rising in *. destruct (havePrev s); simpl in *; [|auto].
  destruct (Z.ltb_spec (prevPending s) pending); [|auto].
  destruct (H2 eq_refl) as (pre & a & run & -> & Hr & Hl & Hlast).
  exists pre, a, (run ++ [pending]). rewrite <- app_assoc. split; [done|].
  split; [apply strictly_rising_snoc; [done|lia]|].
  rewrite length_app, final_snoc. simpl. split; [lia|done].
Qed.

(** One tick of a running watcher on a poll that reported [pending]. *)
Lemma soft_tick_cases cfg p s pending : softRunning s = true -> oPending p = Some pending ->
  let r := next_rising s pending in
  let idle := idle_since (oNow p) (oLast p) in
  ((r < RisingWindows cfg \/ idle < StallAfter cfg \/ pending = 0) /\
     soft_tick cfg p s = (SoftSt pending true r (stalled s) true, None)) \/
  (RisingWindows cfg <= r /\ StallAfter cfg <= idle /\ pending <> 0 /\
     soft_tick cfg p s = (SoftSt pending true (if softCircuitStop cfg then r else 0) true (negb (softCircuitStop cfg)),
                          Some (SoftEv pending idle))).
Proof.
  intros Hr Hp. unfold soft_tick. rewrite Hr, Hp. simpl. fold (next_rising s pending).
  destruct (Z.ltb_spec (next_rising s pending) (RisingWindows cfg)); [left; auto|].
  destruct (Z.ltb_spec (idle_since (oNow p) (oLast p)) (StallAfter cfg)); [left; auto|].
  destruct (Z.eqb_spec pending 0); [left; auto|right; auto].
Qed.

Lemma next_rising_nonneg s pending : 0 <= rising s -> 0 <= next_rising s pending.
Proof. unfold next_rising. destruct (_ && _); lia. Qed.

Lemma soft_watch_snoc cfg h p s :
  soft_watch cfg (h ++ [p]) s =
  let '(s1, evs) := soft_watch cfg h s in
  let '(s2, ev) := soft_tick cfg p s1 in (s2, evs ++ option_list ev).
Proof.
  revert s. induction h as [|q h IH]; intros s; simpl.
  - destruct (soft_tick cfg p s) as [? ev]. by rewrite app_nil_r.
  - destruct (soft_tick cfg q s) as [s1 e]. rewrite IH. destruct (soft_watch cfg h s1) as [s2 evs].
    destruct (soft_tick cfg p s2). by rewrite app_assoc.
Qed.

Lemma rising_invariant cfg h :
  softRunning (soft_watch cfg h soft_init).1 = true -> rising_ok h (soft_watch cfg h soft_init).1.
Proof.
  induction h as [|p h IH] using rev_ind; [by intros|]. rewrite soft_watch_snoc.
  destruct (soft_watch cfg h soft_init) as [s evs]. simpl in IH.
  destruct (softRunning s) eqn:Hr.
  2: { unfold soft_tick. rewrite Hr. simpl. congruence. }
  specialize (IH eq_refl). destruct (oPending p) as [pending|] eqn:Hp.
  2: { unfold soft_tick. rewrite Hr, Hp. simpl. intros _. unfold rising_ok, backlogs in *.
       rewrite omap_app. simpl. by rewrite Hp, app_nil_r. }
  destruct (rising_extend h s p pending IH Hp) as (pre & a & run & Hb & H).
  assert (0 <= next_rising s pending) by (apply next_rising_nonneg; apply IH).
  destruct (soft_tick_cases cfg p s pending Hr Hp) as [[_ ->]|(_ & _ & _ & ->)]; simpl; intros Hc.
  - split; simpl; [done|]. split; [done|]. intros _. exists pre, a, run. by rewrite Hb.
  - destruct (softCircuitStop cfg); [done|]. split; simpl; [lia|]. split; [done|]. intros _.
    exists (omap oPending h), pending, []. unfold backlogs. rewrite omap_app. simpl. by rewrite Hp.
Qed.

(** No false alarms: a stall is reported only at a poll whose backlog is not
    empty and ends [RisingWindows] rises in a row among the polls that returned
    information, with no successful process for at least [StallAfter]; the event
    carries that backlog and idle time. *)
Theorem stall_sound (cfg : SoftLivenessConfig) (h : list soft_poll_in) (p : soft_poll_in)
    (s1 : soft_state) (ev : SoftLivenessEvent) :
  let c := soft_withDefaults cfg in
  soft_tick c p (soft_watch c h soft_init).1 = (s1, Some ev) ->
  exists pre a run, backlogs (h ++ [p]) = pre ++ a :: run /\ strictly_rising a run /\
    RisingWindows c <= Z.of_nat (length run) /\ oPending p = Some (slNumPending ev) /\ slNumPending ev <> 0 /\
    slStalledFor ev = idle_since (oNow p) (oLast p) /\ StallAfter c <= slStalledFor ev.
Proof.
  intros c. clearbody c. pose proof (rising_invariant c h) as Hinv.
  destruct (soft_watch c h soft_init) as [s evs]. simpl in *. intros H.
  destruct (softRunning s) eqn:Hr; [|unfold soft_tick in H; by rewrite Hr in H].
  destruct (oPending p) as [pending|] eqn:Hp; [|unfold soft_tick in H; by rewrite Hr, Hp in H].
  destruct (rising_extend h s p pending (Hinv eq_refl) Hp) as (pre & a & run & Hb & Hs & Hl & _).
  destruct (soft_tick_cases c p s pending Hr Hp) as [[_ E]|(H1 & H2 & H3 & E)]; rewrite E in H; [done|].
  injection H as <- <-. exists pre, a, run. simpl. rewrite Hl. done.
Qed.

(** The same from a counter already at [rising s]. *)
Lemma rise_fires c ps s :
  softRunning s = true -> havePrev s = true -> 0 <= prevPending s ->
  Forall (fun p => oPending p <> None /\ StallAfter c <= idle_since (oNow p) (oLast p)) ps ->
  strictly_rising (prevPending s) (backlogs ps) ->
  RisingWindows c <= rising s + Z.of_nat (length ps) -> ps <> [] -> (soft_watch c ps s).2 <> [].
Proof.
  revert s. induction ps as [|p ps IH]; intros s Hr Hh H1 HF Hs Hl Hne; [done|].
  inversion HF as [|? ? [Hp Hi] HF']; subst. destruct (oPending p) as [pending|] eqn:Ep; [|done].
  unfold backlogs in Hs. simpl in Hs. rewrite Ep in Hs. destruct Hs as [Hlt Hs].
  assert (next_rising s pending = rising s + 1) as En.
  { unfold next_rising. rewrite Hh. destruct (Z.ltb_spec (prevPending s) pending); [done|lia]. }
  simpl. destruct (soft_tick_cases c p s pending Hr Ep) as [[Hc ->]|(_ & _ & _ & ->)].
  - rewrite En in Hc. specialize (IH (SoftSt pending true (next_rising s pending) (stalled s) true)).
    destruct (soft_watch c ps _) as [s2 evs]. simpl in *. apply IH; auto; try lia.
    intros ->. simpl in *. lia.
  - by destruct (soft_watch c ps _).
Qed.

(** No missed stalls: from any point of a running watch, [RisingWindows] further
    polls that each report a larger backlog than the one before, with the
    consumer idle for [StallAfter] throughout, produce a report. *)
Theorem stall_detected (cfg : SoftLivenessConfig) (s : soft_state) (ps : list soft_poll_in) :
  let c := soft_withDefaults cfg in
  softRunning s = true -> havePrev s = true -> 0 <= rising s -> 0 <= prevPending s ->
  Forall (fun p => oPending p <> None /\ StallAfter c <= idle_since (oNow p) (oLast p)) ps ->
  strictly_rising (prevPending s) (backlogs ps) ->
  RisingWindows c <= Z.of_nat (length ps) ->
  (soft_watch c ps s).2 <> [].
Proof.
  intros c Hr Hh H0 H1 HF Hs Hl.
  assert (0 < RisingWindows c) as Hw.
  { subst c. unfold soft_withDefaults. simpl.
    destruct (Z.leb_spec (RisingWindows cfg) 0); unfold defaultSoftLivenessRisingWindows; lia. }
  apply rise_fires; [done..|lia|intros ->; simpl in *; lia].
Qed.

End Soft.

(** ** Concrete runs *)

(** A backlog of [pending] messages at second [t]. *)
Definition at_backlog (t pending : Z) : Slow.slow_poll_in :=
  Slow.SlowPoll (t * Slow.second) (Some (Slow.CInfo "ORDERS" "worker" pending 0 0 0)) (fun _ => None).
Definition slow_cfg : Slow.SlowConsumerConfig := Slow.SlowCfg 0 (4 * Slow.second) 100 0 (f64_of_int 0) false.
(** Two sustained bursts with a clear poll between them. *)
Definition two_bursts : list Slow.slow_poll_in :=
  [at_backlog 2 500; at_backlog 4 500; at_backlog 6 500; at_backlog 8 0;
   at_backlog 10 500; at_backlog 12 500; at_backlog 14 500; at_backlog 16 500].
Definition no_bad (f : spec_float) : Z := 0.

(** The second burst is as long as the first and goes unreported. *)
Example second_burst_unreported :
  Slow.WatchSlowConsumer no_bad true slow_cfg two_bursts =
  Some (Slow.SlowSt (10 * Slow.second) true true true,
        [Slow.SlowEv "ORDERS" "worker" [Slow.SlowReasonPending] 500 0 0 0 (4 * Slow.second)]).
Proof. vm_compute. reflexivity. Qed.

Lemma slow_reports_once_witness :
  exists s evs, Slow.WatchSlowConsumer no_bad true slow_cfg two_bursts = Some (s, evs) /\
    (length evs <= 1)%nat /\ (Slow.sSlow s = true <-> evs <> []).
Proof.
  eexists _, _. split; [vm_compute; reflexivity|].
  apply (Slow.slow_reports_once no_bad slow_cfg two_bursts). vm_compute. reflexivity.
Defined.

(** A million messages behind, and the stream cannot be read: only the backlog is reported. *)
Definition far_behind (now : Z) : Z * option Slow.ConsumerInfo * (string -> res (option Z)) :=
  (now * Slow.second, Some (Slow.CInfo "ORDERS" "worker" 1000000 0 0 7), fun _ => Er (errorf "timeout")).
Lemma lag_needs_stream_info_witness :
  exists s ev, Slow.client_WatchSlowConsumer no_bad true true slow_cfg (far_behind <$> [2; 4; 6]) = Some (s, [ev]) /\
    Slow.seLag ev = 0 /\ Slow.SlowReasonLag ∉ Slow.seReasons ev.
Proof.
  pose proof (Slow.lag_needs_stream_info no_bad true slow_cfg (far_behind <$> [2; 4; 6])) as H.
  eexists _, _. split; [vm_compute; reflexivity|].
  eapply (Forall_inv (H _ _ _ _ _ _)). Unshelve. all: try (vm_compute; reflexivity).
  - discriminate.
  - intros q Hq. left. apply list_elem_of_fmap in Hq as (n & -> & _). eexists. split; [reflexivity|discriminate].
  - intros _ q st Hq. apply list_elem_of_fmap in Hq as (n & -> & _). eexists. reflexivity.
Defined.

Lemma slow_detection_exact_witness :
  exists ev, (Slow.slow_watch no_bad (Slow.slow_withDefaults slow_cfg)
    (take 2 two_bursts ++ [at_backlog 6 500]) Slow.slow_init).2 = [ev] /\
    Slow.seSustainedFor ev = 4 * Slow.second.
Proof.
  apply (Slow.slow_detection_exact no_bad slow_cfg (take 2 two_bursts) (at_backlog 6 500)).
  - vm_compute. reflexivity.
  - split; [vm_compute; reflexivity|vm_compute; congruence].
Defined.

Definition soft_cfg : Soft.SoftLivenessConfig := Soft.SoftCfg 0 0 0 false.
(** The last success was at second 1. *)
Definition soft_at (t pending : Z) : Soft.soft_poll_in :=
  Soft.SoftPoll (t * Slow.second) Slow.second (Some pending).
Definition growing : list Soft.soft_poll_in := [soft_at 16 5; soft_at 18 9; soft_at 20 12].

Lemma stall_sound_witness :
  exists pre a run, Soft.backlogs (growing ++ [soft_at 22 15]) = pre ++ a :: run /\ Soft.strictly_rising a run /\
    3 <= Z.of_nat (length run).
Proof.
  destruct (Soft.stall_sound soft_cfg growing (soft_at 22 15)
    (Soft.SoftSt 15 true 0 true true) (Soft.SoftEv 15 (21 * Slow.second))) as (pre & a & run & H1 & H2 & H3 & _).
  - vm_compute. reflexivity.
  - exists pre, a, run. auto.
Defined.

Lemma stall_detected_witness :
  (Soft.soft_watch (Soft.soft_withDefaults soft_cfg) growing (Soft.SoftSt 2 true 0 false true)).2 <> [].
Proof.
  apply (Soft.stall_detected soft_cfg).
  - reflexivity.
  - reflexivity.
  - simpl. lia.
  - simpl. lia.
  - repeat constructor; vm_compute; congruence.
  - vm_compute. auto.
  - vm_compute. congruence.
Defined.
