(* ===== verification/Events.v ===== *)
(** * Event delivery (helpers.go, supervisor.go, slow_consumer.go, soft_liveness.go, flight_recorder.go)

    Watchers and the supervisor report an event twice: through a callback, then
    on a buffered channel that drops what does not fit.  The flight recorder
    hooks the callbacks.  The channel is the list of the events that wait in it;
    what the callbacks act on is a [world] with the recorder and a user part. *)
From Stdlib Require Import Sorted.
From S2P Require Import Prelude GoStr Supervisor Watch.
Import Recorder.

Definition supervisorEventBuffer : nat := 16.
Definition slowConsumerEventBuffer : nat := 16.
Definition softLivenessEventBuffer : nat := 16.
Definition flightRecorderEventBuffer : nat := 32.

(** ** The channel *)
Section Channel.
Context {T : Type}.

(** An event that does not fit is dropped. *)
Definition trySend (cap : nat) (ch : list T) (ev : T) : list T := if (length ch <? cap)%nat then ch ++ [ev] else ch.

(** Sends and receives in any order; a receive on an empty channel waits. *)
Inductive chan_op := CSend (ev : T) | CRecv.
Record chan := Chan { received : list T; waiting : list T; dropped : nat }.
Definition chan_step (cap : nat) (c : chan) (op : chan_op) : chan :=
  match op with
  | CSend ev => Chan (received c) (trySend cap (waiting c) ev) (dropped c + if (length (waiting c) <? cap)%nat then 0 else 1)
  | CRecv => match waiting c with [] => c | x :: l => Chan (received c ++ [x]) l (dropped c) end
  end.
Definition chan_run (cap : nat) (ops : list chan_op) : chan := foldl (chan_step cap) (Chan [] [] 0) ops.
Definition sent (ops : list chan_op) : list T := omap (fun op => match op with CSend ev => Some ev | CRecv => None end) ops.

Record chan_ok (cap : nat) (evs : list T) (c : chan) : Prop := {
  co_order : sublist (received c ++ waiting c) evs;
  co_cap : (length (waiting c) <= cap)%nat;
  co_count : (length (received c ++ waiting c) + dropped c = length evs)%nat
}.

Lemma chan_ok_step cap evs c op : chan_ok cap evs c -> chan_ok cap (evs ++ sent [op]) (chan_step cap c op).
Proof.
  intros [H1 H2 H3]. destruct op as [ev|]; simpl.
  - unfold trySend. destruct (Nat.ltb_spec (length (waiting c)) cap).
    + constructor; cbn [received waiting dropped].
      * rewrite app_assoc. by apply sublist_app.
      * rewrite length_app. simpl. lia.
      * rewrite app_assoc, !length_app in *. simpl. lia.
    + constructor; cbn [received waiting dropped].
      * by apply sublist_inserts_r.
      * done.
      * rewrite !length_app in *. simpl. lia.
  - rewrite app_nil_r. destruct (waiting c) as [|x l] eqn:E; [by constructor; rewrite ?E|].
    constructor; cbn [received waiting dropped]; rewrite <- ?app_assoc; [done|simpl in *; lia|done].
Qed.

Lemma chan_run_ok cap ops : chan_ok cap (sent ops) (chan_run cap ops).
Proof.
  unfold chan_run. induction ops as [|op ops IH] using rev_ind; [constructor; simpl; [done|lia|done]|].
  rewrite foldl_app. simpl. unfold sent. rewrite omap_app. by apply chan_ok_step.
Qed.

(** An unread channel keeps the first events. *)
Lemma trySend_all cap evs ch : (length ch <= cap)%nat -> foldl (trySend cap) ch evs = take cap (ch ++ evs).
Proof.
  revert ch. induction evs as [|e evs IH]; intros ch Hc; simpl; [by rewrite app_nil_r, take_ge|].
  unfold trySend at 2. destruct (Nat.ltb_spec (length ch) cap).
  - rewrite IH by (rewrite length_app; simpl; lia). by rewrite <- app_assoc.
  - rewrite IH by done. rewrite !take_app_le by lia. done.
Qed.
End Channel.
Arguments chan_op : clear implicits.
Arguments chan : clear implicits.

(** A channel reader gets an order-preserving part of the emitted events: what
    it has received and what waits for it is a subsequence, at most [cap] wait,
    and exactly the events sent to a full channel are missing; so a reader that
    never lets the channel fill up gets everything in order. *)
Theorem event_channel_fifo {T} cap (ops : list (chan_op T)) :
  let c := chan_run cap ops in
  sublist (received c ++ waiting c) (sent ops) /\ (length (waiting c) <= cap)%nat /\
  (length (received c ++ waiting c) + dropped c = length (sent ops))%nat /\
  (dropped c = 0%nat -> received c ++ waiting c = sent ops).
Proof.
  intros c. destruct (chan_run_ok cap ops) as [H1 H2 H3]. fold c in H1, H2, H3. split_and!; [done|done|done|].
  intros Hd.
  assert (length (received c ++ waiting c) = length (sent ops)) as Hl by lia.
  clear -H1 Hl. induction H1 as [|x l k H IH|x l k H IH]; [done|f_equal; apply IH; simpl in Hl; lia|].
  apply sublist_length in H. simpl in Hl. lia.
Qed.

(** ** Callbacks *)

Record world (U : Type) := World {
  recorder : FlightRecorder; incidents : list IncidentEvent; dumps : list (list IncidentEvent); user : U
}.
Arguments World {U}. Arguments recorder {U}. Arguments incidents {U}. Arguments dumps {U}. Arguments user {U}.

(** A callback runs at a time, on an event. *)
Definition callback (E U : Type) := Z -> E -> world U -> world U.

Section Callbacks.
Context {U : Type} (err_text : err -> string).

(** [Record] of a recorder that is not nil: the ring, then the channel. *)
Definition FlightRecorder_Record (now : Z) (ev : IncidentEvent) (w : world U) : world U :=
  World (Record_ now ev (recorder w)) (trySend flightRecorderEventBuffer (incidents w) (stamp now ev)) (dumps w) (user w).
(** [LogSnapshot]: the incidents it writes to the log. *)
Definition LogSnapshot (w : world U) : world U :=
  World (recorder w) (incidents w) (dumps w ++ [Snapshot (recorder w)]) (user w).

Definition error_string (e : option err) : string := match e with Some e => err_text e | None => "" end.
Definition call {E} (f : option (callback E U)) : callback E U :=
  fun now ev w => match f with Some f => f now ev w | None => w end.

Definition is_give_up (ev : SupervisorEvent) : bool := match ev with SupervisorGiveUp _ => true | _ => false end.

(** [r]: whether the recorder is there. *)
Definition AttachSupervisor (r : bool) (prev : option (callback (SupervisorEvent * option err) U))
  : option (callback (SupervisorEvent * option err) U) :=
  if negb r then prev else
  Some (fun now ev w =>
    let w1 := FlightRecorder_Record now (supervisor_incident ev.1 (error_string ev.2)) w in
    let w2 := if is_give_up ev.1 then LogSnapshot w1 else w1 in
    call prev now ev w2).

(** A stall event carries [ErrConsumerStall]. *)
Definition AttachSoftLiveness (r : bool) (prev : option (callback (Soft.SoftLivenessEvent * option err) U))
  : option (callback (Soft.SoftLivenessEvent * option err) U) :=
  if negb r then prev else
  Some (fun now ev w =>
    call prev now ev (FlightRecorder_Record now (stall_incident (Soft.slNumPending ev.1) (error_string ev.2)) w)).

(** [emit]: the callback first, then the channel. *)
Definition emit {E} (cap : nat) (f : option (callback E U)) (st : world U * list E) (ev : Z * E) : world U * list E :=
  (call f ev.1 ev.2 st.1, trySend cap st.2 ev.2).
Definition supervisor_emit := @emit (SupervisorEvent * option err) supervisorEventBuffer.
Definition slow_emit := @emit Slow.SlowConsumerEvent slowConsumerEventBuffer.
Definition soft_emit := @emit (Soft.SoftLivenessEvent * option err) softLivenessEventBuffer.

(** The incident of an emitted supervisor event. *)
Definition incident_of (ev : Z * (SupervisorEvent * option err)) : Z * IncidentEvent :=
  (ev.1, supervisor_incident ev.2.1 (error_string ev.2.2)).

(** A user callback: it acts on the user's part. *)
Definition on_user {E} (g : U -> E -> U) : callback E U :=
  fun _ ev w => World (recorder w) (incidents w) (dumps w) (g (user w) ev).

Lemma emit_all_channel {E} cap (f : option (callback E U)) evs st : (length st.2 <= cap)%nat ->
  (foldl (emit cap f) st evs).2 = take cap (st.2 ++ evs.*2).
Proof.
  intros Hc. rewrite <- trySend_all by done. clear Hc. revert st.
  induction evs as [|e evs IH]; intros st; [done|]. exact (IH (emit cap f st e)).
Qed.

Lemma emit_all_world {E} cap (f : option (callback E U)) evs st :
  (foldl (emit cap f) st evs).1 = foldl (fun w ev => call f ev.1 ev.2 w) st.1 evs.
Proof. revert st. induction evs as [|e evs IH]; intros st; [done|]. exact (IH (emit cap f st e)). Qed.

(** The parts of the world after the hooked callback has run. *)
Lemma attach_world g evs w :
  let w' := foldl (fun w ev => call (AttachSupervisor true (Some (on_user g))) ev.1 ev.2 w) w evs in
  recorder w' = record_all (incident_of <$> evs) (recorder w) /\
  incidents w' = foldl (trySend flightRecorderEventBuffer) (incidents w) (stamped (incident_of <$> evs)) /\
  user w' = foldl g (user w) evs.*2.
Proof.
  revert w. induction evs as [|[t ev] evs IH]; intros w w'; [done|]. subst w'.
  destruct (IH (call (AttachSupervisor true (Some (on_user g))) t ev w)) as (H1 & H2 & H3). clear IH.
  split_and!; (etransitivity; [exact H1 || exact H2 || exact H3|]); simpl; by destruct (is_give_up ev.1).
Qed.

Lemma snapshot_last h r : ring_ok h r -> h <> [] -> list.last (Snapshot r) = list.last h.
Proof.
  intros [H1 H2 H3 H4 H5] Hne. unfold Snapshot. destruct (full r); simpl.
  - destruct (H5 eq_refl) as [-> Hc]. destruct h as [|x h] using rev_ind; [done|]. rewrite length_app in *. simpl in *.
    by rewrite drop_app_le, !last_snoc by lia.
  - destruct (H4 eq_refl) as [-> _]. done.
Qed.

(** The dumps: one for each give-up, ending with it. *)
Lemma attach_dumps g evs w h : ring_ok h (recorder w) ->
  let w' := foldl (fun w ev => call (AttachSupervisor true (Some (on_user g))) ev.1 ev.2 w) w evs in
  list.last <$> dumps w' =
  (list.last <$> dumps w) ++ ((fun ev => Some (stamp (incident_of ev).1 (incident_of ev).2)) <$> List.filter (fun ev => is_give_up ev.2.1) evs).
Proof.
  revert w h. induction evs as [|[t ev] evs IH]; intros w h Hok w'; [by rewrite app_nil_r|]. subst w'.
  pose proof (ring_record h (recorder w) t (supervisor_incident ev.1 (error_string ev.2)) Hok) as Hok'.
  set (w1 := call (AttachSupervisor true (Some (on_user g))) t ev w).
  assert (recorder w1 = Record_ t (supervisor_incident ev.1 (error_string ev.2)) (recorder w)) as Hr by (simpl; by destruct (is_give_up ev.1)).
  rewrite <- Hr in Hok'. etransitivity; [exact (IH w1 _ Hok')|]. rewrite Hr in Hok'. clear Hr IH. simpl.
  destruct (is_give_up ev.1) eqn:G; simpl; [|done]. rewrite fmap_app. simpl.
  rewrite <- app_assoc. simpl. do 2 f_equal. rewrite (snapshot_last _ _ Hok') by (by destruct h). by rewrite last_snoc.
Qed.

(** C36: events reach everyone they are meant for.  A supervisor whose callback has
    been hooked by a flight recorder emits any sequence of events: the user's own
    callback still sees all of them in order, the recorder's snapshot is the last
    [capacity] of them as incidents in order, there is one log dump per give-up
    and it ends with that give-up, and a reader who has read nothing yet finds
    the first sixteen events and the first thirty-two incidents. *)
Theorem recorder_follows_supervisor g capacity u evs :
  let w0 := World (NewFlightRecorder capacity) [] [] u in
  let '(w, ch) := foldl (supervisor_emit (AttachSupervisor true (Some (on_user g)))) (w0, []) evs in
  user w = foldl g u evs.*2 /\
  Snapshot (recorder w) = drop (length evs - rcap (NewFlightRecorder capacity)) (stamped (incident_of <$> evs)) /\
  list.last <$> dumps w =
    (fun ev => Some (stamp (incident_of ev).1 (incident_of ev).2)) <$> List.filter (fun ev => is_give_up ev.2.1) evs /\
  ch = take supervisorEventBuffer evs.*2 /\
  incidents w = take flightRecorderEventBuffer (stamped (incident_of <$> evs)).
Proof.
  intros w0. unfold supervisor_emit.
  pose proof (emit_all_world supervisorEventBuffer (AttachSupervisor true (Some (on_user g))) evs (w0, [])) as Hw.
  pose proof (emit_all_channel supervisorEventBuffer (AttachSupervisor true (Some (on_user g))) evs (w0, [])) as Hc.
  destruct (foldl _ _ evs) as [w ch]. cbn [fst snd] in Hw, Hc. subst w.
  destruct (attach_world g evs w0) as (H1 & H2 & H3). rewrite H1, H2, H3.
  split_and!; [done| | |by apply Hc, Nat.le_0_l|by apply trySend_all, Nat.le_0_l].
  - subst w0. cbn [recorder]. rewrite Snapshot_is_recent_history. by rewrite length_fmap.
  - by rewrite (attach_dumps g evs w0 [] (ring_init capacity)).
Qed.
End Callbacks.

(** ** The liveness watcher of a client *)

(** [client.WatchSoftLiveness]: the tracker starts at the time of the call and
    every processed message touches it; [successes]: the times of the processed
    messages, oldest first. *)
Definition last_success (started : Z) (successes : list Z) (now : Z) : Z :=
  foldl (fun last t => if t <=? now then Soft.Touch t last else last) started successes.
Definition client_polls (started : Z) (successes : list Z) (polls : list (Z * option Z)) : list Soft.soft_poll_in :=
  (fun p => Soft.SoftPoll p.1 (last_success started successes p.1) p.2) <$> polls.
Definition client_WatchSoftLiveness (haveSub : bool) (started : Z) (cfg : Soft.SoftLivenessConfig) (successes : list Z)
  (polls : list (Z * option Z)) : option (Soft.soft_state * list Soft.SoftLivenessEvent) :=
  Soft.WatchSoftLiveness haveSub cfg (client_polls started successes polls).

Lemma soft_quiet c ps s : Forall (fun p => Soft.idle_since (Soft.oNow p) (Soft.oLast p) < Soft.StallAfter c) ps ->
  (Soft.soft_watch c ps s).2 = [].
Proof.
  intros HF. revert s. induction HF as [|p ps Hp _ IH]; intros s; [done|]. simpl.
  assert (exists s1, Soft.soft_tick c p s = (s1, None)) as [s1 ->].
  { unfold Soft.soft_tick. destruct (Soft.softRunning s); simpl; [|eauto]. destruct (Soft.oPending p); [|eauto].
    apply Z.ltb_lt in Hp. rewrite Hp, orb_true_r. simpl. eauto. }
  specialize (IH s1). by destruct (Soft.soft_watch c ps s1).
Qed.

(** The tracker never goes back. *)
Lemma last_success_from started l now t : StronglySorted Z.le (started :: l) -> started <= now ->
  t ∈ started :: l -> t <= now -> t <= last_success started l now <= now.
Proof.
  unfold last_success, Soft.Touch. revert started t. induction l as [|x l IH]; intros a t Hs Ha Hin Ht; simpl.
  - apply list_elem_of_singleton in Hin. lia.
  - inversion Hs as [|? ? Hs' Hf]; subst. assert (a <= x) by (by inversion Hf). destruct (Z.leb_spec x now).
    + destruct (decide (t = a)) as [->|Hne].
      * specialize (IH x x Hs'). assert (x <= foldl (fun last t => if t <=? now then t else last) x l <= now); [|lia].
        apply IH; [lia|by left|lia].
      * apply IH; [done|lia| |done]. apply elem_of_cons in Hin as [?|?]; done.
    + assert (StronglySorted Z.le (a :: l)) as Hs''.
      { inversion Hs' as [|? ? H1 H2]; subst. constructor; [done|]. by inversion Hf. }
      apply IH; [done|done| |done]. apply elem_of_cons in Hin as [->|[->|Hin]%elem_of_cons]; [by left|lia|by right].
Qed.

(** No stall is reported for a consumer that works.  When every poll of the
    client's watcher falls within [StallAfter] of the start of the watch or of a
    message processed before it, no stall event is emitted, however the backlog
    grows. *)
Theorem working_consumer_not_stalled started cfg successes polls :
  0 < started -> StronglySorted Z.le (started :: successes) ->
  Forall (fun p : Z * option Z => started <= p.1 /\ exists t, t ∈ started :: successes /\ t <= p.1 /\
     p.1 - t < Soft.StallAfter (Soft.soft_withDefaults cfg)) polls ->
  exists s, client_WatchSoftLiveness true started cfg successes polls = Some (s, []).
Proof.
  intros H0 Hs HF. unfold client_WatchSoftLiveness, Soft.WatchSoftLiveness.
  pose proof (soft_quiet (Soft.soft_withDefaults cfg) (client_polls started successes polls) Soft.soft_init) as Hq.
  destruct (Soft.soft_watch _ _ _) as [s evs]. cbn [snd] in Hq. exists s. rewrite Hq; [done|].
  unfold client_polls. apply Forall_fmap. revert HF. apply Forall_impl. intros [now o] (Hn & t & Hin & Ht & Hd). cbn [fst snd compose Soft.oNow Soft.oLast] in *.
  destruct (last_success_from started successes now started Hs) as [? _]; [done|by left|done|].
  destruct (last_success_from started successes now t Hs) as [? _]; [done..|].
  unfold Soft.idle_since. destruct (Z.eqb_spec (last_success started successes now) 0); lia.
Qed.

(** ** Witnesses *)

(** Messages processed at seconds 16 and 22; polls every 2 s see a growing backlog. *)
Definition busy_polls : list (Z * option Z) := [(14 * Slow.second, Some 5); (18 * Slow.second, Some 9); (22 * Slow.second, Some 12)].
Lemma working_consumer_not_stalled_witness :
  exists s, client_WatchSoftLiveness true (10 * Slow.second) (Soft.SoftCfg 0 0 0 false) [16 * Slow.second; 22 * Slow.second] busy_polls = Some (s, []).
Proof.
  apply (working_consumer_not_stalled (10 * Slow.second) (Soft.SoftCfg 0 0 0 false) [16 * Slow.second; 22 * Slow.second] busy_polls).
  - reflexivity.
  - repeat constructor; discriminate.
  - repeat (apply Forall_cons_2; [split; [discriminate|]|]); [| | |apply Forall_nil_2].
    + exists (10 * Slow.second). split_and!; [by left|discriminate|reflexivity].
    + exists (16 * Slow.second). split_and!; [by right; left|discriminate|reflexivity].
    + exists (22 * Slow.second). split_and!; [by right; right; left|discriminate|reflexivity].
Defined.
