(* ===== verification/Outbox.v ===== *)
(** * Transactional outbox (outbox/outbox.go)

    [Enqueue] stores a record under a fresh id; [Flush] publishes what is stored
    and deletes it.  The store is an interface ([OutboxStore]) whose calls may
    fail, possibly after having had their effect; JSON and the publisher are
    parameters. *)

From S2P Require Import Prelude GoStr.

(** A pending publish. *)
Record Record_ := Rec {
  CreatedAt : Z; Headers : gmap string string; ID : string; Subject : string; Data : string
}.
#[export] Instance Record_eq_dec : EqDecision Record_.
Proof. solve_decision. Defined.

(** The store: [ob_view] is its content; reads leave it alone, a write that
    reports success has its effect and a failed one may have had it; [Keys]
    lists what is there. *)
Class OutboxStore (S : Type) := {
  ob_view : S -> gmap string string;
  ob_put : string -> string -> S -> option err * S;
  ob_get : string -> S -> res string;
  ob_delete : string -> S -> option err * S;
  ob_keys : S -> res (list string);
  ob_put_view k v s : ob_view (ob_put k v s).2 = <[k := v]> (ob_view s) \/
    ((ob_put k v s).1 <> None /\ ob_view (ob_put k v s).2 = ob_view s);
  ob_get_ok k s v : ob_get k s = Ok v -> ob_view s !! k = Some v;
  ob_delete_view k s : ob_view (ob_delete k s).2 = delete k (ob_view s) \/
    ((ob_delete k s).1 <> None /\ ob_view (ob_delete k s).2 = ob_view s);
  ob_keys_ok s l : ob_keys s = Ok l -> NoDup l /\ (forall k, k ∈ l <-> is_Some (ob_view s !! k))
}.

Section Outbox.
Context {S : Type} `{OB : OutboxStore S}.
Variable marshal : Record_ -> res string.
Variable unmarshal : string -> res Record_.

(** What the publisher receives. *)
Record sent_msg := Sent { oSubject : string; oData : string; oHeaders : gmap string string }.
(** Its answer, which may depend on what it accepted before. *)
Variable publish : list sent_msg -> sent_msg -> option err.

(** [id] is [nuid.Next()], [now] the clock. *)
Definition Enqueue (haveStore : bool) (id : string) (now : Z) (subject data : string) (headers : gmap string string)
  (s : S) : res Record_ * S :=
  if negb haveStore then (Er (errorf "outbox enqueue: store is nil"), s)
  else if String.eqb subject "" then (Er (errorf "outbox enqueue: subject is required"), s)
  else
    let rec := Rec now headers id subject data in
    match marshal rec with
    | Er e => (Er e, s)
    | Ok raw =>
        match ob_put (ID rec) raw s with
        | (Some e, s') => (Er (wrapf "outbox enqueue put: %w" e), s')
        | (None, s') => (Ok rec, s')
        end
    end.

Definition msg_of (r : Record_) : sent_msg := Sent (Subject r) (Data r) (Headers r).

(** The loop of [Flush]; [ctx i] is the context's error at its [i]-th round and
    [out] what the publisher has accepted. *)
Fixpoint flush_loop (keys : list string) (ctx : nat -> option err) (i : nat) (limit flushed : Z)
  (s : S) (out : list sent_msg) : Z * option err * S * list sent_msg :=
  match keys with
  | [] => (flushed, None, s, out)
  | key :: keys' =>
      if limit <=? flushed then (flushed, None, s, out)
      else match ctx i with
      | Some e => (flushed, Some e, s, out)
      | None =>
          match ob_get key s with
          | Er _ => flush_loop keys' ctx (Datatypes.S i) limit flushed s out
          | Ok raw =>
              match unmarshal raw with
              | Er _ => flush_loop keys' ctx (Datatypes.S i) limit flushed s out
              | Ok rec =>
                  match publish out (msg_of rec) with
                  | Some e => (flushed, Some (wrapf "outbox flush publish id=%s: %w" e), s, out)
                  | None =>
                      let '(_, s') := ob_delete key s in
                      flush_loop keys' ctx (Datatypes.S i) limit (flushed + 1) s' (out ++ [msg_of rec])
                  end
              end
          end
      end
  end.

Definition Flush (haveBoth : bool) (ctx : nat -> option err) (limit0 : Z) (s : S) (out : list sent_msg)
  : Z * option err * S * list sent_msg :=
  if negb haveBoth then (0, Some (errorf "outbox flush: store and publisher are required"), s, out)
  else
    let limit := if limit0 <=? 0 then 100 else limit0 in
    match ob_keys s with
    | Er e => (0, Some e, s, out)
    | Ok keys => flush_loop keys ctx 0 limit 0 s out
    end.

(** ** Properties of the loop *)

(** Nothing but accepted records disappears, nothing is altered, and the count
    is the number of accepted messages. *)
Lemma flush_loop_safe keys ctx i limit flushed s out f e s' out' :
  flush_loop keys ctx i limit flushed s out = (f, e, s', out') ->
  exists new, out' = out ++ new /\ f = flushed + Z.of_nat (length new) /\ (flushed <= limit -> f <= limit) /\
  forall k raw, ob_view s !! k = Some raw ->
    ob_view s' !! k = Some raw \/ (exists r, unmarshal raw = Ok r /\ msg_of r ∈ new).
Proof.
  revert i flushed s out. induction keys as [|key keys IH]; intros i flushed s out H; simpl in H.
  - simplify_eq. exists []. rewrite app_nil_r. simpl. split_and!; [done|lia|lia|auto].
  - destruct (Z.leb_spec limit flushed) as [Hl|Hl].
    { simplify_eq. exists []. rewrite app_nil_r. simpl. split_and!; [done|lia|lia|auto]. }
    assert ((flushed, e, s, out) = (f, e, s', out') -> exists new, out' = out ++ new /\
      f = flushed + Z.of_nat (length new) /\ (flushed <= limit -> f <= limit) /\
      forall k raw, ob_view s !! k = Some raw ->
      ob_view s' !! k = Some raw \/ (exists r, unmarshal raw = Ok r /\ msg_of r ∈ new)) as Hstop.
    { intros [= <- <- <-]. exists []. rewrite app_nil_r. simpl. split_and!; [done|lia|lia|auto]. }
    destruct (ctx i); [simplify_eq; by apply Hstop|].
    destruct (ob_get key s) as [raw|] eqn:Eg; [|eauto].
    destruct (unmarshal raw) as [rec|] eqn:Eu; [|eauto].
    destruct (publish out (msg_of rec)); [simplify_eq; by apply Hstop|].
    destruct (ob_delete key s) as [de s1] eqn:Ed.
    destruct (IH _ _ _ _ H) as (new & -> & -> & Hlim & Hkeep). exists (msg_of rec :: new).
    rewrite <- app_assoc. simpl. split_and!; [done|lia|lia|]. intros k raw' Hk.
    assert (ob_view s1 !! k = Some raw' \/ (k = key /\ raw' = raw)) as [Hv|[-> ->]].
    { pose proof (ob_get_ok _ _ _ Eg). pose proof (ob_delete_view key s) as Hd. rewrite Ed in Hd. simpl in Hd.
      destruct Hd as [->|[_ ->]]; [|auto]. destruct (decide (k = key)) as [->|]; [naive_solver|].
      rewrite lookup_delete_ne by done. auto. }
    + destruct (Hkeep k raw' Hv) as [?|(r & ? & ?)]; [auto|]. right. exists r. split; [done|].
      by apply list_elem_of_further.
    + right. exists rec. split; [done|]. apply list_elem_of_here.
Qed.

Lemma Flush_safe b ctx limit s out f e s' out' :
  Flush b ctx limit s out = (f, e, s', out') ->
  exists new, out' = out ++ new /\ f = Z.of_nat (length new) /\
    f <= (if limit <=? 0 then 100 else limit) /\
    forall k raw, ob_view s !! k = Some raw ->
      ob_view s' !! k = Some raw \/ (exists r, unmarshal raw = Ok r /\ msg_of r ∈ new).
Proof.
  assert (0 <= (if limit <=? 0 then 100 else limit)) by (destruct (Z.leb_spec limit 0); lia).
  unfold Flush. destruct b; simpl; [|intros [= <- <- <- <-]; exists []; rewrite app_nil_r; auto].
  destruct (ob_keys s); [|intros [= <- <- <- <-]; exists []; rewrite app_nil_r; auto].
  intros Hf. destruct (flush_loop_safe _ _ _ _ _ _ _ _ _ _ _ Hf) as (new & -> & -> & Hl & Hk).
  exists new. split_and!; [done|lia|lia|done].
Qed.

(** ** Histories: enqueues of other records and flushes, in any order *)

Inductive outbox_op :=
  | OEnqueue (id : string) (now : Z) (subject data : string) (headers : gmap string string)
  | OFlush (ctx : nat -> option err) (limit : Z).

Definition op_step (o : outbox_op) (w : S * list sent_msg) : S * list sent_msg :=
  match o with
  | OEnqueue id now subject data headers => ((Enqueue true id now subject data headers w.1).2, w.2)
  | OFlush ctx limit => let '(_, _, s', out') := Flush true ctx limit w.1 w.2 in (s', out')
  end.
Definition run_ops (os : list outbox_op) (w : S * list sent_msg) : S * list sent_msg :=
  fold_left (fun w o => op_step o w) os w.

(** [nuid] never repeats an id. *)
Definition other_ids (id : string) (os : list outbox_op) : Prop :=
  Forall (fun o => match o with OEnqueue id' _ _ _ _ => id' <> id | OFlush _ _ => True end) os.

Lemma Enqueue_view b id now subject data headers s k :
  k <> id -> ob_view (Enqueue b id now subject data headers s).2 !! k = ob_view s !! k.
Proof.
  intros Hk. unfold Enqueue. destruct b, (String.eqb subject ""); simpl; try done.
  destruct (marshal _) as [raw|]; [|done].
  pose proof (ob_put_view id raw s) as Hp. destruct (ob_put id raw s) as [[]]; simpl in *;
    destruct Hp as [->|[_ ->]]; try done; by rewrite lookup_insert_ne.
Qed.

(** Stored, or accepted by the publisher. *)
Definition safe_or_sent (id raw : string) (r : Record_) (w : S * list sent_msg) : Prop :=
  ob_view w.1 !! id = Some raw \/ msg_of r ∈ w.2.

Lemma op_keeps id raw r o w : unmarshal raw = Ok r -> other_ids id [o] ->
  safe_or_sent id raw r w -> safe_or_sent id raw r (op_step o w).
Proof.
  intros Hu Ho Hs. inversion Ho as [|? ? Hid _]; subst. destruct o as [id' now subject data hd|ctx limit]; simpl.
  - destruct Hs as [Hs|Hs]; [left; simpl; by rewrite Enqueue_view|right; done].
  - destruct (Flush true ctx limit w.1 w.2) as [[[f e] s'] out'] eqn:Ef.
    destruct (Flush_safe _ _ _ _ _ _ _ _ _ Ef) as (new & -> & _ & _ & Hk).
    destruct Hs as [Hs|Hs]; [|right; simpl; apply elem_of_app; by left].
    destruct (Hk _ _ Hs) as [?|(r' & Hr & ?)]; [by left|]. right. simpl. apply elem_of_app. right.
    rewrite Hu in Hr. by injection Hr as <-.
Qed.

(** C16: no loss: a record that was enqueued (and survives its JSON encoding) is,
    after any number of further enqueues and flushes with any failures of the
    store, the publisher or the context in between, still stored unchanged or
    has been accepted by the publisher with its subject, data and headers. *)
Theorem outbox_no_loss id now subject data headers s r s1 out os :
  Enqueue true id now subject data headers s = (Ok r, s1) ->
  (forall raw, marshal r = Ok raw -> unmarshal raw = Ok r) -> other_ids id os ->
  r = Rec now headers id subject data /\
  let w := run_ops os (s1, out) in
  (exists raw, ob_view w.1 !! id = Some raw /\ unmarshal raw = Ok r) \/ Sent subject data headers ∈ w.2.
Proof.
  unfold Enqueue. simpl. destruct (String.eqb subject ""); [done|].
  destruct (marshal (Rec now headers id subject data)) as [raw|] eqn:Em; [|done].
  pose proof (ob_put_view id raw s) as Hp. destruct (ob_put id raw s) as [[e|] s2]; [done|]. simpl in Hp.
  intros [= <- <-] Hj Ho. split; [done|]. specialize (Hj raw Em).
  assert (safe_or_sent id raw (Rec now headers id subject data) (s2, out)) as Hs.
  { left. simpl. destruct Hp as [->|[? _]]; [apply lookup_insert_eq|done]. }
  revert Hs. clear Hp. generalize (s2, out). induction os as [|o os IH]; intros w Hs; simpl.
  - destruct Hs as [Hs|Hs]; [left; eauto|by right].
  - inversion Ho; subst. apply IH; [done|]. apply op_keeps; [done|by repeat constructor|done].
Qed.

(** A flush counts exactly the messages the publisher accepted in it, in
    order, and never exceeds its limit (100 when none is given). *)
Theorem flush_counts b ctx limit s out f e s' out' :
  Flush b ctx limit s out = (f, e, s', out') ->
  exists new, out' = out ++ new /\ f = Z.of_nat (length new) /\ f <= (if limit <=? 0 then 100 else limit).
Proof. intros H. destruct (Flush_safe _ _ _ _ _ _ _ _ _ H) as (new & ? & ? & ? & _). eauto. Qed.

(** ** When everything works *)

Definition all_healthy : Prop :=
  (forall s k v, ob_view s !! k = Some v -> ob_get k s = Ok v) /\
  (forall k s, (ob_delete k s).1 = None) /\ (forall out m, publish out m = None).

Lemma Forall2_impl_in {A B} (P Q : A -> B -> Prop) l k :
  Forall2 P l k -> (forall x y, x ∈ l -> P x y -> Q x y) -> Forall2 Q l k.
Proof.
  induction 1 as [|x y l k Hxy _ IH]; intros H; constructor.
  - apply H; [apply list_elem_of_here|done].
  - apply IH. intros. apply H; [by apply list_elem_of_further|done].
Qed.

Lemma drain_loop keys ctx i limit flushed s out (recs : list Record_) :
  all_healthy -> (forall j, ctx j = None) -> NoDup keys -> flushed + Z.of_nat (length keys) <= limit ->
  Forall2 (fun k r => exists raw, ob_view s !! k = Some raw /\ unmarshal raw = Ok r) keys recs ->
  exists s', flush_loop keys ctx i limit flushed s out =
      (flushed + Z.of_nat (length keys), None, s', out ++ (msg_of <$> recs)) /\
    forall k, ob_view s' !! k = if bool_decide (k ∈ keys) then None else ob_view s !! k.
Proof.
  intros (Hg & Hd & Hp) Hctx. revert i flushed s out recs.
  induction keys as [|key keys IH]; intros i flushed s out recs Hn Hl HF; inversion HF as [|? ? ? ? (raw & Hv & Hu) HF']; subst.
  - exists s. simpl. rewrite app_nil_r, Z.add_0_r. auto.
  - inversion Hn as [|? ? Hni Hn']; subst. simpl length in *. simpl flush_loop.
    destruct (Z.leb_spec limit flushed); [lia|]. rewrite Hctx, (Hg _ _ _ Hv), Hu, Hp.
    pose proof (ob_delete_view key s) as Hdv. specialize (Hd key s).
    destruct (ob_delete key s) as [de s1]. simpl in *. subst de. destruct Hdv as [Hdv|[? _]]; [|done].
    destruct (IH (Datatypes.S i) (flushed + 1) s1 (out ++ [msg_of y]) l') as (s' & -> & Hs'); [done|lia| |].
    { apply (Forall2_impl_in _ _ _ _ HF'). intros k r Hk (raw' & Hr & Hr'). exists raw'. split; [|done].
      rewrite Hdv, lookup_delete_ne; [done|]. by intros ->. }
    exists s'. rewrite <- app_assoc. split; [do 3 f_equal; lia|]. intros k. rewrite Hs', Hdv.
    destruct (decide (k = key)) as [->|Hne].
    + rewrite lookup_delete_eq, (bool_decide_true (key ∈ key :: keys)) by apply list_elem_of_here.
      by destruct (bool_decide _).
    + rewrite lookup_delete_ne by done. rewrite (bool_decide_ext (k ∈ key :: keys) (k ∈ keys)); [done|].
      rewrite elem_of_cons. naive_solver.
Qed.

(** When the store, the publisher and the context behave and the limit
    covers what is stored, one flush publishes every stored record exactly once,
    in the order of the keys, and leaves the outbox empty. *)
Theorem flush_drains ctx limit s out keys recs :
  all_healthy -> (forall j, ctx j = None) -> ob_keys s = Ok keys -> Z.of_nat (length keys) <= limit -> 0 < limit ->
  Forall2 (fun k r => exists raw, ob_view s !! k = Some raw /\ unmarshal raw = Ok r) keys recs ->
  exists s', Flush true ctx limit s out = (Z.of_nat (length keys), None, s', out ++ (msg_of <$> recs)) /\
    ob_view s' = ∅.
Proof.
  intros Hh Hctx Hk Hl Hpos HF. unfold Flush. simpl. rewrite Hk. destruct (Z.leb_spec limit 0); [lia|].
  destruct (ob_keys_ok _ _ Hk) as [Hn Hin].
  destruct (drain_loop keys ctx 0 limit 0 s out recs) as (s' & -> & Hs'); [done..|lia|done|].
  exists s'. split; [done|]. apply map_eq. intros k. rewrite Hs', lookup_empty.
  case_bool_decide as Hm; [done|]. apply eq_None_not_Some. by rewrite <- Hin.
Qed.

End Outbox.

(** ** A store that works, and concrete runs *)

#[export, refine] Instance map_store : OutboxStore (gmap string string) := {
  ob_view s := s;
  ob_put k v s := (None, <[k := v]> s);
  ob_get k s := match s !! k with Some v => Ok v | None => Er (errorf "key not found") end;
  ob_delete k s := (None, delete k s);
  ob_keys s := Ok (map_to_list s).*1
}.
Proof.
  - auto.
  - intros k s v. by destruct (s !! k) eqn:E; intros [= ->].
  - auto.
  - intros s l [= <-]. split; [apply NoDup_fst_map_to_list|]. intros k.
    rewrite list_elem_of_fmap. split.
    + intros ([k' v] & -> & Hv%elem_of_map_to_list). eauto.
    + intros [v Hv]. exists (k, v). split; [done|]. by apply elem_of_map_to_list.
Defined.

Definition order_rec : Record_ := Rec 7 ∅ "id-1" "orders.created" "42".
(** A codec that knows one record. *)
Definition one_marshal (r : Record_) : res string :=
  if decide (r = order_rec) then Ok "{order}" else Er (errorf "json").
Definition one_unmarshal (raw : string) : res Record_ :=
  if String.eqb raw "{order}" then Ok order_rec else Er (errorf "json").
(** Publishers that accept, and refuse, everything. *)
Definition accepting (out : list sent_msg) (m : sent_msg) : option err := None.
Definition refusing (out : list sent_msg) (m : sent_msg) : option err := Some (errorf "no responders").

Lemma outbox_no_loss_witness :
  let os := [OFlush (fun _ => None) 10; OFlush (fun _ => None) 10] in
  let w := run_ops one_marshal one_unmarshal refusing os (<["id-1" := "{order}"]> ∅, []) in
  (exists raw, ob_view w.1 !! "id-1" = Some raw /\ one_unmarshal raw = Ok order_rec) \/
  Sent "orders.created" "42" ∅ ∈ w.2.
Proof.
  cbv zeta.
  apply (outbox_no_loss one_marshal one_unmarshal refusing "id-1" 7 "orders.created" "42" ∅ ∅ order_rec
    (<["id-1" := "{order}"]> ∅) []
    [OFlush (fun _ => None) 10; OFlush (fun _ => None) 10]).
  - vm_compute. reflexivity.
  - intros raw [= <-]. reflexivity.
  - repeat constructor.
Defined.

Lemma flush_counts_witness :
  exists new, Z.of_nat (length new) = 1 /\ [Sent "orders.created" "42" ∅] = [] ++ new.
Proof.
  destruct (flush_counts one_marshal one_unmarshal accepting true (fun _ => None) 10 (<["id-1" := "{order}"]> ∅ : gmap string string)
    [] 1 None ∅ [Sent "orders.created" "42" ∅]) as (new & H1 & H2 & _).
  - vm_compute. reflexivity.
  - exists new. auto.
Defined.

Lemma flush_drains_witness :
  exists s', Flush one_unmarshal accepting true (fun _ => None) 10 (<["id-1" := "{order}"]> ∅ : gmap string string) [] =
    (1, None, s', [Sent "orders.created" "42" ∅]) /\ ob_view s' = ∅.
Proof.
  apply (flush_drains one_marshal one_unmarshal accepting (fun _ => None) 10 (<["id-1" := "{order}"]> ∅ : gmap string string) []
    ["id-1"] [order_rec]).
  - split; [|split; [reflexivity|reflexivity]]. intros s k v Hv. simpl in *. by rewrite Hv.
  - reflexivity.
  - vm_compute. reflexivity.
  - vm_compute. congruence.
  - reflexivity.
  - repeat constructor. exists "{order}". split; vm_compute; reflexivity.
Defined.
