(* ===== verification/Shadow.v ===== *)
(** * Shadow traffic and graduation (shadow/shadow.go, shadow/graduate.go, shadow_reexport.go)

    [With] runs a second handler on a clone of sampled messages.  The goroutines
    it starts are steps of a small machine: a delivery runs the primary handler
    and may start a shadow; a shadow's handler runs, its reports are made one by
    one, it ends.  Messages are values here; that a clone shares no memory with
    the message it was made of is [ShadowHeap].  [Graduate] shares atomics
    between the shadow goroutines, [Abort] and [Promote]; each atomic access is
    one step.  Random numbers are the argument of the delivery; rates are IEEE
    doubles. *)

From Stdlib Require Import SpecFloat.
From S2P Require Import Prelude GoStr Message Compress Codec Publisher Rpc Pressure Consume Watch.

(** ** float64 *)

Definition f64_mul : spec_float -> spec_float -> spec_float := SFmul 53 1024.
Definition f64_add : spec_float -> spec_float -> spec_float := SFadd 53 1024.
(** [math.Min] away from signed zeros. *)
Definition f64_min (a b : spec_float) : spec_float :=
  match SFcompare a b with Some Lt => a | Some _ => b | None => S754_nan end.
Definition f64_million : spec_float := f64_of_int 1000000.

(** ** shadow.With *)
Module Shadow.

Definition defaultShadowConcurrency : Z := 32.

Record Config := ShadowCfg { SampleRate : spec_float; MaxInFlight : Z; hasRecorder : bool; hasMetrics : bool }.

Definition shadow_withDefaults (c : Config) : Config :=
  let r := if SFleb (SampleRate c) (f64_of_int 0) then f64_ratio 1 10 else SampleRate c in
  ShadowCfg (if SFltb (f64_of_int 1) r then f64_of_int 1 else r)
    (if MaxInFlight c <=? 0 then defaultShadowConcurrency else MaxInFlight c) (hasRecorder c) (hasMetrics c).

(** What a shadow run reports; the text of an incident is that of an error, or
    made of the primary's and the shadow's result. *)
Inductive shadow_text := TError (e : err) | TPair (primaryErr shadowErr : option err).
Inductive shadow_event :=
  | MetricError | MetricMismatch
  | RecordShadow (detail subject : string) (t : shadow_text).

(** [cloneMsg]: same subject, data and headers; no reply, no subscription. *)
Definition cloneMsg (m : jmsg) : jmsg := JMsg (body m) false None.

(** The default comparison: both succeed or both fail. *)
Definition default_compare (p s : option err) : bool := Bool.eqb (bool_decide (p = None)) (bool_decide (s = None)).

(** [run]: a panic of the shadow becomes an error. *)
Definition shadow_run (shadow : MsgHandler) (m : jmsg) : option err :=
  match (shadow m).1 with Returned e => e | Panicked _ => Some (errorf "shadow panic: %v") end.

Definition observeShadow (c : Config) (compare : option err -> option err -> bool) (shadow : MsgHandler)
  (m : jmsg) (subject : string) (primaryErr : option err) : list shadow_event :=
  let shadowErr := shadow_run shadow m in
  (match shadowErr with
   | Some e => (if hasMetrics c then [MetricError] else []) ++
               (if hasRecorder c then [RecordShadow "shadow_error" subject (TError e)] else [])
   | None => []
   end) ++
  (if compare primaryErr shadowErr then []
   else (if hasMetrics c then [MetricMismatch] else []) ++
        (if hasRecorder c then [RecordShadow "shadow_mismatch" subject (TPair primaryErr shadowErr)] else [])).

(** A shadow goroutine: its clone, the subject and the primary's result; before
    its handler has returned [jTodo] is [None], after that it is the reports
    still to be made.  The list of them is the semaphore. *)
Record job := Job { jMsg : jmsg; jSubject : string; jPrimary : option err; jTodo : option (list shadow_event) }.
Definition set_todo (j : job) (l : list shadow_event) : job := Job (jMsg j) (jSubject j) (jPrimary j) (Some l).

Section With.
Context (c : Config) (compare : option err -> option err -> bool) (primary shadow : MsgHandler).

(** One delivery through the wrapped handler; [draw] is [rand.Float64()]. A panic
    of the primary leaves before sampling. *)
Definition deliver (draw : spec_float) (m : jmsg) (running : list job) : (outcome * jmsg) * list job :=
  let '(o, m1) := primary m in
  match o with
  | Panicked _ => ((o, m1), running)
  | Returned e =>
      if SFltb (SampleRate c) (f64_of_int 1) && f64_ge draw (SampleRate c) then ((o, m1), running)
      else if Z.of_nat (length running) <? MaxInFlight c
      then ((o, m1), running ++ [Job (cloneMsg m1) (nSubject (body m1)) e None])
      else ((o, m1), running)
  end.

(** The steps of shadow goroutine [i]: the handler runs and [observeShadow] knows
    what to report; one report is made; the semaphore is released. *)
Definition run_shadow (i : nat) (running : list job) : option (list job) :=
  j ← running !! i;
  match jTodo j with
  | None => Some (<[i := set_todo j (observeShadow c compare shadow (jMsg j) (jSubject j) (jPrimary j))]> running)
  | Some _ => None
  end.
Definition report (i : nat) (running : list job) : option (list job * shadow_event) :=
  j ← running !! i;
  match jTodo j with Some (ev :: l) => Some (<[i := set_todo j l]> running, ev) | _ => None end.
Definition finish (i : nat) (running : list job) : option (list job) :=
  j ← running !! i; match jTodo j with Some [] => Some (delete i running) | _ => None end.

Inductive shadow_step :=
  | SDeliver (draw : spec_float) (m : jmsg)
  | SRun (i : nat)
  | SReport (i : nat)
  | SFinish (i : nat).

Definition sh_step (l : shadow_step) (st : list job * list shadow_event) : option (list job * list shadow_event) :=
  match l with
  | SDeliver d m => Some ((deliver d m st.1).2, st.2)
  | SRun i => r ← run_shadow i st.1; Some (r, st.2)
  | SReport i => '(r, ev) ← report i st.1; Some (r, st.2 ++ [ev])
  | SFinish i => r ← finish i st.1; Some (r, st.2)
  end.
Fixpoint sh_run (ls : list shadow_step) (st : list job * list shadow_event) : option (list job * list shadow_event) :=
  match ls with [] => Some st | l :: ls' => st' ← sh_step l st; sh_run ls' st' end.

(** The handler [With] returns, seen by the caller at one delivery. *)
Definition With (draw : spec_float) (running : list job) : MsgHandler := fun m => (deliver draw m running).1.

End With.

Lemma deliver_outcome c p d m r : (deliver c p d m r).1 = p m.
Proof. unfold deliver. destruct (p m) as [[] m1]; repeat case_match; done. Qed.

Lemma deliver_extends c p d m r : exists new, (deliver c p d m r).2 = r ++ new /\ Forall (fun j => jTodo j = None) new.
Proof.
  unfold deliver. destruct (p m) as [[e|e] m1]; repeat case_match; simpl;
    (exists [] + eexists [_]); rewrite ?app_nil_r; (split; [reflexivity|]); by repeat constructor.
Qed.

(** What the steps of a shadow goroutine do to the list. *)
Lemma run_shadow_Some c cmp sh i r r' : run_shadow c cmp sh i r = Some r' ->
  exists j, r !! i = Some j /\ jTodo j = None /\ r' = <[i := set_todo j (observeShadow c cmp sh (jMsg j) (jSubject j) (jPrimary j))]> r.
Proof. unfold run_shadow. destruct (r !! i) as [j|]; simpl; [|done]. destruct (jTodo j) eqn:E; [done|]. intros; simplify_eq. eauto. Qed.

Lemma report_Some i r r' ev : report i r = Some (r', ev) ->
  exists j l, r !! i = Some j /\ jTodo j = Some (ev :: l) /\ r' = <[i := set_todo j l]> r.
Proof. unfold report. destruct (r !! i) as [j|]; simpl; [|done]. destruct (jTodo j) as [[]|] eqn:E; intros; simplify_eq. eauto. Qed.

Lemma finish_Some i r r' : finish i r = Some r' -> exists j, r !! i = Some j /\ jTodo j = Some [] /\ r' = delete i r.
Proof. unfold finish. destruct (r !! i) as [j|]; simpl; [|done]. destruct (jTodo j) as [[]|] eqn:E; intros; simplify_eq. eauto. Qed.

(** At no time do more than [MaxInFlight] shadows run, however deliveries and
    shadows interleave: extra samples are dropped. *)
Theorem shadow_in_flight_bounded (c0 : Config) cmp primary shadow ls r ev :
  let c := shadow_withDefaults c0 in
  sh_run c cmp primary shadow ls ([], []) = Some (r, ev) -> Z.of_nat (length r) <= MaxInFlight c.
Proof.
  intros c. assert (0 <= MaxInFlight c) as H0.
  { unfold c, shadow_withDefaults. simpl. destruct (Z.leb_spec (MaxInFlight c0) 0); [done|lia]. }
  clearbody c. assert (Z.of_nat (@length job []) <= MaxInFlight c) as Hi by (simpl; lia).
  revert Hi. generalize (@nil job) as r0, (@nil shadow_event) as ev0.
  induction ls as [|l ls IH]; intros r0 ev0 Hi H; simpl in H; [by simplify_eq|].
  destruct l as [d m|i|i|i]; simpl in H.
  - eapply IH; [|exact H]. unfold deliver. destruct (primary m) as [[e|e] m1]; [|done]. case_match; [done|].
    destruct (Z.ltb_spec (Z.of_nat (length r0)) (MaxInFlight c)); [|done]. simpl. rewrite length_app. simpl. lia.
  - destruct (run_shadow c cmp shadow i r0) as [r1|] eqn:E; simpl in H; [|done].
    apply run_shadow_Some in E as (j & _ & _ & ->). eapply IH; [|exact H]. by rewrite length_insert.
  - destruct (report i r0) as [[r1 e1]|] eqn:E; simpl in H; [|done].
    apply report_Some in E as (j & l & _ & _ & ->). eapply IH; [|exact H]. by rewrite length_insert.
  - destruct (finish i r0) as [r1|] eqn:E; simpl in H; [|done].
    apply finish_Some in E as (j & Hj & _ & ->). eapply IH; [|exact H]. rewrite length_delete by eauto. lia.
Qed.

End Shadow.

(** ** Graduate *)
Module Graduate.

Definition PhaseRamping : Z := 1.
Definition PhaseHolding : Z := 2.
Definition PhasePromoteReady : Z := 3.
Definition PhaseAborted : Z := 4.

Record GraduateConfig := GradCfg {
  StartRate : spec_float; MaxRate : spec_float; Step : spec_float; MaxMismatchRate : spec_float; Window : Z
}.

Definition f64_pos_or (x d : spec_float) : spec_float := if SFleb x (f64_of_int 0) then d else x.

Definition grad_withDefaults (c : GraduateConfig) : GraduateConfig :=
  let start := f64_pos_or (StartRate c) (f64_ratio 5 100) in
  let mx := f64_pos_or (MaxRate c) (f64_of_int 1) in
  let mx := if SFltb (f64_of_int 1) mx then f64_of_int 1 else mx in
  GradCfg (if SFltb mx start then mx else start) mx (f64_pos_or (Step c) (f64_ratio 2 10))
    (f64_pos_or (MaxMismatchRate c) (f64_ratio 1 100)) (if Window c <=? 0 then 500 else Window c).

(** [uint64(f)] truncates; [bad] stands for values that do not fit. *)
Definition f64_to_u64 (bad : spec_float -> Z) (f : spec_float) : Z :=
  match f with
  | S754_zero _ => 0
  | S754_finite s m e =>
      let a := Z.shiftl (Zpos m) e in
      if negb s && (a <? 2 ^ 64) then a else if s && (a =? 0) then 0 else bad f
  | _ => bad f
  end.

(** Where a goroutine is: [observeCompare] and [evaluateWindow], [Abort],
    [Promote]. *)
Inductive gpc :=
  | GSample (matched : bool)      (* samples.Add(1) *)
  | GTally (matched : bool)       (* matches/mismatches.Add(1) *)
  | GPhase                        (* evaluateWindow: phase.Load *)
  | GSamples                      (* samples.Load, window test *)
  | GMismatch (samples : Z)       (* mismatches.Load, rate test *)
  | GRate                         (* rate.Load, ready test *)
  | GReady                        (* phase.Store(PromoteReady) *)
  | GReadyCb                      (* OnPromoteReady *)
  | GStoreRate (v : Z)            (* rate.Store *)
  | GStoreRamp                    (* phase.Store(Ramping) *)
  | GAbReason (r : string)        (* Abort: reason under the mutex *)
  | GAbPhase (r : string)         (* Abort: phase.Store(Aborted) *)
  | GAbCb (r : string)            (* Abort: OnAbort *)
  | GPrLoad                       (* Promote: phase.Load *)
  | GPrStore                      (* Promote: phase.Store(Holding) *)
  | GEnd.

Record Graduate := Grad {
  rate : Z; matches : Z; mismatches : Z; samples : Z; phase : Z; reason : string;
  threads : list gpc; callbacks : list string
}.

Inductive glabel :=
  | GObserve (matched : bool)   (* a shadow run calls the comparison *)
  | GAbort (r : string) | GPromote
  | GStep (i : nat).

Section Machine.
Context (bad : spec_float -> Z) (c : GraduateConfig).

Definition NewGraduate : Graduate :=
  Grad (f64_to_u64 bad (f64_mul (StartRate c) f64_million)) 0 0 0 PhaseRamping "" [] [].

Definition rate_of (v : Z) : spec_float := f64_div (f64_of_int v) f64_million.

(** [rate+1e-9 >= MaxRate] *)
Definition at_max (v : Z) : bool :=
  f64_ge (f64_add (rate_of v) (f64_ratio 1 1000000000)) (MaxRate c).
(** The next stored rate. *)
Definition next_rate (v : Z) : Z :=
  f64_to_u64 bad (f64_mul (f64_min (MaxRate c) (f64_add (rate_of v) (Step c))) f64_million).
(** [mismatchRate > MaxMismatchRate] *)
Definition too_many (mis n : Z) : bool := SFltb (MaxMismatchRate c) (f64_ratio mis n).

Definition set_pc (i : nat) (pc : gpc) (g : Graduate) : Graduate :=
  Grad (rate g) (matches g) (mismatches g) (samples g) (phase g) (reason g) (<[i := pc]> (threads g)) (callbacks g).
Definition store_phase (p : Z) (g : Graduate) : Graduate :=
  Grad (rate g) (matches g) (mismatches g) (samples g) p (reason g) (threads g) (callbacks g).
Definition store_rate (v : Z) (g : Graduate) : Graduate :=
  Grad v (matches g) (mismatches g) (samples g) (phase g) (reason g) (threads g) (callbacks g).
Definition call_back (n : string) (g : Graduate) : Graduate :=
  Grad (rate g) (matches g) (mismatches g) (samples g) (phase g) (reason g) (threads g) (callbacks g ++ [n]).
Definition spawn (pc : gpc) (g : Graduate) : Graduate :=
  Grad (rate g) (matches g) (mismatches g) (samples g) (phase g) (reason g) (threads g ++ [pc]) (callbacks g).

(** The counting of [observeCompare]'s comparison. *)
Definition observe_step (i : nat) (pc : gpc) (g : Graduate) : option Graduate :=
  match pc with
  | GSample m => Some (set_pc i (GTally m) (Grad (rate g) (matches g) (mismatches g) (u64 (samples g + 1))
                         (phase g) (reason g) (threads g) (callbacks g)))
  | GTally m => Some (set_pc i GPhase (Grad (rate g) (if m then u64 (matches g + 1) else matches g)
                        (if m then mismatches g else u64 (mismatches g + 1)) (samples g) (phase g) (reason g)
                        (threads g) (callbacks g)))
  | _ => None
  end.

Definition Abort_step (i : nat) (pc : gpc) (g : Graduate) : option Graduate :=
  match pc with
  | GAbReason r => Some (set_pc i (GAbPhase r) (Grad (rate g) (matches g) (mismatches g) (samples g) (phase g) r
                           (threads g) (callbacks g)))
  | GAbPhase r => Some (set_pc i (GAbCb r) (store_phase PhaseAborted g))
  | GAbCb r => Some (set_pc i GEnd (call_back r g))
  | _ => None
  end.

Definition Promote_step (i : nat) (pc : gpc) (g : Graduate) : option Graduate :=
  match pc with
  | GPrLoad => Some (set_pc i (if phase g =? PhasePromoteReady then GPrStore else GEnd) g)
  | GPrStore => Some (set_pc i GEnd (store_phase PhaseHolding g))
  | _ => None
  end.

(** The next atomic action of a goroutine: counting, then [evaluateWindow]; the
    bodies of [Abort] and [Promote]. *)
Definition thread_step (i : nat) (pc : gpc) (g : Graduate) : option Graduate :=
  match pc with
  | GSample _ | GTally _ => observe_step i pc g
  | GPhase => Some (set_pc i (if (phase g =? PhaseAborted) || (phase g =? PhasePromoteReady) then GEnd else GSamples) g)
  | GSamples => Some (set_pc i (if (samples g =? 0) || negb (samples g mod Window c =? 0) then GEnd
                                else GMismatch (samples g)) g)
  | GMismatch n => Some (set_pc i (if too_many (mismatches g) n then GAbReason "mismatch_rate" else GRate) g)
  | GRate => Some (set_pc i (if at_max (rate g) then GReady else GStoreRate (next_rate (rate g))) g)
  | GReady => Some (set_pc i GReadyCb (store_phase PhasePromoteReady g))
  | GReadyCb => Some (set_pc i GEnd (call_back "promote_ready" g))
  | GStoreRate v => Some (set_pc i GStoreRamp (store_rate v g))
  | GStoreRamp => Some (set_pc i GEnd (store_phase PhaseRamping g))
  | GAbReason _ | GAbPhase _ | GAbCb _ => Abort_step i pc g
  | GPrLoad | GPrStore => Promote_step i pc g
  | GEnd => None
  end.

(** [Status]: every field is read at a moment of its own. *)
Record GraduateStatus := GStatus {
  stReason : string; stPhase : Z; stRate : spec_float; stMatches : Z; stMismatches : Z; stSamples : Z
}.
Definition Status (g1 g2 g3 g4 g5 g6 : Graduate) : GraduateStatus :=
  GStatus (reason g1) (phase g2) (rate_of (rate g3)) (matches g4) (mismatches g5) (samples g6).

Definition gstep (l : glabel) (g : Graduate) : option Graduate :=
  match l with
  | GObserve m => Some (spawn (GSample m) g)
  | GAbort r => Some (spawn (GAbReason r) g)
  | GPromote => Some (spawn GPrLoad g)
  | GStep i => pc ← threads g !! i; thread_step i pc g
  end.
Fixpoint grun (ls : list glabel) (g : Graduate) : option Graduate :=
  match ls with [] => Some g | l :: ls' => g' ← gstep l g; grun ls' g' end.

(** What the handler of [NewGraduate] does at a delivery: the primary alone once
    aborted, otherwise [With] at the current rate, with a semaphore of its own. *)
Definition grad_deliver (primary : MsgHandler) (draw : spec_float) (m : jmsg) (g : Graduate)
  : (outcome * jmsg) * list Shadow.job :=
  if phase g =? PhaseAborted then (primary m, [])
  else Shadow.deliver
         (Shadow.shadow_withDefaults (Shadow.ShadowCfg (rate_of (rate g)) 0 false false)) primary draw m [].

Lemma grun_inv (P : Graduate -> Prop) ls g g' :
  (forall l g g', P g -> gstep l g = Some g' -> P g') -> P g -> grun ls g = Some g' -> P g'.
Proof.
  intros Hs. revert g. induction ls as [|l ls IH]; intros g Hg H; simpl in H; [by simplify_eq|].
  apply bind_Some in H as (g1 & E & H). exact (IH g1 (Hs _ _ _ Hg E) H).
Qed.

Lemma u64_add_l a b : u64 (u64 a + b) = u64 (a + b).
Proof. apply Zplus_mod_idemp_l. Qed.

(** Threads that have counted a sample and not yet its outcome. *)
Definition g_tallying (pc : gpc) : bool := match pc with GTally _ => true | _ => false end.
(** Threads that will still store a phase other than [PhaseAborted]: they read
    the phase before it changed. *)
Definition g_committed (pc : gpc) : bool :=
  match pc with
  | GSamples | GMismatch _ | GRate | GReady | GStoreRate _ | GStoreRamp | GPrStore => true
  | _ => false
  end.

Ltac gstep_cases H :=
  match type of H with gstep ?l ?g = Some _ => destruct l; simpl in H end;
  [injection H as <-|injection H as <-|injection H as <-|];
  [..|apply bind_Some in H as (? & ? & H);
      match type of H with thread_step _ ?pc _ = Some _ => destruct pc end; simpl in H; simplify_eq].

(** Counted outcomes add up to the samples, at every moment of every
    interleaving (as 64-bit counters): the difference is what goroutines are
    between their two increments. *)
Theorem graduate_books ls g : grun ls NewGraduate = Some g ->
  samples g = u64 (matches g + mismatches g + cnt g_tallying (threads g)).
Proof.
  apply (grun_inv (fun g => samples g = u64 (matches g + mismatches g + cnt g_tallying (threads g)))); [|done].
  clear g. intros l g g' Hg H.
  gstep_cases H; simpl; rewrite ?cnt_app, ?cnt_cons, ?cnt_nil, ?(cnt_insert g_tallying _ _ _ _ H0); simpl;
    rewrite ?Z.add_0_r, ?Z.sub_0_r; try done; repeat case_match; simpl; rewrite ?Z.add_0_r; try done.
  - rewrite Hg, u64_add_l. f_equal. lia.
  - rewrite <- Z.add_assoc, u64_add_l, Hg. f_equal. lia.
  - rewrite (Z.add_comm (matches g)), <- Z.add_assoc, u64_add_l, Hg. f_equal. lia.
Qed.

(** C34: an abort is final once the goroutines that had read the earlier phase are
    through: whatever is observed, promoted or aborted afterwards, the phase
    stays aborted, so the shadow is never called again. *)
Theorem abort_final ls g g' : phase g = PhaseAborted -> cnt g_committed (threads g) = 0 ->
  grun ls g = Some g' ->
  phase g' = PhaseAborted /\ forall primary draw m, grad_deliver primary draw m g' = (primary m, []).
Proof.
  intros H1 H2 Hr.
  cut (phase g' = PhaseAborted /\ cnt g_committed (threads g') = 0).
  { intros [E _]. split; [done|]. intros. unfold grad_deliver. by rewrite E. }
  revert Hr. apply (grun_inv (fun g => phase g = PhaseAborted /\ cnt g_committed (threads g) = 0)); [|done].
  clear. intros l g g' [H1 H2] H.
  gstep_cases H; simpl; rewrite ?cnt_app, ?cnt_cons, ?cnt_nil, ?(cnt_insert g_committed _ _ _ _ H0), ?H1; simpl;
    try (split; [done|lia]); pose proof (cnt_zero g_committed _ _ _ H2 H0); done.
Qed.

End Machine.

(** ** Racing an abort *)

(** The defaults, with a window of [window] samples. *)
Definition default_cfg (window : Z) : GraduateConfig :=
  grad_withDefaults (GradCfg (f64_of_int 0) (f64_of_int 0) (f64_of_int 0) (f64_of_int 0) window).

(** An abort is not final before that: a goroutine that read the phase just
    before [Abort] stores [PhaseRamping] over it.  The abort has been announced
    through its callback, every goroutine is through, and the shadow goes on
    receiving traffic. *)
Theorem abort_undone bad :
  exists ls g, grun bad (default_cfg 1) ls (NewGraduate bad (default_cfg 1)) = Some g /\
    callbacks g = ["operator"] /\ reason g = "operator" /\ phase g = PhaseRamping /\
    Forall (fun pc => pc = GEnd) (threads g).
Proof.
  exists ([GObserve true] ++ replicate 6 (GStep 0) ++ [GAbort "operator"] ++ replicate 3 (GStep 1) ++ replicate 2 (GStep 0)).
  eexists. split; [vm_compute; reflexivity|]. simpl. split_and!; try done. by repeat constructor.
Qed.

(** One shadow goroutine after another, each to its end. *)
Definition observe_all (n : nat) : list glabel :=
  seq 0 n ≫= (fun i => GObserve true :: replicate 6 (GStep i) ++ replicate 2 (GStep i)).

(** With the defaults a healthy shadow is promoted after six windows, through the
    rates 0.05, 0.25, 0.45, 0.65, 0.85 and 1. *)
Example healthy_promotes :
  option_map (fun g => (phase g, rate g, callbacks g))
    (grun (fun _ => 0) (default_cfg 1) (observe_all 6) (NewGraduate (fun _ => 0) (default_cfg 1))) =
  Some (PhasePromoteReady, 1000000, ["promote_ready"]).
Proof. vm_compute. reflexivity. Qed.

(** ** Promotion *)

(** Rates are stored in millionths, rounded down: with a maximum of one third the
    ramp stops at 333333, which is never within 1e-9 of it. *)
Definition third_cfg (window : Z) : GraduateConfig :=
  grad_withDefaults (GradCfg (f64_of_int 0) (f64_ratio 1 3) (f64_of_int 0) (f64_of_int 0) window).

Definition third_rates (v : Z) : Prop := v = 50000 \/ v = 250000 \/ v = 333333.

Definition third_pc (pc : gpc) : Prop :=
  match pc with GStoreRate v => third_rates v | GReady | GReadyCb | GPrStore => False | _ => True end.

Record third_ok (g : Graduate) : Prop := {
  to_rate : third_rates (rate g);
  to_phase : phase g = PhaseRamping \/ phase g = PhaseAborted;
  to_threads : Forall third_pc (threads g)
}.

Lemma third_next bad window v : third_rates v ->
  at_max (third_cfg window) v = false /\ third_rates (next_rate bad (third_cfg window) v).
Proof.
  intros [-> | [-> | ->]]; (split; [vm_compute; reflexivity|]); unfold third_rates; vm_compute; auto.
Qed.

Lemma third_step bad window l g g' : third_ok g -> gstep bad (third_cfg window) l g = Some g' -> third_ok g'.
Proof.
  intros [H1 H2 H3] H. pose proof (third_next bad window (rate g) H1) as [Hm Hn].
  assert (forall i pc, third_pc pc -> Forall third_pc (<[i := pc]> (threads g))) as Hi
    by (intros; by apply Forall_insert).
  destruct l as [m|r| |i]; simpl in H.
  1-3: injection H as <-; constructor; simpl; try done; apply Forall_app; split; [done|by repeat constructor].
  apply bind_Some in H as (pc & Hpc & H). pose proof (Forall_lookup_1 _ _ _ _ H3 Hpc) as Hok.
  destruct pc; simpl in H; simplify_eq; try done; constructor; simpl; auto.
  all: apply Hi; rewrite ?Hm; try done; repeat case_match; try done.
  destruct H2 as [E|E]; rewrite E in *; done.
Qed.

(** Graduation never completes for such a maximum: however many samples match
    and whatever else happens, the phase never becomes [PhasePromoteReady] and
    [OnPromoteReady] is never called, for any window. *)
Theorem graduation_stalls bad window ls g :
  grun bad (third_cfg window) ls (NewGraduate bad (third_cfg window)) = Some g ->
  phase g <> PhasePromoteReady /\ rate g <= 333333.
Proof.
  intros Hr. assert (third_ok g) as [H1 H2 _].
  { revert Hr. apply grun_inv; [apply third_step|]. constructor; [vm_compute; auto|by left|constructor]. }
  split; [destruct H2 as [-> | ->]; discriminate|]. unfold third_rates in H1. lia.
Qed.

End Graduate.

(** ** Concrete runs *)

Definition shadow_demo : Shadow.Config := Shadow.ShadowCfg (f64_of_int 1) 2 true true.
Definition ok_handler : MsgHandler := fun m => (Returned None, m).
Definition bad_handler : MsgHandler := fun m => (Panicked None, m).
Definition order_msg : jmsg := JMsg (NMsg "orders.created" "42" None) true None.

(** Three sampled deliveries with room for two shadows; one of them panics. *)
Definition three_deliveries : list Shadow.shadow_step :=
  [Shadow.SDeliver (f64_of_int 0) order_msg; Shadow.SDeliver (f64_of_int 0) order_msg;
   Shadow.SDeliver (f64_of_int 0) order_msg; Shadow.SRun 0; Shadow.SReport 0; Shadow.SRun 1; Shadow.SReport 0;
   Shadow.SReport 0; Shadow.SReport 0; Shadow.SFinish 0].

Lemma shadow_in_flight_bounded_witness :
  exists r ev, Shadow.sh_run shadow_demo Shadow.default_compare ok_handler bad_handler three_deliveries ([], []) = Some (r, ev) /\
    length r = 1%nat /\ length ev = 4%nat /\ Z.of_nat (length r) <= 2.
Proof.
  eexists _, _. split; [vm_compute; reflexivity|]. split; [reflexivity|]. split; [reflexivity|].
  refine (Shadow.shadow_in_flight_bounded shadow_demo Shadow.default_compare ok_handler bad_handler three_deliveries
    _ _ _). vm_compute. reflexivity.
Defined.

Definition grad_state (ls : list Graduate.glabel) : Graduate.Graduate :=
  default (Graduate.NewGraduate (fun _ => 0) (Graduate.default_cfg 1))
    (Graduate.grun (fun _ => 0) (Graduate.default_cfg 1) ls (Graduate.NewGraduate (fun _ => 0) (Graduate.default_cfg 1))).

Lemma graduate_books_witness :
  Graduate.samples (grad_state [Graduate.GObserve true; Graduate.GStep 0]) = 1 /\
  Graduate.samples (grad_state [Graduate.GObserve true; Graduate.GStep 0]) =
    u64 (0 + 0 + cnt Graduate.g_tallying (Graduate.threads (grad_state [Graduate.GObserve true; Graduate.GStep 0]))).
Proof.
  split; [vm_compute; reflexivity|].
  apply (Graduate.graduate_books (fun _ => 0) (Graduate.default_cfg 1) [Graduate.GObserve true; Graduate.GStep 0]).
  vm_compute. reflexivity.
Defined.

Definition aborted : list Graduate.glabel := Graduate.GAbort "operator" :: replicate 3 (Graduate.GStep 0).

Lemma abort_final_witness :
  Graduate.phase (grad_state (aborted ++ [Graduate.GObserve false; Graduate.GStep 1])) = Graduate.PhaseAborted.
Proof.
  apply (Graduate.abort_final (fun _ => 0) (Graduate.default_cfg 1) [Graduate.GObserve false; Graduate.GStep 1] (grad_state aborted)).
  - vm_compute. reflexivity.
  - vm_compute. reflexivity.
  - vm_compute. reflexivity.
Defined.

Lemma graduation_stalls_witness :
  exists g, Graduate.grun (fun _ => 0) (Graduate.third_cfg 1) (Graduate.observe_all 9)
      (Graduate.NewGraduate (fun _ => 0) (Graduate.third_cfg 1)) = Some g /\
    Graduate.matches g = 9 /\ Graduate.phase g <> Graduate.PhasePromoteReady.
Proof.
  eexists. split; [vm_compute; reflexivity|]. split; [reflexivity|].
  apply (Graduate.graduation_stalls (fun _ => 0) 1 (Graduate.observe_all 9)). vm_compute. reflexivity.
Defined.

(** [NewGraduate] builds a new [With], and so a new semaphore, for every message:
    each sampled delivery starts a shadow however many are running, and
    [MaxInFlight] bounds nothing. *)
Theorem graduate_unbounded (primary : MsgHandler) (m : jmsg) (e : option err) (n : nat) :
  (primary m).1 = Returned e ->
  length (seq 0 n ≫= fun _ =>
    (Graduate.grad_deliver primary (f64_of_int 0) m (Graduate.NewGraduate no_bad (Graduate.default_cfg 1))).2) = n.
Proof.
  intros Hp. generalize 0%nat. induction n as [|n IH]; intros k; [done|].
  cbn [seq mbind list_bind]. rewrite length_app, IH.
  unfold Graduate.grad_deliver, Shadow.deliver. destruct (primary m) as [o m1]. simpl in Hp. subst o. reflexivity.
Qed.

Lemma graduate_unbounded_witness :
  length (seq 0 100 ≫= fun _ =>
    (Graduate.grad_deliver ok_handler (f64_of_int 0) order_msg (Graduate.NewGraduate no_bad (Graduate.default_cfg 1))).2) = 100%nat.
Proof. apply (graduate_unbounded ok_handler order_msg None). reflexivity. Defined.
