(* ===== verification/ShadowHeap.v ===== *)
(** * Shadow clones in memory (shadow/shadow.go)

    A [*nats.Msg] is a struct whose payload and header live in memory that slices
    and maps share.  Here they do: the heap holds byte arrays, arrays of header
    values and header maps, a message holds addresses, and [cloneMsg] copies cell
    by cell.  Every piece of code that handles a message is a party that owns the
    cells it can reach: the consumer and the primary handler own those of the
    delivered message, a shadow goroutine those of its clone, and each may write
    them, allocate more and replace its message as it likes, at any moment.  The
    primary is taken not to hand its message to the shadow behind the wrapper's
    back.  The value model of [Shadow] is the view of this one. *)
From Stdlib Require Import SpecFloat.
From stdpp Require Import fin_maps.
From S2P Require Import Prelude GoStr Message Compress Codec Publisher Rpc Pressure Consume Watch Shadow.

(** ** Memory *)

Definition loc := nat.
(** A slice of header values may be nil. *)
Inductive cell := CBytes (b : string) | CVals (vs : list string) | CMap (m : gmap string (option loc)).
Notation heap := (gmap loc cell).

Record hmsg := HMsg { hSubject : string; hData : option loc; hHeader : option loc; hBound : bool; hSettled : option settle_op }.

Definition opt_locs (r : option loc) : gset loc := match r with Some l => {[ l ]} | None => ∅ end.
(** The addresses a cell holds, and those a message reaches. *)
Definition targets (c : cell) : gset loc :=
  match c with CMap m => map_fold (fun _ r acc => opt_locs r ∪ acc) ∅ m | _ => ∅ end.
Definition cell_targets (o : option cell) : gset loc := match o with Some c => targets c | None => ∅ end.
Definition reach (h : heap) (m : hmsg) : gset loc :=
  opt_locs (hData m) ∪ match hHeader m with Some l => {[ l ]} ∪ cell_targets (h !! l) | None => ∅ end.

(** Reading: what a message says. *)
Definition read_bytes (h : heap) (r : option loc) : string :=
  match (l ← r; h !! l) with Some (CBytes b) => b | _ => "" end.
Definition read_vals (h : heap) (r : option loc) : list string :=
  match (l ← r; h !! l) with Some (CVals vs) => vs | _ => [] end.
Definition read_header (h : heap) (r : option loc) : option header :=
  match (l ← r; h !! l) with Some (CMap m) => Some (read_vals h <$> m) | _ => None end.
Definition hview (h : heap) (m : hmsg) : jmsg :=
  JMsg (NMsg (hSubject m) (read_bytes h (hData m)) (read_header h (hHeader m))) (hBound m) (hSettled m).

(** ** cloneMsg *)

Definition alloc (c : cell) (h : heap) : loc * heap := let l := fresh (dom h) in (l, <[l := c]> h).

(** [append([]byte(nil), data...)] and [append([]string(nil), vs...)]: a new
    array, or nil when there is nothing to copy. *)
Definition copy_bytes (r : option loc) (h : heap) : option loc * heap :=
  let b := read_bytes h r in
  if IsEmpty b then (None, h) else let '(l, h') := alloc (CBytes b) h in (Some l, h').
Definition copy_vals (r : option loc) (h : heap) : option loc * heap :=
  match read_vals h r with
  | [] => (None, h)
  | vs => let '(l, h') := alloc (CVals vs) h in (Some l, h')
  end.
(** [for k, vs := range msg.Header { out.Header[k] = append([]string(nil), vs...) }] *)
Definition copy_entries (m : gmap string (option loc)) (h : heap) : gmap string (option loc) * heap :=
  map_fold (fun k r acc => let '(r', h') := copy_vals r acc.2 in (<[k := r']> acc.1, h')) (∅, h) m.

Definition cloneMsg (m : hmsg) (h : heap) : hmsg * heap :=
  let '(d, h1) := copy_bytes (hData m) h in
  match (l ← hHeader m; h !! l) with
  | Some (CMap e) =>
      let '(e', h2) := copy_entries e h1 in
      let '(l, h3) := alloc (CMap e') h2 in
      (HMsg (hSubject m) d (Some l) false None, h3)
  | _ => (HMsg (hSubject m) d None false None, h1)
  end.

(** ** Lemmas: copies are fresh and say the same *)

Lemma targets_spec c l : l ∈ targets c <-> exists m k, c = CMap m /\ m !! k = Some (Some l).
Proof.
  destruct c as [b|vs|m]; simpl; [split; [set_solver|naive_solver]..|].
  assert (l ∈ map_fold (fun _ r acc => opt_locs r ∪ acc) ∅ m <-> exists k, m !! k = Some (Some l)) as ->; [|naive_solver].
  induction m as [|k r m Hn Hf IH] using map_first_key_ind.
  - rewrite map_fold_empty. split; [set_solver|]. intros [k Hk]. by rewrite lookup_empty in Hk.
  - rewrite map_fold_insert_first_key by done. rewrite elem_of_union, IH. split.
    + intros [Hr|[k' Hk']].
      * exists k. rewrite lookup_insert_eq. destruct r; set_solver.
      * exists k'. rewrite lookup_insert_ne; [done|]. intros ->. congruence.
    + intros [k' Hk']. destruct (decide (k = k')) as [<-|Hne].
      * rewrite lookup_insert_eq in Hk'. left. simplify_eq. set_solver.
      * rewrite lookup_insert_ne in Hk' by done. eauto.
Qed.

Lemma alloc_spec c h l h' : alloc c h = (l, h') -> l ∉ dom h /\ h ⊆ h' /\ h' !! l = Some c /\ dom h' = {[ l ]} ∪ dom h.
Proof.
  unfold alloc. intros E. simplify_eq. pose proof (is_fresh (dom h)) as Hf. split_and!; [done| | |apply dom_insert_L].
  - apply insert_subseteq. by apply not_elem_of_dom.
  - apply lookup_insert_eq.
Qed.

Lemma read_bytes_mono h h' r : h ⊆ h' -> opt_locs r ⊆ dom h -> read_bytes h' r = read_bytes h r.
Proof.
  intros Hs Hr. destruct r as [l|]; [|done]. unfold read_bytes. simpl.
  assert (l ∈ dom h) as [c Hc]%elem_of_dom by set_solver. by rewrite Hc, (lookup_weaken _ _ _ _ Hc Hs).
Qed.
Lemma read_vals_mono h h' r : h ⊆ h' -> opt_locs r ⊆ dom h -> read_vals h' r = read_vals h r.
Proof.
  intros Hs Hr. destruct r as [l|]; [|done]. unfold read_vals. simpl.
  assert (l ∈ dom h) as [c Hc]%elem_of_dom by set_solver. by rewrite Hc, (lookup_weaken _ _ _ _ Hc Hs).
Qed.

(** A copied slice: fresh, and with the same contents. *)
Definition leaf (h : heap) (l : loc) : Prop := is_Some (h !! l) /\ cell_targets (h !! l) = ∅.
Definition fresh_in (h h' : heap) (r : option loc) : Prop :=
  h ⊆ h' /\ opt_locs r ## dom h /\ opt_locs r ⊆ dom h' /\ set_Forall (leaf h') (opt_locs r).

Lemma leaf_mono h h' l : h ⊆ h' -> leaf h l -> leaf h' l.
Proof. intros Hs [[c Hc] Ht]. unfold leaf. rewrite (lookup_weaken _ _ _ _ Hc Hs). rewrite Hc in Ht. eauto. Qed.

Lemma copy_bytes_spec r h r' h' : copy_bytes r h = (r', h') -> fresh_in h h' r' /\ read_bytes h' r' = read_bytes h r.
Proof.
  unfold copy_bytes. destruct (IsEmpty (read_bytes h r)) eqn:Ei; [intros; simplify_eq|].
  - apply IsEmpty_spec in Ei as ->. split; [|done]. split_and!; [done|simpl; set_solver|simpl; set_solver|]. intros l Hl. set_solver.
  - destruct (alloc _ h) as [l h1] eqn:Ea. intros; simplify_eq. destruct (alloc_spec _ _ _ _ Ea) as (H1 & H2 & H3 & H4).
    split; [|unfold read_bytes at 1; simpl; by rewrite H3].
    split_and!; [done|simpl; set_solver|simpl; set_solver|]. intros l' Hl'. assert (l' = l) as -> by set_solver. unfold leaf. by rewrite H3.
Qed.
Lemma copy_vals_spec r h r' h' : copy_vals r h = (r', h') -> fresh_in h h' r' /\ read_vals h' r' = read_vals h r.
Proof.
  unfold copy_vals. destruct (read_vals h r) as [|v vs] eqn:Ei; [intros; simplify_eq|].
  - split; [|done]. split_and!; [done|simpl; set_solver|simpl; set_solver|]. intros l Hl. set_solver.
  - destruct (alloc _ h) as [l h1] eqn:Ea. intros; simplify_eq. destruct (alloc_spec _ _ _ _ Ea) as (H1 & H2 & H3 & H4).
    split; [|unfold read_vals at 1; simpl; by rewrite H3].
    split_and!; [done|simpl; set_solver|simpl; set_solver|]. intros l' Hl'. assert (l' = l) as -> by set_solver. unfold leaf. by rewrite H3.
Qed.

(** The copied entries hold only new addresses and read as the old ones did. *)
Lemma copy_entries_spec m h e' h' : targets (CMap m) ⊆ dom h -> copy_entries m h = (e', h') ->
  h ⊆ h' /\ targets (CMap e') ## dom h /\ targets (CMap e') ⊆ dom h' /\ set_Forall (leaf h') (targets (CMap e')) /\
  read_vals h' <$> e' = read_vals h <$> m.
Proof.
  unfold copy_entries. intros Ht. revert e' h'. 
  assert (forall k r, m !! k = Some r -> opt_locs r ⊆ dom h) as Hm.
  { intros k [l|] Hk; [|set_solver]. assert (l ∈ targets (CMap m)) by (apply targets_spec; eauto). set_solver. }
  clear Ht. induction m as [|k r m Hn Hf IH] using map_first_key_ind; intros e' h' E.
  - rewrite map_fold_empty in E. simplify_eq. split_and!; [done|..]; try (by rewrite !fmap_empty);
      intros l Hl; apply targets_spec in Hl as (m' & k & Hm' & Hk); simplify_eq; by rewrite lookup_empty in Hk.
  - rewrite map_fold_insert_first_key in E by done.
    destruct (map_fold _ (∅, h) m) as [e1 h1] eqn:E1. simpl in E.
    destruct (copy_vals r h1) as [r' h2] eqn:Ec. simplify_eq.
    destruct (IH ltac:(intros k' r0 Hk'; apply (Hm k'); rewrite lookup_insert_ne; [done|intros ->; congruence]) e1 h1 eq_refl) as (H1 & H2 & H3 & HL & H4).
    destruct (copy_vals_spec _ _ _ _ Ec) as [(F1 & F2 & F3 & FL) F4].
    assert (opt_locs r ⊆ dom h) as Hr by (apply (Hm k); apply lookup_insert_eq).
    pose proof (subseteq_dom _ _ H1) as D1. pose proof (subseteq_dom _ _ F1) as D2.
    assert (forall l, l ∈ targets (CMap (<[k := r']> e1)) -> l ∈ opt_locs r' \/ l ∈ targets (CMap e1)) as Htg.
    { intros l (m' & k' & Hm' & Hk')%targets_spec. simplify_eq. destruct (decide (k = k')) as [<-|Hne].
      - rewrite lookup_insert_eq in Hk'. simplify_eq. left. set_solver.
      - rewrite lookup_insert_ne in Hk' by done. right. apply targets_spec. eauto. }
    split_and!; [by transitivity h1|set_solver|set_solver| |].
    { intros l [Hl|Hl]%Htg; [by apply FL|]. eapply leaf_mono; [done|]. by apply HL. }
    rewrite !fmap_insert, F4, (read_vals_mono h h1 r H1 Hr), <- H4. f_equal.
    apply map_fmap_ext. intros k' r0 Hk'. apply read_vals_mono; [done|].
    destruct r0 as [l|]; [|set_solver]. assert (l ∈ targets (CMap e1)) by (apply targets_spec; eauto). set_solver.
Qed.

(** [cloneMsg]: only new cells, which hold no other address, and the clone says
    what the message says, bound to no subscription. *)
Lemma cloneMsg_spec m h c h' : reach h m ⊆ dom h -> cloneMsg m h = (c, h') ->
  h ⊆ h' /\ reach h' c ## dom h /\ reach h' c ⊆ dom h' /\ (forall l, l ∈ reach h' c -> cell_targets (h' !! l) ⊆ reach h' c) /\
  hview h' c = Shadow.cloneMsg (hview h m).
Proof.
  unfold cloneMsg, reach. intros Hr E. destruct (copy_bytes (hData m) h) as [d h1] eqn:Ed.
  destruct (copy_bytes_spec _ _ _ _ Ed) as [(F1 & F2 & F3 & FL) F4]. pose proof (subseteq_dom _ _ F1) as D1.
  destruct (l ← hHeader m; h !! l) as [[b|vs|e]|] eqn:Eh;
    try (simplify_eq; split_and!; [done|simpl; set_solver|simpl; set_solver|
           intros l Hl; simpl in Hl; assert (l ∈ opt_locs d) as [_ ->]%FL by set_solver; set_solver|];
         unfold hview, Shadow.cloneMsg, read_header; simpl; rewrite Eh, F4; reflexivity).
  destruct (copy_entries e h1) as [e' h2] eqn:Ee. destruct (alloc (CMap e') h2) as [l h3] eqn:Ea. simplify_eq.
  assert (targets (CMap e) ⊆ dom h) as Hte.
  { destruct (hHeader m) as [l0|]; [|done]. simpl in Eh. rewrite Eh in Hr. cbn [cell_targets] in Hr. set_solver. }
  destruct (copy_entries_spec e h1 e' h2 ltac:(set_solver) Ee) as (H1 & H2 & H3 & HL & H4).
  destruct (alloc_spec _ _ _ _ Ea) as (A1 & A2 & A3 & A4). pose proof (subseteq_dom _ _ H1) as D2.
  cbn [hData hHeader]. rewrite A3. cbn [cell_targets]. split_and!; [by repeat (etransitivity; [eassumption|])|set_solver|set_solver| |].
  { intros l' Hl'. assert (l' ∈ opt_locs d \/ l' = l \/ l' ∈ targets (CMap e')) as [Hd|[->|Ht]] by set_solver.
    - destruct (leaf_mono h1 h' l' ltac:(by transitivity h2) (FL _ Hd)) as [_ ->]. set_solver.
    - rewrite A3. simpl. set_solver.
    - destruct (leaf_mono h2 h' l' A2 (HL _ Ht)) as [_ ->]. set_solver. }
  unfold hview, Shadow.cloneMsg. cbn [hSubject hData hHeader hBound hSettled body bound settlement]. f_equal. f_equal.
  - rewrite <- F4. apply read_bytes_mono; [by transitivity h2|done].
  - unfold read_header. rewrite Eh. cbn [mbind option_bind]. rewrite A3. f_equal.
    transitivity (read_vals h1 <$> e); [rewrite <- H4|]; apply map_fmap_ext; intros k r Hk; apply read_vals_mono; try done.
    + destruct r as [l1|]; [|set_solver]. assert (l1 ∈ targets (CMap e')) by (apply targets_spec; eauto). set_solver.
    + destruct r as [l1|]; [|set_solver]. assert (l1 ∈ targets (CMap e)) by (apply targets_spec; eauto). set_solver.
Qed.

(** ** The machine *)

Record party := Party { pmsg : hmsg; owned : gset loc }.
(** The heap, the parties in the order they came to be, and the shadow
    goroutines under way (the semaphore). *)
Record hstate := HState { hp : heap; parties : list party; running : list nat }.
Definition hinit : hstate := HState ∅ [] [].

(** What the code of a party does with its memory: overwrite a cell, allocate
    one, change a field of its message.  It has no subscription to attach. *)
Inductive action := AWrite (l : loc) (c : cell) | AAlloc (c : cell) | ASet (m : hmsg).

Definition act (i : nat) (a : action) (st : hstate) : option hstate :=
  p ← parties st !! i;
  match a with
  | AWrite l c =>
      if decide (l ∈ owned p /\ targets c ⊆ owned p)
      then Some (HState (<[l := c]> (hp st)) (parties st) (running st)) else None
  | AAlloc c =>
      if decide (targets c ⊆ owned p)
      then let '(l, h') := alloc c (hp st) in Some (HState h' (<[i := Party (pmsg p) ({[ l ]} ∪ owned p)]> (parties st)) (running st))
      else None
  | ASet m =>
      if decide (opt_locs (hData m) ∪ opt_locs (hHeader m) ⊆ owned p /\ hBound m = hBound (pmsg p))
      then Some (HState (hp st) (<[i := Party m (owned p)]> (parties st)) (running st)) else None
  end.

(** [With] after its primary returned [o] on the message of party [i]. *)
Definition With_return (c : Shadow.Config) (i : nat) (draw : spec_float) (o : outcome) (st : hstate) : option hstate :=
  p ← parties st !! i;
  match o with
  | Panicked _ => Some st
  | Returned _ =>
      if SFltb (Shadow.SampleRate c) (f64_of_int 1) && f64_ge draw (Shadow.SampleRate c) then Some st
      else if Z.of_nat (length (running st)) <? Shadow.MaxInFlight c
      then let '(cl, h') := cloneMsg (pmsg p) (hp st) in
           Some (HState h' (parties st ++ [Party cl (reach h' cl)]) (running st ++ [length (parties st)]))
      else Some st
  end.

Inductive hlabel :=
  | HArrive (m : hmsg) (cells : heap)   (* nats.go delivers a message, in memory of its own *)
  | HAct (i : nat) (a : action)
  | HReturn (i : nat) (draw : spec_float) (o : outcome)
  | HEnd (k : nat).                     (* the k-th running shadow releases the semaphore *)

Definition hstep (c : Shadow.Config) (l : hlabel) (st : hstate) : option hstate :=
  match l with
  | HArrive m cells =>
      if decide (dom cells ∩ dom (hp st) = ∅ /\ opt_locs (hData m) ∪ opt_locs (hHeader m) ⊆ dom cells /\
                 map_Forall (fun _ x => targets x ⊆ dom cells) cells)
      then Some (HState (cells ∪ hp st) (parties st ++ [Party m (dom cells)]) (running st)) else None
  | HAct i a => act i a st
  | HReturn i draw o => With_return c i draw o st
  | HEnd k => Some (HState (hp st) (parties st) (delete k (running st)))
  end.
Fixpoint hrun (c : Shadow.Config) (ls : list hlabel) (st : hstate) : option hstate :=
  match ls with [] => Some st | l :: ls' => st' ← hstep c l st; hrun c ls' st' end.

(** ** Separation *)

Record separate (st : hstate) : Prop := {
  s_dom i p : parties st !! i = Some p -> owned p ⊆ dom (hp st);
  s_disj i j p q : parties st !! i = Some p -> parties st !! j = Some q -> i <> j -> owned p ## owned q;
  s_msg i p : parties st !! i = Some p -> opt_locs (hData (pmsg p)) ∪ opt_locs (hHeader (pmsg p)) ⊆ owned p;
  s_closed i p l : parties st !! i = Some p -> l ∈ owned p -> cell_targets (hp st !! l) ⊆ owned p
}.

Lemma reach_owned st i p : separate st -> parties st !! i = Some p -> reach (hp st) (pmsg p) ⊆ owned p.
Proof.
  intros Hs Hi. pose proof (s_msg _ Hs _ _ Hi) as Hm. unfold reach. destruct (hHeader (pmsg p)) as [l|]; simpl in Hm; [|set_solver].
  pose proof (s_closed _ Hs _ _ l Hi ltac:(set_solver)). set_solver.
Qed.

(** What a message says depends only on the cells its party owns. *)
Lemma view_frame st i p h' : separate st -> parties st !! i = Some p ->
  (forall l, l ∈ owned p -> h' !! l = hp st !! l) -> hview h' (pmsg p) = hview (hp st) (pmsg p).
Proof.
  intros Hs Hi Hh. pose proof (reach_owned st i p Hs Hi) as Hr. unfold reach in Hr.
  unfold hview. f_equal. f_equal.
  - unfold read_bytes. destruct (hData (pmsg p)) as [l|]; [|done]. simpl. rewrite Hh; [done|]. simpl in Hr. set_solver.
  - unfold read_header. destruct (hHeader (pmsg p)) as [l|]; [|done]. simpl. rewrite Hh by set_solver.
    destruct (hp st !! l) as [[]|] eqn:El; try done. f_equal. apply map_fmap_ext. intros k r Hk. unfold read_vals.
    destruct r as [l'|]; [|done]. simpl. rewrite Hh; [done|].
    assert (l' ∈ targets (CMap m)) by (apply targets_spec; eauto). cbn [cell_targets] in Hr. set_solver.
Qed.

Definition by_party (i : nat) (l : hlabel) : bool := match l with HAct j _ => (i =? j)%nat | _ => false end.

(** The cells of every other party, and its message, are left alone. *)
Definition untouched (j : nat) (st st' : hstate) : Prop :=
  forall p, parties st !! j = Some p -> parties st' !! j = Some p /\ forall l, l ∈ owned p -> hp st' !! l = hp st !! l.

(** A new party in new memory. *)
Lemma join_separate st h' m own : separate st -> hp st ⊆ h' -> own ## dom (hp st) -> own ⊆ dom h' ->
  opt_locs (hData m) ∪ opt_locs (hHeader m) ⊆ own -> (forall l, l ∈ own -> cell_targets (h' !! l) ⊆ own) ->
  forall rs, let st' := HState h' (parties st ++ [Party m own]) rs in separate st' /\ forall j, untouched j st st'.
Proof.
  intros [H1 H2 H3 H4] Hh Hd Ho Hm Hc rs. pose proof (subseteq_dom _ _ Hh) as Hdom.
  assert (forall l, l ∈ dom (hp st) -> h' !! l = hp st !! l) as Hsame.
  { intros l [x Hx]%elem_of_dom. rewrite Hx. by eapply lookup_weaken. }
  split.
  - constructor; simpl.
    + intros i p [Hi|[_ Hi]]%lookup_app_Some; [specialize (H1 _ _ Hi); set_solver|]. apply list_lookup_singleton_Some in Hi as [_ <-]. done.
    + intros i j p q Hi Hj Hne. apply lookup_app_Some in Hi as [Hi|[Hi1 Hi]], Hj as [Hj|[Hj1 Hj]].
      * by eapply H2.
      * apply list_lookup_singleton_Some in Hj as [_ <-]. specialize (H1 _ _ Hi). set_solver.
      * apply list_lookup_singleton_Some in Hi as [_ <-]. specialize (H1 _ _ Hj). set_solver.
      * apply list_lookup_singleton_Some in Hi as [? _], Hj as [? _]. lia.
    + intros i p [Hi|[_ Hi]]%lookup_app_Some; [by eapply H3|]. apply list_lookup_singleton_Some in Hi as [_ <-]. done.
    + intros i p l [Hi|[_ Hi]]%lookup_app_Some Hl.
      * rewrite Hsame; [by eapply H4|]. specialize (H1 _ _ Hi). set_solver.
      * apply list_lookup_singleton_Some in Hi as [_ <-]. by apply Hc.
  - intros j p Hj. simpl. split; [by apply lookup_app_l_Some|]. intros l Hl. apply Hsame. specialize (H1 _ _ Hj). set_solver.
Qed.

(** A party changes its own memory. *)
Lemma change_separate st i p h' m' own : separate st -> parties st !! i = Some p ->
  owned p ⊆ own -> own ⊆ dom h' -> dom (hp st) ⊆ dom h' -> (forall l, l ∈ own -> l ∈ owned p \/ l ∉ dom (hp st)) ->
  (forall l, l ∈ dom (hp st) -> l ∉ owned p -> h' !! l = hp st !! l) ->
  opt_locs (hData m') ∪ opt_locs (hHeader m') ⊆ own -> (forall l, l ∈ own -> cell_targets (h' !! l) ⊆ own) ->
  forall rs, let st' := HState h' (<[i := Party m' own]> (parties st)) rs in
  separate st' /\ forall j, j <> i -> untouched j st st'.
Proof.
  intros [H1 H2 H3 H4] Hi Hown Ho Hd Hnew Hsame Hm Hc rs.
  assert (forall j q, parties st !! j = Some q -> j <> i -> own ## owned q) as Hother.
  { intros j q Hj Hne l Hl Hq. pose proof (H1 _ _ Hj l Hq). pose proof (H2 _ _ _ _ Hi Hj (not_eq_sym Hne)).
    destruct (Hnew l Hl); [set_solver|done]. }
  assert (forall j q, <[i := Party m' own]> (parties st) !! j = Some q -> (j = i /\ q = Party m' own) \/ (j <> i /\ parties st !! j = Some q)) as Hl.
  { intros j q Hj. apply list_lookup_insert_Some in Hj as [(-> & <- & _)|[? ?]]; auto. }
  assert (forall j q l, parties st !! j = Some q -> j <> i -> l ∈ owned q -> h' !! l = hp st !! l) as Hkeep.
  { intros j q l Hj Hne Hlq. apply Hsame; [by eapply H1|]. pose proof (H2 _ _ _ _ Hi Hj (not_eq_sym Hne)). set_solver. }
  split.
  - constructor; simpl.
    + intros j q [[_ ->]|[_ Hj]]%Hl; [done|]. specialize (H1 _ _ Hj). set_solver.
    + intros j k q r Hj%Hl Hk%Hl Hne. destruct Hj as [[-> ->]|[Hj1 Hj]], Hk as [[-> ->]|[Hk1 Hk]]; [done|..|by eapply H2].
      * by apply (Hother k).
      * symmetry. by apply (Hother j).
    + intros j q [[_ ->]|[_ Hj]]%Hl; [done|by eapply H3].
    + intros j q l [[_ ->]|[Hne Hj]]%Hl Hq; [by apply Hc|]. rewrite (Hkeep j q l Hj Hne Hq). by eapply H4.
  - intros j Hne q Hj. simpl. split; [by rewrite list_lookup_insert_ne by done|]. intros l Hq. by apply (Hkeep j q).
Qed.

Lemma act_separate i a st st' : separate st -> act i a st = Some st' -> separate st' /\ forall j, j <> i -> untouched j st st'.
Proof.
  intros Hs E. unfold act in E. destruct (parties st !! i) as [p|] eqn:Hi; cbn [mbind option_bind] in E; [|done].
  pose proof (s_dom _ Hs _ _ Hi) as Hd. pose proof (s_msg _ Hs _ _ Hi) as Hm. pose proof (fun l => s_closed _ Hs _ _ l Hi) as Hc.
  destruct a as [l c|c|m].
  - case_decide as Hw; [|done]. simplify_eq. destruct Hw as [Hl Ht].
    replace (parties st) with (<[i := Party (pmsg p) (owned p)]> (parties st)) by (apply list_insert_id; by destruct p).
    apply (change_separate st i p _ (pmsg p) (owned p) Hs Hi); [done|rewrite dom_insert_L; set_solver|rewrite dom_insert_L; set_solver|by left| |done|].
    + intros l' _ Hn. rewrite lookup_insert_ne; [done|]. by intros ->.
    + intros l' Hl'. destruct (decide (l = l')) as [<-|Hne]; [by rewrite lookup_insert_eq|]. rewrite lookup_insert_ne by done. by apply Hc.
  - case_decide as Hw; [|done]. destruct (alloc c (hp st)) as [l h'] eqn:Ea. simplify_eq.
    destruct (alloc_spec _ _ _ _ Ea) as (A1 & A2 & A3 & A4).
    assert (forall l', l' ∈ dom (hp st) -> h' !! l' = hp st !! l') as Hsame.
    { intros l' [x Hx]%elem_of_dom. rewrite Hx. by eapply lookup_weaken. }
    apply (change_separate st i p h' (pmsg p) ({[ l ]} ∪ owned p) Hs Hi); [set_solver|rewrite A4; set_solver|rewrite A4; set_solver|set_solver| |set_solver|].
    + intros l' Hl' _. by apply Hsame.
    + intros l' [->%elem_of_singleton|Hl']%elem_of_union; [rewrite A3; simpl; set_solver|].
      rewrite Hsame by (by apply Hd). specialize (Hc _ Hl'). set_solver.
  - case_decide as Hw; [|done]. simplify_eq. destruct Hw as [Hl _].
    by apply (change_separate st i p _ m (owned p) Hs Hi); try done; left.
Qed.

Lemma step_separate c l st st' : separate st -> hstep c l st = Some st' ->
  separate st' /\ forall j, by_party j l = false -> untouched j st st'.
Proof.
  intros Hs E. destruct l as [m cells|i a|i draw o|k]; simpl in E.
  - case_decide as Hd; [|done]. simplify_eq. destruct Hd as (H0 & H2 & H3). assert (dom cells ## dom (hp st)) as H1 by set_solver.
    destruct (join_separate st (cells ∪ hp st) m (dom cells) Hs) with (rs := running st) as [J1 J2].
    + apply map_union_subseteq_r, (map_disjoint_dom_2 (D := gset loc)). exact H1.
    + done.
    + rewrite dom_union_L. set_solver.
    + done.
    + intros l Hl. apply elem_of_dom in Hl as [x Hx]. rewrite (lookup_union_Some_l _ _ _ _ Hx). by apply (H3 l).
    + split; [done|]. intros j _. apply J2.
  - destruct (act_separate i a st st' Hs E) as [A1 A2]. split; [done|]. intros j Hj. apply A2. simpl in Hj. by apply Nat.eqb_neq.
  - unfold With_return in E. destruct (parties st !! i) as [p|] eqn:Hi; simpl in E; [|done].
    assert (separate st /\ forall j, by_party j (HReturn i draw o) = false -> untouched j st st) as Hsame by done.
    destruct o as [e|e]; [|by simplify_eq]. destruct (_ && _); [by simplify_eq|]. destruct (_ <? _); [|by simplify_eq].
    destruct (cloneMsg (pmsg p) (hp st)) as [cl h'] eqn:Ec. simplify_eq.
    pose proof (reach_owned st i p Hs Hi) as Hr. pose proof (s_dom _ Hs _ _ Hi) as Hd.
    destruct (cloneMsg_spec (pmsg p) (hp st) cl h' ltac:(set_solver) Ec) as (C1 & C2 & C3 & C4 & _).
    destruct (join_separate st h' cl (reach h' cl) Hs C1 C2 C3) with (rs := running st ++ [length (parties st)]) as [J1 J2].
    + unfold reach. destruct (hHeader cl); simpl; set_solver.
    + done.
    + split; [done|]. intros j _. apply J2.
  - simplify_eq. split; [by destruct Hs|]. by intros j _ p Hj.
Qed.

Lemma run_separate c ls st st' : separate st -> hrun c ls st = Some st' ->
  separate st' /\ forall j, forallb (fun l => negb (by_party j l)) ls = true -> untouched j st st'.
Proof.
  revert st. induction ls as [|l ls IH]; intros st Hs E; simpl in *; [by simplify_eq|].
  apply bind_Some in E as (s1 & E1 & E2). destruct (step_separate c l st s1 Hs E1) as [H1 H2].
  destruct (IH s1 H1 E2) as [H3 H4]. split; [done|]. intros j [Hj1%negb_true_iff Hj2]%andb_true_iff p Hp.
  destruct (H2 j Hj1 p Hp) as [Hp1 K1]. destruct (H4 j Hj2 p Hp1) as [Hp2 K2]. split; [done|].
  intros l' Hl'. by rewrite K2, K1.
Qed.

Lemma init_separate : separate hinit.
Proof. by constructor. Qed.

(** Nothing the others do changes what a party's message says. *)
Lemma view_kept c ls st st' j p : separate st -> hrun c ls st = Some st' -> parties st !! j = Some p ->
  forallb (fun l => negb (by_party j l)) ls = true ->
  parties st' !! j = Some p /\ hview (hp st') (pmsg p) = hview (hp st) (pmsg p).
Proof.
  intros Hs E Hj Hn. destruct (run_separate c ls st st' Hs E) as [_ H]. destruct (H j Hn p Hj) as [Hp Hk].
  split; [done|]. by apply (view_frame st j).
Qed.

(** No action attaches a message to a subscription. *)
Lemma step_unbound c l st st' j : hstep c l st = Some st' ->
  forall p, parties st !! j = Some p -> exists p', parties st' !! j = Some p' /\ hBound (pmsg p') = hBound (pmsg p).
Proof.
  intros E p Hj. destruct l as [m cells|i a|i draw o|k]; simpl in E.
  - case_decide; simplify_eq. exists p. split; [by apply lookup_app_l_Some|done].
  - unfold act in E. destruct (parties st !! i) as [q|] eqn:Hi; cbn [mbind option_bind] in E; [|done].
    assert (forall m own, hBound m = hBound (pmsg q) ->
      exists p', <[i := Party m own]> (parties st) !! j = Some p' /\ hBound (pmsg p') = hBound (pmsg p)) as Hx.
    { intros m own Hm. destruct (decide (i = j)) as [->|Hne]; [|rewrite list_lookup_insert_ne by done; eauto].
      rewrite list_lookup_insert_eq by (by eapply lookup_lt_Some). simplify_eq. eauto. }
    destruct a as [l c0|c0|m]; case_decide as Hd; try done; [|destruct (alloc c0 (hp st)) as [l h']|]; simplify_eq; simpl; eauto.
    apply Hx. by destruct Hd.
  - unfold With_return in E. destruct (parties st !! i) as [q|]; simpl in E; [|done].
    destruct o as [e|e]; [|by simplify_eq; eauto]. destruct (_ && _); [by simplify_eq; eauto|].
    destruct (_ <? _); [|by simplify_eq; eauto]. destruct (cloneMsg (pmsg q) (hp st)). simplify_eq.
    exists p. split; [by apply lookup_app_l_Some|done].
  - simplify_eq. eauto.
Qed.

Lemma run_unbound c ls st st' j : hrun c ls st = Some st' ->
  forall p, parties st !! j = Some p -> exists p', parties st' !! j = Some p' /\ hBound (pmsg p') = hBound (pmsg p).
Proof.
  revert st. induction ls as [|l ls IH]; intros st E p Hj; simpl in *; [simplify_eq; eauto|].
  apply bind_Some in E as (s1 & E1 & E2). destruct (step_unbound c l st s1 j E1 p Hj) as (p1 & Hp1 & <-). by apply (IH s1).
Qed.

(** What [With] does once its primary has returned: nothing, or a clone. *)
Lemma With_return_cases c i draw o st st' p : separate st -> parties st !! i = Some p -> With_return c i draw o st = Some st' ->
  separate st' /\
  (st' = st \/
   exists cl, parties st' = parties st ++ [cl] /\ running st' = running st ++ [length (parties st)] /\
     hview (hp st') (pmsg cl) = Shadow.cloneMsg (hview (hp st) (pmsg p))).
Proof.
  intros Hs Hi E. split; [by apply (step_separate c (HReturn i draw o) st st' Hs)|].
  unfold With_return in E. rewrite Hi in E. simpl in E. destruct o as [e|e]; [|left; by simplify_eq].
  destruct (_ && _); [left; by simplify_eq|]. destruct (_ <? _); [|left; by simplify_eq].
  destruct (cloneMsg (pmsg p) (hp st)) as [cl h'] eqn:Ec. simplify_eq. right. eexists. split; [done|]. split; [done|].
  pose proof (reach_owned st i p Hs Hi). pose proof (s_dom _ Hs _ _ Hi).
  by destruct (cloneMsg_spec (pmsg p) (hp st) cl h' ltac:(set_solver) Ec) as (_ & _ & _ & _ & ?).
Qed.

(** The value model follows: the jobs of [Shadow.deliver] are the clones made
    here, whatever the message the delivery started with. *)
Lemma deliver_simulates c i draw o st st' p x rs : separate st -> parties st !! i = Some p ->
  With_return c i draw o st = Some st' -> length rs = length (running st) ->
  Shadow.deliver c (fun _ => (o, hview (hp st) (pmsg p))) draw x rs =
    ((o, hview (hp st') (pmsg p)),
     rs ++ match o with
           | Returned e => (fun q => Shadow.Job (hview (hp st') (pmsg q)) (hSubject (pmsg p)) e None) <$> drop (length (parties st)) (parties st')
           | Panicked _ => []
           end).
Proof.
  intros Hs Hi E Hl. pose proof (view_kept c [HReturn i draw o] st st' i p Hs) as Hv. simpl in Hv. rewrite E in Hv.
  destruct (Hv eq_refl Hi eq_refl) as [_ ->]. clear Hv.
  unfold With_return in E. rewrite Hi in E. simpl in E. unfold Shadow.deliver. rewrite Hl.
  destruct o as [e|e]; [|simplify_eq; by rewrite app_nil_r].
  destruct (_ && _); [simplify_eq; by rewrite drop_all, fmap_nil, app_nil_r|].
  destruct (_ <? _); [|simplify_eq; by rewrite drop_all, fmap_nil, app_nil_r].
  destruct (cloneMsg (pmsg p) (hp st)) as [cl h'] eqn:Ec. simplify_eq. cbn [parties hp]. rewrite drop_app_length.
  pose proof (reach_owned st i p Hs Hi). pose proof (s_dom _ Hs _ _ Hi).
  destruct (cloneMsg_spec (pmsg p) (hp st) cl h' ltac:(set_solver) Ec) as (_ & _ & _ & _ & Hc). simpl. by rewrite Hc.
Qed.

Section Transparent.
Context `{NH : NatsHeader} `{CP : Compressors} `{MA : MsgApi}.

(** C32: the shadow never decides a delivery.  After the primary has returned
    [o] on the message of party [i], whatever is sampled and whatever the shadow
    goroutines, other deliveries and their handlers do to their memory, in any
    interleaving, the delivered message keeps its subject, payload, headers and
    settlement, so processing it returns, settles and notifies exactly as with
    the primary alone.  A clone says what the message said when it was made, and
    goes on saying so whatever anybody but its own shadow does; and no settle
    call on it ever has an effect, whatever the shadow does to it. *)
Theorem shadow_transparent (c : Shadow.Config) (cons : consumer) ls0 st i p draw o st1 :
  hrun c ls0 hinit = Some st -> parties st !! i = Some p -> With_return c i draw o st = Some st1 ->
  let v := hview (hp st) (pmsg p) in
  (forall ls st2, hrun c ls st1 = Some st2 -> forallb (fun l => negb (by_party i l)) ls = true ->
     hview (hp st2) (pmsg p) = v /\ parties st2 !! i = Some p /\
     forall x, processMessage cons (fun _ => (o, hview (hp st2) (pmsg p))) x = processMessage cons (fun _ => (o, v)) x) /\
  (forall k q, parties st !! k = None -> parties st1 !! k = Some q ->
     hview (hp st1) (pmsg q) = Shadow.cloneMsg v /\
     (forall ls st2, hrun c ls st1 = Some st2 -> forallb (fun l => negb (by_party k l)) ls = true ->
        parties st2 !! k = Some q /\ hview (hp st2) (pmsg q) = Shadow.cloneMsg v) /\
     (forall ls st2, hrun c ls st1 = Some st2 -> exists q2, parties st2 !! k = Some q2 /\
        forall op, do_op op (hview (hp st2) (pmsg q2)) = (Some (Sentinel ErrMsgNotBound), hview (hp st2) (pmsg q2)))).
Proof.
  intros E0 Hi E1 v. destruct (run_separate c ls0 hinit st init_separate E0) as [Hs _].
  destruct (With_return_cases c i draw o st st1 p Hs Hi E1) as [Hs1 Hcase].
  pose proof (view_kept c [HReturn i draw o] st st1 i p Hs) as Hv1. simpl in Hv1. rewrite E1 in Hv1.
  destruct (Hv1 eq_refl Hi eq_refl) as [Hi1 Hv]. split.
  - intros ls st2 E2 Hn. destruct (view_kept c ls st1 st2 i p Hs1 E2 Hi1 Hn) as [Hi2 Hv2]. rewrite Hv2, Hv. done.
  - intros k q Hk Hq. destruct Hcase as [->|(cl & Hp & _ & Hc)]; [congruence|].
    assert (q = cl) as ->.
    { rewrite Hp in Hq. apply lookup_app_Some in Hq as [Hq|[_ Hq]]; [congruence|]. by apply list_lookup_singleton_Some in Hq as [_ <-]. }
    split; [done|]. split.
    + intros ls st2 E2 Hn. destruct (view_kept c ls st1 st2 k cl Hs1 E2 Hq Hn) as [Hk2 Hv2]. by rewrite Hv2.
    + intros ls st2 E2. destruct (run_unbound c ls st1 st2 k E2 cl Hq) as (q2 & Hq2 & Hb). exists q2. split; [done|].
      intros op. apply api_unbound. simpl. rewrite Hb. by apply (f_equal bound) in Hc.
Qed.
End Transparent.

(** ** Witness *)

(** A message with one header; its shadow overwrites the payload and empties the
    header map of its clone. *)
Definition always : Shadow.Config := Shadow.ShadowCfg (f64_of_int 1) 2 false false.
Definition delivered : hmsg := HMsg "orders.created" (Some 1%nat) (Some 2%nat) true None.
Definition its_cells : heap := {[ 1%nat := CBytes "x"; 2%nat := CMap {[ "k" := Some 3%nat ]}; 3%nat := CVals ["v"] ]}.
Definition before_return : hstate := default hinit (hrun always [HArrive delivered its_cells] hinit).
Definition after_return : hstate := default hinit (With_return always 0 (f64_of_int 0) (Returned None) before_return).
Definition clone_data : loc := match parties after_return !! 1%nat with Some q => default 0%nat (hData (pmsg q)) | None => 0%nat end.
Definition clone_header : loc := match parties after_return !! 1%nat with Some q => default 0%nat (hHeader (pmsg q)) | None => 0%nat end.
Definition vandalism : list hlabel := [HAct 1 (AWrite clone_data (CBytes "y")); HAct 1 (AWrite clone_header (CMap ∅)); HEnd 0].
Definition vandalised : hstate := default hinit (hrun always vandalism after_return).

Lemma shadow_transparent_witness :
  hrun always vandalism after_return = Some vandalised /\
  hview (hp vandalised) delivered = JMsg (NMsg "orders.created" "x" (Some {[ "k" := ["v"] ]})) true None /\
  (parties vandalised !! 1%nat) ≫= (fun q => Some (body (hview (hp vandalised) (pmsg q)))) = Some (NMsg "orders.created" "y" (Some ∅)).
Proof.
  destruct (shadow_transparent always (demo_consumer false 0 0) [HArrive delivered its_cells] before_return 0
    (Party delivered (dom its_cells)) (f64_of_int 0) (Returned None) after_return) as [H _];
    [vm_compute; reflexivity|vm_compute; reflexivity|vm_compute; reflexivity|].
  assert (hrun always vandalism after_return = Some vandalised) as E by (vm_compute; reflexivity).
  split; [exact E|]. split; [|vm_compute; reflexivity].
  destruct (H vandalism vandalised E eq_refl) as [Hv _]. refine (eq_trans Hv _). vm_compute. reflexivity.
Defined.
