(* ===== verification/Admin.v ===== *)
(** * Stream and consumer administration (stream_manager.go, consumer_manager.go, ctxutil.go)

    The server's JetStream API is the interface [JsAdmin]: what it stores and
    what each call can do to it.  The configuration records hold the fields the
    code reads or writes; every other field of nats.go's consumer configuration
    is in [ccOther].  Policy constants follow nats.go, where [DeliverAll],
    [AckNone] and [ReplayInstant] are zero. *)

From S2P Require Import Prelude GoStr Validate Page.

Definition ErrConsumerNotFound : string := "nats.go.ErrConsumerNotFound".
Definition ErrStreamNotFound : string := "nats.go.ErrStreamNotFound".
Definition ErrConsumerRecreateRequired : string := "nats.ErrConsumerRecreateRequired".
Definition ErrEmptyConfigNotAllowed : string := "nats.ErrEmptyConfigNotAllowed".
Definition ErrJetStreamV2Required : string := "nats.ErrJetStreamV2Required".

Definition DeliverAll : Z := 0.
Definition DeliverNew : Z := 2.
Definition DeliverByStartSequence : Z := 3.
Definition DeliverByStartTime : Z := 4.
Definition AckExplicit : Z := 2.
Definition ReplayInstant : Z := 0.
Definition defaultStreamReplicas : Z := 1.

(** ** Contexts and calls that race them (ctxutil.go) *)

(** Whether the context is done before the call, and what the race between the
    call and the context yields: [Late e eff] is the context's error, with the
    call completing in the background ([eff]) or never. *)
Inductive race := Finished | Late (e : err) (eff : bool).
Record Ctx := MkCtx { ready : option err; raced : race }.
(** A context that is never done. *)
Definition background : Ctx := MkCtx None Finished.

Definition ctxReady (c : Ctx) : option err := ready c.

Definition runWithContextValue {S T} (c : Ctx) (fn : S -> res T * S) (s : S) : res T * S :=
  match ctxReady c with
  | Some e => (Er e, s)
  | None =>
      match raced c with
      | Finished => fn s
      | Late e true => (Er e, (fn s).2)
      | Late e false => (Er e, s)
      end
  end.
Definition runWithContext {S} (c : Ctx) (fn : S -> option err * S) (s : S) : option err * S :=
  let '(r, s') := runWithContextValue c (fun s => let '(e, s') := fn s in
                     (match e with Some e => Er e | None => Ok tt end, s')) s in
  (res_err r, s').

(** ** Configurations *)

Record DurableConsumerConfig := Durable_ {
  dOptStartTime : option Z; dMetadata : gmap string string; dDurable : string; dFilterSubject : string;
  dFilterSubjects : list string; dDeliverSubject : string; dDeliverGroup : string; dDeliverPolicy : Z;
  dReplayPolicy : Z; dAckPolicy : Z; dMaxDeliver : Z; dAckWait : Z; dMaxAckPending : Z; dRateLimit : Z;
  dHeartbeat : Z; dInactiveThreshold : Z; dReplicas : Z; dMaxWaiting : Z; dOptStartSeq : Z;
  dFlowControl : bool; dMemStorage : bool;
  dHasAckPolicy : bool; dHasDeliverPolicy : bool; dHasReplayPolicy : bool
}.

Record ConsumerConfig := CConf {
  ccDurable : string; ccFilterSubject : string; ccFilterSubjects : list string; ccDeliverSubject : string;
  ccDeliverGroup : string; ccDeliverPolicy : Z; ccReplayPolicy : Z; ccAckPolicy : Z; ccMaxDeliver : Z;
  ccAckWait : Z; ccMaxAckPending : Z; ccRateLimit : Z; ccHeartbeat : Z; ccInactiveThreshold : Z;
  ccFlowControl : bool; ccReplicas : Z; ccMemoryStorage : bool; ccMaxWaiting : Z; ccOptStartSeq : Z;
  ccOptStartTime : option Z; ccMetadata : gmap string string; ccOther : string
}.
(** The zero value of the fields nothing here sets. *)
Definition no_other : string := "".

Definition toNatsConsumerConfig (c : DurableConsumerConfig) : ConsumerConfig :=
  CConf (dDurable c) (dFilterSubject c) (dFilterSubjects c) (dDeliverSubject c) (dDeliverGroup c)
    (if dHasDeliverPolicy c then dDeliverPolicy c else DeliverAll)
    (if negb (dHasReplayPolicy c) && (dReplayPolicy c =? 0) then ReplayInstant else dReplayPolicy c)
    (if negb (dHasAckPolicy c) && (dAckPolicy c =? 0) then AckExplicit else dAckPolicy c)
    (dMaxDeliver c) (dAckWait c) (dMaxAckPending c) (dRateLimit c) (dHeartbeat c) (dInactiveThreshold c)
    (dFlowControl c) (dReplicas c) (dMemStorage c) (dMaxWaiting c) (dOptStartSeq c) (dOptStartTime c)
    (dMetadata c) no_other.

Definition with_deliver (cc : ConsumerConfig) (p : Z) : ConsumerConfig :=
  CConf (ccDurable cc) (ccFilterSubject cc) (ccFilterSubjects cc) (ccDeliverSubject cc) (ccDeliverGroup cc) p
    (ccReplayPolicy cc) (ccAckPolicy cc) (ccMaxDeliver cc) (ccAckWait cc) (ccMaxAckPending cc) (ccRateLimit cc)
    (ccHeartbeat cc) (ccInactiveThreshold cc) (ccFlowControl cc) (ccReplicas cc) (ccMemoryStorage cc)
    (ccMaxWaiting cc) (ccOptStartSeq cc) (ccOptStartTime cc) (ccMetadata cc) (ccOther cc).

Record StreamConfig := SConf {
  scName : string; scDescription : string; scSubjects : list string; scReplicas : Z; scMaxMsgs : Z; scMaxBytes : Z;
  scMaxAge : Z; scMaxMsgSize : Z; scNoAck : bool; scMaxConsumers : Z; scRetention : Z; scStorage : Z; scDiscard : Z;
  scDuplicates : Z; scMirror : option string; scSources : list string
}.

(** [toNatsStreamConfig]: the two records have the same fields; a negative
    duplicate window is not copied. *)
Definition toNatsStreamConfig (c : StreamConfig) : StreamConfig :=
  SConf (scName c) (scDescription c) (scSubjects c) (scReplicas c) (scMaxMsgs c) (scMaxBytes c) (scMaxAge c)
    (scMaxMsgSize c) (scNoAck c) (scMaxConsumers c) (scRetention c) (scStorage c) (scDiscard c)
    (if 0 <? scDuplicates c then scDuplicates c else 0) (scMirror c) (scSources c).

Definition with_replicas (c : StreamConfig) (r : Z) : StreamConfig :=
  SConf (scName c) (scDescription c) (scSubjects c) r (scMaxMsgs c) (scMaxBytes c) (scMaxAge c)
    (scMaxMsgSize c) (scNoAck c) (scMaxConsumers c) (scRetention c) (scStorage c) (scDiscard c)
    (scDuplicates c) (scMirror c) (scSources c).

(** ** The server *)

(** What is stored, and the calls.  A call touches only the stream or consumer
    it names; a successful one returns what is stored afterwards, with the
    requested deliver policy, start position, filters, delivery and settings (a
    number left at zero may have been given the server's default); the only
    "not found" is the absence of the name.  A failed call may have had its
    effect. *)
Definition given (asked stored : Z) : Prop := asked <> 0 -> stored = asked.
Definition same_settings (cc i : ConsumerConfig) : Prop :=
  ccAckPolicy i = ccAckPolicy cc /\ ccReplayPolicy i = ccReplayPolicy cc /\ ccFlowControl i = ccFlowControl cc /\
  ccMemoryStorage i = ccMemoryStorage cc /\ given (ccMaxDeliver cc) (ccMaxDeliver i) /\ given (ccAckWait cc) (ccAckWait i) /\
  given (ccMaxAckPending cc) (ccMaxAckPending i) /\ given (ccRateLimit cc) (ccRateLimit i) /\
  given (ccHeartbeat cc) (ccHeartbeat i) /\ given (ccInactiveThreshold cc) (ccInactiveThreshold i) /\
  given (ccReplicas cc) (ccReplicas i) /\ given (ccMaxWaiting cc) (ccMaxWaiting i).
Definition same_delivery (cc i : ConsumerConfig) : Prop :=
  ccDurable i = ccDurable cc /\ ccDeliverPolicy i = ccDeliverPolicy cc /\ ccOptStartSeq i = ccOptStartSeq cc /\
  ccOptStartTime i = ccOptStartTime cc /\ ccFilterSubject i = ccFilterSubject cc /\
  ccFilterSubjects i = ccFilterSubjects cc /\ ccDeliverSubject i = ccDeliverSubject cc /\
  ccDeliverGroup i = ccDeliverGroup cc /\ ccMetadata cc ⊆ ccMetadata i /\ same_settings cc i.

Lemma same_settings_refl cc : same_settings cc cc.
Proof. by split_and!. Qed.
Lemma same_delivery_refl cc : same_delivery cc cc.
Proof. by split_and!. Qed.

Class JsAdmin (S : Type) := {
  consumers : S -> gmap (string * string) ConsumerConfig;
  streams : S -> gmap string StreamConfig;
  js_add_consumer : string -> ConsumerConfig -> S -> res ConsumerConfig * S;
  js_update_consumer : string -> ConsumerConfig -> S -> res ConsumerConfig * S;
  js_delete_consumer : string -> string -> S -> option err * S;
  js_consumer_info : string -> string -> S -> res ConsumerConfig;
  js_consumer_names : string -> S -> list string;
  js_add_stream : StreamConfig -> S -> res StreamConfig * S;
  js_update_stream : StreamConfig -> S -> res StreamConfig * S;
  js_delete_stream : string -> S -> option err * S;
  js_purge_stream : string -> string -> S -> option err * S;
  js_stream_info : string -> S -> res StreamConfig;
  js_stream_names : S -> list string;
  add_frame st cc s k : k <> (st, ccDurable cc) ->
    consumers (js_add_consumer st cc s).2 !! k = consumers s !! k;
  add_ok st cc s i : (js_add_consumer st cc s).1 = Ok i ->
    consumers (js_add_consumer st cc s).2 !! (st, ccDurable cc) = Some i /\ same_delivery cc i;
  update_frame st cc s k : k <> (st, ccDurable cc) ->
    consumers (js_update_consumer st cc s).2 !! k = consumers s !! k;
  update_ok st cc s i : (js_update_consumer st cc s).1 = Ok i ->
    consumers (js_update_consumer st cc s).2 !! (st, ccDurable cc) = Some i /\ same_delivery cc i;
  delete_frame st d s k : k <> (st, d) -> consumers (js_delete_consumer st d s).2 !! k = consumers s !! k;
  delete_ok st d s : (js_delete_consumer st d s).1 = None -> consumers (js_delete_consumer st d s).2 !! (st, d) = None;
  info_ok st d s i : js_consumer_info st d s = Ok i -> consumers s !! (st, d) = Some i /\ ccDurable i = d;
  info_notfound st d s e : js_consumer_info st d s = Er e -> errors_is e ErrConsumerNotFound = true ->
    consumers s !! (st, d) = None;
  add_stream_frame c s : consumers (js_add_stream c s).2 = consumers s;
  update_stream_frame c s : consumers (js_update_stream c s).2 = consumers s;
  add_stream_ok c s i : (js_add_stream c s).1 = Ok i -> streams (js_add_stream c s).2 !! scName c = Some i /\
    scReplicas i = scReplicas c /\ scSubjects i = scSubjects c;
  update_stream_ok c s i : (js_update_stream c s).1 = Ok i -> streams (js_update_stream c s).2 !! scName c = Some i /\
    scReplicas i = scReplicas c /\ scSubjects i = scSubjects c;
  add_stream_failed c s e : (js_add_stream c s).1 = Er e -> is_Some (streams s !! scName c) ->
    streams (js_add_stream c s).2 !! scName c = streams s !! scName c;
  stream_info_ok n s i : js_stream_info n s = Ok i -> streams s !! n = Some i
}.

(** [sort.Strings]: byte order. *)
Fixpoint insert_sorted (x : string) (l : list string) : list string :=
  match l with [] => [x] | y :: l' => if String.leb x y then x :: l else y :: insert_sorted x l' end.
Definition sort_strings (l : list string) : list string := foldr insert_sorted [] l.

Section Admin.
Context {S : Type} `{JA : JsAdmin S}.

(** ** consumer_manager.go *)

Definition check_filters (filter : string) (filters : list string) : option err :=
  match (if IsEmpty filter then None else ValidateSubject filter) with
  | Some e => Some e
  | None => ValidateSubjects filters
  end.

(** The calls of [CreateOrUpdateConsumer] once its arguments are accepted. *)
Definition upsert_consumer (stream : string) (c : DurableConsumerConfig) (s : S) : res ConsumerConfig * S :=
  let cc := toNatsConsumerConfig c in
  match js_add_consumer stream cc s with
  | (Ok info, s1) => (Ok info, s1)
  | (Er err, s1) =>
      match js_consumer_info stream (dDurable c) s1 with
      | Er _ => (Er (wrapf "create consumer stream=%q durable=%q: %w" err), s1)
      | Ok existing =>
          let cc := if dHasDeliverPolicy c then cc else with_deliver cc (ccDeliverPolicy existing) in
          if negb (ccDeliverPolicy existing =? ccDeliverPolicy cc)
          then (Er (wrapf "create or update consumer stream=%q durable=%q: deliver policy %v -> %v: %w"
                      (Sentinel ErrConsumerRecreateRequired)), s1)
          else match js_update_consumer stream cc s1 with
               | (Er e, s2) => (Er (wrapf "update consumer stream=%q durable=%q: %w" e), s2)
               | (Ok info, s2) => (Ok info, s2)
               end
      end
  end.

(** Early returns of a method that returns a value and threads the state. *)
Definition guarded {T} (checks : list (option err)) (k : S -> res T * S) (s : S) : res T * S :=
  match list_find (fun o => o <> None) checks with
  | Some (_, Some e) => (Er e, s)
  | _ => k s
  end.

Definition CreateOrUpdateConsumer (c : Ctx) (stream : string) (cfg : DurableConsumerConfig) (s : S) : res ConsumerConfig * S :=
  guarded [ctxReady c; ValidateStreamName stream; ValidateDurableName (dDurable cfg);
           check_filters (dFilterSubject cfg) (dFilterSubjects cfg)]
    (runWithContextValue c (upsert_consumer stream cfg)) s.

(** A server call whose error is wrapped. *)
Definition wrapped {T} (msg : string) (fn : S -> res T * S) (s : S) : res T * S :=
  match fn s with (Er e, s') => (Er (wrapf msg e), s') | r => r end.
Definition wrapped_err (msg : string) (fn : S -> option err * S) (s : S) : option err * S :=
  match fn s with (Some e, s') => (Some (wrapf msg e), s') | r => r end.

Definition if_named (valid : string -> option err) (name : string) : option err :=
  if IsEmpty name then None else valid name.

Definition AddConsumer (c : Ctx) (stream : string) (cfg : option ConsumerConfig) (s : S) : res ConsumerConfig * S :=
  guarded [ctxReady c; ValidateStreamName stream;
           match cfg with None => Some (wrapf "add consumer stream=%q: %w" (Sentinel ErrEmptyConfigNotAllowed)) | _ => None end]
    (fun s => match cfg with
              | None => (Er (Sentinel ErrEmptyConfigNotAllowed), s)
              | Some cc =>
                  guarded [if_named ValidateDurableName (ccDurable cc);
                           check_filters (ccFilterSubject cc) (ccFilterSubjects cc)]
                    (runWithContextValue c (wrapped "add consumer stream=%q durable=%q: %w" (js_add_consumer stream cc))) s
              end) s.

Definition UpdateConsumer (c : Ctx) (stream : string) (cfg : option ConsumerConfig) (s : S) : res ConsumerConfig * S :=
  guarded [ctxReady c; ValidateStreamName stream;
           match cfg with None => Some (wrapf "update consumer stream=%q: %w" (Sentinel ErrEmptyConfigNotAllowed)) | _ => None end]
    (fun s => match cfg with
              | None => (Er (Sentinel ErrEmptyConfigNotAllowed), s)
              | Some cc =>
                  guarded [if_named ValidateDurableName (ccDurable cc)]
                    (runWithContextValue c (wrapped "update consumer stream=%q durable=%q: %w" (js_update_consumer stream cc))) s
              end) s.

Definition DeleteConsumer (c : Ctx) (stream durable : string) (s : S) : option err * S :=
  match list_find (fun o => o <> None) [ctxReady c; ValidateStreamName stream; ValidateDurableName durable] with
  | Some (_, Some e) => (Some e, s)
  | _ => runWithContext c (wrapped_err "delete consumer stream=%q durable=%q: %w" (js_delete_consumer stream durable)) s
  end.

Definition ConsumerInfo (c : Ctx) (stream durable : string) (s : S) : res ConsumerConfig :=
  (guarded [ctxReady c; ValidateStreamName stream; ValidateDurableName durable]
     (runWithContextValue c (wrapped "consumer info stream=%q durable=%q: %w"
        (fun s => (js_consumer_info stream durable s, s)))) s).1.

Definition ConsumerNames (stream : string) (s : S) : res (list string) :=
  guard_err ValidateStreamName stream ;; Ok (sort_strings (js_consumer_names stream s)).

(** [None] is a slice-bounds panic of the paging. *)
Definition ListConsumersPage (stream : string) (offset limit : Z) (s : S) : option (res (list ConsumerConfig) * Z) :=
  match ConsumerNames stream s with
  | Er e => Some (Er e, 0)
  | Ok names =>
      pageInfos names offset limit
        (fun name => match js_consumer_info stream name s with
                     | Er e => if errors_is e ErrConsumerNotFound then Er e
                               else Er (wrapf "list consumers stream=%q name=%q: %w" e)
                     | Ok i => Ok i
                     end)
        (fun e => errors_is e ErrConsumerNotFound)
  end.
Definition ListConsumers (stream : string) (s : S) : option (res (list ConsumerConfig)) :=
  fst <$> ListConsumersPage stream 0 (-1) s.

(** [PauseConsumer] and [ResumeConsumer]; [call] is the newer API, [None] when
    the client has none. *)
Definition pause_resume (what : string) (stream durable : string) (call : option (option err)) : option err :=
  check (ValidateStreamName stream) ;;
  check (ValidateDurableName durable) ;;
  match call with
  | None => Some (wrapf what (Sentinel ErrJetStreamV2Required))
  | Some (Some e) => Some (wrapf what e)
  | Some None => None
  end.
Definition PauseConsumer := pause_resume "pause consumer stream=%q durable=%q: %w".
Definition ResumeConsumer := pause_resume "resume consumer stream=%q durable=%q: %w".

(** ** stream_manager.go *)

(** The calls of [CreateOrUpdateStream] once its arguments are accepted. *)
Definition upsert_stream (c : StreamConfig) (s : S) : res StreamConfig * S :=
  let sc := toNatsStreamConfig c in
  let sc := if scReplicas sc =? 0 then with_replicas sc defaultStreamReplicas else sc in
  match js_add_stream sc s with
  | (Ok info, s1) => (Ok info, s1)
  | (Er addErr, s1) =>
      let u := toNatsStreamConfig c in
      let u := if scReplicas c =? 0
               then match js_stream_info (scName c) s1 with Ok ex => with_replicas u (scReplicas ex) | Er _ => u end
               else u in
      let u := if scReplicas u =? 0 then with_replicas u defaultStreamReplicas else u in
      match js_update_stream u s1 with
      | (Er e, s2) => (Er (wrapf2 "create or update stream %q: add: %w; update: %w" addErr e), s2)
      | (Ok info, s2) => (Ok info, s2)
      end
  end.

Definition CreateOrUpdateStream (c : Ctx) (cfg : StreamConfig) (s : S) : res StreamConfig * S :=
  guarded [ctxReady c; ValidateStreamName (scName cfg); ValidateSubjects (scSubjects cfg)]
    (runWithContextValue c (upsert_stream cfg)) s.

Definition AddStream (c : Ctx) (cfg : option StreamConfig) (s : S) : res StreamConfig * S :=
  match ctxReady c, cfg with
  | Some e, _ => (Er e, s)
  | None, None => (Er (wrapf "add stream: %w" (Sentinel ErrEmptyConfigNotAllowed)), s)
  | None, Some sc =>
      guarded [ValidateStreamName (scName sc); ValidateSubjects (scSubjects sc)]
        (runWithContextValue c (wrapped "add stream %q: %w" (js_add_stream sc))) s
  end.

Definition UpdateStream (c : Ctx) (cfg : option StreamConfig) (s : S) : res StreamConfig * S :=
  match ctxReady c, cfg with
  | Some e, _ => (Er e, s)
  | None, None => (Er (wrapf "update stream: %w" (Sentinel ErrEmptyConfigNotAllowed)), s)
  | None, Some sc =>
      guarded [ValidateStreamName (scName sc)]
        (runWithContextValue c (wrapped "update stream %q: %w" (js_update_stream sc))) s
  end.

Definition DeleteStream (c : Ctx) (name : string) (s : S) : option err * S :=
  match ctxReady c, ValidateStreamName name with
  | Some e, _ | None, Some e => (Some e, s)
  | None, None => runWithContext c (wrapped_err "delete stream %q: %w" (js_delete_stream name)) s
  end.

(** [PurgeSubject] sets the subject of the request; the last option wins. *)
Definition PurgeStream (name : string) (opts : list string) (s : S) : option err * S :=
  let subject := List.last opts "" in
  match ValidateStreamName name, if_named ValidateSubject subject with
  | Some e, _ | None, Some e => (Some e, s)
  | None, None => wrapped_err "purge stream %q: %w" (js_purge_stream name subject) s
  end.

Definition ListStreamsPage (offset limit : Z) (s : S) : option (res (list StreamConfig) * Z) :=
  pageInfos (sort_strings (js_stream_names s)) offset limit
    (fun name => match js_stream_info name s with
                 | Er e => if errors_is e ErrStreamNotFound then Er e
                           else Er (wrapf "list streams: info %q: %w" e)
                 | Ok i => Ok i
                 end)
    (fun e => errors_is e ErrStreamNotFound).
Definition ListStreams (s : S) : option (res (list StreamConfig)) := fst <$> ListStreamsPage 0 (-1) s.
Definition StreamNames (s : S) : option (res (list string)) :=
  match ListStreams s with
  | None => None
  | Some (Er e) => Some (Er e)
  | Some (Ok l) => Some (Ok (List.map scName l))
  end.

(** ** Lemmas *)

Lemma guarded_cases {T} checks (k : S -> res T * S) s :
  (exists e, Some e ∈ checks /\ guarded checks k s = (Er e, s)) \/
  (Forall (fun o => o = None) checks /\ guarded checks k s = k s).
Proof.
  unfold guarded. destruct (list_find _ checks) as [[i [e|]]|] eqn:E.
  - left. exists e. apply list_find_Some in E as (Hl & _ & _). split; [by eapply list_elem_of_lookup_2|done].
  - apply list_find_Some in E as (_ & ? & _). done.
  - right. split; [|done]. apply list_find_None in E.
    eapply Forall_impl; [|exact E]. intros o Ho. destruct o; [|done]. by destruct Ho.
Qed.

Lemma run_cases {T} c (fn : S -> res T * S) s :
  (exists e, (runWithContextValue c fn s = (Er e, s) \/ runWithContextValue c fn s = (Er e, (fn s).2))) \/
  runWithContextValue c fn s = fn s.
Proof.
  unfold runWithContextValue. destruct (ctxReady c); [left; eauto|].
  destruct (raced c) as [|e []]; [by right|left; eauto|left; eauto].
Qed.

(** A predicate of the state that a call keeps, a guarded and raced call keeps. *)
Lemma guarded_keeps {T} (P : S -> Prop) checks c (fn : S -> res T * S) s :
  P s -> P (fn s).2 -> P (guarded checks (runWithContextValue c fn) s).2.
Proof.
  intros H1 H2. destruct (guarded_cases checks (runWithContextValue c fn) s) as [(e & _ & ->)|[_ ->]]; [done|].
  destruct (run_cases c fn s) as [(e & [-> | ->])| ->]; done.
Qed.

Lemma guarded_ok {T} checks c (fn : S -> res T * S) s v s' :
  guarded checks (runWithContextValue c fn) s = (Ok v, s') -> fn s = (Ok v, s') /\ Forall (fun o => o = None) checks.
Proof.
  destruct (guarded_cases checks (runWithContextValue c fn) s) as [(e & _ & ->)|[Hc ->]]; [done|].
  destruct (run_cases c fn s) as [(e & [-> | ->])| ->]; [done|done|auto].
Qed.

Lemma ccDurable_to c : ccDurable (toNatsConsumerConfig c) = dDurable c.
Proof. done. Qed.

Lemma upsert_frame stream c s k : k <> (stream, dDurable c) ->
  consumers (upsert_consumer stream c s).2 !! k = consumers s !! k.
Proof.
  intros Hk. unfold upsert_consumer. pose proof (add_frame stream (toNatsConsumerConfig c) s k Hk) as Ha.
  destruct (js_add_consumer _ _ s) as [[i|e] s1]; simpl in Ha; [done|].
  destruct (js_consumer_info _ _ s1) as [ex|e']; [|done]. set (cc := if dHasDeliverPolicy c then _ else _).
  assert (ccDurable cc = dDurable c) as Hd by (unfold cc; by destruct (dHasDeliverPolicy c)).
  destruct (negb _); [done|]. rewrite <- Hd in Hk.
  pose proof (update_frame stream cc s1 k Hk) as Hu. destruct (js_update_consumer _ _ s1) as [[i|e''] s2]; simpl in *;
    by rewrite Hu.
Qed.

Lemma CreateOrUpdateStream_frame c cfg s : consumers (CreateOrUpdateStream c cfg s).2 = consumers s.
Proof.
  unfold CreateOrUpdateStream. apply (guarded_keeps (fun s' => consumers s' = consumers s)); [done|].
  unfold upsert_stream. set (c0 := if _ =? 0 then _ else _).
  pose proof (add_stream_frame c0 s) as Ha. destruct (js_add_stream c0 s) as [[i|e] s1]; simpl in Ha; [done|].
  match goal with |- context [js_update_stream ?u s1] => pose proof (update_stream_frame u s1) as Hu;
    destruct (js_update_stream u s1) as [[i|e'] s2] end; simpl in *; congruence.
Qed.

Lemma CreateOrUpdateConsumer_frame c stream cfg s k : k <> (stream, dDurable cfg) ->
  consumers (CreateOrUpdateConsumer c stream cfg s).2 !! k = consumers s !! k.
Proof.
  intros Hk. apply (guarded_keeps (fun s' => consumers s' !! k = consumers s !! k)); [done|]. by apply upsert_frame.
Qed.

Lemma DeleteConsumer_cases c stream d s :
  (exists e, DeleteConsumer c stream d s = (Some e, s)) \/
  (exists e, DeleteConsumer c stream d s = (Some e, (js_delete_consumer stream d s).2)) \/
  ((js_delete_consumer stream d s).1 = None /\ DeleteConsumer c stream d s = (None, (js_delete_consumer stream d s).2)).
Proof.
  unfold DeleteConsumer. destruct (list_find _ _) as [[i [e|]]|] eqn:E; [left; eauto|..];
    unfold runWithContext, wrapped_err;
    destruct (run_cases c (fun s => let '(e, s') := match js_delete_consumer stream d s with
      | (Some e, s') => (Some (wrapf "delete consumer stream=%q durable=%q: %w" e), s') | r => r end in
      (match e with Some e => Er e | None => Ok tt end, s')) s) as [(e' & [-> | ->])| ->];
    destruct (js_delete_consumer stream d s) as [[e''|] s1]; simpl; eauto 10.
Qed.

Lemma DeleteConsumer_frame c stream d s k : k <> (stream, d) ->
  consumers (DeleteConsumer c stream d s).2 !! k = consumers s !! k.
Proof.
  intros Hk. pose proof (delete_frame stream d s k Hk).
  by destruct (DeleteConsumer_cases c stream d s) as [(e & ->)|[(e & ->)|[_ ->]]].
Qed.

Lemma ConsumerInfo_ok c stream d s i :
  ConsumerInfo c stream d s = Ok i -> js_consumer_info stream d s = Ok i.
Proof.
  unfold ConsumerInfo. destruct (guarded _ _ s) as [[i'|e] s'] eqn:E; [|done]. intros [= ->].
  apply guarded_ok in E as [E _]. unfold wrapped in E. destruct (js_consumer_info stream d s); [|done]. by simplify_eq.
Qed.

Lemma with_deliver_id cc : with_deliver cc (ccDeliverPolicy cc) = cc.
Proof. by destruct cc. Qed.

Lemma upsert_ok stream c s i s' : upsert_consumer stream c s = (Ok i, s') ->
  consumers s' !! (stream, dDurable c) = Some i /\
  exists p, same_delivery (with_deliver (toNatsConsumerConfig c) p) i /\ (dHasDeliverPolicy c = true -> p = dDeliverPolicy c) /\
    (forall e s1, js_add_consumer stream (toNatsConsumerConfig c) s = (Er e, s1) ->
       exists old, consumers s1 !! (stream, dDurable c) = Some old /\ p = ccDeliverPolicy old).
Proof.
  unfold upsert_consumer. set (cc := toNatsConsumerConfig c).
  pose proof (add_ok stream cc s) as Ha. destruct (js_add_consumer stream cc s) as [[i0|e] s1]; simpl in Ha.
  - intros [= -> ->]. destruct (Ha i eq_refl) as [H1 H2]. split; [done|]. exists (ccDeliverPolicy cc).
    rewrite with_deliver_id. split_and!; [done| |done]. unfold cc. simpl. by intros ->.
  - destruct (js_consumer_info stream (dDurable c) s1) as [ex|] eqn:Ei; [|done].
    destruct (info_ok _ _ _ _ Ei) as [Hex _].
    set (cc' := if dHasDeliverPolicy c then cc else with_deliver cc (ccDeliverPolicy ex)).
    destruct (Z.eqb_spec (ccDeliverPolicy ex) (ccDeliverPolicy cc')) as [Ep|]; simpl; [|done].
    pose proof (update_ok stream cc' s1) as Hu. destruct (js_update_consumer stream cc' s1) as [[i1|] s2]; [|done].
    intros [= -> ->]. destruct (Hu i eq_refl) as [H1 H2].
    assert (cc' = with_deliver cc (ccDeliverPolicy ex)) as E.
    { unfold cc' in *. destruct (dHasDeliverPolicy c); [|done]. rewrite Ep. by rewrite with_deliver_id. }
    rewrite E in H1, H2. split; [exact H1|]. exists (ccDeliverPolicy ex). split_and!; [done| |].
    + intros Hp. rewrite Ep. unfold cc'. rewrite Hp. unfold cc. simpl. by rewrite Hp.
    + intros e' s1' [= <- <-]. eauto.
Qed.

(** Creating or updating a durable: on success the server holds the requested
    filters, delivery and start position; the deliver policy is the requested
    one when it was set, and the existing consumer's when the server refused to
    create it anew, so an update never changes the deliver policy of a consumer
    behind its owner's back; no other consumer is touched, whatever the
    outcome. *)
Theorem consumer_upsert_safe c stream cfg s :
  (forall k, k <> (stream, dDurable cfg) ->
     consumers (CreateOrUpdateConsumer c stream cfg s).2 !! k = consumers s !! k) /\
  (forall i s', CreateOrUpdateConsumer c stream cfg s = (Ok i, s') ->
     consumers s' !! (stream, dDurable cfg) = Some i /\
     exists p, same_delivery (with_deliver (toNatsConsumerConfig cfg) p) i /\
       (dHasDeliverPolicy cfg = true -> p = dDeliverPolicy cfg) /\
       (forall e s1, js_add_consumer stream (toNatsConsumerConfig cfg) s = (Er e, s1) ->
          exists old, consumers s1 !! (stream, dDurable cfg) = Some old /\ p = ccDeliverPolicy old)).
Proof.
  split; [intros k; apply CreateOrUpdateConsumer_frame|].
  intros i s' [H _]%guarded_ok. by apply upsert_ok.
Qed.

(** The replica count an update asks for. *)
Definition update_replicas (cfg : StreamConfig) (s : S) : Z :=
  if negb (scReplicas cfg =? 0) then scReplicas cfg
  else match js_stream_info (scName cfg) s with
       | Ok ex => if scReplicas ex =? 0 then defaultStreamReplicas else scReplicas ex
       | Er _ => defaultStreamReplicas
       end.

(** Provisioning a stream: on success it is stored with the requested subjects;
    its replica count is the requested one, and when none was requested, that of
    the existing stream as long as its information could be read.  If that one
    read fails the update falls back to a single replica. *)
Theorem stream_upsert_replicas c cfg s i s' :
  CreateOrUpdateStream c cfg s = (Ok i, s') ->
  streams s' !! scName cfg = Some i /\ scSubjects i = scSubjects cfg /\
  ((exists s1, js_add_stream (with_replicas (toNatsStreamConfig cfg)
        (if scReplicas cfg =? 0 then defaultStreamReplicas else scReplicas cfg)) s = (Ok i, s1)) /\
     scReplicas i = (if scReplicas cfg =? 0 then defaultStreamReplicas else scReplicas cfg) \/
   (exists e s1, js_add_stream (with_replicas (toNatsStreamConfig cfg)
        (if scReplicas cfg =? 0 then defaultStreamReplicas else scReplicas cfg)) s = (Er e, s1) /\
     scReplicas i = update_replicas cfg s1)).
Proof.
  intros [H _]%guarded_ok. unfold upsert_stream in H.
  assert (forall r, scName (with_replicas (toNatsStreamConfig cfg) r) = scName cfg) as Hn by done.
  set (sc := if scReplicas (toNatsStreamConfig cfg) =? 0 then _ else _) in H.
  assert (sc = with_replicas (toNatsStreamConfig cfg) (if scReplicas cfg =? 0 then defaultStreamReplicas else scReplicas cfg)) as E.
  { unfold sc. simpl. by destruct (scReplicas cfg =? 0). }
  rewrite E in H. clear E sc. set (r := if scReplicas cfg =? 0 then _ else _) in *.
  pose proof (add_stream_ok (with_replicas (toNatsStreamConfig cfg) r) s) as Ha.
  destruct (js_add_stream _ s) as [[i0|e] s1]; simpl in Ha.
  - simplify_eq. destruct (Ha i eq_refl) as (H1 & H2 & H3). split_and!; [done|done|]. left. eauto.
  - set (u := if scReplicas (if scReplicas cfg =? 0 then _ else _) =? 0 then _ else _) in H.
    assert (u = with_replicas (toNatsStreamConfig cfg) (update_replicas cfg s1)) as E.
    { unfold u, update_replicas. destruct (Z.eqb_spec (scReplicas cfg) 0) as [E0|E0]; simpl.
      - destruct (js_stream_info (scName cfg) s1) as [ex|]; simpl; [by destruct (scReplicas ex =? 0)|].
        by rewrite E0.
      - destruct (Z.eqb_spec (scReplicas cfg) 0); done. }
    rewrite E in H. pose proof (update_stream_ok (with_replicas (toNatsStreamConfig cfg) (update_replicas cfg s1)) s1) as Hu.
    destruct (js_update_stream _ s1) as [[i1|] s2]; [|done]. simplify_eq. destruct (Hu i eq_refl) as (H1 & H2 & H3).
    split_and!; [done|done|]. right. eauto.
Qed.

End Admin.

(** ** A server that stores what it is given *)

#[export] Instance ConsumerConfig_eq_dec : EqDecision ConsumerConfig.
Proof. solve_decision. Defined.
#[export] Instance StreamConfig_eq_dec : EqDecision StreamConfig.
Proof. solve_decision. Defined.

Record server := Server {
  sv_consumers : gmap (string * string) ConsumerConfig; sv_streams : gmap string StreamConfig;
  sv_live : gset nat
}.
Definition put_consumer (k : string * string) (o : option ConsumerConfig) (s : server) : server :=
  Server (partial_alter (fun _ => o) k (sv_consumers s)) (sv_streams s) (sv_live s).
Definition put_stream (k : string) (o : option StreamConfig) (s : server) : server :=
  Server (sv_consumers s) (partial_alter (fun _ => o) k (sv_streams s)) (sv_live s).

(** Creating an existing name succeeds only with the same configuration. *)
Definition create_with {A} `{EqDecision A} (old : option A) (new : A) : res A :=
  match old with
  | Some o => if decide (o = new) then Ok new else Er (errorf "already exists")
  | None => Ok new
  end.

#[export, refine] Instance demo_server : JsAdmin server := {
  consumers := sv_consumers;
  streams := sv_streams;
  js_add_consumer st cc s :=
    match create_with (sv_consumers s !! (st, ccDurable cc)) cc with
    | Ok i => (Ok i, put_consumer (st, ccDurable cc) (Some i) s)
    | Er e => (Er e, s)
    end;
  js_update_consumer st cc s :=
    match sv_consumers s !! (st, ccDurable cc) with
    | Some _ => (Ok cc, put_consumer (st, ccDurable cc) (Some cc) s)
    | None => (Er (Sentinel ErrConsumerNotFound), s)
    end;
  js_delete_consumer st d s := (None, put_consumer (st, d) None s);
  js_consumer_info st d s :=
    match sv_consumers s !! (st, d) with
    | Some i => if String.eqb (ccDurable i) d then Ok i else Er (errorf "corrupt")
    | None => Er (Sentinel ErrConsumerNotFound)
    end;
  js_consumer_names st s := List.map (fun k => k.1.2) (map_to_list (sv_consumers s));
  js_add_stream c s :=
    match create_with (sv_streams s !! scName c) c with
    | Ok i => (Ok i, put_stream (scName c) (Some i) s)
    | Er e => (Er e, s)
    end;
  js_update_stream c s :=
    match sv_streams s !! scName c with
    | Some _ => (Ok c, put_stream (scName c) (Some c) s)
    | None => (Er (Sentinel ErrStreamNotFound), s)
    end;
  js_delete_stream n s := (None, put_stream n None s);
  js_purge_stream n subj s := (None, s);
  js_stream_info n s := match sv_streams s !! n with Some i => Ok i | None => Er (Sentinel ErrStreamNotFound) end;
  js_stream_names s := List.map fst (map_to_list (sv_streams s))
}.
Proof.
  all: intros; simpl in *; unfold create_with in *.
  all: repeat match goal with
    | H : context [match ?x with _ => _ end] |- _ => destruct x eqn:?; simplify_eq/=
    | |- context [match ?x with _ => _ end] => destruct x eqn:?; simplify_eq/=
    end;
    rewrite ?lookup_partial_alter_eq; try (rewrite lookup_partial_alter_ne by congruence); try done.
  all: try (split; [done|]; by apply same_delivery_refl).
  apply String.eqb_eq in Heqb. auto.
Defined.

Definition empty_server : server := Server ∅ ∅ ∅.
Definition worker_cfg : DurableConsumerConfig :=
  Durable_ None ∅ "worker" "orders.>" [] "" "" 0 0 0 0 0 0 0 0 0 0 0 0 false false false false false.
Definition orders_stream : StreamConfig :=
  SConf "ORDERS" "" ["orders.>"] 0 0 0 0 0 false 0 0 0 0 0 None [].

Lemma stream_upsert_replicas_witness :
  let s3 := put_stream "ORDERS" (Some (with_replicas orders_stream 3)) empty_server in
  exists i s', CreateOrUpdateStream background orders_stream s3 = (Ok i, s') /\ scReplicas i = 3 /\
    streams s' !! "ORDERS" = Some i.
Proof.
  cbv zeta. eexists _, _. split; [vm_compute; reflexivity|]. split; [reflexivity|].
  refine (proj1 (stream_upsert_replicas background orders_stream
    (put_stream "ORDERS" (Some (with_replicas orders_stream 3)) empty_server) _ _ _)).
  vm_compute. reflexivity.
Defined.
