(* ===== verification/Replay.v ===== *)
(** * Replay consumers (replay.go, replay_options.go)

    Seeking a durable ([ResetConsumer]) and creating a side-car
    ([CreateReplayConsumer]) over the consumer manager of [Admin] and the time
    seek of [StreamRead].  Options are functions on the replay configuration,
    applied in order.  Each manager call has its own context state ([ctx 0],
    [ctx 1], ...), since a context can end between calls; [None] means that the
    time seek ran out of fuel. *)

From stdpp Require Import pretty.
From S2P Require Import Prelude GoStr Validate Page StreamRead Admin.

(** ** Options *)

Record ReplayConfig := ReplayCfg {
  rcOptStartTime : option Z; rcUntilTime : option Z; rcDurable : string; rcFilterSubject : string;
  rcFilterSubjects : list string; rcDeliverPolicy : Z; rcReplayPolicy : Z; rcOptStartSeq : Z; rcUntilSeq : Z;
  rcLimit : Z; deliverSet : bool; replaySet : bool; optStartSeqSet : bool; optStartTimeSet : bool;
  untilSeqSet : bool; untilTimeSet : bool; limitSet : bool
}.
Definition zero_replay : ReplayConfig :=
  ReplayCfg None None "" "" [] 0 0 0 0 0 false false false false false false false.

Definition ReplayOpt := ReplayConfig -> ReplayConfig.

Definition WithReplayDurable (name : string) : ReplayOpt := fun c =>
  ReplayCfg (rcOptStartTime c) (rcUntilTime c) name (rcFilterSubject c) (rcFilterSubjects c) (rcDeliverPolicy c)
    (rcReplayPolicy c) (rcOptStartSeq c) (rcUntilSeq c) (rcLimit c) (deliverSet c) (replaySet c) (optStartSeqSet c)
    (optStartTimeSet c) (untilSeqSet c) (untilTimeSet c) (limitSet c).
Definition set_filters (f : string) (fs : list string) : ReplayOpt := fun c =>
  ReplayCfg (rcOptStartTime c) (rcUntilTime c) (rcDurable c) f fs (rcDeliverPolicy c)
    (rcReplayPolicy c) (rcOptStartSeq c) (rcUntilSeq c) (rcLimit c) (deliverSet c) (replaySet c) (optStartSeqSet c)
    (optStartTimeSet c) (untilSeqSet c) (untilTimeSet c) (limitSet c).
Definition WithFilterSubject (subject : string) : ReplayOpt := set_filters subject [].
Definition WithFilterSubjects (subjects : list string) : ReplayOpt := set_filters "" subjects.
Definition WithDeliverPolicy (policy : Z) : ReplayOpt := fun c =>
  ReplayCfg (rcOptStartTime c) (rcUntilTime c) (rcDurable c) (rcFilterSubject c) (rcFilterSubjects c) policy
    (rcReplayPolicy c) (rcOptStartSeq c) (rcUntilSeq c) (rcLimit c) true (replaySet c) (optStartSeqSet c)
    (optStartTimeSet c) (untilSeqSet c) (untilTimeSet c) (limitSet c).
Definition WithReplayPolicy (policy : Z) : ReplayOpt := fun c =>
  ReplayCfg (rcOptStartTime c) (rcUntilTime c) (rcDurable c) (rcFilterSubject c) (rcFilterSubjects c)
    (rcDeliverPolicy c) policy (rcOptStartSeq c) (rcUntilSeq c) (rcLimit c) (deliverSet c) true (optStartSeqSet c)
    (optStartTimeSet c) (untilSeqSet c) (untilTimeSet c) (limitSet c).
Definition WithStartSeq (seq : Z) : ReplayOpt := fun c =>
  ReplayCfg (rcOptStartTime c) (rcUntilTime c) (rcDurable c) (rcFilterSubject c) (rcFilterSubjects c)
    (rcDeliverPolicy c) (rcReplayPolicy c) seq (rcUntilSeq c) (rcLimit c) (deliverSet c) (replaySet c) true
    (optStartTimeSet c) (untilSeqSet c) (untilTimeSet c) (limitSet c).
Definition WithStartTime (t : Z) : ReplayOpt := fun c =>
  ReplayCfg (Some t) (rcUntilTime c) (rcDurable c) (rcFilterSubject c) (rcFilterSubjects c)
    (rcDeliverPolicy c) (rcReplayPolicy c) (rcOptStartSeq c) (rcUntilSeq c) (rcLimit c) (deliverSet c) (replaySet c)
    (optStartSeqSet c) true (untilSeqSet c) (untilTimeSet c) (limitSet c).
(** The seeks set policy, sequence and time together. *)
Definition seek (policy seq : Z) (t : option Z) : ReplayOpt := fun c =>
  ReplayCfg t (rcUntilTime c) (rcDurable c) (rcFilterSubject c) (rcFilterSubjects c) policy
    (rcReplayPolicy c) seq (rcUntilSeq c) (rcLimit c) true (replaySet c) true true (untilSeqSet c) (untilTimeSet c)
    (limitSet c).
Definition FromSeq (seq : Z) : ReplayOpt := seek DeliverByStartSequence seq None.
Definition FromTime (t : Z) : ReplayOpt := seek DeliverByStartTime 0 (Some t).
Definition FromBeginning : ReplayOpt := seek DeliverAll 0 None.
Definition FromNew : ReplayOpt := seek DeliverNew 0 None.
Definition UntilSeq (seq : Z) : ReplayOpt := fun c =>
  ReplayCfg (rcOptStartTime c) (rcUntilTime c) (rcDurable c) (rcFilterSubject c) (rcFilterSubjects c)
    (rcDeliverPolicy c) (rcReplayPolicy c) (rcOptStartSeq c) seq (rcLimit c) (deliverSet c) (replaySet c)
    (optStartSeqSet c) (optStartTimeSet c) true (untilTimeSet c) (limitSet c).
Definition UntilTime (t : Z) : ReplayOpt := fun c =>
  ReplayCfg (rcOptStartTime c) (Some t) (rcDurable c) (rcFilterSubject c) (rcFilterSubjects c)
    (rcDeliverPolicy c) (rcReplayPolicy c) (rcOptStartSeq c) (rcUntilSeq c) (rcLimit c) (deliverSet c) (replaySet c)
    (optStartSeqSet c) (optStartTimeSet c) (untilSeqSet c) true (limitSet c).
Definition Limit (n : Z) : ReplayOpt := fun c =>
  ReplayCfg (rcOptStartTime c) (rcUntilTime c) (rcDurable c) (rcFilterSubject c) (rcFilterSubjects c)
    (rcDeliverPolicy c) (rcReplayPolicy c) (rcOptStartSeq c) (rcUntilSeq c) n (deliverSet c) (replaySet c)
    (optStartSeqSet c) (optStartTimeSet c) (untilSeqSet c) (untilTimeSet c) true.
Definition OneMessage (seq : Z) : ReplayOpt := fun c => Limit 1 (UntilSeq seq (FromSeq seq c)).

(** A nil option is skipped. *)
Definition applyReplayOpts (opts : list (option ReplayOpt)) : ReplayConfig :=
  fold_left (fun c o => match o with Some f => f c | None => c end) opts zero_replay.

(** ** Validation *)

Definition validateReplayFilters (c : ReplayConfig) : option err := check_filters (rcFilterSubject c) (rcFilterSubjects c).

Definition bound_err (msg : string) : option err := Some (wrapf msg (Sentinel ErrInvalidReplayBound)).
Definition validateReplayBounds (c : ReplayConfig) : option err :=
  if limitSet c && (rcLimit c <? 1) then bound_err "%w: limit must be >= 1"
  else if deliverSet c && (rcDeliverPolicy c =? DeliverNew) && (untilSeqSet c || untilTimeSet c || limitSet c)
  then bound_err "%w: bounds are not valid with FromNew"
  else if untilSeqSet c && optStartSeqSet c && (rcUntilSeq c <? rcOptStartSeq c)
  then bound_err "%w: untilSeq %d < startSeq %d"
  else match rcOptStartTime c, rcUntilTime c with
       | Some t0, Some t1 => if untilTimeSet c && (t1 <? t0) then bound_err "%w: untilTime before start time" else None
       | _, _ => None
       end.

(** ** Building the consumer configuration *)

Definition durableConfigFromNATS (cc : ConsumerConfig) : DurableConsumerConfig :=
  Durable_ (ccOptStartTime cc) (ccMetadata cc) (ccDurable cc) (ccFilterSubject cc) (ccFilterSubjects cc)
    (ccDeliverSubject cc) (ccDeliverGroup cc) (ccDeliverPolicy cc) (ccReplayPolicy cc) (ccAckPolicy cc)
    (ccMaxDeliver cc) (ccAckWait cc) (ccMaxAckPending cc) (ccRateLimit cc) (ccHeartbeat cc) (ccInactiveThreshold cc)
    (ccReplicas cc) (ccMaxWaiting cc) (ccOptStartSeq cc) (ccFlowControl cc) (ccMemoryStorage cc) true true true.

Definition applyReplayConfig (b : DurableConsumerConfig) (durable : string) (c : ReplayConfig) : DurableConsumerConfig :=
  let one := negb (IsEmpty (rcFilterSubject c)) in
  let many := negb (bool_decide (rcFilterSubjects c = [])) in
  Durable_ (if optStartTimeSet c then rcOptStartTime c else dOptStartTime b) (dMetadata b) durable
    (if many then "" else if one then rcFilterSubject c else dFilterSubject b)
    (if many then rcFilterSubjects c else if one then [] else dFilterSubjects b)
    (dDeliverSubject b) (dDeliverGroup b)
    (if deliverSet c then rcDeliverPolicy c else dDeliverPolicy b)
    (if replaySet c then rcReplayPolicy c else dReplayPolicy b)
    (if negb (dHasAckPolicy b) && (dAckPolicy b =? 0) then AckExplicit else dAckPolicy b)
    (dMaxDeliver b) (dAckWait b) (dMaxAckPending b) (dRateLimit b) (dHeartbeat b) (dInactiveThreshold b)
    (dReplicas b) (dMaxWaiting b) (if optStartSeqSet c then rcOptStartSeq c else dOptStartSeq b) (dFlowControl b)
    (dMemStorage b) (dHasAckPolicy b || (dAckPolicy b =? 0)) (deliverSet c || dHasDeliverPolicy b)
    (replaySet c || dHasReplayPolicy b).

Definition MetaReplayUntilSeq : string := "replay_until_seq".
Definition MetaReplayLimit : string := "replay_limit".
(** [strconv.FormatUint(n, 10)] and [strconv.Itoa]. *)
Definition format_int (n : Z) : string := pretty n.

Definition set_metadata (m : gmap string string) (d : DurableConsumerConfig) : DurableConsumerConfig :=
  Durable_ (dOptStartTime d) m (dDurable d) (dFilterSubject d) (dFilterSubjects d) (dDeliverSubject d)
    (dDeliverGroup d) (dDeliverPolicy d) (dReplayPolicy d) (dAckPolicy d) (dMaxDeliver d) (dAckWait d)
    (dMaxAckPending d) (dRateLimit d) (dHeartbeat d) (dInactiveThreshold d) (dReplicas d) (dMaxWaiting d)
    (dOptStartSeq d) (dFlowControl d) (dMemStorage d) (dHasAckPolicy d) (dHasDeliverPolicy d) (dHasReplayPolicy d).

Definition applyReplayBoundMetadata (d : DurableConsumerConfig) (c : ReplayConfig) : DurableConsumerConfig :=
  if negb (untilSeqSet c) && negb (limitSet c) then d else
  let m := dMetadata d in
  let m := if untilSeqSet c && (0 <? rcUntilSeq c) then <[MetaReplayUntilSeq := format_int (rcUntilSeq c)]> m else m in
  let m := if limitSet c && (0 <? rcLimit c) then <[MetaReplayLimit := format_int (rcLimit c)]> m else m in
  set_metadata m d.

Record ReplayConsumerResult := RCResult {
  rrDurable : string; rrStartSeq : Z; rrUntilSeq : Z; rrLimit : Z; rrStartTime : option Z; rrUntilTime : option Z
}.
Definition replayResult (durable : string) (c : ReplayConfig) : ReplayConsumerResult :=
  RCResult durable (if optStartSeqSet c then rcOptStartSeq c else 0) (if untilSeqSet c then rcUntilSeq c else 0)
    (if limitSet c then rcLimit c else 0) (rcOptStartTime c) (rcUntilTime c).

Definition set_until (seq : Z) (c : ReplayConfig) : ReplayConfig := UntilSeq seq c.

(** ** Operations *)

Section Replay.
Context {S : Type} `{JA : JsAdmin S}.
Variable js_get : Z -> res RawStreamMsg.
Variable js_info : res (Z * Z).

Definition baseDurableConfig (c : Ctx) (stream durable : string) (s : S) : res DurableConsumerConfig :=
  match ConsumerInfo c stream durable s with
  | Ok i => Ok (durableConfigFromNATS i)
  | Er e => if errors_is e ErrConsumerNotFound
            then Ok (Durable_ None ∅ durable "" [] "" "" 0 0 AckExplicit 0 0 0 0 0 0 0 0 0 false false true false false)
            else Er e
  end.

Definition resolveReplayBounds (fuel : nat) (stream : string) (c : ReplayConfig) : option (res ReplayConfig) :=
  let first :=
    match rcUntilTime c with
    | Some t =>
        if untilTimeSet c && negb (untilSeqSet c) then
          match FindLastSeqAtOrBefore js_get js_info fuel stream t with
          | None => None
          | Some (Er e) => Some (Er (wrapf "resolve untilTime: %w" e))
          | Some (Ok seq) => Some (Ok (set_until seq c))
          end
        else Some (Ok c)
    | None => Some (Ok c)
    end in
  match first with
  | Some (Ok c1) =>
      Some (Ok (if limitSet c1 && (rcLimit c1 =? 1) && optStartSeqSet c1 && (0 <? rcOptStartSeq c1) && negb (untilSeqSet c1)
                then set_until (rcOptStartSeq c1) c1 else c1))
  | r => r
  end.

Definition recreateDurable (ctx : nat -> Ctx) (stream durable : string) (cfg : DurableConsumerConfig) (s : S)
  : option err * S :=
  let create s := let '(r, s') := CreateOrUpdateConsumer (ctx 3%nat) stream cfg s in (res_err r, s') in
  match ConsumerInfo (ctx 1%nat) stream durable s with
  | Ok _ =>
      match DeleteConsumer (ctx 2%nat) stream durable s with
      | (Some e, s1) => (Some e, s1)
      | (None, s1) => create s1
      end
  | Er e => if errors_is e ErrConsumerNotFound then create s else (Some e, s)
  end.

(** From the base configuration on: resolve, merge, recreate. *)
Definition place (fuel : nat) (ctx : nat -> Ctx) (what : string) (stream target : string) (base : DurableConsumerConfig)
  (c : ReplayConfig) (s : S) : option (res ReplayConsumerResult * S) :=
  match resolveReplayBounds fuel stream c with
  | None => None
  | Some (Er e) => Some (Er e, s)
  | Some (Ok resolved) =>
      let merged := applyReplayBoundMetadata (applyReplayConfig base target resolved) resolved in
      match recreateDurable ctx stream target merged s with
      | (Some e, s') => Some (Er (wrapf what e), s')
      | (None, s') => Some (Ok (replayResult target resolved), s')
      end
  end.

Definition first_err (checks : list (option err)) : option err :=
  match list_find (fun o => o <> None) checks with Some (_, o) => o | None => None end.

Definition ResetConsumer (fuel : nat) (ctx : nat -> Ctx) (stream durable : string) (opts : list (option ReplayOpt)) (s : S)
  : option (res ReplayConsumerResult * S) :=
  let c := applyReplayOpts opts in
  match first_err [ValidateStreamName stream; ValidateDurableName durable; validateReplayFilters c; validateReplayBounds c] with
  | Some e => Some (Er e, s)
  | None =>
      match baseDurableConfig (ctx 0%nat) stream durable s with
      | Er e => Some (Er e, s)
      | Ok base => place fuel ctx "reset consumer for replay stream=%q durable=%q: %w" stream durable base c s
      end
  end.

(** [nuid] is the fresh suffix of a generated target name. *)
Definition CreateReplayConsumer (fuel : nat) (ctx : nat -> Ctx) (nuid : string) (stream source : string)
  (opts : list (option ReplayOpt)) (s : S) : option (res ReplayConsumerResult * S) :=
  let c := applyReplayOpts opts in
  match first_err [ValidateStreamName stream; ValidateDurableName source; validateReplayFilters c; validateReplayBounds c] with
  | Some e => Some (Er e, s)
  | None =>
      match baseDurableConfig (ctx 0%nat) stream source s with
      | Er e => Some (Er e, s)
      | Ok base =>
          let target := if IsEmpty (rcDurable c) then source +:+ "-replay-" +:+ nuid else rcDurable c in
          match ValidateDurableName target with
          | Some e => Some (Er e, s)
          | None =>
              if String.eqb target source
              then Some (Er (errorf "create replay consumer: target durable must differ from source %q"), s)
              else place fuel ctx "create replay consumer stream=%q source=%q target=%q: %w" stream target base c s
          end
      end
  end.

(** ** Lemmas *)

Lemma recreate_frame ctx stream durable cfg s k : dDurable cfg = durable -> k <> (stream, durable) ->
  consumers (recreateDurable ctx stream durable cfg s).2 !! k = consumers s !! k.
Proof.
  intros Hd Hk. unfold recreateDurable.
  assert (forall s, consumers (let '(r, s') := CreateOrUpdateConsumer (ctx 3%nat) stream cfg s in (res_err r, s')).2 !! k
    = consumers s !! k) as Hc.
  { intros s0. pose proof (CreateOrUpdateConsumer_frame (ctx 3%nat) stream cfg s0 k) as H. rewrite Hd in H.
    specialize (H Hk). by destruct (CreateOrUpdateConsumer _ _ _ s0). }
  destruct (ConsumerInfo _ _ _ s) as [i|e].
  - pose proof (DeleteConsumer_frame (ctx 2%nat) stream durable s k Hk) as Hf.
    destruct (DeleteConsumer _ _ _ s) as [[e|] s1]; simpl in *; [done|]. by rewrite Hc.
  - destruct (errors_is e _); [by rewrite Hc|done].
Qed.

Lemma recreate_ok ctx stream cfg s s' : recreateDurable ctx stream (dDurable cfg) cfg s = (None, s') ->
  exists i p, consumers s' !! (stream, dDurable cfg) = Some i /\
    same_delivery (with_deliver (toNatsConsumerConfig cfg) p) i /\ (dHasDeliverPolicy cfg = true -> p = dDeliverPolicy cfg).
Proof.
  unfold recreateDurable.
  assert (forall s, (let '(r, s') := CreateOrUpdateConsumer (ctx 3%nat) stream cfg s in (res_err r, s')) = (None, s') ->
    exists i p, consumers s' !! (stream, dDurable cfg) = Some i /\
      same_delivery (with_deliver (toNatsConsumerConfig cfg) p) i /\ (dHasDeliverPolicy cfg = true -> p = dDeliverPolicy cfg)) as Hc.
  { intros s0. destruct (CreateOrUpdateConsumer (ctx 3%nat) stream cfg s0) as [[i|e] s1] eqn:E; simpl; [|done].
    intros [= ->]. apply guarded_ok in E as [E _]. destruct (upsert_ok _ _ _ _ _ E) as (H1 & p & H2 & H3 & _). eauto. }
  destruct (ConsumerInfo _ _ _ s) as [i|e].
  - destruct (DeleteConsumer _ _ _ s) as [[e|] s1]; [done|]. apply Hc.
  - destruct (errors_is e _); [apply Hc|done].
Qed.

Lemma durable_of_merged b t c : dDurable (applyReplayBoundMetadata (applyReplayConfig b t c) c) = t.
Proof. unfold applyReplayBoundMetadata. by destruct (_ && _). Qed.

Lemma place_frame fuel ctx what stream target b c s r s' k :
  place fuel ctx what stream target b c s = Some (r, s') -> k <> (stream, target) ->
  consumers s' !! k = consumers s !! k.
Proof.
  unfold place. intros H Hk. destruct (resolveReplayBounds fuel stream c) as [[resolved|e]|]; [|by simplify_eq|done].
  set (m := applyReplayBoundMetadata _ _) in H.
  pose proof (recreate_frame ctx stream target m s k (durable_of_merged _ _ _) Hk) as Hf.
  destruct (recreateDurable ctx stream target m s) as [[e|] s1]; simplify_eq; done.
Qed.

Lemma first_err_None l : first_err l = None -> Forall (fun o => o = None) l.
Proof.
  unfold first_err. destruct (list_find _ l) as [[i o]|] eqn:E.
  - apply list_find_Some in E as (_ & ? & _). by destruct o.
  - intros _. apply list_find_None in E. eapply Forall_impl; [|exact E]. intros o Ho. destruct o; [|done]. by destruct Ho.
Qed.

(** A side-car never disturbs the consumer it was copied from: whatever the
    options, the server and the contexts do, and whether the call succeeds or
    not, the source durable (and every durable other than the target) is stored
    exactly as before. *)
Theorem sidecar_keeps_source fuel ctx nuid stream source opts s r s' :
  CreateReplayConsumer fuel ctx nuid stream source opts s = Some (r, s') ->
  consumers s' !! (stream, source) = consumers s !! (stream, source).
Proof.
  unfold CreateReplayConsumer. intros H. set (c := applyReplayOpts opts) in H.
  destruct (first_err _); [by simplify_eq|]. destruct (baseDurableConfig _ _ _ _) as [base|]; [|by simplify_eq].
  set (target := if IsEmpty (rcDurable c) then _ else _) in H.
  destruct (ValidateDurableName target); [by simplify_eq|].
  destruct (String.eqb_spec target source) as [|Hne]; [by simplify_eq|].
  eapply place_frame; [exact H|]. congruence.
Qed.

(** What the resolved configuration keeps of the options. *)
Lemma resolve_keeps fuel stream c r : resolveReplayBounds fuel stream c = Some (Ok r) ->
  deliverSet r = deliverSet c /\ rcDeliverPolicy r = rcDeliverPolicy c /\ optStartSeqSet r = optStartSeqSet c /\
  rcOptStartSeq r = rcOptStartSeq c /\ optStartTimeSet r = optStartTimeSet c /\ rcOptStartTime r = rcOptStartTime c /\
  (rcFilterSubject r = rcFilterSubject c /\ rcFilterSubjects r = rcFilterSubjects c /\
   replaySet r = replaySet c /\ rcReplayPolicy r = rcReplayPolicy c) /\
  limitSet r = limitSet c /\ rcLimit r = rcLimit c /\ (untilSeqSet c = true -> untilSeqSet r = true /\ rcUntilSeq r = rcUntilSeq c).
Proof.
  unfold resolveReplayBounds. intros H.
  assert (exists c1, (c1 = c \/ (untilSeqSet c = false /\ exists q, c1 = set_until q c)) /\
    r = if limitSet c1 && (rcLimit c1 =? 1) && optStartSeqSet c1 && (0 <? rcOptStartSeq c1) && negb (untilSeqSet c1)
        then set_until (rcOptStartSeq c1) c1 else c1) as (c1 & Hc1 & ->).
  { destruct (rcUntilTime c) as [t|]; [|simplify_eq; eauto].
    destruct (untilTimeSet c && negb (untilSeqSet c)) eqn:E; [|simplify_eq; eauto].
    destruct (FindLastSeqAtOrBefore _ _ _ _ _) as [[q|]|]; simplify_eq. exists (set_until q c). split; [|reflexivity].
    right. split; [by destruct (untilTimeSet c), (untilSeqSet c)|eauto]. }
  destruct Hc1 as [->|[Hu (q & ->)]].
  - destruct (untilSeqSet c) eqn:Eu; rewrite ?andb_false_r; [split_and!; done|].
    by destruct (limitSet c && _ && _ && _ && _).
  - simpl. rewrite ?andb_false_r. rewrite Hu. by split_and!.
Qed.

Lemma Metadata_until d c : untilSeqSet c = true -> 0 < rcUntilSeq c ->
  dMetadata (applyReplayBoundMetadata d c) !! MetaReplayUntilSeq = Some (format_int (rcUntilSeq c)).
Proof.
  intros H1 H2. unfold applyReplayBoundMetadata. rewrite H1. simpl.
  destruct (Z.ltb_spec 0 (rcUntilSeq c)); [|lia].
  destruct (limitSet c && (0 <? rcLimit c)).
  - rewrite lookup_insert_ne by done. apply lookup_insert_eq.
  - apply lookup_insert_eq.
Qed.

(** The merged configuration is the one of the options over the base, with the
    bounds added to the metadata. *)
Lemma merged_metadata b t c : exists md,
  applyReplayBoundMetadata (applyReplayConfig b t c) c = set_metadata md (applyReplayConfig b t c) /\
  forall k, k <> MetaReplayUntilSeq -> k <> MetaReplayLimit -> md !! k = dMetadata b !! k.
Proof.
  unfold applyReplayBoundMetadata. destruct (_ && _); [by exists (dMetadata b)|]. eexists. split; [reflexivity|].
  intros k H1 H2. simpl. destruct (untilSeqSet c && _), (limitSet c && _); by rewrite ?lookup_insert_ne by done.
Qed.

(** The filters a seek asks for: several, one, or those of the durable. *)
Definition seek_filters (c : ReplayConfig) (old : string * list string) : string * list string :=
  match rcFilterSubjects c, rcFilterSubject c with
  | _ :: _, _ => ("", rcFilterSubjects c)
  | [], EmptyString => old
  | [], f => (f, [])
  end.

Definition with_replay (cc : ConsumerConfig) (p : Z) : ConsumerConfig :=
  CConf (ccDurable cc) (ccFilterSubject cc) (ccFilterSubjects cc) (ccDeliverSubject cc) (ccDeliverGroup cc)
    (ccDeliverPolicy cc) p (ccAckPolicy cc) (ccMaxDeliver cc) (ccAckWait cc) (ccMaxAckPending cc) (ccRateLimit cc)
    (ccHeartbeat cc) (ccInactiveThreshold cc) (ccFlowControl cc) (ccReplicas cc) (ccMemoryStorage cc)
    (ccMaxWaiting cc) (ccOptStartSeq cc) (ccOptStartTime cc) (ccMetadata cc) (ccOther cc).

(** What the new consumer [i] has of the former one, [old]. *)
Record keeps_durable (c : ReplayConfig) (old i : ConsumerConfig) : Prop := {
  kd_policy : deliverSet c = false -> ccDeliverPolicy i = ccDeliverPolicy old;
  kd_seq : optStartSeqSet c = false -> ccOptStartSeq i = ccOptStartSeq old;
  kd_time : optStartTimeSet c = false -> ccOptStartTime i = ccOptStartTime old;
  kd_delivery : ccDeliverSubject i = ccDeliverSubject old /\ ccDeliverGroup i = ccDeliverGroup old;
  kd_settings : same_settings (if replaySet c then with_replay old (rcReplayPolicy c) else old) i;
  kd_metadata k v : k <> MetaReplayUntilSeq -> k <> MetaReplayLimit ->
    ccMetadata old !! k = Some v -> ccMetadata i !! k = Some v
}.

(** What is stored for a merged configuration. *)
Lemma merged_stored base t r md p i :
  same_delivery (with_deliver (toNatsConsumerConfig (set_metadata md (applyReplayConfig base t r))) p) i ->
  (dHasDeliverPolicy (applyReplayConfig base t r) = true -> p = dDeliverPolicy (applyReplayConfig base t r)) ->
  (deliverSet r = true -> ccDeliverPolicy i = rcDeliverPolicy r) /\
  (optStartSeqSet r = true -> ccOptStartSeq i = rcOptStartSeq r) /\
  (optStartTimeSet r = true -> ccOptStartTime i = rcOptStartTime r) /\
  (ccFilterSubject i, ccFilterSubjects i) = seek_filters r (dFilterSubject base, dFilterSubjects base) /\ md ⊆ ccMetadata i.
Proof.
  intros (_ & S2 & S3 & S4 & S5 & S6 & _ & _ & S9 & _) Hp. simpl in *. split_and!; [| | | |done].
  - intros E. rewrite E in Hp. by rewrite S2, Hp.
  - intros E. by rewrite S3, E.
  - intros E. by rewrite S4, E.
  - rewrite S5, S6. unfold seek_filters. destruct (rcFilterSubjects r) as [|x l] eqn:Ef; simpl; [|done].
    by destruct (rcFilterSubject r).
Qed.

Lemma merged_keeps old t r md p i :
  same_delivery (with_deliver (toNatsConsumerConfig (set_metadata md (applyReplayConfig (durableConfigFromNATS old) t r))) p) i ->
  (dHasDeliverPolicy (applyReplayConfig (durableConfigFromNATS old) t r) = true ->
     p = dDeliverPolicy (applyReplayConfig (durableConfigFromNATS old) t r)) ->
  (forall k, k <> MetaReplayUntilSeq -> k <> MetaReplayLimit -> md !! k = ccMetadata old !! k) -> keeps_durable r old i.
Proof.
  intros (_ & S2 & S3 & S4 & _ & _ & S7 & S8 & S9 & S10) Hp Hmd. simpl in *. rewrite orb_true_r in *. simpl in *. constructor.
  - intros E. rewrite E in Hp. by rewrite S2, Hp.
  - intros E. by rewrite S3, E.
  - intros E. by rewrite S4, E.
  - done.
  - unfold same_settings in *. simpl in *. by destruct (replaySet r).
  - intros k v H1 H2 Hk. rewrite <- Hmd in Hk by done. by eapply lookup_weaken.
Qed.

Lemma keeps_resolved c r old i :
  deliverSet r = deliverSet c -> optStartSeqSet r = optStartSeqSet c -> optStartTimeSet r = optStartTimeSet c ->
  replaySet r = replaySet c -> rcReplayPolicy r = rcReplayPolicy c -> keeps_durable r old i -> keeps_durable c old i.
Proof. intros E1 E2 E3 E4 E5 [H1 H2 H3 H4 H5 H6]. rewrite E1, E2, E3, E4, ?E5 in *. by constructor. Qed.


End Replay.

(** ** Copying a consumer *)

Definition drop_other (cc : ConsumerConfig) : ConsumerConfig :=
  CConf (ccDurable cc) (ccFilterSubject cc) (ccFilterSubjects cc) (ccDeliverSubject cc) (ccDeliverGroup cc)
    (ccDeliverPolicy cc) (ccReplayPolicy cc) (ccAckPolicy cc) (ccMaxDeliver cc) (ccAckWait cc) (ccMaxAckPending cc)
    (ccRateLimit cc) (ccHeartbeat cc) (ccInactiveThreshold cc) (ccFlowControl cc) (ccReplicas cc) (ccMemoryStorage cc)
    (ccMaxWaiting cc) (ccOptStartSeq cc) (ccOptStartTime cc) (ccMetadata cc) no_other.

(** Reading a consumer's configuration and writing it back is the identity on the
    fields the library knows, zero-valued policies included ([AckNone] is not
    turned into [AckExplicit]), and on the whole configuration exactly when
    nothing else was set: every other field is lost when a consumer is reset. *)
Theorem consumer_config_roundtrip cc :
  toNatsConsumerConfig (durableConfigFromNATS cc) = drop_other cc /\
  (toNatsConsumerConfig (durableConfigFromNATS cc) = cc <-> ccOther cc = no_other).
Proof.
  split; [done|]. destruct cc. unfold toNatsConsumerConfig, durableConfigFromNATS. simpl. split; [by injection 1|].
  by intros ->.
Qed.

(** ** Concrete runs *)

Definition all_fine : nat -> Ctx := fun _ => background.
(** The context is cancelled after the third call. *)
Definition cancelled_late (n : nat) : Ctx :=
  if (n <? 3)%nat then background else MkCtx (Some (Sentinel "context.Canceled")) Finished.

Definition push_worker : ConsumerConfig :=
  CConf "worker" "orders.>" [] "deliver.worker" "workers" DeliverAll ReplayInstant AckExplicit 0 0 0 0 0 0 false 0 false 0 0
    None ∅ no_other.
Definition with_worker : server := Server {[ ("ORDERS", "worker") := push_worker ]} ∅ ∅.
Definition no_msgs (k : Z) : res RawStreamMsg := Er (Sentinel ErrMsgNotFound).

(** A reset is a deletion followed by a creation: a context that ends between the
    two calls leaves an error and no consumer. *)
Theorem reset_can_lose_consumer :
  exists e s', ResetConsumer no_msgs (Ok (0, 0)) 10 cancelled_late "ORDERS" "worker" [Some (FromSeq 5)] with_worker = Some (Er e, s') /\
    is_Some (consumers with_worker !! ("ORDERS", "worker")) /\ consumers s' !! ("ORDERS", "worker") = None.
Proof. eexists _, _. split; [vm_compute; reflexivity|]. split; [eexists; reflexivity|reflexivity]. Qed.

(** A side-car of a push consumer keeps its deliver subject and group: the
    replayed messages go to the subscribers of the live consumer. *)
Theorem sidecar_shares_deliver_subject :
  exists r s' i, CreateReplayConsumer no_msgs (Ok (0, 0)) 10 all_fine "N1" "ORDERS" "worker" [Some FromBeginning] with_worker =
      Some (Ok r, s') /\
    consumers s' !! ("ORDERS", rrDurable r) = Some i /\ rrDurable r = "worker-replay-N1" /\
    ccDeliverSubject i = "deliver.worker" /\ ccDeliverGroup i = "workers" /\
    consumers s' !! ("ORDERS", "worker") = Some push_worker.
Proof. eexists _, _, _. split; [vm_compute; reflexivity|]. split_and!; reflexivity. Qed.

Lemma sidecar_keeps_source_witness :
  exists r s', CreateReplayConsumer no_msgs (Ok (0, 0)) 10 all_fine "N1" "ORDERS" "worker" [Some FromBeginning] with_worker = Some (r, s') /\
    consumers s' !! ("ORDERS", "worker") = consumers with_worker !! ("ORDERS", "worker").
Proof.
  eexists _, _. split; [vm_compute; reflexivity|].
  refine (sidecar_keeps_source no_msgs (Ok (0, 0)) 10 all_fine "N1" "ORDERS" "worker" [Some FromBeginning] with_worker _ _ _).
  vm_compute. reflexivity.
Defined.

