(* ===== verification/Subscribe.v ===== *)
(** * Subscriptions and worker set-up (consumer_push.go, setup.go)

    What [Subscribe], [QueueSubscribe] and their bound forms ask nats.go for,
    the pending limits they set, the [subscription] wrapper, and the one-shot
    [SetupWorker], which provisions a stream, subscribes and then brings the
    durable's configuration in line.  nats.go's subscription calls are an
    interface on the same state as the administration calls of [Admin].  The
    callback passed to nats.go is [Consume.wrapHandler]. *)
From S2P Require Import Prelude GoStr Validate Pressure Message Consume Admin.

Definition defaultAckWait : Z := 30 * 10 ^ 9.
Definition defaultWorkerPoolSize : Z := 4.
Definition ErrInvalidSubscription : string := "nats.ErrInvalidSubscription".

(** ** Options

    nats.go applies subscribe options in order, so the last one of a kind
    counts.  [OUser] is an option of the caller that this library never sets. *)
Inductive SubOpt :=
  | OManualAck | OAckWait (d : Z) | OMaxAckPending (n : Z) | OIdleHeartbeat (d : Z) | OEnableFlowControl
  | OBindStream (stream : string) | ODurable (durable : string) | OBind (stream durable : string) | OUser (what : string).

Record sub_request := Req { rStream : string; rDurable : string; rAckWait : Z; rMaxAck : Z }.

Definition apply_opt (r : sub_request) (o : SubOpt) : sub_request :=
  match o with
  | OAckWait d => Req (rStream r) (rDurable r) d (rMaxAck r)
  | OMaxAckPending n => Req (rStream r) (rDurable r) (rAckWait r) n
  | OBindStream st => Req st (rDurable r) (rAckWait r) (rMaxAck r)
  | ODurable d => Req (rStream r) d (rAckWait r) (rMaxAck r)
  | OBind st d => Req st d (rAckWait r) (rMaxAck r)
  | _ => r
  end.
Definition effective (opts : list SubOpt) : sub_request := foldl apply_opt (Req "" "" 0 0) opts.

(** ** The client side of nats.go

    [live] are the subscriptions that receive messages.  Subscribing with a
    durable name uses the consumer of that name when there is one, and is
    refused when a requested acknowledgement wait differs from the consumer's;
    otherwise it creates the consumer, delivering all messages.  Pending limits
    of zero are refused. *)
Class PushJs (S : Type) `{JsAdmin S} := {
  live : S -> gset nat;
  js_subscribe : string -> option string -> list SubOpt -> S -> res nat * S;
  sub_unsubscribe : nat -> S -> option err * S;
  sub_drain : nat -> S -> option err * S;
  sub_set_limits : nat -> Z -> Z -> S -> option err * S;
  subscribe_live subj q opts s id :
    (js_subscribe subj q opts s).1 = Ok id -> id ∉ live s /\ live (js_subscribe subj q opts s).2 = {[id]} ∪ live s;
  subscribe_failed subj q opts s e :
    (js_subscribe subj q opts s).1 = Er e -> live (js_subscribe subj q opts s).2 = live s;
  subscribe_existing subj q opts s id cc :
    (js_subscribe subj q opts s).1 = Ok id ->
    consumers s !! (rStream (effective opts), rDurable (effective opts)) = Some cc ->
    consumers (js_subscribe subj q opts s).2 !! (rStream (effective opts), rDurable (effective opts)) = Some cc /\
    (0 < rAckWait (effective opts) -> ccAckWait cc = rAckWait (effective opts));
  subscribe_creates subj q opts s id :
    (js_subscribe subj q opts s).1 = Ok id -> rStream (effective opts) <> "" -> rDurable (effective opts) <> "" ->
    consumers s !! (rStream (effective opts), rDurable (effective opts)) = None ->
    exists cc, consumers (js_subscribe subj q opts s).2 !! (rStream (effective opts), rDurable (effective opts)) = Some cc /\
      ccDeliverPolicy cc = DeliverAll;
  unsubscribe_live id s : (sub_unsubscribe id s).1 = None -> live (sub_unsubscribe id s).2 = live s ∖ {[id]};
  limits_zero id l b s : l = 0 \/ b = 0 -> exists e, sub_set_limits id l b s = (Some e, s);
  limits_frame id l b s : live (sub_set_limits id l b s).2 = live s /\ consumers (sub_set_limits id l b s).2 = consumers s;
  add_consumer_live st cc s : live (js_add_consumer st cc s).2 = live s;
  update_consumer_live st cc s : live (js_update_consumer st cc s).2 = live s;
  add_stream_live c s : live (js_add_stream c s).2 = live s;
  update_stream_live c s : live (js_update_stream c s).2 = live s
}.

(** ** The consumer *)

Definition with_ack_wait (c : RuntimeConsumerConfig) (d : Z) : RuntimeConsumerConfig :=
  RCC d (IdleHeartbeat c) (FlowControl c) (WorkerPoolEnabled c) (WorkerPoolSize c) (WorkerBufferSize c)
    (PayloadDecompression c) (cPendingMsgLimit c) (cPendingMsgBuffer c).

(** [newConsumer]: the consumer, its circuit breaker, and whether the queue
    depth sampler runs. *)
Definition newConsumer (rc : RuntimeConsumerConfig) (bp : BackpressureConfig) (sampleInterval : Z) (metrics : bool)
  (ad : AdaptivePressureConfig) (circuit : CircuitConfig) : consumer * option CircuitBreaker * bool :=
  (MkConsumer (if AckWait rc <=? 0 then with_ack_wait rc defaultAckWait else rc) bp
     (if apEnabled ad then Some (NewAdaptivePressure ad) else None),
   NewCircuitBreaker circuit,
   WorkerPoolEnabled rc && metrics && (0 <? sampleInterval)).

(** The size and buffer [initWorkerPool] creates its pool with. *)
Definition initWorkerPool (c : consumer) : Z * Z :=
  ((if WorkerPoolSize (cfg c) <=? 0 then defaultWorkerPoolSize else WorkerPoolSize (cfg c)), WorkerBufferSize (cfg c)).

Definition appendConsumerOpts (c : consumer) (opts : list SubOpt) (forQueue : bool) : list SubOpt :=
  opts ++ [OManualAck]
    ++ (if 0 <? AckWait (cfg c) then [OAckWait (AckWait (cfg c))] else [])
    ++ (if negb forQueue && (0 <? IdleHeartbeat (cfg c))
        then OIdleHeartbeat (IdleHeartbeat (cfg c)) :: (if FlowControl (cfg c) then [OEnableFlowControl] else [])
        else []).

(** The limits [applyPendingLimits] asks for, if it asks. *)
Definition pending_limits (c : consumer) : option (Z * Z) :=
  let limit := bpPendingMsgLimit (backpressure c) in
  let buf := bpPendingMsgBuffer (backpressure c) in
  let limit := if (limit =? 0) && (0 <? cPendingMsgLimit (cfg c)) then cPendingMsgLimit (cfg c) else limit in
  let limit := if (limit =? 0) && (0 <? bpMaxAckPending (backpressure c)) then bpMaxAckPending (backpressure c) else limit in
  let buf := if (buf =? 0) && (0 <? cPendingMsgBuffer (cfg c)) then cPendingMsgBuffer (cfg c) else buf in
  if (0 <? limit) || (0 <? buf) then Some (limit, buf) else None.

(** The wrapper around a nats.go subscription; [drainCancel] tells whether a
    goroutine waits to drain it. *)
Record subscription := Sub { sub : option nat; drainCancel : bool }.
Definition drainOnCancel (x : subscription) : subscription := Sub (sub x) true.

Definition wrap_check (msg : string) (o : option err) : option err :=
  match o with Some e => Some (wrapf msg e) | None => None end.

Section Subscribe.
Context {S : Type} `{JA : JsAdmin S} `{PJ : !PushJs S}.

(** A failed call is only logged. *)
Definition applyPendingLimits (c : consumer) (id : nat) (s : S) : S :=
  match pending_limits c with Some (l, b) => (sub_set_limits id l b s).2 | None => s end.

(** The common end of the two subscribe methods. *)
Definition subscribe_call (what : string) (c : consumer) (queue : option string) (subject : string) (opts : list SubOpt)
  (s : S) : res subscription * S :=
  match js_subscribe subject queue opts s with
  | (Er e, s1) => (Er (wrapf what e), s1)
  | (Ok id, s1) => (Ok (Sub (Some id) false), applyPendingLimits c id s1)
  end.

Definition Subscribe (c : consumer) (subject : string) (opts : list SubOpt) : S -> res subscription * S :=
  guarded [wrap_check "subscribe: %w" (ValidateSubject subject)]
    (subscribe_call "subscribe: %w" c None subject (appendConsumerOpts c opts false)).

Definition QueueSubscribe (c : consumer) (queue subject : string) (opts : list SubOpt) : S -> res subscription * S :=
  guarded [wrap_check "queue subscribe: %w" (ValidateQueueName queue); wrap_check "queue subscribe: %w" (ValidateSubject subject)]
    (subscribe_call "queue subscribe: %w" c (Some queue) subject (appendConsumerOpts c opts true)).

Definition then_drain (r : res subscription * S) : res subscription * S :=
  match r with (Ok x, s) => (Ok (drainOnCancel x), s) | r => r end.

Definition SubscribeBound (c : consumer) (stream durable subject : string) : S -> res subscription * S :=
  guarded [wrap_check "subscribe bound: %w" (ValidateStreamName stream); wrap_check "subscribe bound: %w" (ValidateDurableName durable)]
    (fun s => then_drain (Subscribe c subject [OBindStream stream; ODurable durable] s)).

Definition QueueSubscribeBound (c : consumer) (stream durable queue subject : string) : S -> res subscription * S :=
  guarded [wrap_check "queue subscribe bound: %w" (ValidateStreamName stream);
           wrap_check "queue subscribe bound: %w" (ValidateDurableName durable)]
    (fun s => then_drain (QueueSubscribe c queue subject [OBindStream stream; ODurable durable] s)).

(** Both methods wake the waiting drain goroutine first. *)
Definition close_with (call : nat -> S -> option err * S) (x : subscription) (s : S) : option err * subscription * S :=
  match sub x with
  | None => (Some (Sentinel ErrInvalidSubscription), x, s)
  | Some id => let '(e, s') := call id s in (e, Sub (sub x) false, s')
  end.
Definition Unsubscribe : subscription -> S -> option err * subscription * S := close_with sub_unsubscribe.
Definition Drain : subscription -> S -> option err * subscription * S := close_with sub_drain.
Definition SetPendingLimits (x : subscription) (msgLimit bytesLimit : Z) (s : S) : option err * S :=
  match sub x with None => (Some (Sentinel ErrInvalidSubscription), s) | Some id => sub_set_limits id msgLimit bytesLimit s end.
Definition IsValid (x : subscription) (s : S) : bool :=
  match sub x with None => false | Some id => bool_decide (id ∈ live s) end.

(** ** Lemmas *)

(** The consumer's own acknowledgement wait comes last, after the options of the caller. *)
Lemma effective_append c opts q :
  0 < AckWait (cfg c) ->
  rAckWait (effective (appendConsumerOpts c opts q)) = AckWait (cfg c) /\
  rStream (effective (appendConsumerOpts c opts q)) = rStream (effective opts) /\
  rDurable (effective (appendConsumerOpts c opts q)) = rDurable (effective opts).
Proof.
  intros Hw. unfold effective, appendConsumerOpts. rewrite foldl_app.
  set (r := foldl apply_opt _ opts). rewrite (proj2 (Z.ltb_lt _ _) Hw). simpl.
  destruct (negb q && _); [destruct (FlowControl _)|]; done.
Qed.

Lemma applyPendingLimits_frame c id s :
  live (applyPendingLimits c id s) = live s /\ consumers (applyPendingLimits c id s) = consumers s.
Proof. unfold applyPendingLimits. destruct (pending_limits c) as [[l b]|]; [apply limits_frame|done]. Qed.

Lemma guarded_inv {T} checks (k : S -> res T * S) s r s' :
  guarded checks k s = (r, s') -> (exists e, r = Er e /\ s' = s) \/ k s = (r, s').
Proof.
  destruct (guarded_cases checks k s) as [(e & _ & ->)|[_ ->]]; [intros [= <- <-]; left; eauto|by right].
Qed.

(** What a successful subscribe call leaves: one new live subscription. *)
Lemma subscribe_call_spec what c q subj opts s r s' :
  subscribe_call what c q subj opts s = (r, s') ->
  match r with
  | Er _ => live s' = live s
  | Ok x => exists id s1, x = Sub (Some id) false /\ js_subscribe subj q opts s = (Ok id, s1) /\
      id ∉ live s /\ live s' = {[id]} ∪ live s /\ consumers s' = consumers s1
  end.
Proof.
  unfold subscribe_call. pose proof (subscribe_live subj q opts s) as Hl. pose proof (subscribe_failed subj q opts s) as Hf.
  destruct (js_subscribe subj q opts s) as [[id|e] s1]; simpl in Hl, Hf; intros [= <- <-]; [|by eapply Hf].
  destruct (Hl id eq_refl) as [H1 H2]. destruct (applyPendingLimits_frame c id s1) as [H3 H4].
  exists id, s1. split_and!; [done|done|done|by rewrite H3|done].
Qed.

Lemma QueueSubscribe_spec c q subj opts s r s' :
  QueueSubscribe c q subj opts s = (r, s') ->
  match r with
  | Er _ => live s' = live s
  | Ok x => exists id s1, x = Sub (Some id) false /\
      js_subscribe subj (Some q) (appendConsumerOpts c opts true) s = (Ok id, s1) /\
      id ∉ live s /\ live s' = {[id]} ∪ live s /\ consumers s' = consumers s1
  end.
Proof. intros [(e & -> & ->)|H]%guarded_inv; [done|]. by eapply subscribe_call_spec in H. Qed.

(** ** Properties *)

(** Pending limits are set only when both a message and a byte limit are
    configured.  With a limit on one side only, which is what the default
    configuration has, the request carries a zero, nats.go refuses it, the
    refusal is logged, and the subscription is exactly what nats.go created:
    the configured limit never takes effect. *)
Theorem pending_limits_dropped c subj opts s l b :
  pending_limits c = Some (l, b) -> l = 0 \/ b = 0 ->
  forall x s', Subscribe c subj opts s = (Ok x, s') ->
  exists id, x = Sub (Some id) false /\ js_subscribe subj None (appendConsumerOpts c opts false) s = (Ok id, s').
Proof.
  intros Hp Hz x s' [(e & ? & ->)|H]%guarded_inv; [done|]. unfold subscribe_call in H.
  destruct (js_subscribe _ _ _ s) as [[id|e] s1]; simplify_eq. exists id. split; [done|].
  unfold applyPendingLimits. rewrite Hp. by destruct (limits_zero id l b s1 Hz) as [e ->].
Qed.

End Subscribe.

(** ** A concrete client *)

Definition set_live (l : gset nat) (s : server) : server := Server (sv_consumers s) (sv_streams s) l.
Definition created (r : sub_request) (subj : string) (q : option string) : ConsumerConfig :=
  CConf (rDurable r) subj [] "inbox" (default "" q) DeliverAll ReplayInstant AckExplicit 0 (rAckWait r) (rMaxAck r)
    0 0 0 false 0 false 0 0 None ∅ "".

#[export, refine] Instance demo_push : PushJs server := {
  live := sv_live;
  js_subscribe subj q opts s :=
    let r := effective opts in
    let id := fresh (sv_live s) in
    let s1 := set_live ({[id]} ∪ sv_live s) s in
    match sv_consumers s !! (rStream r, rDurable r) with
    | Some cc => if (0 <? rAckWait r) && negb (ccAckWait cc =? rAckWait r)
                 then (Er (errorf "configuration requests ack wait"), s) else (Ok id, s1)
    | None => (Ok id, put_consumer (rStream r, rDurable r) (Some (created r subj q)) s1)
    end;
  sub_unsubscribe id s := (None, set_live (sv_live s ∖ {[id]}) s);
  sub_drain id s := (None, set_live (sv_live s ∖ {[id]}) s);
  sub_set_limits id l b s := (if (l =? 0) || (b =? 0) then Some (errorf "invalid argument") else None, s)
}.
Proof.
  - intros subj q opts s id. simpl. destruct (sv_consumers s !! _); [destruct (_ && _)|]; simpl; intros [= <-];
      split; try done; apply is_fresh.
  - intros subj q opts s e. simpl. destruct (sv_consumers s !! _); [destruct (_ && _)|]; done.
  - intros subj q opts s id cc. simpl. intros H Hcc. rewrite Hcc in *.
    destruct ((0 <? _) && _) eqn:E; [done|]. split; [done|]. intros Hw. apply andb_false_iff in E as [E|E]; [lia|].
    apply negb_false_iff in E. lia.
  - intros subj q opts s id. simpl. intros _ _ _ ->. simpl. rewrite lookup_partial_alter_eq. eauto.
  - done.
  - intros id l b s Hz. simpl. exists (errorf "invalid argument"). by destruct Hz as [-> | ->]; simpl; rewrite ?orb_true_r.
  - done.
  - intros st cc s. simpl. by repeat case_match.
  - intros st cc s. simpl. by repeat case_match.
  - intros c s. simpl. by repeat case_match.
  - intros c s. simpl. by repeat case_match.
Defined.

(** The default configuration. *)
Definition default_consumer : consumer :=
  MkConsumer (RCC defaultAckWait (5 * 10 ^ 9) true false 4 64 true 0 0) (BPC BackpressureNak 0 0 1000) None.

Definition subscribed_demo : res subscription * server := Eval vm_compute in Subscribe default_consumer "orders.>" [] empty_server.

Lemma pending_limits_dropped_witness :
  pending_limits default_consumer = Some (1000, 0) /\
  exists id, subscribed_demo.1 = Ok (Sub (Some id) false) /\ id ∈ sv_live subscribed_demo.2.
Proof.
  split; [reflexivity|].
  assert (Subscribe default_consumer "orders.>" [] empty_server = (Ok (Sub (Some 0%nat) false), subscribed_demo.2)) as H
    by (vm_compute; reflexivity).
  destruct (pending_limits_dropped default_consumer "orders.>" [] empty_server 1000 0 eq_refl (or_intror eq_refl) _ _ H)
    as (id & Hx & _).
  injection Hx as <-. exists 0%nat. split; [reflexivity|]. vm_compute. reflexivity.
Defined.
