(* ===== verification/Background.v ===== *)
(** * Background goroutines (consumer_push.go, connection.go)

    Three goroutines run beside the client: the one that drains a subscription
    when its context ends ([drainOnCancel]), the queue-depth sampler of a
    consumer and the health checker of a client.  Each is a step machine; the
    scheduler's choices and the clock are labels. *)
From S2P Require Import Prelude.

(** ** Draining when the context ends

    [CUnsubscribe] and [CDrain] are the two methods of a subscription; both
    cancel the drain context and then call nats.go.  A drained subscription
    stays valid until nats.go is through with it, an unsubscribed one does not;
    [DInvalid] is the moment nats.go invalidates it. *)
Module DrainRace.

Inductive sub_call := CUnsubscribe | CDrain.
Inductive upc := UIdle | UCall (c : sub_call).
Inductive gpc := GWait | GCheck | GDrain | GExit.
#[export] Instance gpc_eq_dec : EqDecision gpc.
Proof. solve_decision. Defined.
Inductive entry := ByUser (c : sub_call) | ByGoroutine.

Record drain_state := DSt {
  parentDone : bool; drainDone : bool; haveCancel : bool; valid : bool; user : upc; todo : list sub_call; gor : gpc; log : list entry
}.

Inductive dlabel := DParent | DInvalid | DUser | DGo.

(** The drain context is a child of the caller's. *)
Definition woken (s : drain_state) : bool := parentDone s || drainDone s.

(** The next statement of [Unsubscribe] or [Drain]. *)
Definition user_step (s : drain_state) : option drain_state :=
  match user s, todo s with
  | UIdle, c :: l => Some (DSt (parentDone s) (drainDone s || haveCancel s) false (valid s) (UCall c) l (gor s) (log s))
  | UIdle, [] => None
  | UCall c, l => Some (DSt (parentDone s) (drainDone s) (haveCancel s)
                         (match c with CUnsubscribe => false | CDrain => valid s end) UIdle l (gor s) (log s ++ [ByUser c]))
  end.

(** The next statement of the goroutine [drainOnCancel] starts. *)
Definition goroutine_step (s : drain_state) : option drain_state :=
  let go g l := Some (DSt (parentDone s) (drainDone s) (haveCancel s) (valid s) (user s) (todo s) g l) in
  match gor s with
  | GWait => if woken s then go GCheck (log s) else None
  | GCheck => go (if valid s then GDrain else GExit) (log s)
  | GDrain => go GExit (log s ++ [ByGoroutine])
  | GExit => None
  end.

Definition dstep (l : dlabel) (s : drain_state) : option drain_state :=
  match l with
  | DParent => Some (DSt true (drainDone s) (haveCancel s) (valid s) (user s) (todo s) (gor s) (log s))
  | DInvalid => Some (DSt (parentDone s) (drainDone s) (haveCancel s) false (user s) (todo s) (gor s) (log s))
  | DUser => user_step s
  | DGo => goroutine_step s
  end.

(** After [drainOnCancel]; [calls] is what the caller will do. *)
Definition drain_init (calls : list sub_call) : drain_state := DSt false false true true UIdle calls GWait [].

Fixpoint drun (ls : list dlabel) (s : drain_state) : option drain_state :=
  match ls with [] => Some s | l :: ls' => s' ← dstep l s; drun ls' s' end.

Definition drains (l : list entry) : nat := length (List.filter (fun e => match e with ByGoroutine => true | _ => false end) l).
Arguments drains : simpl never.
Definition remaining (g : gpc) : nat := match g with GWait => 3 | GCheck => 2 | GDrain => 1 | GExit => 0 end.
Definition called (s : drain_state) : Prop := user s <> UIdle \/ exists c, ByUser c ∈ log s.

Record drain_ok (s : drain_state) : Prop := {
  do_woken : called s -> drainDone s = true;
  do_armed : drainDone s = true \/ haveCancel s = true;
  do_once : (drains (log s) <= if decide (gor s = GExit) then 1 else 0)%nat;
  do_gone : gor s <> GWait -> woken s = true
}.

Lemma drains_app l k : drains (l ++ k) = (drains l + drains k)%nat.
Proof. unfold drains. by rewrite List.filter_app, length_app. Qed.

Lemma drain_ok_user s s' : drain_ok s -> user_step s = Some s' -> drain_ok s'.
Proof.
  intros [H1 H2 H3 H4]. unfold user_step, woken in *. destruct (user s) as [|c] eqn:Eu; [destruct (todo s) as [|c l]; [done|]|];
    intros [= <-]; constructor; cbn; try done.
  - intros _. destruct H2 as [-> | ->]; [done|by rewrite orb_true_r].
  - left. destruct H2 as [-> | ->]; [done|by rewrite orb_true_r].
  - intros Hg. specialize (H4 Hg). destruct (parentDone s); [done|]. simpl in *. by rewrite H4.
  - intros _. apply H1. left. by rewrite Eu.
  - rewrite drains_app. change (drains [ByUser c]) with 0%nat. by rewrite Nat.add_0_r.
Qed.

Lemma drain_ok_go s s' : drain_ok s -> goroutine_step s = Some s' -> drain_ok s'.
Proof.
  intros [H1 H2 H3 H4]. unfold goroutine_step, woken in *.
  destruct (gor s) eqn:Eg; [destruct (parentDone s || drainDone s) eqn:Ew; [|done]|..]; try done; intros [= <-]; constructor; cbn;
    try done; try (intros _; by apply H4).
  - rewrite decide_False in H3 by done. case_decide; lia.
  - intros Hc. apply H1. destruct Hc as [Hc|[c Hc]]; [by left|]. right. exists c. cbn in Hc.
    apply elem_of_app in Hc as [?|Hc%list_elem_of_singleton]; [done|discriminate].
  - rewrite drains_app. change (drains [ByGoroutine]) with 1%nat. rewrite decide_False in H3 by done. rewrite decide_True by done. lia.
Qed.

Lemma drain_ok_step l s s' : drain_ok s -> dstep l s = Some s' -> drain_ok s'.
Proof.
  destruct l; simpl; [| |apply drain_ok_user|apply drain_ok_go]; intros [H1 H2 H3 H4] [= <-]; by constructor.
Qed.

Lemma drain_ok_run ls s s' : drain_ok s -> drun ls s = Some s' -> drain_ok s'.
Proof.
  revert s. induction ls as [|l ls IH]; simpl; intros s Hok H; [by simplify_eq|].
  apply bind_Some in H as (s1 & H1 & H2). eauto using drain_ok_step.
Qed.

Lemma drain_ok_init calls : drain_ok (drain_init calls).
Proof. constructor; simpl; [|auto|done|done]. intros [Hc|[c Hc]]; [done|by apply not_elem_of_nil in Hc]. Qed.

(** Nobody but the goroutine moves it, and nothing puts it to sleep again. *)
Lemma others_keep l s s' : dstep l s = Some s' -> l <> DGo -> remaining (gor s') = remaining (gor s) /\ (woken s = true -> woken s' = true).
Proof.
  unfold woken. destruct l; simpl; intros H Hl; [| | |done].
  - injection H as <-. done.
  - injection H as <-. done.
  - unfold user_step in H. repeat case_match; simplify_eq; cbn; (split; [done|]); destruct (parentDone s), (drainDone s); done.
Qed.

(** C29: no drain goroutine is left behind.  In every interleaving of the
    caller's [Unsubscribe] and [Drain] calls, the end of the context, nats.go
    invalidating the subscription and the goroutine: once a call has begun or
    the context has ended, the goroutine can take its next step until it exits,
    three steps at most, and no step of anybody else takes that away; and it
    drains the subscription at most once. *)
Theorem drain_goroutine_ends calls ls s :
  drun ls (drain_init calls) = Some s ->
  (drains (log s) <= 1)%nat /\
  (called s \/ parentDone s = true ->
     (gor s = GExit \/ exists s', dstep DGo s = Some s' /\ (remaining (gor s') < remaining (gor s))%nat) /\ (remaining (gor s) <= 3)%nat /\
     forall l s', l <> DGo -> dstep l s = Some s' -> remaining (gor s') = remaining (gor s) /\ woken s' = true).
Proof.
  intros Hr. destruct (drain_ok_run _ _ _ (drain_ok_init calls) Hr) as [H1 H2 H3 H4].
  split; [case_decide; lia|]. intros Hw. assert (woken s = true) as Hwk.
  { unfold woken. destruct Hw as [Hw| ->]; [by rewrite (H1 Hw), orb_true_r|done]. }
  split_and!; [| |intros l s' Hl Hs; destruct (others_keep _ _ _ Hs Hl); auto].
  - simpl. unfold goroutine_step. rewrite Hwk. destruct (gor s); [right|right; destruct (valid s)|right|by left];
      (eexists; split; [done|cbn; lia]).
  - destruct (gor s); simpl; lia.
Qed.

(** [Unsubscribe] can drain.  It wakes the goroutine before it unsubscribes,
    so with the context still alive the goroutine may find the subscription
    valid and drain it first. *)
Theorem unsubscribe_can_drain :
  exists ls s, drun ls (drain_init [CUnsubscribe]) = Some s /\ parentDone s = false /\ log s = [ByGoroutine; ByUser CUnsubscribe].
Proof. exists [DUser; DGo; DGo; DGo; DUser]. eexists. split; [reflexivity|]. done. Qed.

End DrainRace.

(** ** Tickers

    A goroutine that works on every tick until it is stopped.  A ticker's
    channel holds one tick; when a tick and the stop are both ready, [select]
    takes either. *)
Module Ticker.

Inductive tlabel := TTick | TStopSignal | TTickerStop | TWork (v : Z) | TExit.
Record tstate := TSt { tickReady : bool; tickerOn : bool; stopped : bool; running : bool; recorded : list Z }.

(** [v]: what the work yields, the sampled depth for instance; [active]: whether
    there is something to sample; [owner]: whether the goroutine stops its
    ticker when it exits. *)
Definition ticker_step (owner active : bool) (l : tlabel) (s : tstate) : option tstate :=
  match l with
  | TTick => if tickerOn s then Some (TSt true true (stopped s) (running s) (recorded s)) else None
  | TStopSignal => Some (TSt (tickReady s) (tickerOn s) true (running s) (recorded s))
  | TTickerStop => Some (TSt (tickReady s) false (stopped s) (running s) (recorded s))
  | TWork v => if running s && tickReady s
               then Some (TSt false (tickerOn s) (stopped s) true (if active then recorded s ++ [v] else recorded s)) else None
  | TExit => if running s && stopped s then Some (TSt (tickReady s) (tickerOn s && negb owner) true false (recorded s)) else None
  end.
Fixpoint ticker_run (owner active : bool) (ls : list tlabel) (s : tstate) : option tstate :=
  match ls with [] => Some s | l :: ls' => s' ← ticker_step owner active l s; ticker_run owner active ls' s' end.

Definition started : tstate := TSt false true false true [].

(** [startQueueDepthSampler]: samples while there is a pool and a gauge. *)
Definition startQueueDepthSampler (havePool haveGauge : bool) (ls : list tlabel) : option tstate :=
  ticker_run false (havePool && haveGauge) ls started.

(** [startHealthCheck]: not started for a zero interval; [TStopSignal] is the end
    of the client's context, and [running] tells that [healthCheckDone] is open. *)
Definition startHealthCheck (interval : Z) (ls : list tlabel) : option (option tstate) :=
  if interval <=? 0 then Some None else Some <$> ticker_run true true ls started.

Lemma off_bound owner active ls s s' : tickerOn s = false -> ticker_run owner active ls s = Some s' ->
  tickerOn s' = false /\ (length (recorded s') + (if tickReady s' then 1 else 0) <= length (recorded s) + if tickReady s then 1 else 0)%nat.
Proof.
  revert s. induction ls as [|l ls IH]; simpl; intros s Hoff H; [by simplify_eq|].
  apply bind_Some in H as (s1 & H1 & H2). pose proof (fun Hx => IH _ Hx H2) as Hi. clear IH H2.
  assert (tickerOn s1 = false /\ (length (recorded s1) + (if tickReady s1 then 1 else 0) <=
          length (recorded s) + if tickReady s then 1 else 0)%nat) as [Hs1 Hl].
  { destruct l; simpl in H1; rewrite ?Hoff in H1; simplify_eq; cbn [tickerOn recorded tickReady]; try done.
    - destruct (running s && tickReady s) eqn:E; simplify_eq. apply andb_true_iff in E as [_ ->]. cbn. split; [done|].
      destruct active; rewrite ?length_app; simpl; lia.
    - destruct (running s && stopped s); by simplify_eq. }
  destruct (Hi Hs1) as [? ?]. split; [done|lia].
Qed.

(** Once signalled and with its ticker off, a ticker goroutine works at most
    once more, can exit at any point until it has, and never works after it
    has exited. *)
Lemma ticker_winds_down owner active ls s s' :
  stopped s = true -> tickerOn s = false -> ticker_run owner active ls s = Some s' ->
  (length (recorded s') <= length (recorded s) + 1)%nat /\ stopped s' = true /\
  (running s' = true -> exists s'', ticker_step owner active TExit s' = Some s'' /\ running s'' = false) /\
  (running s = false -> recorded s' = recorded s).
Proof.
  intros Hst Hoff H. destruct (off_bound _ _ _ _ _ Hoff H) as [_ Hb].
  assert (stopped s' = true /\ (running s = false -> recorded s' = recorded s /\ running s' = false)) as [H1 H2].
  { clear Hb Hoff. revert s Hst H. induction ls as [|l ls IH]; simpl; intros s Hst H; [by simplify_eq|].
    apply bind_Some in H as (s1 & E1 & E2).
    assert (stopped s1 = true /\ (running s = false -> recorded s1 = recorded s /\ running s1 = false)) as [Ha Hb].
    { destruct l; simpl in E1; repeat case_match; simplify_eq; cbn; (split; [done|]); intros Hr; try done; by rewrite Hr in *. }
    destruct (IH _ Ha E2) as [Hc Hd]. split; [done|]. intros Hr. destruct (Hb Hr) as [<- Hr']. auto. }
  split_and!; [destruct (tickReady s), (tickReady s'); lia|done| |naive_solver].
  intros Hr. simpl. rewrite Hr, H1. simpl. eauto.
Qed.

End Ticker.

(** ** Stopping a consumer *)
Module Stop.

(** The statements of [consumer.stop]'s once-body that do something. *)
Inductive stop_effect := CloseDepthStop | StopTicker | StopPool | CancelCtx.
Record parts := Parts { haveSampler : bool; havePool : bool; haveCancel : bool; stopOnce : bool }.

Definition consumer_stop (p : parts) : list stop_effect * parts :=
  if stopOnce p then ([], p) else
  ((if haveSampler p then [CloseDepthStop; StopTicker] else []) ++ (if havePool p then [StopPool] else []) ++
   (if haveCancel p then [CancelCtx] else []),
   Parts (haveSampler p) (havePool p) false true).

(** [publisher.stop]: cancels, every time it is called. *)
Definition publisher_stop (haveCancel : bool) : list stop_effect := if haveCancel then [CancelCtx] else [].

(** What the sampler sees of [stop]. *)
Definition to_sampler (e : stop_effect) : list Ticker.tlabel :=
  match e with CloseDepthStop => [Ticker.TStopSignal] | StopTicker => [Ticker.TTickerStop] | _ => [] end.

(** A stopped consumer is quiet.  [stop] works once; it drains the pool
    before it cancels the context the pool's handlers run under; and from the
    moment it has stopped the ticker the sampler records at most one more depth
    and can exit. *)
Theorem consumer_stops p ls1 ls2 s1 s2 s3 pool gauge :
  haveSampler p = true -> havePool p = true -> haveCancel p = true -> stopOnce p = false ->
  Ticker.startQueueDepthSampler pool gauge ls1 = Some s1 ->
  Ticker.ticker_run false (pool && gauge) ((consumer_stop p).1 ≫= to_sampler) s1 = Some s2 ->
  Ticker.ticker_run false (pool && gauge) ls2 s2 = Some s3 ->
  (consumer_stop p).1 = [CloseDepthStop; StopTicker; StopPool; CancelCtx] /\
  (consumer_stop (consumer_stop p).2).1 = [] /\
  (length (Ticker.recorded s3) <= length (Ticker.recorded s1) + 1)%nat /\
  (Ticker.running s3 = true -> exists s4, Ticker.ticker_step false (pool && gauge) Ticker.TExit s3 = Some s4 /\ Ticker.running s4 = false).
Proof.
  intros Hs Hp Hc Ho H1 H2 H3. unfold consumer_stop in *. rewrite Ho, Hs, Hp, Hc in *. cbn in H2. simplify_eq.
  apply Ticker.ticker_winds_down in H3 as (Ha & _ & Hb & _); [|done..].
  split_and!; done.
Qed.

End Stop.

(** ** Witnesses *)

(** Two samples, then the stop while a tick is waiting. *)
Definition sampler_run : list Ticker.tlabel := [Ticker.TTick; Ticker.TWork 3; Ticker.TTick; Ticker.TWork 5; Ticker.TTick].
Lemma consumer_stops_witness : exists s1 s2 s3,
  Ticker.startQueueDepthSampler true true sampler_run = Some s1 /\
  Ticker.ticker_run false true [Ticker.TStopSignal; Ticker.TTickerStop] s1 = Some s2 /\
  Ticker.ticker_run false true [Ticker.TWork 9; Ticker.TExit] s2 = Some s3 /\
  Ticker.recorded s3 = [3; 5; 9] /\ (length (Ticker.recorded s3) <= length (Ticker.recorded s1) + 1)%nat.
Proof.
  do 3 eexists. split_and!; [reflexivity|reflexivity|reflexivity|reflexivity|].
  eapply (Stop.consumer_stops (Stop.Parts true true true false) sampler_run [Ticker.TWork 9; Ticker.TExit] _ _ _ true true); reflexivity.
Defined.

(** A [Drain] call: its goroutine is still to run. *)
Lemma drain_goroutine_ends_witness : exists s,
  DrainRace.drun [DrainRace.DUser; DrainRace.DUser] (DrainRace.drain_init [DrainRace.CDrain]) = Some s /\
  DrainRace.gor s = DrainRace.GWait /\ exists s', DrainRace.dstep DrainRace.DGo s = Some s'.
Proof.
  eexists. split; [reflexivity|]. split; [reflexivity|].
  destruct (DrainRace.drain_goroutine_ends [DrainRace.CDrain] [DrainRace.DUser; DrainRace.DUser] _ eq_refl) as [_ H].
  destruct H as [[H|(s' & Hs & _)] _]; [|discriminate H|by exists s'].
  left. right. exists DrainRace.CDrain. by left.
Defined.
