(* ===== verification/Handles.v ===== *)
(** * Subscription handles (consumer_push.go, supervisor.go)

    Go's [Subscription] interface as a class, its two implementations as
    instances: the wrapper around a nats.go subscription, and the supervised
    subscription, which forwards to whichever subscription is current and is
    generic in it.  The supervising loop itself is [Supervisor.sup_step]; here is
    what a caller sees through the handle, and what a resubscription does to the
    subscriptions on the connection. *)
From S2P Require Import Prelude GoStr Validate Pressure Message Consume Admin Subscribe Supervisor.

Definition no_type : Z := -1.

(** What nats.go tells of a subscription. *)
Class NatsSub (S I : Type) := { nsub_subject : nat -> string; nsub_info : nat -> S -> res I; nsub_type : nat -> Z }.

(** ** The interface *)

Class SubscriptionApi (S X I : Type) := {
  api_unsubscribe : X -> S -> option err * X * S;
  api_drain : X -> S -> option err * X * S;
  api_valid : X -> S -> bool;
  api_subject : X -> string;
  api_limits : X -> Z -> Z -> S -> option err * S;
  api_info : X -> S -> res I;
  api_type : X -> Z
}.

(** The promise: a subscription that was unsubscribed without an error is no
    longer valid. *)
Class SubscriptionLaws (S X I : Type) `{SubscriptionApi S X I} := {
  unsubscribed_invalid x s x' s' : api_unsubscribe x s = (None, x', s') -> api_valid x' s' = false
}.

(** ** The wrapper *)
Section Wrapper.
Context {S I : Type} `{JA : JsAdmin S} `{PJ : !PushJs S} `{NS : NatsSub S I}.

Definition Subject (x : subscription) : string := match sub x with None => "" | Some id => nsub_subject id end.
Definition ConsumerInfo (x : subscription) (s : S) : res I :=
  match sub x with None => Er (Sentinel ErrInvalidSubscription) | Some id => nsub_info id s end.
Definition Type_ (x : subscription) : Z := match sub x with None => no_type | Some id => nsub_type id end.

#[export] Instance subscription_api : SubscriptionApi S subscription I := {
  api_unsubscribe := Subscribe.Unsubscribe; api_drain := Subscribe.Drain; api_valid := IsValid; api_subject := Subject;
  api_limits := SetPendingLimits; api_info := ConsumerInfo; api_type := Type_
}.

#[export] Instance subscription_laws : SubscriptionLaws S subscription I.
Proof.
  constructor. intros x s x' s'. simpl. unfold Subscribe.Unsubscribe, close_with, IsValid. destruct (sub x) as [id|] eqn:E; [|done].
  pose proof (unsubscribe_live id s) as Hl. destruct (sub_unsubscribe id s) as [e s1]. simpl in Hl. intros [= -> <- <-]. simpl.
  apply bool_decide_eq_false. rewrite Hl by done. set_solver.
Qed.
End Wrapper.

(** ** The supervised subscription *)

Record supervised (X : Type) := Supd { ssub : option X; stopOnce : bool }.
Arguments Supd {X}. Arguments ssub {X}. Arguments stopOnce {X}.

Section Supervised.
Context {S X I : Type} `{API : SubscriptionApi S X I}.

Definition invalid_subscription : option err := Some (Sentinel ErrInvalidSubscription).

(** The first [Stop] unsubscribes the current subscription; later ones do nothing. *)
Definition sup_Stop (h : supervised X) (s : S) : option err * supervised X * S :=
  if stopOnce h then (None, h, s) else
  match ssub h with
  | None => (None, Supd None true, s)
  | Some x => let '(e, x', s') := api_unsubscribe x s in (e, Supd (Some x') true, s')
  end.
Definition sup_Drain (h : supervised X) (s : S) : option err * supervised X * S :=
  match ssub h with
  | Some x => let '(e, x', s') := api_drain x s in (e, Supd (Some x') (stopOnce h), s')
  | None => (invalid_subscription, h, s)
  end.
Definition sup_IsValid (h : supervised X) (s : S) : bool := match ssub h with Some x => api_valid x s | None => false end.
Definition sup_Subject (h : supervised X) : string := match ssub h with Some x => api_subject x | None => "" end.
Definition sup_SetPendingLimits (h : supervised X) (msgLimit bytesLimit : Z) (s : S) : option err * S :=
  match ssub h with Some x => api_limits x msgLimit bytesLimit s | None => (invalid_subscription, s) end.
Definition sup_ConsumerInfo (h : supervised X) (s : S) : res I :=
  match ssub h with Some x => api_info x s | None => Er (Sentinel ErrInvalidSubscription) end.
Definition sup_Type (h : supervised X) : Z := match ssub h with Some x => api_type x | None => no_type end.

#[export] Instance supervised_api : SubscriptionApi S (supervised X) I := {
  api_unsubscribe := sup_Stop; api_drain := sup_Drain; api_valid := sup_IsValid; api_subject := sup_Subject;
  api_limits := sup_SetPendingLimits; api_info := sup_ConsumerInfo; api_type := sup_Type
}.

Context `{LAWS : !SubscriptionLaws S X I}.

(** [Stop] through the handle, over any implementation of the interface that
    keeps its promise, a supervised subscription included: the first [Stop]
    returns the current subscription's answer, and without an error the handle
    is no longer valid; a second [Stop] always reports success and does nothing,
    so when the first one failed and left the subscription valid, the retry says
    it is stopped while it still is. *)
Theorem supervised_stop h s e h1 s1 :
  stopOnce h = false -> sup_Stop h s = (e, h1, s1) ->
  (e = None -> api_valid h1 s1 = false) /\
  sup_Stop h1 s1 = (None, h1, s1) /\
  (forall x x' s', ssub h = Some x -> api_unsubscribe x s = (e, x', s') ->
     s1 = s' /\ ssub h1 = Some x' /\ api_valid h1 s1 = api_valid x' s').
Proof.
  intros Ho. unfold sup_Stop at 1. rewrite Ho. destruct (ssub h) as [x|] eqn:Eh.
  - destruct (api_unsubscribe x s) as [[e0 x'] s'] eqn:Eu. intros [= -> <- <-]. split_and!.
    + intros ->. cbn. by apply (unsubscribed_invalid x s).
    + done.
    + intros x0 x1 s2 [= <-] Hu. rewrite Eu in Hu. by simplify_eq.
  - intros [= <- <- <-]. split_and!; [done|done|]. intros x x' s' Hx. done.
Qed.

(** ** Resubscribing *)

(** The part of the supervising loop that runs when the current subscription
    was found invalid: [subscribe], then the swap, then [old.Unsubscribe()],
    whose error is ignored. *)
Definition resubscribe (subscribe : S -> res X * S) (h : supervised X) (retired : list X) (s : S)
  : option err * supervised X * list X * S :=
  match subscribe s with
  | (Er e, s1) => (Some e, h, retired, s1)
  | (Ok x, s1) =>
      let h' := Supd (Some x) (stopOnce h) in
      match ssub h with
      | None => (None, h', retired, s1)
      | Some old => let '(_, old', s2) := api_unsubscribe old s1 in (None, h', retired ++ [old'], s2)
      end
  end.

Fixpoint resubscribe_n (subscribe : S -> res X * S) (n : nat) (h : supervised X) (retired : list X) (s : S)
  : supervised X * list X * S :=
  match n with
  | O => (h, retired, s)
  | Datatypes.S n => let '(_, h', r', s') := resubscribe subscribe h retired s in resubscribe_n subscribe n h' r' s'
  end.

(** [Supervise]: the initial subscription and the machine of its loop. *)
Definition SuperviseWith (c0 : SupervisorConfig) (subscribe : S -> res X * S) (s : S)
  : res (supervised X * SupervisorConfig * sup) * S :=
  match subscribe s with
  | (Er e, s1) => (match Supervise true (Some e) c0 with Er e' => Er e' | Ok _ => Er e end, s1)
  | (Ok x, s1) => (match Supervise true None c0 with Er e => Er e | Ok (c, m) => Ok (Supd (Some x) false, c, m) end, s1)
  end.
End Supervised.

Section ClientHelpers.
Context {S I : Type} `{JA : JsAdmin S} `{PJ : !PushJs S} `{NS : NatsSub S I}.

(** The methods of the client. *)
Definition SuperviseQueueSubscribeBound (c : consumer) (stream durable queue subject : string) (cfg : SupervisorConfig) :=
  SuperviseWith cfg (QueueSubscribeBound c stream durable queue subject).
Definition SuperviseSubscribeBound (c : consumer) (stream durable subject : string) (cfg : SupervisorConfig) :=
  SuperviseWith cfg (SubscribeBound c stream durable subject).

(** A handle whose drain goroutine still waits. *)
Definition parked (x : subscription) : bool := drainCancel x && bool_decide (sub x <> None).

(** A bound subscription has a nats.go subscription and a drain goroutine. *)
Lemma QueueSubscribeBound_parked c st du q subj s x s' :
  QueueSubscribeBound c st du q subj s = (Ok x, s') -> exists id, x = Sub (Some id) true /\ Subscribe.live s' = {[id]} ∪ Subscribe.live s.
Proof.
  intros [(e & ? & _)|H]%guarded_inv; [done|]. unfold then_drain in H.
  destruct (QueueSubscribe c q subj [OBindStream st; ODurable du] s) as [[y|e] s1] eqn:E; [|done]. simplify_eq.
  apply QueueSubscribe_spec in E as (id & s2 & -> & _ & _ & Hl & _). exists id. done.
Qed.

Lemma unsubscribe_unparked x s e x' s' : Subscribe.Unsubscribe x s = (e, x', s') -> sub x <> None -> parked x' = false.
Proof.
  unfold Subscribe.Unsubscribe, close_with. destruct (sub x); [|done]. destruct (sub_unsubscribe _ s). intros [= <- <- <-] _. done.
Qed.

Lemma resubscribe_unparked c st du q subj h retired s e h' r' s' :
  resubscribe (QueueSubscribeBound c st du q subj) h retired s = (e, h', r', s') ->
  Forall (fun x => parked x = false) retired -> (exists id d, ssub h = Some (Sub (Some id) d)) ->
  Forall (fun x => parked x = false) r' /\ (exists id d, ssub h' = Some (Sub (Some id) d)).
Proof.
  unfold resubscribe. intros H HF (id & d & Hh). destruct (QueueSubscribeBound c st du q subj s) as [[x|e0] s1] eqn:E; [|simplify_eq; split; [done|by eexists _, _]].
  rewrite Hh in H. destruct (api_unsubscribe (Sub (Some id) d) s1) as [[e1 old'] s2] eqn:Eu. simplify_eq.
  apply QueueSubscribeBound_parked in E as (id' & -> & _). split; [|by exists id', true].
  apply Forall_app. split; [done|]. apply list.Forall_singleton. eapply unsubscribe_unparked; [exact Eu|done].
Qed.

Lemma resubscribe_n_unparked c st du q subj n h retired s h' r' s' :
  resubscribe_n (QueueSubscribeBound c st du q subj) n h retired s = (h', r', s') ->
  Forall (fun x => parked x = false) retired -> (exists id d, ssub h = Some (Sub (Some id) d)) ->
  Forall (fun x => parked x = false) r' /\ (exists id d, ssub h' = Some (Sub (Some id) d)).
Proof.
  revert h retired s. induction n as [|n IH]; intros h retired s H HF Hh; simpl in H; [by simplify_eq|].
  destruct (resubscribe _ h retired s) as [[[e h1] r1] s2] eqn:E.
  destruct (resubscribe_unparked _ _ _ _ _ _ _ _ _ _ _ _ E HF Hh) as [? ?]. eauto.
Qed.

(** Resubscribing leaks no goroutine.  However often a supervised bound
    subscription is replaced, successfully or not and whatever [Unsubscribe]
    answers for the old ones, no replaced subscription still has a drain
    goroutine waiting; only the current one may. *)
Theorem resubscribe_leaks_no_goroutine c st du q subj cfg s0 h c' m s1 n h' r' s' :
  SuperviseQueueSubscribeBound c st du q subj cfg s0 = (Ok (h, c', m), s1) ->
  resubscribe_n (QueueSubscribeBound c st du q subj) n h [] s1 = (h', r', s') ->
  Forall (fun x => parked x = false) r' /\ exists x, ssub h' = Some x /\ sub x <> None.
Proof.
  intros H0 H. unfold SuperviseQueueSubscribeBound, SuperviseWith in H0.
  destruct (QueueSubscribeBound c st du q subj s0) as [[x|e] s2] eqn:E; [|done].
  apply QueueSubscribeBound_parked in E as (id & -> & _).
  assert (exists id d, ssub h = Some (Sub (Some id) d)) as Hh by (simpl in H0; simplify_eq; by eexists _, _).
  destruct (resubscribe_n_unparked c st du q subj n h [] s1 h' r' s' H) as (H1 & id' & d & ->); [constructor|done|].
  split; [done|]. by eexists.
Qed.
End ClientHelpers.

(** ** Witnesses *)

#[export] Instance demo_nats_sub : NatsSub server nat := { nsub_subject _ := "orders.>"; nsub_info id _ := Ok id; nsub_type _ := 1 }.

(** A subscription that cannot be unsubscribed while the connection is down. *)
Definition down_api : SubscriptionApi unit bool nat := {|
  api_unsubscribe x s := (Some (Sentinel "nats.ErrConnectionClosed"), x, s); api_drain x s := (None, x, s); api_valid x _ := x;
  api_subject _ := ""; api_limits _ _ _ s := (None, s); api_info _ _ := Ok 0%nat; api_type _ := 1 |}.
#[local] Instance down_laws : SubscriptionLaws unit bool nat (H := down_api).
Proof. constructor. done. Qed.

Lemma supervised_stop_witness :
  let h1 := Supd (Some true) true in
  sup_Stop (API := down_api) (Supd (Some true) false) tt = (Some (Sentinel "nats.ErrConnectionClosed"), h1, tt) /\
  sup_Stop (API := down_api) h1 tt = (None, h1, tt) /\ sup_IsValid (API := down_api) h1 tt = true.
Proof.
  split; [reflexivity|]. split; [|reflexivity].
  exact (proj1 (proj2 (supervised_stop (API := down_api) (Supd (Some true) false) tt _ (Supd (Some true) true) tt eq_refl eq_refl))).
Defined.

Definition orders_worker : res (supervised subscription * SupervisorConfig * sup) * server :=
  SuperviseQueueSubscribeBound default_consumer "ORDERS" "worker" "workers" "orders.>" (SupCfg 0 0 0 0 0 0) empty_server.
Definition orders_after_three : supervised subscription * list subscription * server :=
  match orders_worker with
  | (Ok (h, _, _), s) => resubscribe_n (QueueSubscribeBound default_consumer "ORDERS" "worker" "workers" "orders.>") 3 h [] s
  | (Er _, s) => (Supd None false, [], s)
  end.
Lemma resubscribe_leaks_no_goroutine_witness :
  length orders_after_three.1.2 = 3%nat /\ Forall (fun x => parked x = false) orders_after_three.1.2.
Proof.
  split; [vm_compute; reflexivity|].
  destruct orders_worker as [[[[h c'] m]|e] s1] eqn:E; [|vm_compute in E; discriminate].
  destruct orders_after_three as [[h' r'] s'] eqn:E3. unfold orders_after_three in E3. rewrite E in E3.
  exact (proj1 (resubscribe_leaks_no_goroutine default_consumer "ORDERS" "worker" "workers" "orders.>" (SupCfg 0 0 0 0 0 0) empty_server
    h c' m s1 3 h' r' s' E E3)).
Defined.
