(* ===== verification/Setup.v ===== *)
(** * One-shot worker set-up (setup.go)

    [SetupWorker] provisions the stream, subscribes (for several filters after
    creating the durable), and merges the requested settings into the durable's
    configuration.  [ctx k] is the context as the [k]-th call sees it, [inbox]
    the result of [NewInbox]. *)
From S2P Require Import Prelude GoStr Validate Pressure Message Consume Admin Subscribe.

Record WorkerSetup := Setup_ { wsQueue : string; wsSubject : string; wsStream : StreamConfig; wsConsumer : DurableConsumerConfig }.

Fixpoint equalStringSlices (a b : list string) : bool :=
  match a, b with
  | [], [] => true
  | x :: a', y :: b' => String.eqb x y && equalStringSlices a' b'
  | _, _ => false
  end.

(** ** Merging the requested settings *)

(** [if want && cur != new { cur = new; updated = true }]. *)
Definition merge_field {A} `{EqDecision A} (want : bool) (new cur : A) : A * bool :=
  if want && bool_decide (cur <> new) then (new, true) else (cur, false).

(** The loop over [setup.Consumer.Metadata]; a missing key reads as the empty string. *)
Definition merge_meta (req cur : gmap string string) : gmap string string * bool :=
  map_fold (fun k v '(m, u) => if decide (default "" (m !! k) = v) then (m, u) else (<[k := v]> m, true)) (cur, false) req.

Definition merge_filters (c : DurableConsumerConfig) (subject : string) (cc : ConsumerConfig) : string * list string * bool :=
  if negb (bool_decide (dFilterSubjects c = [])) then
    if equalStringSlices (ccFilterSubjects cc) (dFilterSubjects c)
    then (ccFilterSubject cc, ccFilterSubjects cc, false) else ("", dFilterSubjects c, true)
  else if negb (IsEmpty subject) && negb (String.eqb (ccFilterSubject cc) subject) && bool_decide (ccFilterSubjects cc = [])
       then (subject, ccFilterSubjects cc, true) else (ccFilterSubject cc, ccFilterSubjects cc, false).

(** The configuration [applySetupDurableConfig] computes, and whether it differs. *)
Definition merge_setup (c : DurableConsumerConfig) (subject : string) (cc : ConsumerConfig) : res (ConsumerConfig * bool) :=
  let '(maxDeliver, u1) := merge_field (0 <? dMaxDeliver c) (dMaxDeliver c) (ccMaxDeliver cc) in
  let '(rateLimit, u2) := merge_field (0 <? dRateLimit c) (dRateLimit c) (ccRateLimit cc) in
  let '(inactive, u3) := merge_field (0 <? dInactiveThreshold c) (dInactiveThreshold c) (ccInactiveThreshold cc) in
  let '(replicas, u4) := merge_field (0 <? dReplicas c) (dReplicas c) (ccReplicas cc) in
  let '(mem, u5) := merge_field (dMemStorage c) true (ccMemoryStorage cc) in
  let '(meta, u6) := merge_meta (dMetadata c) (ccMetadata cc) in
  let '(maxAck, u7) := merge_field (0 <? dMaxAckPending c) (dMaxAckPending c) (ccMaxAckPending cc) in
  let '(ackWait, u8) := merge_field (0 <? dAckWait c) (dAckWait c) (ccAckWait cc) in
  let '(heartbeat, u9) := merge_field (0 <? dHeartbeat c) (dHeartbeat c) (ccHeartbeat cc) in
  let '(maxWaiting, u10) := merge_field (0 <? dMaxWaiting c) (dMaxWaiting c) (ccMaxWaiting cc) in
  let '(ackPolicy, u11) := merge_field (dHasAckPolicy c) (dAckPolicy c) (ccAckPolicy cc) in
  let '(replayPolicy, u12) := merge_field (dHasReplayPolicy c) (dReplayPolicy c) (ccReplayPolicy cc) in
  if dHasDeliverPolicy c && negb (ccDeliverPolicy cc =? dDeliverPolicy c)
  then Er (wrapf "setup worker durable=%q: %w (deliver policy)" (Sentinel ErrConsumerRecreateRequired))
  else
    let '(filter, filters, u13) := merge_filters c subject cc in
    Ok (CConf (ccDurable cc) filter filters (ccDeliverSubject cc) (ccDeliverGroup cc) (ccDeliverPolicy cc) replayPolicy
          ackPolicy maxDeliver ackWait maxAck rateLimit heartbeat inactive (ccFlowControl cc) replicas mem maxWaiting
          (ccOptStartSeq cc) (ccOptStartTime cc) meta (ccOther cc),
        u1 || u2 || u3 || u4 || u5 || u6 || u7 || u8 || u9 || u10 || u11 || u12 || u13).

Definition setupWorkerSubOpts (d : DurableConsumerConfig) (rc : RuntimeConsumerConfig) (bp : BackpressureConfig) : list SubOpt :=
  let ackWait := if dAckWait d <=? 0 then AckWait rc else dAckWait d in
  let maxAck := if dMaxAckPending d <=? 0 then bpMaxAckPending bp else dMaxAckPending d in
  (if 0 <? ackWait then [OAckWait ackWait] else []) ++ (if 0 <? maxAck then [OMaxAckPending maxAck] else []).

Definition is_multi (setup : WorkerSetup) : bool := negb (bool_decide (dFilterSubjects (wsConsumer setup) = [])).

Definition setup_checks (w : WorkerSetup) : list (option err) :=
  [wrap_check "setup worker stream=%q: %w" (ValidateStreamName (scName (wsStream w)));
   wrap_check "setup worker durable=%q: %w" (ValidateDurableName (dDurable (wsConsumer w)));
   wrap_check "setup worker queue=%q: %w" (ValidateQueueName (wsQueue w))] ++
  if is_multi w then
    [wrap_check "setup worker filter subjects: %w" (ValidateSubjects (dFilterSubjects (wsConsumer w)));
     if IsEmpty (dFilterSubject (wsConsumer w)) then None
     else Some (errorf "setup worker: use FilterSubject or FilterSubjects, not both");
     if IsEmpty (wsSubject w) then None else wrap_check "setup worker subject=%q: %w" (ValidateSubject (wsSubject w))]
  else
    [wrap_check "setup worker subject=%q: %w" (ValidateSubject (wsSubject w));
     if negb (IsEmpty (dFilterSubject (wsConsumer w))) && negb (String.eqb (dFilterSubject (wsConsumer w)) (wsSubject w))
     then Some (errorf "setup worker: Consumer.FilterSubject %q must equal Subject %q") else None].

(** The durable [setupWorkerMultiFilter] creates. *)
Definition multi_durable (inbox : string) (rc : RuntimeConsumerConfig) (bp : BackpressureConfig) (w : WorkerSetup) : DurableConsumerConfig :=
  let c := wsConsumer w in
  Durable_ (dOptStartTime c) (dMetadata c) (dDurable c) (dFilterSubject c) (dFilterSubjects c)
    (if IsEmpty (dDeliverSubject c) then inbox else dDeliverSubject c)
    (if IsEmpty (dDeliverGroup c) then wsQueue w else dDeliverGroup c)
    (dDeliverPolicy c) (dReplayPolicy c) (dAckPolicy c) (dMaxDeliver c)
    (if dAckWait c <=? 0 then AckWait rc else dAckWait c)
    (if dMaxAckPending c <=? 0 then bpMaxAckPending bp else dMaxAckPending c)
    (dRateLimit c) (dHeartbeat c) (dInactiveThreshold c) (dReplicas c) (dMaxWaiting c) (dOptStartSeq c)
    (dFlowControl c) (dMemStorage c) (dHasAckPolicy c) (dHasDeliverPolicy c) (dHasReplayPolicy c).

Section Setup.
Context {S : Type} `{JA : JsAdmin S} `{PJ : !PushJs S}.
Variables (rc : RuntimeConsumerConfig) (bp : BackpressureConfig) (c : consumer).

Definition applySetupDurableConfig (ctx : nat -> Ctx) (w : WorkerSetup) (s : S) : option err * S :=
  let stream := scName (wsStream w) in
  match ConsumerInfo (ctx 2%nat) stream (dDurable (wsConsumer w)) s with
  | Er e => (Some (wrapf "setup worker consumer info stream=%q durable=%q: %w" e), s)
  | Ok cc =>
      match merge_setup (wsConsumer w) (wsSubject w) cc with
      | Er e => (Some e, s)
      | Ok (_, false) => (None, s)
      | Ok (cc', true) =>
          match UpdateConsumer (ctx 3%nat) stream (Some cc') s with
          | (Er e, s') => (Some (wrapf "setup worker update consumer stream=%q durable=%q: %w" e), s')
          | (Ok _, s') => (None, s')
          end
      end
  end.

(** After subscribing: bring the durable in line, and undo the subscription if that fails. *)
Definition finish_setup (ctx : nat -> Ctx) (msg : string) (w : WorkerSetup) (r : res subscription * S) : res subscription * S :=
  match r with
  | (Er e, s1) => (Er (wrapf msg e), s1)
  | (Ok x, s1) =>
      match applySetupDurableConfig ctx w s1 with
      | (Some e, s2) => let '(_, _, s3) := Unsubscribe x s2 in (Er e, s3)
      | (None, s2) => (Ok (drainOnCancel x), s2)
      end
  end.

Definition setupWorkerMultiFilter (ctx : nat -> Ctx) (inbox : string) (w : WorkerSetup) (s : S) : res subscription * S :=
  let cfg := multi_durable inbox rc bp w in
  match CreateOrUpdateConsumer (ctx 1%nat) (scName (wsStream w)) cfg s with
  | (Er e, s1) => (Er (wrapf "setup worker create multi-filter durable=%q: %w" e), s1)
  | (Ok _, s1) =>
      finish_setup ctx "setup worker bind multi-filter stream=%q durable=%q queue=%q: %w" w
        (QueueSubscribe c (wsQueue w) (dDeliverSubject cfg) [OBind (scName (wsStream w)) (dDurable (wsConsumer w))] s1)
  end.

Definition single_opts (w : WorkerSetup) : list SubOpt :=
  setupWorkerSubOpts (wsConsumer w) rc bp ++ [OBindStream (scName (wsStream w)); ODurable (dDurable (wsConsumer w))].

Definition SetupWorker (ctx : nat -> Ctx) (inbox : string) (w : WorkerSetup) : S -> res subscription * S :=
  guarded (setup_checks w) (fun s =>
    match CreateOrUpdateStream (ctx 0%nat) (wsStream w) s with
    | (Er e, s1) => (Er (wrapf "setup worker create stream=%q: %w" e), s1)
    | (Ok _, s1) =>
        if is_multi w then setupWorkerMultiFilter ctx inbox w s1
        else finish_setup ctx "setup worker subscribe stream=%q durable=%q queue=%q subject=%q: %w" w
               (QueueSubscribe c (wsQueue w) (wsSubject w) (single_opts w) s1)
    end).

End Setup.

(** ** Merging: lemmas *)

Definition pick {A} (want : bool) (new cur : A) : A := if want then new else cur.

Lemma merge_field_pair {A} `{EqDecision A} w (n c : A) : merge_field w n c = (pick w n c, bool_decide (pick w n c <> c)).
Proof.
  unfold merge_field, pick. destruct w; simpl; [|by rewrite bool_decide_false by auto].
  case_bool_decide as E; [by rewrite bool_decide_true by auto|].
  subst. by rewrite bool_decide_false by auto.
Qed.

Lemma equalStringSlices_eq a b : equalStringSlices a b = true <-> a = b.
Proof.
  revert b. induction a as [|x a IH]; intros [|y b]; simpl; try done.
  rewrite andb_true_iff, String.eqb_eq, IH. split; [by intros [-> ->]|by intros [= -> ->]].
Qed.

(** The metadata after the loop, by key. *)
Definition overlay_at (req cur : gmap string string) (k : string) : option string :=
  match req !! k with
  | Some v => if decide (default "" (cur !! k) = v) then cur !! k else Some v
  | None => cur !! k
  end.

Lemma merge_meta_spec req cur :
  (forall k, (merge_meta req cur).1 !! k = overlay_at req cur k) /\
  ((merge_meta req cur).2 = false <-> (forall k v, req !! k = Some v -> default "" (cur !! k) = v)).
Proof.
  unfold merge_meta.
  apply (map_fold_weak_ind (fun r req => (forall k, r.1 !! k = overlay_at req cur k) /\
    (r.2 = false <-> (forall k v, req !! k = Some v -> default "" (cur !! k) = v)))).
  - split; [done|]. split; [intros _ k v; by rewrite lookup_empty|done].
  - intros i x m [m' u] Hi [H1 H2]. simpl in *.
    assert (m' !! i = cur !! i) as Hm by (rewrite H1; unfold overlay_at; by rewrite Hi).
    rewrite Hm. split.
    + intros k. unfold overlay_at. destruct (decide (i = k)) as [->|Hne].
      * rewrite lookup_insert_eq. case_decide; simpl; [done|]. by rewrite lookup_insert_eq.
      * rewrite lookup_insert_ne by done. case_decide; simpl; rewrite ?lookup_insert_ne by done; apply H1.
    + case_decide as E; simpl.
      * rewrite H2. split.
        -- intros H k v. destruct (decide (i = k)) as [->|Hne]; [rewrite lookup_insert_eq; congruence|].
           rewrite lookup_insert_ne by done. apply H.
        -- intros H k v Hk. apply H. rewrite lookup_insert_ne; [done|]. congruence.
      * split; [done|]. intros H. specialize (H i x). rewrite lookup_insert_eq in H. by destruct E; apply H.
Qed.

Lemma merge_meta_flag req cur : (merge_meta req cur).2 = false <-> (merge_meta req cur).1 = cur.
Proof.
  destruct (merge_meta_spec req cur) as [H1 H2]. rewrite H2. split.
  - intros H. apply map_eq. intros k. rewrite H1. unfold overlay_at. destruct (req !! k) as [v|] eqn:E; [|done].
    by rewrite decide_True by eauto.
  - intros H k v Hk. specialize (H1 k). rewrite H in H1. unfold overlay_at in H1. rewrite Hk in H1.
    case_decide; [done|]. by rewrite H1.
Qed.

Lemma merge_meta_idem req cur : merge_meta req (merge_meta req cur).1 = ((merge_meta req cur).1, false).
Proof.
  set (m := (merge_meta req cur).1). rewrite (surjective_pairing (merge_meta req m)).
  assert ((merge_meta req m).2 = false) as Hf.
  { apply merge_meta_spec. intros k v Hk. unfold m. rewrite (proj1 (merge_meta_spec req cur)). unfold overlay_at.
    rewrite Hk. by case_decide. }
  rewrite Hf. f_equal. by apply merge_meta_flag.
Qed.

(** The filters after the merge: several requested filters replace what is
    there; a single subject replaces a single filter only. *)
Lemma merge_filters_spec d subj cc f fs u : merge_filters d subj cc = (f, fs, u) ->
  (u = false <-> f = ccFilterSubject cc /\ fs = ccFilterSubjects cc) /\
  (dFilterSubjects d <> [] -> fs = dFilterSubjects d) /\
  (dFilterSubjects d = [] -> fs = ccFilterSubjects cc /\
     (f = if negb (IsEmpty subj) && bool_decide (ccFilterSubjects cc = []) then subj else ccFilterSubject cc)).
Proof.
  unfold merge_filters. destruct (bool_decide (dFilterSubjects d = [])) eqn:E; simpl.
  - apply bool_decide_eq_true in E. destruct (IsEmpty subj); simpl; [intros [= <- <- <-]; naive_solver|].
    destruct (String.eqb_spec (ccFilterSubject cc) subj) as [Es|Es]; simpl;
      destruct (bool_decide (ccFilterSubjects cc = [])); intros [= <- <- <-]; naive_solver.
  - apply bool_decide_eq_false in E. destruct (equalStringSlices _ _) eqn:Eq; intros [= <- <- <-].
    + apply equalStringSlices_eq in Eq. naive_solver.
    + assert (ccFilterSubjects cc <> dFilterSubjects d) by (intros H; by apply equalStringSlices_eq in H; congruence).
      naive_solver.
Qed.

(** The scalar settings after the merge. *)
Definition scalars_merged (d : DurableConsumerConfig) (cc cc' : ConsumerConfig) : Prop :=
  ccMaxDeliver cc' = pick (0 <? dMaxDeliver d) (dMaxDeliver d) (ccMaxDeliver cc) /\
  ccRateLimit cc' = pick (0 <? dRateLimit d) (dRateLimit d) (ccRateLimit cc) /\
  ccInactiveThreshold cc' = pick (0 <? dInactiveThreshold d) (dInactiveThreshold d) (ccInactiveThreshold cc) /\
  ccReplicas cc' = pick (0 <? dReplicas d) (dReplicas d) (ccReplicas cc) /\
  ccMemoryStorage cc' = pick (dMemStorage d) true (ccMemoryStorage cc) /\
  ccMaxAckPending cc' = pick (0 <? dMaxAckPending d) (dMaxAckPending d) (ccMaxAckPending cc) /\
  ccAckWait cc' = pick (0 <? dAckWait d) (dAckWait d) (ccAckWait cc) /\
  ccHeartbeat cc' = pick (0 <? dHeartbeat d) (dHeartbeat d) (ccHeartbeat cc) /\
  ccMaxWaiting cc' = pick (0 <? dMaxWaiting d) (dMaxWaiting d) (ccMaxWaiting cc) /\
  ccAckPolicy cc' = pick (dHasAckPolicy d) (dAckPolicy d) (ccAckPolicy cc) /\
  ccReplayPolicy cc' = pick (dHasReplayPolicy d) (dReplayPolicy d) (ccReplayPolicy cc).

(** What the merge never touches. *)
Definition placement_kept (cc cc' : ConsumerConfig) : Prop :=
  ccDurable cc' = ccDurable cc /\ ccDeliverSubject cc' = ccDeliverSubject cc /\ ccDeliverGroup cc' = ccDeliverGroup cc /\
  ccDeliverPolicy cc' = ccDeliverPolicy cc /\ ccFlowControl cc' = ccFlowControl cc /\
  ccOptStartSeq cc' = ccOptStartSeq cc /\ ccOptStartTime cc' = ccOptStartTime cc /\ ccOther cc' = ccOther cc.

Lemma merge_setup_inv d subj cc cc' u : merge_setup d subj cc = Ok (cc', u) ->
  scalars_merged d cc cc' /\ placement_kept cc cc' /\ ccMetadata cc' = (merge_meta (dMetadata d) (ccMetadata cc)).1 /\
  (exists v, merge_filters d subj cc = (ccFilterSubject cc', ccFilterSubjects cc', v)) /\
  (u = false <-> cc' = cc) /\
  (dHasDeliverPolicy d && negb (ccDeliverPolicy cc =? dDeliverPolicy d) = false).
Proof.
  unfold merge_setup. rewrite !merge_field_pair. cbv beta iota zeta.
  pose proof (merge_meta_flag (dMetadata d) (ccMetadata cc)) as Hm.
  destruct (merge_meta _ _) as [meta um]. simpl in Hm. destruct (_ && negb _) eqn:Ed; [done|].
  destruct (merge_filters d subj cc) as [[f fs] uf] eqn:Ef.
  destruct (merge_filters_spec _ _ _ _ _ _ Ef) as (Hf & _ & _).
  intros [= <- <-]. unfold scalars_merged, placement_kept. simpl.
  split_and!; try done; [eauto|].
  rewrite !orb_false_iff, !bool_decide_eq_false, Hm, Hf. destruct cc. simpl in *. split.
  - intros H. destruct_and!. repeat match goal with H : ¬ ¬ _ |- _ => apply dec_stable in H end.
    f_equal; assumption.
  - intros [=]. subst. split_and!; try (intros Hc; apply Hc; congruence); congruence.
Qed.

Lemma scalars_merged_idem d cc cc' : scalars_merged d cc cc' -> scalars_merged d cc' cc'.
Proof.
  unfold scalars_merged, pick. intros H. destruct_and!. split_and!;
    match goal with |- ?x = if ?b then _ else _ => destruct b; done end.
Qed.

Lemma merge_filters_idem d subj cc cc' v :
  merge_filters d subj cc = (ccFilterSubject cc', ccFilterSubjects cc', v) ->
  merge_filters d subj cc' = (ccFilterSubject cc', ccFilterSubjects cc', false).
Proof.
  intros (H0 & H1 & H2)%merge_filters_spec. unfold merge_filters.
  destruct (bool_decide (dFilterSubjects d = [])) eqn:E; simpl.
  - apply bool_decide_eq_true in E. destruct (H2 E) as [Hfs Hf]. rewrite Hfs. rewrite Hf at 1.
    destruct (IsEmpty subj); simpl; [done|]. destruct (bool_decide (ccFilterSubjects cc = [])); simpl;
      [by rewrite String.eqb_refl|by rewrite andb_false_r].
  - apply bool_decide_eq_false in E. by rewrite (proj2 (equalStringSlices_eq _ _) (H1 E)).
Qed.

(** Merging a worker's settings into its durable.  Every setting that was
    requested (a positive number, a set flag, a policy marked as set) holds in
    the result and every other keeps its value; requested metadata is laid over
    the existing one, an empty value for a missing key aside; several filters
    replace the existing ones, a single subject replaces a single filter only;
    name, delivery and start position never change.  The update flag is exact,
    so no update is sent when nothing differs, and merging again changes
    nothing. *)
Theorem setup_merge_spec d subj cc cc' u :
  merge_setup d subj cc = Ok (cc', u) ->
  scalars_merged d cc cc' /\ placement_kept cc cc' /\
  (forall k, ccMetadata cc' !! k = overlay_at (dMetadata d) (ccMetadata cc) k) /\
  (dFilterSubjects d <> [] -> ccFilterSubjects cc' = dFilterSubjects d) /\
  (dFilterSubjects d = [] -> ccFilterSubjects cc' = ccFilterSubjects cc /\
     ccFilterSubject cc' = if negb (IsEmpty subj) && bool_decide (ccFilterSubjects cc = []) then subj else ccFilterSubject cc) /\
  (u = false <-> cc' = cc) /\ merge_setup d subj cc' = Ok (cc', false).
Proof.
  intros (Hs & Hp & Hm & (v & Hf) & Hu & Hd)%merge_setup_inv.
  destruct (merge_filters_spec _ _ _ _ _ _ Hf) as (_ & Hf1 & Hf2). split_and!; try done.
  - intros k. rewrite Hm. apply merge_meta_spec.
  - assert (exists cc'' u', merge_setup d subj cc' = Ok (cc'', u')) as (cc'' & u' & E).
    { unfold merge_setup. rewrite !merge_field_pair. cbv beta iota zeta.
      destruct (merge_meta _ (ccMetadata cc')), (merge_filters _ _ cc') as [[? ?] ?].
      assert (ccDeliverPolicy cc' = ccDeliverPolicy cc) as -> by apply Hp. rewrite Hd. eexists _, _. reflexivity. }
    rewrite E. pose proof E as (Hs' & Hp' & Hm' & (v' & Hf') & Hu' & _)%merge_setup_inv.
    assert (cc'' = cc') as ->.
    { rewrite (merge_filters_idem _ _ _ _ _ Hf) in Hf'. rewrite Hm, merge_meta_idem, <- Hm in Hm'. simpl in Hm'.
      apply scalars_merged_idem in Hs. unfold scalars_merged, placement_kept in *.
      clear - Hs Hs' Hp' Hm' Hf'. destruct cc', cc''; simpl in *. destruct_and!. simplify_eq. f_equal; congruence. }
    do 2 f_equal. by apply Hu'.
Qed.

(** ** The whole set-up *)

Section SetupProps.
Context {S : Type} `{JA : JsAdmin S} `{PJ : !PushJs S}.
Variables (rc : RuntimeConsumerConfig) (bp : BackpressureConfig) (c : consumer).

Lemma CreateOrUpdateStream_live x cfg (s : S) : live (CreateOrUpdateStream x cfg s).2 = live s.
Proof.
  unfold CreateOrUpdateStream. apply (guarded_keeps (fun s' => live s' = live s)); [done|].
  unfold upsert_stream. set (c0 := if _ =? 0 then _ else _).
  pose proof (add_stream_live c0 s) as Ha. destruct (js_add_stream c0 s) as [[i|e] s1]; simpl in Ha; [done|].
  match goal with |- context [js_update_stream ?u s1] => pose proof (update_stream_live u s1) as Hu;
    destruct (js_update_stream u s1) as [[i|e'] s2] end; simpl in *; congruence.
Qed.

Lemma CreateOrUpdateConsumer_live x st cfg (s : S) : live (CreateOrUpdateConsumer x st cfg s).2 = live s.
Proof.
  unfold CreateOrUpdateConsumer. apply (guarded_keeps (fun s' => live s' = live s)); [done|].
  unfold upsert_consumer. pose proof (add_consumer_live st (toNatsConsumerConfig cfg) s) as Ha.
  destruct (js_add_consumer _ _ s) as [[i|e] s1]; simpl in Ha; [done|].
  destruct (js_consumer_info _ _ s1); [|done]. destruct (negb _); [done|].
  match goal with |- context [js_update_consumer ?a ?u s1] => pose proof (update_consumer_live a u s1) as Hu;
    destruct (js_update_consumer a u s1) as [[i|e'] s2] end; simpl in *; congruence.
Qed.

Lemma UpdateConsumer_live x st cc (s : S) : live (UpdateConsumer x st (Some cc) s).2 = live s.
Proof.
  unfold UpdateConsumer.
  match goal with |- live (guarded ?l ?k s).2 = _ => destruct (guarded_cases l k s) as [(e & _ & ->)|[_ ->]]; [done|] end.
  apply (guarded_keeps (fun s' => live s' = live s)); [done|]. unfold wrapped.
  pose proof (update_consumer_live st cc s). by destruct (js_update_consumer st cc s) as [[]].
Qed.

Lemma apply_live ctx w (s : S) : live (applySetupDurableConfig ctx w s).2 = live s.
Proof.
  unfold applySetupDurableConfig. destruct (ConsumerInfo _ _ _ s); [|done].
  destruct (merge_setup _ _ _) as [[cc' []]|]; try done.
  pose proof (UpdateConsumer_live (ctx 3%nat) (scName (wsStream w)) cc' s) as H.
  by destruct (UpdateConsumer _ _ _ s) as [[]].
Qed.

Lemma finish_setup_live ctx msg w q subj opts (s : S) r s' :
  (forall id s, (sub_unsubscribe id s).1 = None) ->
  finish_setup ctx msg w (QueueSubscribe c q subj opts s) = (r, s') ->
  match r with
  | Er _ => live s' = live s
  | Ok x => exists id, x = Sub (Some id) true /\ id ∉ live s /\ live s' = {[id]} ∪ live s
  end.
Proof.
  intros Hu H. destruct (QueueSubscribe c q subj opts s) as [r1 s1] eqn:Eq.
  apply QueueSubscribe_spec in Eq. destruct r1 as [x|e]; simpl in H; simplify_eq; [|done].
  destruct Eq as (id & s0 & -> & _ & Hid & Hl & _). pose proof (apply_live ctx w s1) as Ha.
  destruct (applySetupDurableConfig ctx w s1) as [[e|] s2]; simpl in H, Ha.
  - unfold Unsubscribe, close_with in H. simpl in H.
    pose proof (unsubscribe_live id s2 (Hu id s2)) as Hun. destruct (sub_unsubscribe id s2) as [o s3].
    simpl in Hun. simplify_eq. rewrite Hun, Ha, Hl. set_solver.
  - simplify_eq. exists id. split_and!; [done|done|congruence].
Qed.

(** C20: a worker set-up leaks no subscription.  Whatever fails (validation, the
    stream, the durable, the subscription, reading or updating the durable's
    configuration), an error leaves the live subscriptions as they were, as
    long as unsubscribing works; on success exactly one subscription is added,
    it is the returned one, and it is drained when the context is cancelled. *)
Theorem setup_no_leak ctx inbox w (s : S) r s' :
  (forall id s, (sub_unsubscribe id s).1 = None) ->
  SetupWorker rc bp c ctx inbox w s = (r, s') ->
  match r with
  | Er _ => live s' = live s
  | Ok x => exists id, x = Sub (Some id) true /\ id ∉ live s /\ live s' = {[id]} ∪ live s
  end.
Proof.
  intros Hu [(e & -> & ->)|H]%guarded_inv; [done|].
  pose proof (CreateOrUpdateStream_live (ctx 0%nat) (wsStream w) s) as Hs.
  destruct (CreateOrUpdateStream _ _ s) as [[i|e] s1]; simpl in Hs; [|by simplify_eq].
  destruct (is_multi w).
  - unfold setupWorkerMultiFilter in H.
    pose proof (CreateOrUpdateConsumer_live (ctx 1%nat) (scName (wsStream w)) (multi_durable inbox rc bp w) s1) as Hc.
    destruct (CreateOrUpdateConsumer _ _ _ s1) as [[i'|e'] s2]; simpl in Hc; [|simplify_eq; congruence].
    apply finish_setup_live in H; [|done]. by rewrite Hc, Hs in H.
  - apply finish_setup_live in H; [|done]. by rewrite Hs in H.
Qed.

Lemma not_ok_er {T} (r : res T * S) : (forall x s', r = (Ok x, s') -> False) -> exists e, r.1 = Er e.
Proof. destruct r as [[x|e] s']; [intros H; by destruct (H x s')|eauto]. Qed.

(** The bound durable of a single-filter set-up, and the wait it asks for. *)
Lemma single_request w : 0 < AckWait (cfg c) ->
  rStream (effective (appendConsumerOpts c (single_opts rc bp w) true)) = scName (wsStream w) /\
  rDurable (effective (appendConsumerOpts c (single_opts rc bp w) true)) = dDurable (wsConsumer w) /\
  rAckWait (effective (appendConsumerOpts c (single_opts rc bp w) true)) = AckWait (cfg c).
Proof.
  intros Hw. destruct (effective_append c (single_opts rc bp w) true Hw) as (H1 & -> & ->).
  split_and!; [..|done]; unfold single_opts, effective; by rewrite foldl_app.
Qed.

(** A single-filter set-up that succeeds has subscribed and merged. *)
Lemma single_inv ctx inbox w (s : S) x s' :
  SetupWorker rc bp c ctx inbox w s = (Ok x, s') -> is_multi w = false ->
  exists s1 s2 s3 id, consumers s1 = consumers s /\
    js_subscribe (wsSubject w) (Some (wsQueue w)) (appendConsumerOpts c (single_opts rc bp w) true) s1 = (Ok id, s2) /\
    consumers s3 = consumers s2 /\ applySetupDurableConfig ctx w s3 = (None, s') /\
    ValidateStreamName (scName (wsStream w)) = None /\ ValidateDurableName (dDurable (wsConsumer w)) = None.
Proof.
  unfold SetupWorker. intros H Hm.
  match type of H with guarded ?l ?k s = _ => destruct (guarded_cases l k s) as [(e & _ & E)|[Hc E]]; rewrite E in H; [done|] end.
  pose proof (CreateOrUpdateStream_frame (ctx 0%nat) (wsStream w) s) as Hs.
  destruct (CreateOrUpdateStream _ _ s) as [[i|e] s1]; simpl in Hs; [|done]. rewrite Hm in H.
  unfold finish_setup in H. destruct (QueueSubscribe c _ _ _ s1) as [[y|e] s3] eqn:Eq; [|done].
  apply QueueSubscribe_spec in Eq as (id & s2 & -> & Hj & _ & _ & Hcs).
  destruct (applySetupDurableConfig ctx w s3) as [[e|] s4] eqn:Ea.
  { destruct (Unsubscribe _ s4) as [[? ?] ?]. done. }
  simplify_eq. exists s1, s2, s3, id. unfold setup_checks in Hc.
  apply Forall_app in Hc as [Hc _]. inversion Hc as [|? ? H1 Hc']; subst. inversion Hc' as [|? ? H2 _]; subst.
  split_and!; try done; [by destruct (ValidateStreamName _)|by destruct (ValidateDurableName _)].
Qed.

(** A worker cannot be set up on a new durable with a deliver policy other
    than "all": the subscribe call creates the durable without the requested
    policy, the comparison that follows finds the difference and the set-up
    fails with the durable left behind. *)
Theorem setup_deliver_policy_refused ctx inbox w (s : S) :
  0 < AckWait (cfg c) -> is_multi w = false ->
  dHasDeliverPolicy (wsConsumer w) = true -> dDeliverPolicy (wsConsumer w) <> DeliverAll ->
  consumers s !! (scName (wsStream w), dDurable (wsConsumer w)) = None ->
  scName (wsStream w) <> "" -> dDurable (wsConsumer w) <> "" ->
  exists e, (SetupWorker rc bp c ctx inbox w s).1 = Er e.
Proof.
  intros Hw Hm Hp Hne Habs Hst Hdu. apply not_ok_er. intros x s' H. apply single_inv in H as (s1 & s2 & s3 & id & H1 & Hj & H3 & Ha & _); [|done].
  destruct (single_request w Hw) as (R1 & R2 & R3).
  pose proof (subscribe_creates (wsSubject w) (Some (wsQueue w)) (appendConsumerOpts c (single_opts rc bp w) true) s1 id) as Hc.
  rewrite R1, R2, Hj, H1 in Hc. destruct (Hc eq_refl Hst Hdu Habs) as (cc & Hcc & Hall). simpl in Hcc. unfold applySetupDurableConfig in Ha.
  destruct (ConsumerInfo _ _ _ s3) as [i|] eqn:Ei; [|done]. apply ConsumerInfo_ok, info_ok in Ei as [Ei _].
  rewrite H3, Hcc in Ei. simplify_eq. destruct (merge_setup _ _ i) as [[cc' u]|] eqn:Em; [|done].
  apply merge_setup_inv in Em as (_ & _ & _ & _ & _ & Hd). rewrite Hp, Hall, andb_true_l in Hd.
  apply negb_false_iff, Z.eqb_eq in Hd. congruence.
Qed.

(** The acknowledgement wait of a set-up is overridden.  The subscribe call
    always carries the client's own wait last, so a set-up against an existing
    durable whose wait is another one is refused, even when the set-up asks for
    exactly the durable's wait. *)
Theorem setup_ack_wait_conflict ctx inbox w (s : S) cc :
  0 < AckWait (cfg c) -> is_multi w = false ->
  consumers s !! (scName (wsStream w), dDurable (wsConsumer w)) = Some cc -> ccAckWait cc <> AckWait (cfg c) ->
  exists e, (SetupWorker rc bp c ctx inbox w s).1 = Er e.
Proof.
  intros Hw Hm Hcc Hne. apply not_ok_er. intros x s' H. apply single_inv in H as (s1 & s2 & s3 & id & H1 & Hj & _); [|done].
  destruct (single_request w Hw) as (R1 & R2 & R3).
  pose proof (subscribe_existing (wsSubject w) (Some (wsQueue w)) (appendConsumerOpts c (single_opts rc bp w) true) s1 id cc) as Hc.
  rewrite R1, R2, R3, Hj, H1 in Hc. destruct (Hc eq_refl Hcc) as [_ E]. by apply Hne, E.
Qed.

End SetupProps.

(** ** Witnesses *)

Definition ctx_fine : nat -> Ctx := fun _ => background.
Definition rt_cfg : RuntimeConsumerConfig := cfg default_consumer.
Definition bp_cfg : BackpressureConfig := backpressure default_consumer.
Definition worker_durable (ackWait deliver : Z) (has : bool) : DurableConsumerConfig :=
  Durable_ None {[ "team" := "billing" ]} "worker" "" [] "" "" deliver 0 0 5 ackWait 0 0 0 0 0 0 0 false false false has false.
Definition worker_setup (ackWait deliver : Z) (has : bool) : WorkerSetup :=
  Setup_ "workers" "orders.created" orders_stream (worker_durable ackWait deliver has).
Definition run_setup (w : WorkerSetup) (s : server) : res subscription * server :=
  SetupWorker rt_cfg bp_cfg default_consumer ctx_fine "inbox" w s.

Definition merged_demo : res (ConsumerConfig * bool) :=
  merge_setup (worker_durable (10 ^ 9) 0 false) "orders.created" (created (Req "ORDERS" "worker" defaultAckWait 0) "orders.created" None).

Lemma setup_merge_spec_witness :
  exists cc, merged_demo = Ok (cc, true) /\ ccMaxDeliver cc = 5 /\ ccAckWait cc = 10 ^ 9 /\
    ccMetadata cc !! "team" = Some "billing".
Proof.
  eexists. split; [vm_compute; reflexivity|].
  match goal with |- ccMaxDeliver ?x = _ /\ _ =>
    pose proof (setup_merge_spec (worker_durable (10 ^ 9) 0 false) "orders.created"
      (created (Req "ORDERS" "worker" defaultAckWait 0) "orders.created" None) x true ltac:(vm_compute; reflexivity))
      as (H & _ & Hm & _) end.
  destruct H as (H1 & _ & _ & _ & _ & _ & H2 & _).
  split; [exact H1|]. split; [exact H2|exact (Hm "team")].
Defined.

Lemma demo_unsubscribe id (s : server) : (sub_unsubscribe id s).1 = None.
Proof. done. Qed.

Lemma setup_no_leak_witness :
  exists x s', run_setup (worker_setup 0 0 false) empty_server = (Ok x, s') /\
    exists id, x = Sub (Some id) true /\ live s' = {[id]} ∪ ∅.
Proof.
  destruct (run_setup (worker_setup 0 0 false) empty_server) as [[x|e] s'] eqn:E; [|exfalso; vm_compute in E; discriminate].
  exists x, s'. split; [reflexivity|].
  destruct (setup_no_leak rt_cfg bp_cfg default_consumer ctx_fine "inbox" (worker_setup 0 0 false) empty_server (Ok x) s'
    demo_unsubscribe E) as (id & H1 & _ & H3).
  exists id. split; [exact H1|exact H3].
Defined.

Lemma setup_deliver_policy_refused_witness :
  exists e, (run_setup (worker_setup 0 DeliverNew true) empty_server).1 = Er e.
Proof.
  apply (setup_deliver_policy_refused rt_cfg bp_cfg default_consumer ctx_fine "inbox" (worker_setup 0 DeliverNew true) empty_server);
    try reflexivity; try discriminate.
Defined.

(** The same set-up, with a wait of its own, works once and is refused from then on. *)
Lemma setup_ack_wait_conflict_witness :
  exists x s1 e, run_setup (worker_setup (10 ^ 9) 0 false) empty_server = (Ok x, s1) /\
    (run_setup (worker_setup (10 ^ 9) 0 false) s1).1 = Er e.
Proof.
  destruct (run_setup (worker_setup (10 ^ 9) 0 false) empty_server) as [[x|e] s1] eqn:E; [|exfalso; vm_compute in E; discriminate].
  destruct (sv_consumers s1 !! ("ORDERS", "worker")) as [cc|] eqn:Ec; [|exfalso; vm_compute in E; injection E as <- <-; vm_compute in Ec; discriminate].
  destruct (setup_ack_wait_conflict rt_cfg bp_cfg default_consumer ctx_fine "inbox" (worker_setup (10 ^ 9) 0 false) s1 cc)
    as [e He]; [reflexivity|reflexivity|exact Ec| |exists x, s1, e; split; [reflexivity|exact He]].
  vm_compute in E. injection E as <- <-. vm_compute in Ec. injection Ec as <-. discriminate.
Defined.
