(* ===== verification/Contract.v ===== *)
(** * Schema contracts, typed handlers and delayed publishing
    (schema.go, schedule.go, the typed helpers of consumer_push.go)

    The optional schema headers of a message and their check on decode, the
    typed handler adapter, and the subject convention of delayed publishing.
    [Sprintf] is modelled for the verbs [%s], [%d] and [%%], with Go's output for
    a verb of the wrong type and for missing and extra arguments; a template
    with any other verb is outside the model. *)
From S2P Require Import Prelude GoStr Validate Shard Message Compress Codec Publisher Rpc Consume.

Definition HeaderSchema : string := "X-NATS-Schema".
Definition HeaderSchemaVersion : string := "X-NATS-Schema-Version".
Definition HeaderContractEncoding : string := "X-NATS-Contract-Encoding".
Definition ErrSchemaMismatch : string := "nats.ErrSchemaMismatch".

Record SchemaExpectation := SchemaExp { seName : string; seVersion : string; seEncoding : string; seRequired : bool }.

Section Contract.
Context `{NH : NatsHeader} `{CP : Compressors} `{CD : Codecs}.

Definition write_if (l : nat) (k v : string) (s : store) : store := if IsEmpty v then s else write_map l k [v] s.

(** [msg] is never nil here; a nil message is left alone. *)
Definition ApplySchemaHeaders (msg : Message) (name version encoding : string) (s : store) : Message * store :=
  let '(l, s1) := ensure_map (Header msg) s in
  (with_header msg (Some l),
   write_if l HeaderContractEncoding encoding (write_if l HeaderSchemaVersion version (write_if l HeaderSchema name s1))).

Definition SchemaFromHeader (h : option header) : string * string * string :=
  match h with
  | None => ("", "", "")
  | Some h => (hget h HeaderSchema, hget h HeaderSchemaVersion, hget h HeaderContractEncoding)
  end.

Definition mismatch (msg : string) : option err := Some (wrapf msg (Sentinel ErrSchemaMismatch)).

Definition CheckSchema (msg : option NatsMsg) (x : SchemaExpectation) : option err :=
  match msg with
  | None => Some (errorf "check schema: message is nil")
  | Some m =>
      let '(name, version, encoding) := SchemaFromHeader (nHeader m) in
      if IsEmpty name && IsEmpty version && IsEmpty encoding then
        if seRequired x then mismatch "%w: missing schema headers" else None
      else if negb (IsEmpty (seName x)) && negb (String.eqb name (seName x)) then
        mismatch "%w: schema name want %q got %q"
      else if negb (IsEmpty (seVersion x)) && negb (String.eqb version (seVersion x)) then
        mismatch "%w: schema version want %q got %q"
      else if negb (IsEmpty (seEncoding x)) && negb (String.eqb encoding (seEncoding x)) then
        mismatch "%w: encoding want %q got %q"
      else None
  end.

Definition DecodeMsgWithSchema (msg : NatsMsg) (typ : Z) (dst_proto : bool) (x : SchemaExpectation) : res any :=
  guard_err CheckSchema (Some msg) x ;; DecodeMsg msg typ dst_proto.

(** ** Typed handlers *)

Definition DecodeTyped (msg : NatsMsg) (typ : Z) (dst_proto : bool) : res any :=
  let typ := if typ =? 0 then MessageTypeFromHeader (nHeader msg) else typ in
  DecodeMsg msg typ dst_proto.

Definition HandlerTyped (mt : Z) (dst_proto : bool) (fn : string -> any -> outcome) (m : NatsMsg) : outcome :=
  match DecodeTyped m mt dst_proto with
  | Er e => Returned (Some e)
  | Ok payload => fn (nSubject m) payload
  end.

(** ** Delayed publishing *)

(** Decimal notation. *)
Definition fmt_int (n : Z) : string :=
  if n <? 0 then String "-" (default "" (itoa (- n))) else default "" (itoa n).
Inductive fmt_arg := FStr (s : string) | FInt (n : Z).
(** An argument with its type, as Go prints a misuse. *)
Definition typed_arg (a : fmt_arg) : string :=
  match a with FStr s => "string=" +:+ s | FInt n => "int64=" +:+ fmt_int n end.
Definition verb_s (a : fmt_arg) : string :=
  match a with FStr s => s | FInt _ => "%!s(" +:+ typed_arg a +:+ ")" end.
Definition verb_d (a : fmt_arg) : string :=
  match a with FInt n => fmt_int n | FStr _ => "%!d(" +:+ typed_arg a +:+ ")" end.

Fixpoint Sprintf (tpl : string) (args : list fmt_arg) : option string :=
  match tpl with
  | EmptyString =>
      match args with
      | [] => Some ""
      | _ => Some ("%!(EXTRA " +:+ join ", " (typed_arg <$> args) +:+ ")")
      end
  | String "%" (String "%" t) => (fun r => "%" +:+ r) <$> Sprintf t args
  | String "%" (String "s" t) =>
      match args with
      | [] => (fun r => "%!s(MISSING)" +:+ r) <$> Sprintf t []
      | a :: args' => (fun r => verb_s a +:+ r) <$> Sprintf t args'
      end
  | String "%" (String "d" t) =>
      match args with
      | [] => (fun r => "%!d(MISSING)" +:+ r) <$> Sprintf t []
      | a :: args' => (fun r => verb_d a +:+ r) <$> Sprintf t args'
      end
  | String "%" _ => None
  | String a t => (fun r => String a r) <$> Sprintf t args
  end.

(** [None]: the template is outside the model. *)
Definition delayedSubject (subject : string) (delay : Z) (template : string) : option (res string) :=
  match ValidateSubject subject with
  | Some e => Some (Er e)
  | None =>
      if delay <? 0 then Some (Er (errorf "delayed publish: negative delay"))
      else
        let tpl := if IsEmpty template then "%s.delay.%d" else template in
        let ms := delay ÷ 10 ^ 6 in
        let ms := if ms <? 0 then 0 else ms in
        Ok <$> Sprintf tpl [FStr subject; FInt ms]
  end.

Definition PublishDelayedJSON (js_publish : list wire -> wire -> option err) (p : publisher) (sp : span) (ctx : bool)
  (subject : string) (delay : Z) (d : any) (template : string) (w : world) : option (option err * world) :=
  match delayedSubject subject delay template with
  | None => None
  | Some (Er e) => Some (Some e, w)
  | Some (Ok dest) => Some (PublishJSON js_publish p sp ctx dest d w)
  end.

(** ** Lemmas *)

Lemma IsEmpty_cases v : (IsEmpty v = true /\ v = "") \/ (IsEmpty v = false /\ v <> "").
Proof. destruct (IsEmpty v) eqn:E; [left|right]; split; try done; [by apply IsEmpty_spec|by apply IsEmpty_false]. Qed.

Lemma read_write_if l k v s h :
  read_map s (Some l) = Some h ->
  read_map (write_if l k v s) (Some l) = Some (if IsEmpty v then h else <[k := [v]]> h).
Proof. unfold write_if. destruct (IsEmpty v); [done|apply read_write_same]. Qed.

Lemma hget_insert (h : header) k v : hget (<[k := [v]]> h) k = v.
Proof. apply (hget_first _ _ _ []), lookup_insert_eq. Qed.

Lemma hget_unique (h h' : header) k : h !! k = h' !! k -> hget h k = hget h' k.
Proof.
  intros E. destruct (h' !! k) as [[|v vs]|] eqn:E'.
  - by rewrite (hget_nil _ _ E), (hget_nil _ _ E').
  - by rewrite (hget_first _ _ _ _ E), (hget_first _ _ _ _ E').
  - by rewrite (hget_absent _ _ E), (hget_absent _ _ E').
Qed.

Lemma hget_insert_ne (h : header) k k' v : k <> k' -> hget (<[k := v]> h) k' = hget h k'.
Proof. intros Hk. apply hget_unique. by rewrite lookup_insert_ne. Qed.

(** What [CheckSchema] accepts, on the three values it reads. *)
Definition meets (x : SchemaExpectation) (name version encoding : string) : Prop :=
  (seName x = "" \/ seName x = name) /\ (seVersion x = "" \/ seVersion x = version) /\
  (seEncoding x = "" \/ seEncoding x = encoding).

Lemma field_check want got : (negb (IsEmpty want) && negb (String.eqb got want) = false) <-> want = "" \/ want = got.
Proof.
  destruct (IsEmpty_cases want) as [[-> ->]|[-> Hn]]; simpl; [naive_solver|].
  rewrite negb_false_iff, String.eqb_eq. naive_solver.
Qed.

Lemma CheckSchema_None (m : NatsMsg) x name version encoding :
  SchemaFromHeader (nHeader m) = (name, version, encoding) ->
  CheckSchema (Some m) x = None <->
    if bool_decide (name = "" /\ version = "" /\ encoding = "") then seRequired x = false
    else meets x name version encoding.
Proof.
  intros E. unfold CheckSchema. rewrite E.
  assert (IsEmpty name && IsEmpty version && IsEmpty encoding = bool_decide (name = "" /\ version = "" /\ encoding = "")) as ->.
  { apply eq_true_iff_eq. rewrite !andb_true_iff, !IsEmpty_spec, bool_decide_eq_true. tauto. }
  case_bool_decide; [by destruct (seRequired x)|]. unfold meets, mismatch.
  rewrite <- (field_check (seName x) name), <- (field_check (seVersion x) version), <- (field_check (seEncoding x) encoding).
  do 3 (match goal with |- context [if ?b then _ else _] => destruct b end; [naive_solver|]). naive_solver.
Qed.

(** ** Properties *)

(** The schema check decides exactly by the three contract headers: a
    message without any of them passes unless the contract is required, any
    other passes when each expected field is met, and every rejection of a
    message is a schema mismatch.  No other header matters: an expected
    encoding is never compared with the content type. *)
Theorem schema_check_exact (m : NatsMsg) x name version encoding :
  SchemaFromHeader (nHeader m) = (name, version, encoding) ->
  (CheckSchema (Some m) x = None <->
     if bool_decide (name = "" /\ version = "" /\ encoding = "") then seRequired x = false
     else meets x name version encoding) /\
  (forall e, CheckSchema (Some m) x = Some e -> errors_is e ErrSchemaMismatch = true) /\
  (forall m', SchemaFromHeader (nHeader m') = (name, version, encoding) -> CheckSchema (Some m') x = CheckSchema (Some m) x).
Proof.
  intros E. split; [by apply CheckSchema_None|]. unfold CheckSchema. rewrite E. split; [|by intros m' ->].
  intros e. unfold mismatch. repeat (match goal with |- context [if ?b then _ else _] => destruct b end);
    intros; simplify_eq; by rewrite errors_is_wrapf.
Qed.

(** Stamping and checking a contract.  After [ApplySchemaHeaders] with a
    name, version and encoding, a message sent with that header map passes
    exactly the expectations that agree with them, whether required or not, and
    decodes as without the check. *)
Theorem schema_contract_roundtrip (msg : Message) (s : store) name version encoding :
  msg_ok s msg -> name <> "" -> version <> "" -> encoding <> "" ->
  exists h, let '(msg', s') := ApplySchemaHeaders msg name version encoding s in
    read_map s' (Header msg') = Some h /\
    forall subj data typ dst x,
      (CheckSchema (Some (NMsg subj data (Some h))) x = None <-> meets x name version encoding) /\
      (meets x name version encoding ->
         DecodeMsgWithSchema (NMsg subj data (Some h)) typ dst x = DecodeMsg (NMsg subj data (Some h)) typ dst).
Proof.
  intros Hok Hn Hv He. unfold ApplySchemaHeaders.
  destruct (ensure_map (Header msg) s) as [l s1] eqn:El.
  pose proof (ensure_map_read _ _ _ _ El (msg_ok_header _ _ Hok)) as Hr. set (h0 := map_or_empty s (Header msg)) in Hr.
  set (h := <[HeaderContractEncoding := [encoding]]> (<[HeaderSchemaVersion := [version]]> (<[HeaderSchema := [name]]> h0))).
  exists h. split.
  { apply IsEmpty_false in Hn, Hv, He. simpl Header.
    rewrite (read_write_if _ _ _ _ (<[HeaderSchemaVersion := [version]]> (<[HeaderSchema := [name]]> h0))), He; [done|].
    rewrite (read_write_if _ _ _ _ (<[HeaderSchema := [name]]> h0)), Hv; [done|].
    by rewrite (read_write_if _ _ _ _ h0), Hn. }
  intros subj data typ dst x.
  assert (SchemaFromHeader (Some h) = (name, version, encoding)) as E.
  { unfold SchemaFromHeader, h. rewrite hget_insert.
    rewrite (hget_insert_ne _ HeaderContractEncoding HeaderSchemaVersion), hget_insert by done.
    by rewrite (hget_insert_ne _ HeaderContractEncoding HeaderSchema), (hget_insert_ne _ HeaderSchemaVersion HeaderSchema), hget_insert by done. }
  assert (CheckSchema (Some (NMsg subj data (Some h))) x = None <-> meets x name version encoding) as Hc.
  { rewrite (CheckSchema_None (NMsg subj data (Some h)) x _ _ _ E). by rewrite bool_decide_false by tauto. }
  split; [done|]. intros Hm. unfold DecodeMsgWithSchema. by rewrite (proj2 Hc Hm).
Qed.

(** The default delay subject.  For a publish subject and a delay of [d]
    nanoseconds, the destination is the subject followed by the tokens "delay"
    and the milliseconds in decimal, from which both can be read back, and it
    is itself a valid publish subject. *)
Theorem delayed_subject_spec (subject : string) (d : Z) :
  ValidatePublishSubject subject = None -> 0 <= d < 2 ^ 63 -> slen subject + 27 <= 1020 ->
  exists dest ms, delayedSubject subject d "" = Some (Ok dest) /\
    split "." dest = split "." subject ++ ["delay"; ms] /\ parse_dec ms = d / 10 ^ 6 /\
    ValidatePublishSubject dest = None.
Proof.
  intros Hs Hd Hl.
  assert (0 <= d / 10 ^ 6 < 2 ^ 63) as Hms.
  { split; [apply Z.div_pos; lia|]. apply Z.div_lt_upper_bound; lia. }
  destruct (itoa_spec (d / 10 ^ 6) Hms) as (ms & Hi & Hdig & Hne & Hlen & Hp).
  assert (split "." ms = [ms]) as Hsp by (apply split_no_sep, all_digits_no_char; [left; done|done]).
  exists (subject +:+ String "." ("delay" +:+ String "." ms)), ms.
  assert (split "." (subject +:+ String "." ("delay" +:+ String "." ms)) = split "." subject ++ ["delay"; ms]) as Hsplit.
  { by rewrite split_join_app, split_join_app, Hsp. }
  apply ValidatePublishSubject_None in Hs. split_and!; [|done|done|].
  - unfold delayedSubject. rewrite (proj2 (ValidateSubject_None subject)) by by apply valid_publish_valid.
    destruct (Z.ltb_spec d 0); [lia|]. rewrite Z.quot_div_nonneg by lia.
    destruct (Z.ltb_spec (d / 10 ^ 6) 0); [lia|]. simpl. unfold fmt_int.
    destruct (Z.ltb_spec (d / 10 ^ 6) 0); [lia|]. rewrite Hi. simpl. by rewrite str_app_nil_r.
  - apply ValidatePublishSubject_None. unfold valid_subject in *. rewrite Hsplit.
    rewrite !andb_true_iff, negb_true_iff in *. destruct Hs as [[H1 H2] H3]. split; [split|].
    + apply IsEmpty_false. intros E. apply (f_equal String.length) in E. rewrite str_length_app in E. simpl in E. lia.
    + apply Z.leb_le. unfold slen in *. rewrite str_length_app. simpl. lia.
    + apply tokens_ok_false_Forall. apply Forall_app. split; [by apply tokens_ok_Forall|].
      constructor; [done|]. constructor; [by apply digits_token_ok|done].
Qed.

End Contract.

(** ** Witnesses *)

Definition order_schema : SchemaExpectation := SchemaExp "order" "2" "json" true.

Definition typed_order : NatsMsg :=
  NMsg "orders.created" "{}" (Some {[ HeaderNATSContentType := ["json"]; HeaderSchema := ["order"] ]}).

Lemma schema_check_exact_witness : CheckSchema (Some typed_order) (SchemaExp "" "" "json" false) <> None.
Proof.
  intros H.
  assert (SchemaFromHeader (nHeader typed_order) = ("order", "", "")) as E by (vm_compute; reflexivity).
  destruct (proj1 (proj1 (schema_check_exact typed_order (SchemaExp "" "" "json" false) "order" "" "" E)) H)
    as (_ & _ & [Hm|Hm]); discriminate Hm.
Defined.

Lemma schema_contract_roundtrip_witness :
  exists h, read_map (ApplySchemaHeaders (Msg (ABytes "{}") None None JSON) "order" "2" "json" (Store [] [])).2 (Some 0%nat) = Some h /\
    CheckSchema (Some (NMsg "orders.created" "{}" (Some h))) order_schema = None.
Proof.
  destruct (schema_contract_roundtrip (Msg (ABytes "{}") None None JSON) (Store [] []) "order" "2" "json") as (h & H1 & H2);
    [split; discriminate|discriminate|discriminate|discriminate|].
  exists h. split; [exact H1|]. apply (H2 "orders.created" "{}" JSON false order_schema).
  repeat split; right; reflexivity.
Defined.

Lemma delayed_subject_spec_witness :
  exists dest ms, delayedSubject "orders.created" (1500 * 10 ^ 6) "" = Some (Ok dest) /\ parse_dec ms = 1500 /\
    ValidatePublishSubject dest = None.
Proof.
  destruct (delayed_subject_spec "orders.created" (1500 * 10 ^ 6)) as (dest & ms & H1 & _ & H2 & H3);
    [vm_compute; reflexivity|lia|vm_compute; congruence|].
  exists dest, ms. split; [exact H1|]. split; [exact H2|exact H3].
Defined.
