(* ===== verification/PullV2.v ===== *)
(** * Binding pull consumers and the new-API variant (consumer_pull.go, consumer_pull_v2.go)

    [Pull] and its fall-back, the options and [Fetch] of both pull consumers,
    and the [Process] loop of the one built on the new API.  That loop classifies
    fetch errors by their text, so an error comes with its text here.  The
    server's answers, the context's state at each check and the pool's state
    are inputs of an iteration; metrics and logs are left out. *)
From S2P Require Import Prelude GoStr Validate Shard Message Compress Codec Publisher Rpc Pressure WorkerPool Consume Pull Contract Admin.

(** ** Options *)

Inductive FetchOpt := WithFetchMaxWait (d : Z) | WithFetchHeartbeat (d : Z).
Inductive ProcessOpt :=
  | WithFetchBatch (batch : Z) | WithProcessMaxWait (d : Z) | WithProcessHeartbeat (d : Z) | WithProcessConcurrency (n : Z).

Definition apply_fetch_opt (c : fetchConfig) (o : FetchOpt) : fetchConfig :=
  match o with WithFetchMaxWait d => FetchCfg d (fHeartbeat c) | WithFetchHeartbeat d => FetchCfg (fMaxWait c) d end.
Definition apply_process_opt (c : processConfig) (o : ProcessOpt) : processConfig :=
  match o with
  | WithFetchBatch b => ProcCfg b (pMaxWait c) (pHeartbeat c) (pConcurrency c)
  | WithProcessMaxWait d => ProcCfg (pBatch c) d (pHeartbeat c) (pConcurrency c)
  | WithProcessHeartbeat d => ProcCfg (pBatch c) (pMaxWait c) d (pConcurrency c)
  | WithProcessConcurrency n => ProcCfg (pBatch c) (pMaxWait c) (pHeartbeat c) n
  end.
Definition fetch_config (opts : list FetchOpt) : fetchConfig := foldl apply_fetch_opt (FetchCfg defaultFetchMaxWait 0) opts.
Definition process_config (opts : list ProcessOpt) (idle : Z) : processConfig :=
  process_defaults (foldl apply_process_opt (ProcCfg 0 0 0 0) opts) idle.
(** The options the loop gives to each fetch. *)
Definition loop_fetch_opts (pc : processConfig) : list FetchOpt :=
  WithFetchMaxWait (pMaxWait pc) :: (if 0 <? pHeartbeat pc then [WithFetchHeartbeat (pHeartbeat pc)] else []).

(** ** Binding *)

Inductive handle := HandleV2 (stream durable : string) | HandleBound (stream durable : string) | HandleEphemeral (stream : string).

(** [v2]: what the new API answers ([None]: the client does not have it);
    [bind] and [ephemeral]: what PullSubscribe answers. *)
Definition consumer_Pull (v2 : option (string -> string -> option err)) (bind : string -> string -> option err)
  (ephemeral : string -> option err) (stream durable : string) : res handle :=
  guard_err match ValidateStreamName stream with Some e => Some (wrapf "pull stream=%q: %w" e) | None => None end ;;
  let durable_error := match ValidateDurableName durable with Some e => Some (wrapf "pull stream=%q durable=%q: %w" e) | None => None end in
  let legacy :=
    if negb (IsEmpty durable)
    then guard_err durable_error ;;
         match bind stream durable with
         | Some e => Er (wrapf "pull subscribe stream=%q durable=%q: %w" e)
         | None => Ok (HandleBound stream durable)
         end
    else match ephemeral stream with
         | Some e => Er (wrapf "pull subscribe stream=%q durable=%q: %w" e)
         | None => Ok (HandleEphemeral stream)
         end in
  match v2 with
  | Some consumer_of =>
      if negb (IsEmpty durable)
      then guard_err durable_error ;;
           match consumer_of stream durable with None => Ok (HandleV2 stream durable) | Some _ => legacy end
      else legacy
  | None => legacy
  end.

(** ** The subscription-based consumer *)

(** [sub.Fetch]: the messages it returns and its error, for a batch size and
    the deadline and heartbeat of the request. *)
Definition pull_Fetch (sub : option unit) (sub_fetch : Z -> option Z * option Z -> list jmsg * option err)
  (batch : Z) (opts : list FetchOpt) : list jmsg * option err :=
  match pull_subscription sub with
  | Some e => ([], Some e)
  | None =>
      match sub_fetch batch (fetch_options (fetch_config opts)) with
      | (ms, Some e) => (ms, Some (wrapf "pull fetch batch=%d: %w" e))
      | (ms, None) => (ms, None)
      end
  end.
(** [sub.Fetch] with a maximum wait of zero. *)
Definition pull_FetchNoWait (sub : option unit) (sub_fetch : Z -> list jmsg * option err) (batch : Z) : list jmsg * option err :=
  match pull_subscription sub with
  | Some e => ([], Some e)
  | None =>
      match sub_fetch batch with
      | (ms, Some e) => (ms, Some (wrapf "pull fetch no-wait batch=%d: %w" e))
      | (ms, None) => (ms, None)
      end
  end.

(** ** Errors with their text *)

Record ferr := FErr { feErr : err; feText : string }.

(** strings.Contains *)
Fixpoint contains_bytes (p l : list Z) : bool :=
  bool_decide (p `prefix_of` l) || match l with [] => false | _ :: l' => contains_bytes p l' end.
Definition Contains (s sub : string) : bool := contains_bytes (bytes_of sub) (bytes_of s).

Definition isFetchIdleErr (e : option ferr) : bool :=
  match e with
  | None => false
  | Some e =>
      if errors_is (feErr e) DeadlineExceeded then true
      else contains_bytes (bytes_of "timeout") (lower_rune <$> runes (feText e))
        || Contains (feText e) "no messages" || Contains (feText e) "404" || Contains (feText e) "408"
  end.

(** [fmt.Errorf("pull v2 fetch batch=%d: %w", batch, err)] *)
Definition v2_fetch_error (batch : Z) (e : ferr) : ferr :=
  FErr (wrapf "pull v2 fetch batch=%d: %w" (feErr e)) ("pull v2 fetch batch=" +:+ fmt_int batch +:+ ": " +:+ feText e).

(** ** The consumer on the new API *)

Record pullConsumerV2 := PCV2 { v2Closed : bool }.
Definition newPullConsumerV2 (haveJs : bool) (consumer_of : option err) : res pullConsumerV2 :=
  if negb haveJs then Er (Sentinel ErrJetStreamV2Required)
  else match consumer_of with
       | Some e => Er (wrapf "pull v2 consumer stream=%q durable=%q: %w" e)
       | None => Ok (PCV2 false)
       end.
Definition v2_Close (p : pullConsumerV2) : pullConsumerV2 := PCV2 true.
Definition ensureOpen (p : pullConsumerV2) : option ferr :=
  if v2Closed p then Some (FErr (errorf "pull: subscription closed") "pull: subscription closed") else None.

(** A started fetch: the messages of its channel, in order, and its error. *)
Record batchResult := BatchResult { brMessages : list NatsMsg; brError : option ferr }.

(** The receive loop; [ctx i] is the context's error when the i-th message has
    been received. *)
Fixpoint collect_msgs (ctx : nat -> option ferr) (i : nat) (ms : list NatsMsg) : list jmsg * option ferr :=
  match ms with
  | [] => ([], None)
  | m :: ms' =>
      match ctx i with
      | Some e => ([], Some e)
      | None => let '(out, e) := collect_msgs ctx (S i) ms' in (jetstreamMsgToNATS m :: out, e)
      end
  end.

Definition passes (e : ferr) : bool := errors_is (feErr e) Canceled || errors_is (feErr e) DeadlineExceeded.

(** [ctx0]: the context's error before the request; [cons_fetch] starts it. *)
Definition v2_Fetch (p : pullConsumerV2) (ctx0 : option ferr) (ctx : nat -> option ferr)
  (cons_fetch : Z -> option Z * option Z -> batchResult + ferr) (batch : Z) (opts : list FetchOpt) : list jmsg * option ferr :=
  match ensureOpen p with
  | Some e => ([], Some e)
  | None =>
      match ctx0 with
      | Some e => ([], Some e)
      | None =>
          match cons_fetch batch (fetch_options (fetch_config opts)) with
          | inr e => ([], Some (if passes e then e else v2_fetch_error batch e))
          | inl r =>
              match collect_msgs ctx 0 (brMessages r) with
              | (out, Some e) => (out, Some e)
              | (out, None) =>
                  match brError r with
                  | Some fe =>
                      if bool_decide (out = []) then
                        if isFetchIdleErr (Some fe) then (out, None)
                        else (out, Some (if passes fe then fe else v2_fetch_error batch fe))
                      else (out, None)
                  | None => (out, None)
                  end
              end
          end
      end
  end.
Definition millisecond_ns : Z := 1000000.
Definition v2_FetchNoWait (p : pullConsumerV2) (cons_fetch : Z -> option Z * option Z -> batchResult + ferr) (batch : Z)
  : list jmsg * option ferr :=
  v2_Fetch p None (fun _ => None) cons_fetch batch [WithFetchMaxWait millisecond_ns].

Section V2.
Context `{NH : NatsHeader} `{CP : Compressors} `{MA : MsgApi}.

(** The pool variant naks the batch again after an error. *)
Definition v2_processBatch (c : consumer) (h : nat -> MsgHandler) (pc : processConfig) (env : batch_env) (ms : list jmsg)
  : option err * list jmsg :=
  match ms with
  | [] => (None, [])
  | _ =>
      if WorkerPoolEnabled (cfg c) then
        match process_pool c h (poolAt env) (ctxAt env) (ctxEnd env) (lateAt env) ms with
        | (Some e, ms') => (Some e, nakRemaining ms')
        | r => r
        end
      else if 1 <? pConcurrency pc then process_conc c h (cutAt env) (lateAt env) (ctxEnd env) ms
      else process_seq c h (ctxAt env) 0 ms
  end.

(** One iteration sees: the context at its start, the pool's depth, the context
    if it ends during a circuit pause, and what the fetch meets. *)
Record v2_env := V2Env {
  veCtx : option err; veDepth : option Z; vePause : option err;
  veCtx0 : option ferr; veCtxAt : nat -> option ferr; veFetch : Z -> option Z * option Z -> batchResult + ferr;
  veBatch : batch_env
}.

(** One iteration: the error [Process] returns with ([None]: it goes on) and
    the messages it fetched, as it leaves them. *)
Definition v2_iter (p : pullConsumerV2) (c : consumer) (cb : option CircuitBreaker) (h : nat -> MsgHandler)
  (pc : processConfig) (env : v2_env) : option err * list jmsg :=
  match veCtx env with
  | Some e => (Some (wrapf "pull process: %w" e), [])
  | None =>
      let '(batch, pause) := plan_fetch c cb (pBatch pc) (veDepth env) in
      if pause then (match vePause env with Some e => Some (wrapf "pull process: %w" e) | None => None end, [])
      else
        match v2_Fetch p (veCtx0 env) (veCtxAt env) (veFetch env) batch (loop_fetch_opts pc) with
        | (ms, Some e) =>
            if errors_is (feErr e) Canceled then (Some (wrapf "pull process: %w" (feErr e)), nakRemaining ms)
            else if errors_is (feErr e) DeadlineExceeded || isFetchIdleErr (Some e) then (None, ms)
            else (Some (wrapf "pull process fetch: %w" (feErr e)), ms)
        | (ms, None) =>
            match v2_processBatch c h pc (veBatch env) ms with
            | (Some e, ms') => (if stops_loop e then Some e else None, ms')
            | (None, ms') => (None, ms')
            end
        end
  end.

(** The loop over the given iterations: the error it returned with, if it did,
    and the messages of each iteration. *)
Fixpoint v2_loop (p : pullConsumerV2) (c : consumer) (cb : option CircuitBreaker) (h : nat -> MsgHandler)
  (pc : processConfig) (envs : list v2_env) : option err * list (list jmsg) :=
  match envs with
  | [] => (None, [])
  | env :: envs' =>
      match v2_iter p c cb h pc env with
      | (Some e, ms) => (Some e, [ms])
      | (None, ms) => let '(r, l) := v2_loop p c cb h pc envs' in (r, ms :: l)
      end
  end.
Definition v2_Process (p : pullConsumerV2) (c : consumer) (idle : Z) (cb : option CircuitBreaker) (h : nat -> MsgHandler)
  (opts : list ProcessOpt) (envs : list v2_env) : option err * list (list jmsg) :=
  v2_loop p c cb h (process_config opts idle) envs.

(** ** Messages without a subscription *)

Definition loose (m : jmsg) : Prop := bound m = false /\ settled m = false.
(** A handler does not bind or settle a message it cannot reach. *)
Definition keeps_loose (h : MsgHandler) : Prop := forall m, loose m -> loose (h m).2.

Lemma op_loose op m : loose m -> do_op op m = (Some (Sentinel ErrMsgNotBound), m).
Proof. intros [H _]. by apply api_unbound. Qed.

Lemma process_loose c h m : keeps_loose h -> loose m -> loose (processMessage c h m).1.2.
Proof.
  intros Hk Hm. unfold processMessage, recordProcessError.
  destruct (if PayloadDecompression (cfg c) then _ else _) as [[e|] b]; simpl; [rewrite op_loose; done|].
  assert (loose (h (set_body m b)).2) as H1 by by apply Hk.
  destruct (h (set_body m b)) as [o m1]. simpl in H1. destruct (is_err _ _); [done|].
  destruct (invokeMsgHandler o); simpl; rewrite (op_loose _ m1) by done; simpl; repeat case_match; done.
Qed.

Lemma nak_loose ms : Forall loose ms -> nakRemaining ms = ms.
Proof. induction 1 as [|m ms H _ IH]; [done|]. unfold nakRemaining in *. cbn [fmap list_fmap]. by rewrite IH, op_loose. Qed.

Lemma enqueue_loose c pa m : loose m -> loose (enqueue c pa m).1.2.
Proof.
  intros Hm. assert (forall msg op c0, loose (bp_settle msg op m c0).1.2) as Hs.
  { intros. unfold bp_settle. by rewrite op_loose. }
  assert (loose (handlePoolBackpressure c (Some (qd1 pa)) (qd2 pa) m).1.2) as Hp.
  { unfold handlePoolBackpressure. repeat case_match; done. }
  unfold enqueue. destruct (tryNB pa) as [[] []]; try done.
  destruct (handlePoolBackpressure _ _ _ _) as [[e m'] c']. simpl in *. by repeat case_match.
Qed.

Section Loose.
Context (c : consumer) (h : nat -> MsgHandler).
Hypothesis Hk : forall i, keeps_loose (h i).

Lemma seq_loose ctx i ms : Forall loose ms -> Forall loose (process_seq c h ctx i ms).2.
Proof.
  intros H. revert i. induction H as [|m ms Hm Hf IH]; intros i; [constructor|]. simpl.
  destruct (ctx i); [constructor; [rewrite op_loose by done; exact Hm|fold (nakRemaining ms); rewrite nak_loose by done; exact Hf]|].
  pose proof (process_loose c (h i) m (Hk i) Hm) as H1. destruct (processMessage c (h i) m) as [[e m'] ev].
  specialize (IH (S i)). destruct (process_seq c h ctx (S i) ms). by constructor.
Qed.

Lemma conc_loose cut late ce ms : Forall loose ms -> Forall loose (process_conc c h cut late ce ms).2.
Proof.
  intros H. simpl. apply Forall_app. split; [|rewrite nak_loose; by apply Forall_drop].
  apply Forall_lookup. intros i m Hi. apply list_lookup_imap_Some in Hi as (m0 & Hm0 & ->).
  pose proof (Forall_lookup_1 _ _ i m0 (Forall_take _ cut _ H) Hm0) as Hl. simpl in Hl.
  destruct (late i); [by rewrite op_loose|by apply process_loose].
Qed.

Lemma enqueue_all_loose pas ctx i ms : Forall loose ms -> Forall loose (fst <$> (enqueue_all c pas ctx i ms).2).
Proof.
  assert (forall l, Forall loose l -> Forall loose (fst <$> ((fun m => (m, false)) <$> l))) as Hf.
  { intros l Hl. rewrite <- list_fmap_compose. by apply Forall_fmap. }
  intros H. revert i. induction H as [|m ms Hm Hms IH]; intros i; [constructor|]. simpl.
  destruct (ctx i); [apply (Hf (m :: ms)); by constructor|].
  pose proof (enqueue_loose c (pas i) m Hm) as H1. destruct (enqueue c (pas i) m) as [[[e|] m'] q]; simpl in *.
  - constructor; [done|by apply Hf].
  - specialize (IH (S i)). destruct (enqueue_all c pas ctx (S i) ms). by constructor.
Qed.

Lemma pool_loose pas ctx late waits ms : Forall loose ms -> Forall loose (process_pool c h pas ctx late waits ms).2.
Proof.
  intros H. unfold process_pool. pose proof (enqueue_all_loose pas ctx 0 ms H) as Hl.
  destruct (enqueue_all c pas ctx 0 ms) as [e1 l]. simpl in Hl.
  set (ran := run_queued c h _ l).
  assert (Forall loose (snd <$> ran)) as Hran.
  { subst ran. unfold run_queued. apply Forall_fmap, Forall_lookup. intros i x Hi.
    apply list_lookup_imap_Some in Hi as ([m q] & Hm & ->). rewrite Forall_fmap in Hl.
    pose proof (Forall_lookup_1 _ _ i _ Hl Hm) as Hlm. simpl in Hlm. destruct (q && _); [by apply process_loose|done]. }
  destruct (first_error _); simpl; [by rewrite nak_loose|done].
Qed.

Lemma v2_batch_loose pc env ms : Forall loose ms -> Forall loose (v2_processBatch c h pc env ms).2.
Proof.
  intros H. unfold v2_processBatch. destruct ms as [|m ms]; [constructor|]. destruct (WorkerPoolEnabled (cfg c)).
  - pose proof (pool_loose (poolAt env) (ctxAt env) (ctxEnd env) (lateAt env) _ H) as Hp.
    destruct (process_pool _ _ _ _ _ _ _) as [[e|] ms']; simpl in *; [by rewrite nak_loose|done].
  - destruct (1 <? pConcurrency pc); [by apply conc_loose|by apply seq_loose].
Qed.

Lemma collect_loose ctx i ms : Forall loose (collect_msgs ctx i ms).1.
Proof.
  revert i. induction ms as [|m ms IH]; intros i; simpl; [constructor|]. destruct (ctx i); [constructor|].
  specialize (IH (S i)). destruct (collect_msgs ctx (S i) ms). by constructor.
Qed.

Lemma v2_fetch_loose p ctx0 ctx f batch opts : Forall loose (v2_Fetch p ctx0 ctx f batch opts).1.
Proof.
  unfold v2_Fetch. destruct (ensureOpen p); [constructor|]. destruct ctx0; [constructor|].
  destruct (f _ _) as [r|e]; [|constructor]. pose proof (collect_loose ctx 0 (brMessages r)) as H.
  destruct (collect_msgs ctx 0 (brMessages r)) as [out [e|]]; [done|]. by repeat case_match.
Qed.

Lemma v2_iter_loose p cb pc env : Forall loose (v2_iter p c cb h pc env).2.
Proof.
  unfold v2_iter. destruct (veCtx env); [constructor|]. destruct (plan_fetch _ _ _ _) as [batch []]; [constructor|].
  pose proof (v2_fetch_loose p (veCtx0 env) (veCtxAt env) (veFetch env) batch (loop_fetch_opts pc)) as H.
  destruct (v2_Fetch _ _ _ _ _ _) as [ms [e|]]; simpl in H.
  - repeat case_match; simpl; try done. by rewrite nak_loose.
  - pose proof (v2_batch_loose pc (veBatch env) ms H) as Hb. by destruct (v2_processBatch _ _ _ _ _) as [[] ?].
Qed.

(** C38: the new-API pull consumer settles nothing.  Whatever its handlers
    return and however the batches are processed (in order, concurrently,
    through the pool, cancelled half way), no message it ever fetched is
    acknowledged, naked or terminated: the messages it builds have no
    subscription, and the message API refuses to settle those. *)
Theorem v2_settles_nothing p idle cb opts envs :
  Forall (Forall (fun m => settled m = false)) (v2_Process p c idle cb h opts envs).2.
Proof.
  unfold v2_Process. generalize (process_config opts idle). intros pc.
  assert (forall ms, Forall loose ms -> Forall (fun m => settled m = false) ms) as Hl
    by (intros ms Hms; eapply Forall_impl; [|exact Hms]; by intros m []).
  induction envs as [|env envs IH]; [constructor|]. cbn [v2_loop].
  pose proof (Hl _ (v2_iter_loose p cb pc env)) as H. destruct (v2_iter p c cb h pc env) as [[e|] ms]; simpl in H.
  - by repeat constructor.
  - destruct (v2_loop p c cb h pc envs). by constructor.
Qed.

End Loose.
End V2.

(** ** Error classification *)

Lemma contains_app_r p l1 l2 : contains_bytes p l2 = true -> contains_bytes p (l1 ++ l2) = true.
Proof. intros H. induction l1 as [|a l1 IH]; [done|]. simpl. rewrite IH. by rewrite orb_true_r. Qed.

Lemma contains_app_l p l1 l2 : contains_bytes p l1 = true -> contains_bytes p (l1 ++ l2) = true.
Proof.
  induction l1 as [|a l1 IH]; simpl.
  - rewrite orb_false_r. intros ->%bool_decide_eq_true%prefix_nil_inv.
    by destruct l2.
  - intros [H|H]%orb_true_iff; [|rewrite IH by done; by rewrite orb_true_r].
    apply bool_decide_eq_true in H. rewrite bool_decide_true; [done|]. by apply (prefix_app_r _ (a :: l1)).
Qed.

Lemma bytes_of_app s t : bytes_of (s +:+ t) = bytes_of s ++ bytes_of t.
Proof. induction s as [|a s IH]; [done|]. change (byte_of a :: bytes_of (s +:+ t) = byte_of a :: (bytes_of s ++ bytes_of t)). by rewrite IH. Qed.

Definition masking (batch : Z) : bool := Contains (fmt_int batch) "404" || Contains (fmt_int batch) "408".

Lemma masking_idle batch e : masking batch = true -> isFetchIdleErr (Some (v2_fetch_error batch e)) = true.
Proof.
  intros H. unfold isFetchIdleErr. case_match; [done|].
  assert (forall p, Contains (fmt_int batch) p = true -> Contains (feText (v2_fetch_error batch e)) p = true) as Hc.
  { intros p Hp. unfold Contains. change (feText (v2_fetch_error batch e)) with ("pull v2 fetch batch=" +:+ fmt_int batch +:+ ": " +:+ feText e). rewrite !bytes_of_app. apply contains_app_r, contains_app_l, Hp. }
  apply orb_true_iff in H as [H|H]; rewrite (Hc _ H), ?orb_true_r; done.
Qed.

Section Loop.
Context `{NH : NatsHeader} `{CP : Compressors} `{MA : MsgApi}.

(** An iteration whose fetch the server refuses, with an error that is not a
    cancellation. *)
Definition refused (env : v2_env) : Prop :=
  veCtx env = None /\ veCtx0 env = None /\
  forall b o, exists e, veFetch env b o = inr e /\ errors_is (feErr e) Canceled = false.

(** Some batch sizes hide every fetch error.  The loop recognises idle
    fetches by looking for "404" and "408" in the error text, and the text
    includes the batch size: with a batch of 404, 1408 and the like every
    refusal (the consumer is gone, no permission, ...) counts as idle, and
    [Process] keeps fetching for as long as its context lives. *)
Theorem batch_hides_errors p c cb h pc envs :
  v2Closed p = false -> adaptive c = None -> masking (pBatch pc) = true -> Forall refused envs ->
  v2_loop p c cb h pc envs = (None, replicate (length envs) []).
Proof.
  intros Hp Ha Hm. induction 1 as [|env envs (H1 & H2 & H3) _ IH]; [done|]. cbn [v2_loop length replicate].
  unfold v2_iter, plan_fetch. rewrite H1, Ha. unfold v2_Fetch, ensureOpen. rewrite Hp, H2.
  destruct (H3 (pBatch pc) (fetch_options (fetch_config (loop_fetch_opts pc)))) as (e & -> & He).
  destruct (passes e) eqn:Ep.
  - unfold passes in Ep. rewrite He in Ep. simpl in Ep. rewrite He, Ep. simpl. by rewrite IH.
  - rewrite masking_idle by done. simpl. rewrite He, !orb_false_r, orb_true_r. by rewrite IH.
Qed.

Lemma collect_cut ctx ms rest i : (forall j, (j < length ms)%nat -> ctx (i + j)%nat = None) ->
  forall e, rest <> [] -> ctx (i + length ms)%nat = Some e ->
  collect_msgs ctx i (ms ++ rest) = (jetstreamMsgToNATS <$> ms, Some e).
Proof.
  revert i. induction ms as [|m ms IH]; intros i Hc e Hr He; simpl in *.
  - rewrite Nat.add_0_r in He. destruct rest; [done|]. simpl. by rewrite He.
  - pose proof (Hc 0%nat ltac:(lia)) as H0. rewrite Nat.add_0_r in H0. rewrite H0.
    rewrite (IH (S i)) with (e := e); [done| |done|by rewrite Nat.add_succ_l, <- Nat.add_succ_r].
    intros j Hj. rewrite Nat.add_succ_l, <- Nat.add_succ_r. apply Hc. lia.
Qed.

(** A deadline abandons a batch.  When the context's deadline passes while
    the messages of a batch are being received, the ones already received are
    neither handled nor given back (after a cancellation they would be naked),
    the others are dropped, and the loop goes on. *)
Theorem deadline_abandons_batch p c cb h pc env ms rest e bErr :
  v2Closed p = false -> adaptive c = None -> veCtx env = None -> veCtx0 env = None ->
  veFetch env (pBatch pc) (fetch_options (fetch_config (loop_fetch_opts pc))) = inl (BatchResult (ms ++ rest) bErr) ->
  rest <> [] -> (forall j, (j < length ms)%nat -> veCtxAt env j = None) -> veCtxAt env (length ms) = Some e ->
  errors_is (feErr e) DeadlineExceeded = true -> errors_is (feErr e) Canceled = false ->
  v2_iter p c cb h pc env = (None, jetstreamMsgToNATS <$> ms).
Proof.
  intros Hp Ha H1 H2 Hf Hr Hc He Hd Hn. unfold v2_iter, plan_fetch. rewrite H1, Ha. unfold v2_Fetch, ensureOpen. rewrite Hp, H2, Hf.
  simpl. rewrite (collect_cut (veCtxAt env) ms rest 0 Hc e Hr He). by rewrite Hn, Hd.
Qed.

End Loop.

(** What [Pull] binds to.  A handle is returned only for a valid stream and
    durable name, for that very durable, through the new API when that accepts
    it and through the subscription API otherwise; without a durable it is an
    ephemeral consumer of the stream. *)
Theorem pull_binding v2 bind ephemeral stream durable hd :
  consumer_Pull v2 bind ephemeral stream durable = Ok hd ->
  ValidateStreamName stream = None /\
  match hd with
  | HandleV2 s d => s = stream /\ d = durable /\ ValidateDurableName d = None /\ exists f, v2 = Some f /\ f s d = None
  | HandleBound s d => s = stream /\ d = durable /\ ValidateDurableName d = None /\ bind s d = None /\
      forall f, v2 = Some f -> f s d <> None
  | HandleEphemeral s => s = stream /\ durable = "" /\ ephemeral s = None
  end.
Proof.
  unfold consumer_Pull. destruct (ValidateStreamName stream); [done|]. intros H. split; [done|].
  destruct (IsEmpty durable) eqn:Ed; simpl in H.
  - assert (durable = "") as -> by by destruct durable.
    destruct v2; (destruct (ephemeral stream) eqn:Ee; [done|]; injection H as <-; done).
  - destruct v2 as [f|]; destruct (ValidateDurableName durable) eqn:Ev; try done; simpl in H.
    + destruct (f stream durable) eqn:Ef; [|injection H as <-; split_and!; eauto].
      destruct (bind stream durable) eqn:Eb; [done|]. injection H as <-. split_and!; try done. intros f' [= <-]. congruence.
    + destruct (bind stream durable) eqn:Eb; [done|]. injection H as <-. by split_and!.
Qed.

(** ** Witnesses *)

Definition gone : ferr := FErr (errorf "consumer not found") "nats: consumer not found".
Definition quiet_batch : batch_env := BEnv (fun _ => None) 0 (fun _ => false) None (fun _ => PA (true, None) None 0 0).
Definition gone_env : v2_env := V2Env None None None None (fun _ => None) (fun _ _ => inr gone) quiet_batch.

Lemma batch_hides_errors_witness :
  v2_loop (PCV2 false) (demo_consumer false 0 0) None (fun _ => ok_handler) (ProcCfg 404 0 0 0) (replicate 100 gone_env)
    = (None, replicate 100 []) /\
  (exists e, v2_loop (PCV2 false) (demo_consumer false 0 0) None (fun _ => ok_handler) (ProcCfg 403 0 0 0) [gone_env] = (Some e, [[]])).
Proof.
  split; [|eexists; vm_compute; reflexivity].
  rewrite (batch_hides_errors (PCV2 false) (demo_consumer false 0 0) None (fun _ => ok_handler) (ProcCfg 404 0 0 0)
    (replicate 100 gone_env)); [by rewrite length_replicate|reflexivity|reflexivity|vm_compute; reflexivity|].
  apply Forall_replicate. split_and!; [done..|]. intros b o. exists gone. done.
Defined.

Definition fetched_msg (s : string) : NatsMsg := NMsg s "x" None.
Definition deadline : ferr := FErr (Sentinel DeadlineExceeded) "context deadline exceeded".
Definition cut_env : v2_env := V2Env None None None None (fun i => if (i <? 1)%nat then None else Some deadline)
  (fun _ _ => inl (BatchResult [fetched_msg "a"; fetched_msg "b"] None)) quiet_batch.

Lemma deadline_abandons_batch_witness :
  v2_iter (PCV2 false) (demo_consumer false 0 0) None (fun _ => ok_handler) (ProcCfg 10 0 0 0) cut_env
    = (None, [jetstreamMsgToNATS (fetched_msg "a")]).
Proof.
  apply (deadline_abandons_batch (PCV2 false) (demo_consumer false 0 0) None (fun _ => ok_handler) (ProcCfg 10 0 0 0) cut_env
    [fetched_msg "a"] [fetched_msg "b"] deadline None); try reflexivity; [discriminate|].
  intros j Hj. simpl in Hj. simpl. by rewrite (proj2 (Nat.ltb_lt j 1) Hj).
Defined.

Lemma pull_binding_witness :
  ValidateStreamName "ORDERS" = None /\ ValidateDurableName "worker" = None.
Proof.
  destruct (pull_binding (Some (fun _ _ => None)) (fun _ _ => None) (fun _ => None) "ORDERS" "worker" (HandleV2 "ORDERS" "worker"))
    as (H & _ & _ & H2 & _); [vm_compute; reflexivity|]. split; [exact H|exact H2].
Defined.

Lemma v2_settles_nothing_witness :
  Forall (Forall (fun m => settled m = false))
    (v2_Process (PCV2 false) (demo_consumer false 0 0) 0 None (fun _ => ok_handler) []
       [V2Env None None None None (fun _ => None) (fun _ _ => inl (BatchResult [fetched_msg "a"; fetched_msg "b"] None)) quiet_batch]).2.
Proof. apply (v2_settles_nothing (demo_consumer false 0 0) (fun _ => ok_handler)). intros i m Hm. exact Hm. Defined.
