(* ===== verification/Ordered.v ===== *)
(** * Ordered consumers (consumer_ordered.go)

    The configuration handed to the ordered consumer, the callback run for each
    message, and stopping as interleaved steps of the callers of [Stop] and of
    the goroutine that waits for the context. *)
From S2P Require Import Prelude GoStr Validate Message Compress Rpc Pressure Consume Pull Admin.

Record OrderedConsumerConfig := OrdCfg {
  oFilterSubjects : list string; oFilterSubject : string; oOptStartTime : option Z; oNamePrefix : string;
  oInactiveThreshold : Z; oOptStartSeq : Z; oDeliverPolicy : Z; oReplayPolicy : Z; oHasDeliverPolicy : bool;
  oHasReplayPolicy : bool; oHeadersOnly : bool
}.

(** The fields of jetstream.OrderedConsumerConfig that are set. *)
Record ordered_request := OrdReq {
  qFilterSubjects : list string; qInactive : Z; qHeadersOnly : bool; qNamePrefix : string; qStartSeq : Z;
  qStartTime : option Z; qDeliver : Z; qReplay : Z
}.

Definition ordered_config (c : OrderedConsumerConfig) : ordered_request :=
  OrdReq (if negb (IsEmpty (oFilterSubject c)) && bool_decide (oFilterSubjects c = []) then [oFilterSubject c] else oFilterSubjects c)
    (oInactiveThreshold c) (oHeadersOnly c) (oNamePrefix c) (oOptStartSeq c) (oOptStartTime c)
    (if oHasDeliverPolicy c then oDeliverPolicy c else 0) (if oHasReplayPolicy c then oReplayPolicy c else 0).

(** [haveV2], [nilHandler]: the client has the new API, no handler was given;
    [open] and [consume] answer the two calls of that API. *)
Definition OrderedSubscribe (haveV2 nilHandler : bool) (open : string -> ordered_request -> option err) (consume : option err)
  (stream : string) (c : OrderedConsumerConfig) : option err :=
  match ValidateStreamName stream with
  | Some e => Some (wrapf "ordered subscribe stream=%q: %w" e)
  | None =>
      if negb haveV2 then Some (wrapf "ordered subscribe stream=%q: %w" (Sentinel ErrJetStreamV2Required))
      else if nilHandler then Some (errorf "ordered subscribe stream=%q: handler is nil")
      else match open stream (ordered_config c) with
           | Some e => Some (wrapf "ordered consumer stream=%q: %w" e)
           | None =>
               match consume with
               | Some e => Some (wrapf "ordered consume stream=%q: %w" e)
               | None => None
               end
           end
  end.

Section Ordered.
Context `{NH : NatsHeader} `{CP : Compressors}.

(** The callback: the listeners it notifies and whether the handler ran. *)
Definition ordered_deliver (c : consumer) (handler : MsgHandler) (b : NatsMsg) : bool * list event :=
  let m := jetstreamMsgToNATS b in
  let '(derr, b') := if PayloadDecompression (cfg c) then maybeDecompressMsg (body m) else (None, body m) in
  match derr with
  | Some _ => (false, [])
  | None =>
      let '(o, _) := handler (set_body m b') in
      match invokeMsgHandler o with
      | Some _ => (true, [EvMessageHandled])
      | None => (true, [EvProcessSuccess])
      end
  end.

(** The listeners of an ordered consumer.  A message whose payload cannot be
    expanded reaches neither the handler nor a listener; a failing or panicking
    handler is reported to the message-handled listeners only and a successful
    one to the process-success listeners only, unlike a push consumer, which
    reports every completion as handled. *)
Theorem ordered_listeners (c : consumer) handler b ran evs :
  ordered_deliver c handler b = (ran, evs) ->
  (ran = false -> evs = []) /\
  (ran = true -> exists b' o m', handler (set_body (jetstreamMsgToNATS b) b') = (o, m') /\
     evs = if bool_decide (invokeMsgHandler o = None) then [EvProcessSuccess] else [EvMessageHandled]) /\
  ~ (EvMessageHandled ∈ evs /\ EvProcessSuccess ∈ evs).
Proof.
  unfold ordered_deliver. destruct (if PayloadDecompression _ then _ else _) as [[e|] b'].
  { intros [= <- <-]. split_and!; [done|done|set_solver]. }
  destruct (handler _) as [o m'] eqn:Eh. destruct (invokeMsgHandler o) as [e|] eqn:Ei; intros [= <- <-].
  - split_and!; [done| |set_solver]. intros _. exists b', o, m'. by rewrite Ei.
  - split_and!; [done| |set_solver]. intros _. exists b', o, m'. by rewrite Ei.
Qed.

End Ordered.

(** ** Stopping

    [Stop] runs once; it stops the consume context and closes the channel.  The
    goroutine started by [OrderedSubscribe] calls [Stop] when the context is
    done, and ends when the channel is closed. *)

Record orderedSubscription := OSub { once : bool; ccStops : nat; closed : bool; watcher : bool }.
Definition ordered_init : orderedSubscription := OSub false 0 false true.

(** A whole call: the [sync.Once] serialises it. *)
Definition Stop (s : orderedSubscription) : orderedSubscription :=
  if once s then s else OSub true (S (ccStops s)) true (watcher s).

Inductive olabel := OUserStop | OCtxDone | OChanClosed.
Definition ordered_step (l : olabel) (s : orderedSubscription) : option orderedSubscription :=
  let ended s := OSub (once s) (ccStops s) (closed s) false in
  match l with
  | OUserStop => Some (Stop s)
  | OCtxDone => if watcher s then Some (ended (Stop s)) else None
  | OChanClosed => if watcher s && closed s then Some (ended s) else None
  end.
Fixpoint ordered_run (ls : list olabel) (s : orderedSubscription) : option orderedSubscription :=
  match ls with [] => Some s | l :: ls' => match ordered_step l s with Some s' => ordered_run ls' s' | None => None end end.

Definition ordered_ok (s : orderedSubscription) : Prop :=
  ccStops s = (if once s then 1 else 0)%nat /\ closed s = once s /\ (watcher s = false -> closed s = true).

Lemma ordered_step_ok l s s' : ordered_ok s -> ordered_step l s = Some s' -> ordered_ok s'.
Proof.
  destruct s as [o n c w]. unfold ordered_ok, ordered_step, Stop. simpl. intros (H1 & H2 & H3) H.
  destruct l, o, w; simpl in *; repeat case_match; simplify_eq/=; split_and!; auto.
Qed.

(** Stopping an ordered subscription, by any number of callers and by the
    cancelled context in any order: the consume context is stopped at most
    once, the channel is closed exactly when it has been, and the waiting
    goroutine never outlives a stop, for it can always take its last step once
    the channel is closed. *)
Theorem ordered_stop_once ls s :
  ordered_run ls ordered_init = Some s ->
  (ccStops s <= 1)%nat /\ (closed s = true <-> ccStops s = 1%nat) /\ (watcher s = false -> closed s = true) /\
  (closed s = true -> watcher s = true -> is_Some (ordered_step OChanClosed s)).
Proof.
  intros H. assert (ordered_ok s) as (H1 & H2 & H3).
  { assert (forall s0, ordered_ok s0 -> ordered_run ls s0 = Some s -> ordered_ok s) as G; [|apply (G ordered_init); [split; [reflexivity|split; done]|exact H]].
    clear. induction ls as [|l ls IH]; intros s0 H0 H; simplify_eq/=; [done|].
    destruct (ordered_step l s0) eqn:E; [|done]. eapply IH; [|done]. by eapply ordered_step_ok. }
  split_and!; [rewrite H1; destruct (once s); lia|rewrite H2, H1; destruct (once s); split; done|done|].
  intros Hc Hw. unfold ordered_step. rewrite Hw, Hc. eauto.
Qed.

Lemma ordered_stop_once_witness :
  exists s, ordered_run [OUserStop; OUserStop; OCtxDone] ordered_init = Some s /\ (ccStops s <= 1)%nat.
Proof.
  eexists. split; [vm_compute; reflexivity|].
  exact (proj1 (ordered_stop_once [OUserStop; OUserStop; OCtxDone] _ ltac:(vm_compute; reflexivity))).
Defined.

Lemma ordered_listeners_witness :
  exists evs, ordered_deliver (demo_consumer false 0 0) panicking (NMsg "orders.created" "x" None) = (true, evs) /\
    ~ (EvMessageHandled ∈ evs /\ EvProcessSuccess ∈ evs).
Proof.
  eexists. split; [vm_compute; reflexivity|].
  exact (proj2 (proj2 (ordered_listeners (demo_consumer false 0 0) panicking (NMsg "orders.created" "x" None) true _
    ltac:(vm_compute; reflexivity)))).
Defined.
