(* ===== verification/Buckets.v ===== *)
(** * Key-value and object buckets (kv_manager.go, object_manager.go)

    The managers validate names and call the bucket API of nats.go, which is an
    interface here.  [Put] of the key-value manager reads the entry back after
    writing it, and [Get] of the object manager reads the object's information
    before its content; [other] is what other clients do in between. *)
From S2P Require Import Prelude GoStr Validate Page Admin.

Definition ErrNoKeysFound : string := "nats.go.ErrNoKeysFound".
Definition ErrNoObjectsFound : string := "nats.go.ErrNoObjectsFound".
Definition ErrUnexpectedEOF : string := "io.ErrUnexpectedEOF".

(** [if errors.Is(err, none) { empty page }]; [None] is a slice-bounds panic. *)
Definition list_page (msg none : string) (r : res (list string)) (offset limit : Z) : option (res (list string * Z)) :=
  match r with
  | Er e => if errors_is e none then Ok <$> pageSlice [] offset limit else Some (Er (wrapf msg e))
  | Ok l => Ok <$> pageSlice l offset limit
  end.

(** ** Key-value buckets *)

Module Kv.

Record KVBucketStatus := BStatus { bsBucket : string; bsValues : Z; bsHistory : Z }.
Record KVEntry := KvEntry { keCreated : Z; keBucket : string; keKey : string; keValue : string; keRevision : Z }.
Record KeyValueConfig := KvCfg {
  kcBucket : string; kcDescription : string; kcTTL : Z; kcMaxBytes : Z; kcStorage : Z; kcReplicas : Z;
  kcHistory : Z; kcCompression : bool
}.

(** The jetstream configuration has the same fields; its zero storage is file storage. *)
Definition toJetStreamKeyValueConfig (c : KeyValueConfig) : KeyValueConfig :=
  KvCfg (kcBucket c) (kcDescription c) (kcTTL c) (kcMaxBytes c) (if negb (kcStorage c =? 0) then kcStorage c else 0)
    (kcReplicas c) (if kcHistory c =? 0 then 1 else kcHistory c) (kcCompression c).

(** nats.go's buckets: opening one fails when it does not exist; a value put is
    the one got, under the revision the put returned; a call changes only the
    key (or the bucket) it names. *)
Class KvJs (S : Type) := {
  kv_open : string -> S -> option err;
  kv_status : string -> S -> res KVBucketStatus;
  kv_names : S -> list string;
  kv_keys : string -> S -> res (list string);
  kv_get : string -> string -> S -> res KVEntry;
  kv_put : string -> string -> string -> S -> res Z * S;
  kv_delete : string -> string -> S -> option err * S;
  kv_history : string -> string -> S -> res (list KVEntry);
  kv_create : KeyValueConfig -> S -> option err * S;
  kv_upsert : KeyValueConfig -> S -> option err * S;
  kv_drop : string -> S -> option err * S;
  put_get b k v s rev s' : kv_put b k v s = (Ok rev, s') ->
    kv_open b s' = None /\ exists e, kv_get b k s' = Ok e /\ keKey e = k /\ keValue e = v /\ keRevision e = rev;
  put_frame b k v s k' b' : (b', k') <> (b, k) -> kv_get b' k' (kv_put b k v s).2 = kv_get b' k' s;
  put_open b k v s b' : kv_open b' (kv_put b k v s).2 = kv_open b' s;
  put_keys b k v s rev s' : kv_put b k v s = (Ok rev, s') -> exists l, kv_keys b s' = Ok l /\ k ∈ l;
  keys_get b k s l : kv_keys b s = Ok l -> k ∈ l -> exists e, kv_get b k s = Ok e;
  delete_get b k s s' : kv_delete b k s = (None, s') -> exists e, kv_get b k s' = Er e;
  delete_frame_kv b k s k' b' : (b', k') <> (b, k) -> kv_get b' k' (kv_delete b k s).2 = kv_get b' k' s
}.

Section Kv.
Context {S : Type} `{KJ : KvJs S}.

Definition kvBucketStatusFrom (st : KVBucketStatus) : KVBucketStatus := BStatus (bsBucket st) (bsValues st) (bsHistory st).
(** The entry is labelled with the bucket asked for. *)
Definition kvEntryFrom (bucket : string) (e : KVEntry) : KVEntry :=
  KvEntry (keCreated e) bucket (keKey e) (keValue e) (keRevision e).

Definition opened {T} (msg bucket : string) (k : S -> res T * S) (s : S) : res T * S :=
  match kv_open bucket s with Some e => (Er (wrapf msg e), s) | None => k s end.
Definition reading {T} (f : S -> res T) (s : S) : res T * S := (f s, s).
Definition wrap_res {T} (msg : string) (r : res T) : res T := match r with Er e => Er (wrapf msg e) | r => r end.

(** [haveV2]: the client has the new API. *)
Definition CreateOrUpdate (haveV2 : bool) (c : KeyValueConfig) : S -> res unit * S :=
  guarded [ValidateBucketName (kcBucket c);
           if haveV2 then None else Some (wrapf "create or update kv bucket %q: %w" (Sentinel ErrJetStreamV2Required))]
    (fun s => match kv_upsert (toJetStreamKeyValueConfig c) s with
              | (Some e, s1) => (Er (wrapf "create or update kv bucket %q: %w" e), s1)
              | (None, s1) => opened "open kv bucket %q after create/update: %w" (kcBucket c) (reading (fun _ => Ok tt)) s1
              end).

Definition status_of (msg bucket : string) (s : S) : res KVBucketStatus :=
  match kv_status bucket s with Er e => Er (wrapf msg e) | Ok st => Ok (kvBucketStatusFrom st) end.

Definition CreateRaw (c : option KeyValueConfig) : S -> res KVBucketStatus * S := fun s =>
  match c with
  | None => (Er (wrapf "create kv bucket: %w" (Sentinel ErrEmptyConfigNotAllowed)), s)
  | Some c =>
      guarded [ValidateBucketName (kcBucket c)]
        (fun s => match kv_create c s with
                  | (Some e, s1) => (Er (wrapf "create kv bucket %q: %w" e), s1)
                  | (None, s1) => reading (status_of "create kv bucket %q: status: %w" (kcBucket c)) s1
                  end) s
  end.

Definition Open (bucket : string) : S -> res unit * S :=
  guarded [ValidateBucketName bucket] (opened "open kv bucket %q: %w" bucket (reading (fun _ => Ok tt))).

Definition err_res (r : option err * S) : res unit * S :=
  match r with (Some e, s) => (Er e, s) | (None, s) => (Ok tt, s) end.

Definition Delete (bucket : string) : S -> res unit * S :=
  guarded [ValidateBucketName bucket] (fun s => err_res (wrapped_err "delete kv bucket %q: %w" (kv_drop bucket) s)).

Fixpoint list_loop (names : list string) (s : S) : res (list KVBucketStatus) :=
  match names with
  | [] => Ok []
  | n :: names' =>
      guard_err match kv_open n s with Some e => Some (wrapf "list kv buckets: open %q: %w" e) | None => None end ;;
      st <-! status_of "list kv buckets: status %q: %w" n s ;;
      l <-! list_loop names' s ;;
      Ok (st :: l)
  end.
Definition ListBuckets (s : S) : res (list KVBucketStatus) := list_loop (kv_names s) s.

Definition BucketInfo (bucket : string) : S -> res KVBucketStatus * S :=
  guarded [ValidateBucketName bucket]
    (opened "kv bucket info %q: %w" bucket (reading (status_of "kv bucket info %q: status: %w" bucket))).

(** [None] is a panic of the paging. *)
Definition ListKeys (bucket : string) (offset limit : Z) (s : S) : option (res (list string * Z)) :=
  match ValidateBucketName bucket with
  | Some e => Some (Er e)
  | None =>
      match kv_open bucket s with
      | Some e => Some (Er (wrapf "list kv keys bucket=%q: %w" e))
      | None => list_page "list kv keys bucket=%q: %w" ErrNoKeysFound (kv_keys bucket s) offset limit
      end
  end.

Definition Get (bucket key : string) : S -> res KVEntry * S :=
  guarded [ValidateBucketName bucket; ValidateKVKey key]
    (opened "get kv bucket=%q key=%q: %w" bucket (reading (fun s =>
       match kv_get bucket key s with
       | Er e => Er (wrapf "get kv bucket=%q key=%q: %w" e)
       | Ok e => Ok (kvEntryFrom bucket e)
       end))).

Definition Put (other : S -> S) (bucket key value : string) : S -> res KVEntry * S :=
  guarded [ValidateBucketName bucket; ValidateKVKey key]
    (opened "put kv bucket=%q key=%q: %w" bucket (fun s =>
       match kv_put bucket key value s with
       | (Er e, s1) => (Er (wrapf "put kv bucket=%q key=%q: %w" e), s1)
       | (Ok rev, s1) =>
           let s2 := other s1 in
           match kv_get bucket key s2 with
           | Er e => (Er (wrapf "put kv bucket=%q key=%q: get after put (rev=%d): %w" e), s2)
           | Ok e => (Ok (kvEntryFrom bucket e), s2)
           end
       end)).

Definition DeleteKey (bucket key : string) : S -> res unit * S :=
  guarded [ValidateBucketName bucket; ValidateKVKey key]
    (opened "delete kv key bucket=%q key=%q: %w" bucket (fun s =>
       err_res (wrapped_err "delete kv key bucket=%q key=%q: %w" (kv_delete bucket key) s))).

Definition History (bucket key : string) : S -> res (list KVEntry) * S :=
  guarded [ValidateBucketName bucket; ValidateKVKey key]
    (opened "kv history bucket=%q key=%q: %w" bucket (reading (fun s =>
       match kv_history bucket key s with
       | Er e => Er (wrapf "kv history bucket=%q key=%q: %w" e)
       | Ok l => Ok (kvEntryFrom bucket <$> l)
       end))).

Lemma guarded_Ok {T} checks (k : S -> res T * S) s v s' :
  guarded checks k s = (Ok v, s') -> Forall (fun o => o = None) checks /\ k s = (Ok v, s').
Proof. destruct (guarded_cases checks k s) as [(e & _ & ->)|[H ->]]; [done|auto]. Qed.

Lemma guarded_none {T} checks (k : S -> res T * S) s : Forall (fun o => o = None) checks -> guarded checks k s = k s.
Proof.
  intros H. destruct (guarded_cases checks k s) as [(e & He & _)|[_ ->]]; [|done].
  by apply (Forall_elem _ _ _ H) in He.
Qed.

(** Two states on which the guarded calls answer the same. *)
Lemma guarded_ext {T} checks (k : S -> res T * S) s s' :
  (k s').1 = (k s).1 -> (guarded checks k s').1 = (guarded checks k s).1.
Proof. unfold guarded. by destruct (list_find _ _) as [[i [e|]]|]. Qed.

Lemma Get_ext b k (s s' : S) : kv_open b s' = kv_open b s -> kv_get b k s' = kv_get b k s -> (Get b k s').1 = (Get b k s).1.
Proof.
  intros Ho Hg. apply guarded_ext. unfold opened, reading. rewrite Ho. destruct (kv_open b s); [done|]. simpl. by rewrite Hg.
Qed.

Lemma opened_inv {T} msg b (k : S -> res T * S) s v s' :
  opened msg b k s = (Ok v, s') -> kv_open b s = None /\ k s = (Ok v, s').
Proof. unfold opened. destruct (kv_open b s); [done|auto]. Qed.

(** Writing and reading a key.  When no other client writes the key in
    between, a successful [Put] returns the value it wrote under the revision of
    that write, a following [Get] returns the same entry, and every other key
    of every bucket reads as before; after a successful [DeleteKey] the key
    cannot be read. *)
Theorem kv_put_get (bucket key value : string) (s s' : S) e :
  Put (fun s => s) bucket key value s = (Ok e, s') ->
  keBucket e = bucket /\ keKey e = key /\ keValue e = value /\
  (exists s1, kv_put bucket key value s = (Ok (keRevision e), s1)) /\
  (Get bucket key s').1 = Ok e /\
  (forall b k, (b, k) <> (bucket, key) -> (Get b k s').1 = (Get b k s).1) /\
  (forall s2, DeleteKey bucket key s' = (Ok tt, s2) -> exists err, (Get bucket key s2).1 = Er err).
Proof.
  intros [Hc [Ho H]%opened_inv]%guarded_Ok.
  pose proof (put_get bucket key value s) as Hp. pose proof (put_open bucket key value s) as Hop.
  pose proof (put_frame bucket key value s) as Hf.
  destruct (kv_put bucket key value s) as [[rev|err] s1]; [|done]. simpl in *.
  destruct (Hp rev s1 eq_refl) as (Ho1 & e0 & Hg & Hk & Hv & Hr). rewrite Hg in H. simplify_eq. simpl.
  split_and!; try done; [eauto| | |].
  - unfold Get. rewrite guarded_none by done. unfold opened, reading. rewrite Ho1. simpl. by rewrite Hg.
  - intros b k Hne. apply Get_ext; [apply Hop|by apply Hf].
  - intros s2 [_ [_ Hd]%opened_inv]%guarded_Ok. unfold err_res, wrapped_err in Hd.
    pose proof (delete_get bucket (keKey e0) s') as Hdg. destruct (kv_delete bucket (keKey e0) s') as [[er|] s3]; [done|].
    simplify_eq. destruct (Hdg s2 eq_refl) as [er Her].
    unfold Get. rewrite guarded_none by done. unfold opened, reading. destruct (kv_open bucket s2); simpl; rewrite ?Her; eauto.
Qed.

End Kv.
End Kv.

(** ** Object buckets *)

Module Obj.

Definition maxObjectGetBytes : Z := 64 * 2 ^ 20.

Record ObjectBucketStatus := OBStatus { osBucket : string; osDescription : string; osSize : Z }.
Record ObjectEntry := ObjEntry { oeModified : Z; oeBucket : string; oeName : string; oeData : string; oeSize : Z }.
Record ObjectStoreConfig := ObjCfg {
  ocBucket : string; ocDescription : string; ocTTL : Z; ocMaxBytes : Z; ocStorage : Z; ocReplicas : Z
}.
Definition toNatsObjectStoreConfig (c : ObjectStoreConfig) : ObjectStoreConfig :=
  ObjCfg (ocBucket c) (ocDescription c) (ocTTL c) (ocMaxBytes c) (if negb (ocStorage c =? 0) then ocStorage c else 0) (ocReplicas c).

(** Size and modification time of a stored object. *)
Record obj_info := OInfo { oiSize : Z; oiModTime : Z }.

(** nats.go's object buckets.  A put that succeeds has stored the bytes under the
    name and reports their number, as does the stored information, whose
    modification time is the server's and not the one the put reports; what the
    information of other objects says (a link reports no size) is left open. *)
Class ObjJs (S : Type) := {
  os_open : string -> S -> option err;
  os_status : string -> S -> res ObjectBucketStatus;
  os_all : S -> list ObjectBucketStatus;
  os_create : ObjectStoreConfig -> S -> option err * S;
  os_drop : string -> S -> option err * S;
  os_list : string -> S -> res (list string);
  os_info : string -> string -> S -> res obj_info;
  os_content : string -> string -> S -> res string;
  os_put : string -> string -> string -> S -> res obj_info * S;
  os_delete : string -> string -> S -> option err * S;
  put_content b n d s i s' : os_put b n d s = (Ok i, s') -> oiSize i = slen d /\
    os_open b s' = None /\ os_content b n s' = Ok d /\ exists j, os_info b n s' = Ok j /\ oiSize j = slen d
}.

(** [io.ReadFull] into a buffer of [n] bytes from a stream holding [content]. *)
Definition ReadFull (n : Z) (content : string) : res string :=
  if slen content <? n then Er (Sentinel ErrUnexpectedEOF) else Ok (substring 0 (Z.to_nat n) content).

Section Obj.
Context {S : Type} `{OJ : ObjJs S}.

Definition objectBucketStatusFrom (st : ObjectBucketStatus) : ObjectBucketStatus :=
  OBStatus (osBucket st) (osDescription st) (osSize st).
Definition ListBuckets (s : S) : res (list ObjectBucketStatus) := Ok (objectBucketStatusFrom <$> os_all s).

Definition status_of (msg bucket : string) (s : S) : res ObjectBucketStatus :=
  match os_status bucket s with Er e => Er (wrapf msg e) | Ok st => Ok (objectBucketStatusFrom st) end.

Definition createRaw (c : ObjectStoreConfig) (s : S) : res ObjectBucketStatus * S :=
  match os_create c s with
  | (Some e, s1) => (Er (wrapf "create object bucket %q: %w" e), s1)
  | (None, s1) => (status_of "create object bucket %q: status: %w" (ocBucket c) s1, s1)
  end.
Definition Create (c : ObjectStoreConfig) : S -> res ObjectBucketStatus * S :=
  guarded [ValidateBucketName (ocBucket c)] (createRaw (toNatsObjectStoreConfig c)).
Definition CreateRaw (c : option ObjectStoreConfig) (s : S) : res ObjectBucketStatus * S :=
  match c with
  | None => (Er (wrapf "create object bucket: %w" (Sentinel ErrEmptyConfigNotAllowed)), s)
  | Some c => guarded [ValidateBucketName (ocBucket c)] (createRaw c) s
  end.

Definition at_bucket {T} (msg bucket : string) (k : S -> res T * S) (s : S) : res T * S :=
  match os_open bucket s with Some e => (Er (wrapf msg e), s) | None => k s end.

Definition BucketInfo (bucket : string) : S -> res ObjectBucketStatus * S :=
  guarded [ValidateBucketName bucket]
    (at_bucket "object bucket info %q: %w" bucket (fun s => (status_of "object bucket info %q: status: %w" bucket s, s))).

Definition err_res (r : option err * S) : res unit * S :=
  match r with (Some e, s) => (Er e, s) | (None, s) => (Ok tt, s) end.
Definition Delete (bucket : string) : S -> res unit * S :=
  guarded [ValidateBucketName bucket] (fun s => err_res (wrapped_err "delete object bucket %q: %w" (os_drop bucket) s)).

Definition ListObjects (bucket : string) (offset limit : Z) (s : S) : option (res (list string * Z)) :=
  match ValidateBucketName bucket with
  | Some e => Some (Er e)
  | None =>
      match os_open bucket s with
      | Some e => Some (Er (wrapf "list objects bucket=%q: %w" e))
      | None => list_page "list objects bucket=%q: %w" ErrNoObjectsFound (os_list bucket s) offset limit
      end
  end.

Definition named (msg name : string) : option err := if IsEmpty name then Some (errorf msg) else None.

Definition Get (other : S -> S) (bucket name : string) : S -> res ObjectEntry * S :=
  guarded [ValidateBucketName bucket; named "get object bucket=%q: empty object name" name]
    (at_bucket "get object bucket=%q name=%q: %w" bucket (fun s =>
       match os_info bucket name s with
       | Er e => (Er (wrapf "get object info bucket=%q name=%q: %w" e), s)
       | Ok info =>
           if maxObjectGetBytes <? oiSize info
           then (Er (errorf "get object bucket=%q name=%q: size %d exceeds %d byte limit"), s)
           else
             let s1 := other s in
             match os_content bucket name s1 with
             | Er e => (Er (wrapf "get object bucket=%q name=%q: %w" e), s1)
             | Ok content =>
                 match (if 0 <? oiSize info then ReadFull (oiSize info) content else Ok "") with
                 | Er e => (Er (wrapf "get object read bucket=%q name=%q: %w" e), s1)
                 | Ok data => (Ok (ObjEntry (oiModTime info) bucket name data (oiSize info)), s1)
                 end
             end
       end)).

Definition Put (bucket name data : string) : S -> res ObjectEntry * S :=
  guarded [ValidateBucketName bucket; named "put object bucket=%q: empty object name" name]
    (at_bucket "put object bucket=%q name=%q: %w" bucket (fun s =>
       match os_put bucket name data s with
       | (Er e, s1) => (Er (wrapf "put object bucket=%q name=%q: %w" e), s1)
       | (Ok info, s1) => (Ok (ObjEntry (oiModTime info) bucket name data (oiSize info)), s1)
       end)).

Definition DeleteObject (bucket name : string) : S -> res unit * S :=
  guarded [ValidateBucketName bucket; named "delete object bucket=%q: empty object name" name]
    (at_bucket "delete object bucket=%q name=%q: %w" bucket (fun s =>
       err_res (wrapped_err "delete object bucket=%q name=%q: %w" (os_delete bucket name) s))).

Lemma length_take_str n c : String.length (substring 0 n c) = Nat.min n (String.length c).
Proof. revert n. induction c as [|a c IH]; intros [|n]; simpl; auto. Qed.

Lemma ReadFull_length n c d : 0 <= n -> ReadFull n c = Ok d -> slen d = n.
Proof.
  unfold ReadFull, slen. destruct (Z.ltb_spec (Z.of_nat (String.length c)) n); [done|]. intros Hn [= <-].
  rewrite length_take_str. lia.
Qed.

Lemma ReadFull_all c : ReadFull (slen c) c = Ok c.
Proof. unfold ReadFull. rewrite Z.ltb_irrefl. unfold slen. by rewrite Nat2Z.id, substring_all. Qed.

Lemma Put_inv bucket name data (s s' : S) e : Put bucket name data s = (Ok e, s') ->
  (exists t, e = ObjEntry t bucket name data (slen data)) /\ ValidateBucketName bucket = None /\ IsEmpty name = false /\
  os_open bucket s' = None /\ os_content bucket name s' = Ok data /\
  exists j, os_info bucket name s' = Ok j /\ oiSize j = slen data.
Proof.
  intros [Hc H]%Kv.guarded_Ok. unfold at_bucket in H. destruct (os_open bucket s); [done|].
  pose proof (put_content bucket name data s) as Hp. destruct (os_put bucket name data s) as [[i|] s1]; [|done]. simplify_eq.
  destruct (Hp i s' eq_refl) as (Hs & Ho & Hd & Hi).
  inversion Hc as [|? ? Hb Hc']; subst. inversion Hc' as [|? ? Hn _]; subst. unfold named in Hn.
  destruct (IsEmpty name) eqn:En; [done|]. rewrite Hs. split_and!; eauto.
Qed.

(** Reading back an object: its content up to the limit, an error beyond it. *)
Lemma Get_stored bucket name data i (s : S) :
  ValidateBucketName bucket = None -> IsEmpty name = false -> os_open bucket s = None ->
  os_info bucket name s = Ok i -> os_content bucket name s = Ok data -> oiSize i = slen data ->
  if maxObjectGetBytes <? slen data then exists e, (Get (fun s => s) bucket name s).1 = Er e
  else (Get (fun s => s) bucket name s).1 = Ok (ObjEntry (oiModTime i) bucket name data (oiSize i)).
Proof.
  intros Hb Hn Ho Hi Hd Hs. unfold Get, named. rewrite Hn, Kv.guarded_none by (by repeat constructor).
  unfold at_bucket. rewrite Ho, Hi, Hd, Hs. destruct (maxObjectGetBytes <? slen data); [eauto|].
  destruct (Z.ltb_spec 0 (slen data)) as [|Hz]; [by rewrite ReadFull_all|].
  destruct data; [done|]. unfold slen in Hz. simpl in Hz. lia.
Qed.

(** C31: object reads are bounded and round trips are exact.  Whatever other
    clients do, a successful [Get] returns exactly as many bytes as it
    reports, at most 64 MiB; and after a successful [Put] of at most 64 MiB, a
    [Get] with no write in between returns the entry [Put] returned (bucket,
    name, data and size), but for the modification time, which is the stored
    one. *)
Theorem object_put_get (bucket name data : string) (s s' : S) e :
  Put bucket name data s = (Ok e, s') -> slen data <= maxObjectGetBytes ->
  (exists t j, os_info bucket name s' = Ok j /\ e = ObjEntry t bucket name data (slen data) /\
     (Get (fun s => s) bucket name s').1 = Ok (ObjEntry (oiModTime j) bucket name data (slen data))) /\
  (forall other b n s0 x s1, 0 <= oeSize x -> Get other b n s0 = (Ok x, s1) -> slen (oeData x) = oeSize x /\ oeSize x <= maxObjectGetBytes).
Proof.
  intros ((t & ->) & Hb & Hn & Ho & Hd & j & Hi & Hs)%Put_inv Hle. pose proof (Get_stored _ _ _ _ _ Hb Hn Ho Hi Hd Hs) as Hg.
  split.
  - exists t, j. split; [done|]. split; [done|]. rewrite (proj2 (Z.ltb_ge _ _) Hle), Hs in Hg. done.
  - intros other b n s0 x s1 Hpos [_ H]%Kv.guarded_Ok. unfold at_bucket in H. destruct (os_open b s0); [done|].
    destruct (os_info b n s0) as [j0|]; [|done]. destruct (Z.ltb_spec maxObjectGetBytes (oiSize j0)); [done|].
    destruct (os_content b n (other s0)) as [c|]; [|done].
    destruct (Z.ltb_spec 0 (oiSize j0)) as [Hp|Hp].
    + destruct (ReadFull (oiSize j0) c) eqn:Er; [|done]. simplify_eq/=. split; [|lia]. by eapply ReadFull_length; [|done].
    + simplify_eq/=. split; [unfold slen; simpl|]; lia.
Qed.

End Obj.
End Obj.

(** ** Concrete buckets *)

Record kvs := KvState { kvData : gmap (string * string) (string * Z); kvRev : Z }.

Definition kvs_put (b k v : string) (s : kvs) : kvs := KvState (<[(b, k) := (v, kvRev s + 1)]> (kvData s)) (kvRev s + 1).
Definition kvs_del (b k : string) (s : kvs) : kvs := KvState (delete (b, k) (kvData s)) (kvRev s + 1).
Definition kvs_get (b k : string) (s : kvs) : res Kv.KVEntry :=
  match kvData s !! (b, k) with Some (v, r) => Ok (Kv.KvEntry 0 b k v r) | None => Er (errorf "key not found") end.

#[export, refine] Instance demo_kv : Kv.KvJs kvs := {
  Kv.kv_open b s := None;
  Kv.kv_status b s := Ok (Kv.BStatus b (Z.of_nat (size (kvData s))) 1);
  Kv.kv_names s := [];
  Kv.kv_keys b s := Ok (omap (fun x => if decide (x.1.1 = b) then Some x.1.2 else None) (map_to_list (kvData s)));
  Kv.kv_get := kvs_get;
  Kv.kv_put b k v s := (Ok (kvRev s + 1), kvs_put b k v s);
  Kv.kv_delete b k s := (None, kvs_del b k s);
  Kv.kv_history b k s := e <-! kvs_get b k s ;; Ok [e];
  Kv.kv_create c s := (None, s);
  Kv.kv_upsert c s := (None, s);
  Kv.kv_drop b s := (None, s)
}.
Proof.
  - intros b k v s rev s' [= <- <-]. split; [done|]. eexists. unfold kvs_get, kvs_put. simpl. by rewrite lookup_insert_eq.
  - intros b k v s k' b' Hne. unfold kvs_get, kvs_put. simpl. by rewrite lookup_insert_ne.
  - done.
  - intros b k v s rev s' [= <- <-]. eexists. split; [done|]. apply list_elem_of_omap. exists ((b, k), (v, kvRev s + 1)). simpl.
    rewrite decide_True by done. split; [|done]. apply elem_of_map_to_list. by rewrite lookup_insert_eq.
  - intros b k s l [= <-] ([[b' k'] [v r]] & Hx & Hk)%list_elem_of_omap. simpl in Hk. case_decide; simplify_eq.
    apply elem_of_map_to_list in Hx. unfold kvs_get. rewrite Hx. eauto.
  - intros b k s s' [= <-]. eexists. unfold kvs_get, kvs_del. simpl. by rewrite lookup_delete_eq.
  - intros b k s k' b' Hne. unfold kvs_get, kvs_del. simpl. by rewrite lookup_delete_ne.
Defined.

Definition no_keys : kvs := KvState ∅ 0.

Lemma kv_put_get_witness :
  exists e s', Kv.Put (fun s => s) "settings" "theme" "dark" no_keys = (Ok e, s') /\ Kv.keValue e = "dark" /\
    (Kv.Get "settings" "theme" s').1 = Ok e.
Proof.
  assert (Kv.Put (fun s => s) "settings" "theme" "dark" no_keys =
    (Ok (Kv.KvEntry 0 "settings" "theme" "dark" 1), kvs_put "settings" "theme" "dark" no_keys)) as H by (vm_compute; reflexivity).
  destruct (Kv.kv_put_get _ _ _ _ _ _ H) as (_ & _ & H1 & _ & H2 & _).
  eexists _, _. split; [exact H|]. split; [exact H1|exact H2].
Defined.

(** What [Put] returns is what is stored when it reads back, not what it
    wrote.  If another client writes the key in between, the caller gets that
    client's value and revision as its own; if another client deletes it, the
    call fails although the write succeeded. *)
Theorem kv_put_reports_other_write :
  (exists e, (Kv.Put (kvs_put "settings" "theme" "light") "settings" "theme" "dark" no_keys).1 = Ok e /\
     Kv.keValue e = "light" /\ Kv.keRevision e = 2) /\
  (exists err, (Kv.Put (kvs_del "settings" "theme") "settings" "theme" "dark" no_keys).1 = Er err).
Proof. split; eexists; [split_and!; vm_compute; reflexivity|vm_compute; reflexivity]. Qed.

Notation objs := (gmap (string * string) string).

(** Every object reads as stored at time 7; a put reports the writer's clock, 5. *)
#[export, refine] Instance demo_objs : Obj.ObjJs objs := {
  Obj.os_open b s := None;
  Obj.os_status b s := Ok (Obj.OBStatus b "" 0);
  Obj.os_all s := [];
  Obj.os_create c s := (None, s);
  Obj.os_drop b s := (None, s);
  Obj.os_list b s := match map_to_list s with [] => Er (Sentinel ErrNoObjectsFound) | l => Ok (List.map (fun x => x.1.2) l) end;
  Obj.os_info b n s := match s !! (b, n) with Some d => Ok (Obj.OInfo (slen d) 7) | None => Er (errorf "object not found") end;
  Obj.os_content b n s := match s !! (b, n) with Some d => Ok d | None => Er (errorf "object not found") end;
  Obj.os_put b n d s := (Ok (Obj.OInfo (slen d) 5), <[(b, n) := d]> s);
  Obj.os_delete b n s := (None, delete (b, n) s)
}.
Proof. intros b n d s i s' [= <- <-]. rewrite lookup_insert_eq. split_and!; eauto. Defined.

Lemma object_put_get_witness :
  exists e s', Obj.Put "assets" "logo" "<svg/>" ∅ = (Ok e, s') /\ Obj.oeModified e = 5 /\
    (Obj.Get (fun s => s) "assets" "logo" s').1 = Ok (Obj.ObjEntry 7 "assets" "logo" "<svg/>" 6).
Proof.
  assert (Obj.Put "assets" "logo" "<svg/>" (∅ : objs) =
    (Ok (Obj.ObjEntry 5 "assets" "logo" "<svg/>" 6), {[ ("assets", "logo") := "<svg/>" ]})) as H by (vm_compute; reflexivity).
  destruct (Obj.object_put_get _ _ _ _ _ _ H) as ((t & j & Hj & _ & H1) & _); [vm_compute; discriminate|].
  eexists _, _. split; [exact H|]. split; [reflexivity|]. rewrite H1. vm_compute in Hj. injection Hj as <-. reflexivity.
Defined.

(** An object replaced by a longer one while it is being read is returned
    cut to the old size without an error: the bytes are no version of the
    object. *)
Theorem object_get_torn :
  exists e, (Obj.Get (fun _ : objs => {[ ("assets", "logo") := "<svg>new</svg>" ]}) "assets" "logo"
     {[ ("assets", "logo") := "<svg/>" ]}).1 = Ok e /\ Obj.oeData e = "<svg>n".
Proof. eexists. split; vm_compute; reflexivity. Qed.
