(* ===== verification/Fingerprint.v ===== *)
(** * Behaviour fingerprint (behavior_fingerprint.go, behavior_fingerprint_kv.go)

    Learning a consumer's usual rate and latency and reporting when the latency
    regresses at an unchanged rate.  The watcher is a machine whose steps are
    one observed message, one tick of the polling loop, [Stop], a receive from
    the event channel and the end of the loop; each carries the clock it reads.
    Rates are IEEE doubles ([SpecFloat]), durations and times nanoseconds.  An
    event goes to the [OnAnomaly] callback and to the channel; [bad] is the
    conversion of a float that does not fit an int64. *)
From Stdlib Require Import SpecFloat Sorted.
From stdpp Require Import sorting.
From S2P Require Import Prelude GoStr Validate Pressure Watch Events Shadow Admin Buckets.

Definition f64_sub : spec_float -> spec_float -> spec_float := SFsub 53 1024.

Definition defaultBehaviorPollInterval : Z := 5 * Slow.second.
Definition defaultBehaviorWindow : Z := 60 * Slow.second.
Definition defaultBehaviorWarmup : Z := 300 * Slow.second.
Definition defaultBehaviorMinSamples : Z := 50.
Definition defaultBehaviorLatencyFactor : spec_float := f64_of_int 3.
Definition defaultBehaviorRateTolerance : spec_float := f64_ratio 3 10.
Definition defaultBehaviorSustainFor : Z := 30 * Slow.second.
Definition behaviorEventBuffer : nat := 16.
Definition behaviorLearnAlpha : spec_float := f64_ratio 5 100.
Definition behaviorHealthyAlpha : spec_float := f64_ratio 2 100.

Record BehaviorSnapshot := BSnap { MsgPerMin : spec_float; Processing : Z }.
Definition no_snapshot : BehaviorSnapshot := BSnap (f64_of_int 0) 0.

Record BehaviorAnomalyEvent := BEvent {
  beStream : string; beDurable : string; beNormal : BehaviorSnapshot; beCurrent : BehaviorSnapshot; beSustainedFor : Z
}.

(** [bReportKV]: a key-value manager is set. *)
Record BehaviorFingerprintConfig := BCfg {
  bReportKV : bool; bReportBucket : string; bPollInterval : Z; bWindow : Z; bWarmup : Z; bMinSamples : Z;
  bLatencyFactor : spec_float; bRateTolerance : spec_float; bSustainFor : Z; bCircuitStop : bool
}.

Definition behavior_withDefaults (c : BehaviorFingerprintConfig) : BehaviorFingerprintConfig :=
  BCfg (bReportKV c) (bReportBucket c) (pos_or (bPollInterval c) defaultBehaviorPollInterval)
    (pos_or (bWindow c) defaultBehaviorWindow) (pos_or (bWarmup c) defaultBehaviorWarmup)
    (pos_or (bMinSamples c) defaultBehaviorMinSamples) (Graduate.f64_pos_or (bLatencyFactor c) defaultBehaviorLatencyFactor)
    (Graduate.f64_pos_or (bRateTolerance c) defaultBehaviorRateTolerance) (pos_or (bSustainFor c) defaultBehaviorSustainFor)
    (bCircuitStop c).

Definition positive (s : BehaviorSnapshot) : bool := SFltb (f64_of_int 0) (MsgPerMin s) && (0 <? Processing s).

(** The band of rates treated as unchanged. *)
Definition rate_lo (c : BehaviorFingerprintConfig) (baseline : BehaviorSnapshot) : spec_float :=
  f64_mul (MsgPerMin baseline) (f64_sub (f64_of_int 1) (bRateTolerance c)).
Definition rate_hi (c : BehaviorFingerprintConfig) (baseline : BehaviorSnapshot) : spec_float :=
  f64_mul (MsgPerMin baseline) (f64_add (f64_of_int 1) (bRateTolerance c)).

Section Behavior.
Context (bad : spec_float -> Z).

Definition EvaluateBehaviorFingerprint (current baseline : BehaviorSnapshot) (cfg0 : BehaviorFingerprintConfig) : bool :=
  let cfg := behavior_withDefaults cfg0 in
  if SFleb (MsgPerMin baseline) (f64_of_int 0) || (Processing baseline <=? 0) then false
  else if SFleb (MsgPerMin current) (f64_of_int 0) || (Processing current <=? 0) then false
  else if SFltb (MsgPerMin current) (rate_lo cfg baseline) || SFltb (rate_hi cfg baseline) (MsgPerMin current) then false
  else Slow.f64_to_int bad (f64_mul (f64_of_int (Processing baseline)) (bLatencyFactor cfg)) <=? Processing current.

Definition nearBehaviorBaseline (current baseline : BehaviorSnapshot) (cfg : BehaviorFingerprintConfig) : bool :=
  if SFleb (MsgPerMin baseline) (f64_of_int 0) || (Processing baseline <=? 0) then false
  else if SFleb (MsgPerMin current) (f64_of_int 0) || (Processing current <=? 0) then false
  else if Slow.f64_to_int bad (f64_mul (f64_of_int (Processing baseline)) (f64_ratio 5 4)) <? Processing current then false
  else f64_ge (MsgPerMin current) (rate_lo cfg baseline) && SFleb (MsgPerMin current) (rate_hi cfg baseline).

Definition ewmaFloat (prev sample alpha : spec_float) : spec_float :=
  if SFeqb prev (f64_of_int 0) then sample
  else f64_add (f64_mul alpha sample) (f64_mul (f64_sub (f64_of_int 1) alpha) prev).

(** ** The watcher *)

Record behaviorSample := BSample { bsAt : Z; bsD : Z }.

(** [running]: the loop has not returned; [stopClosed]: [stopCh] is closed. *)
Record BehaviorFingerprint := BF {
  startedAt : Z; breachStart : Z; lastReportAt : option Z; stream : string; durable : string;
  samples : list behaviorSample; lastCurrent : BehaviorSnapshot; baselineRate : spec_float; totalObserved : Z;
  baselineLatency : Z; anomalous : bool; haveBaseline : bool; haveBreach : bool;
  stopClosed : bool; running : bool; events : list BehaviorAnomalyEvent
}.

Definition set_samples (l : list behaviorSample) (n : Z) (b : BehaviorFingerprint) : BehaviorFingerprint :=
  BF (startedAt b) (breachStart b) (lastReportAt b) (stream b) (durable b) l (lastCurrent b) (baselineRate b) n
    (baselineLatency b) (anomalous b) (haveBaseline b) (haveBreach b) (stopClosed b) (running b) (events b).
Definition set_current (cur : BehaviorSnapshot) (b : BehaviorFingerprint) : BehaviorFingerprint :=
  BF (startedAt b) (breachStart b) (lastReportAt b) (stream b) (durable b) (samples b) cur (baselineRate b) (totalObserved b)
    (baselineLatency b) (anomalous b) (haveBaseline b) (haveBreach b) (stopClosed b) (running b) (events b).
Definition set_baseline (rate : spec_float) (lat : Z) (b : BehaviorFingerprint) : BehaviorFingerprint :=
  BF (startedAt b) (breachStart b) (lastReportAt b) (stream b) (durable b) (samples b) (lastCurrent b) rate (totalObserved b)
    lat (anomalous b) true (haveBreach b) (stopClosed b) (running b) (events b).
Definition set_breach (start : Z) (have : bool) (b : BehaviorFingerprint) : BehaviorFingerprint :=
  BF (startedAt b) start (lastReportAt b) (stream b) (durable b) (samples b) (lastCurrent b) (baselineRate b) (totalObserved b)
    (baselineLatency b) (anomalous b) (haveBaseline b) have (stopClosed b) (running b) (events b).
Definition set_reported (now : Z) (b : BehaviorFingerprint) : BehaviorFingerprint :=
  BF (startedAt b) (breachStart b) (Some now) (stream b) (durable b) (samples b) (lastCurrent b) (baselineRate b) (totalObserved b)
    (baselineLatency b) (anomalous b) (haveBaseline b) (haveBreach b) (stopClosed b) (running b) (events b).
Definition set_anomalous (b : BehaviorFingerprint) : BehaviorFingerprint :=
  BF (startedAt b) (breachStart b) (lastReportAt b) (stream b) (durable b) (samples b) (lastCurrent b) (baselineRate b) (totalObserved b)
    (baselineLatency b) true (haveBaseline b) (haveBreach b) (stopClosed b) (running b) (events b).
Definition set_loop (closed run : bool) (evs : list BehaviorAnomalyEvent) (b : BehaviorFingerprint) : BehaviorFingerprint :=
  BF (startedAt b) (breachStart b) (lastReportAt b) (stream b) (durable b) (samples b) (lastCurrent b) (baselineRate b) (totalObserved b)
    (baselineLatency b) (anomalous b) (haveBaseline b) (haveBreach b) closed run evs.

(** [WatchBehaviorFingerprint]; [info] is what [sub.ConsumerInfo] returned. *)
Definition WatchBehaviorFingerprint (haveSub : bool) (info : option (string * string)) (now : Z)
  (cfg : BehaviorFingerprintConfig) : res (BehaviorFingerprintConfig * BehaviorFingerprint) :=
  if negb haveSub then Er (errorf "behavior fingerprint: subscription is nil") else
  let '(s, d) := default ("", "") info in
  Ok (behavior_withDefaults cfg,
      BF now 0 None s d [] no_snapshot (f64_of_int 0) 0 0 false false false false true []).

(** The client's helper: the key-value manager is the default report target, and
    [bf_Observe] is registered with the client's consumer, when it has one. *)
Definition client_WatchBehaviorFingerprint (haveKV haveConsumer haveSub : bool) (info : option (string * string)) (now : Z)
  (cfg : BehaviorFingerprintConfig) : res (BehaviorFingerprintConfig * BehaviorFingerprint) * bool :=
  let cfg' := BCfg (bReportKV cfg || haveKV) (bReportBucket cfg) (bPollInterval cfg) (bWindow cfg) (bWarmup cfg)
    (bMinSamples cfg) (bLatencyFactor cfg) (bRateTolerance cfg) (bSustainFor cfg) (bCircuitStop cfg) in
  match WatchBehaviorFingerprint haveSub info now cfg' with
  | Er e => (Er e, false)
  | Ok w => (Ok w, haveConsumer)
  end.

Context (cfg : BehaviorFingerprintConfig).

Fixpoint trim_samples (cut : Z) (l : list behaviorSample) : list behaviorSample :=
  match l with
  | [] => []
  | s :: l' => if bsAt s <? cut then trim_samples cut l' else l
  end.
Definition trimLocked (now : Z) (b : BehaviorFingerprint) : BehaviorFingerprint :=
  set_samples (trim_samples (now - bWindow cfg) (samples b)) (totalObserved b) b.

Definition bf_Observe (now elapsed : Z) (b : BehaviorFingerprint) : BehaviorFingerprint :=
  if elapsed <? 0 then b
  else trimLocked now (set_samples (samples b ++ [BSample now elapsed]) (totalObserved b + 1) b).

(** [Duration.Minutes] *)
Definition minute : Z := 60 * Slow.second.
Definition Minutes (d : Z) : spec_float :=
  f64_add (f64_of_int (Z.quot d minute)) (f64_div (f64_of_int (Z.rem d minute)) (f64_of_int minute)).

Definition sum_samples (l : list behaviorSample) : Z := foldl (fun sum s => i64 (sum + bsD s)) 0 l.
Definition windowStatsLocked (b : BehaviorFingerprint) : BehaviorSnapshot :=
  let n := Z.of_nat (length (samples b)) in
  if n =? 0 then no_snapshot
  else
    let mean := Z.quot (sum_samples (samples b)) n in
    let window := if bWindow cfg <=? 0 then defaultBehaviorWindow else bWindow cfg in
    BSnap (f64_div (f64_of_int n) (Minutes window)) mean.

Definition updateBaselineLocked (current : BehaviorSnapshot) (alpha : spec_float) (b : BehaviorFingerprint) : BehaviorFingerprint :=
  if negb (haveBaseline b) then set_baseline (MsgPerMin current) (Processing current) b
  else set_baseline (ewmaFloat (baselineRate b) (MsgPerMin current) alpha)
         (Slow.f64_to_int bad (ewmaFloat (f64_of_int (baselineLatency b)) (f64_of_int (Processing current)) alpha)) b.

Definition shouldReportLocked (now : Z) (b : BehaviorFingerprint) : bool :=
  if negb (bReportKV cfg) then false
  else match lastReportAt b with None => true | Some t => bWindow cfg <=? now - t end.

Definition normal_of (b : BehaviorFingerprint) : BehaviorSnapshot := BSnap (baselineRate b) (baselineLatency b).

(** [Snapshot]: the baseline, the latest window and whether there is a baseline. *)
Definition bf_Snapshot (b : BehaviorFingerprint) : BehaviorSnapshot * BehaviorSnapshot * bool :=
  (normal_of b, lastCurrent b, haveBaseline b).

(** A report handed to [reportKV]. *)
Record report := Report { rAnomaly : bool; rNormal : BehaviorSnapshot; rCurrent : BehaviorSnapshot; rSustained : Z }.
Inductive verdict := Learning | Healthy | Anomaly.
#[export] Instance verdict_eq_dec : EqDecision verdict.
Proof. solve_decision. Defined.
(** What one tick saw and did. *)
Record tick_out := TickOut {
  toNow : Z; toNormal : BehaviorSnapshot; toCurrent : BehaviorSnapshot; toVerdict : verdict;
  toEvent : option BehaviorAnomalyEvent; toReport : option report
}.

(** The warm-up conditions at time [now]. *)
Definition learning (now : Z) (b : BehaviorFingerprint) : bool :=
  (now - startedAt b <? bWarmup cfg) || (totalObserved b <? bMinSamples cfg) || (now - startedAt b <? bWindow cfg).

Definition bf_tick (now : Z) (b0 : BehaviorFingerprint) : BehaviorFingerprint * tick_out :=
  let b1 := trimLocked now b0 in
  let current := windowStatsLocked b1 in
  let b := set_current current b1 in
  let normal := normal_of b in
  let ready := haveBaseline b in
  let anomalyNow := ready && negb (learning now b) && positive current && EvaluateBehaviorFingerprint current normal cfg in
  if learning now b || negb ready then
    let b' := if positive current then updateBaselineLocked current behaviorLearnAlpha b else b in
    (set_breach 0 false b', TickOut now normal current Learning None None)
  else if negb anomalyNow then
    let b' := if nearBehaviorBaseline current normal cfg then updateBaselineLocked current behaviorHealthyAlpha b else b in
    let b'' := set_breach 0 false b' in
    if shouldReportLocked now b''
    then (set_reported now b'', TickOut now normal current Healthy None (Some (Report false normal current 0)))
    else (b'', TickOut now normal current Healthy None None)
  else
    let b' := if haveBreach b then b else set_breach now true b in
    let sustained := now - breachStart b' in
    if sustained <? bSustainFor cfg then (b', TickOut now normal current Anomaly None None)
    else if anomalous b' && negb (bCircuitStop cfg) then (b', TickOut now normal current Anomaly None None)
    else
      let ev := BEvent (stream b') (durable b') normal current sustained in
      let b'' := set_reported now (set_breach 0 false (set_anomalous b')) in
      (set_loop (stopClosed b'' || bCircuitStop cfg) (running b'') (trySend behaviorEventBuffer (events b'') ev) b'',
       TickOut now normal current Anomaly (Some ev) (Some (Report true normal current sustained))).

Inductive blabel :=
  | BObserve (now elapsed : Z)     (* a message has been handled *)
  | BTick (now : Z)                (* the select takes the ticker *)
  | BStop                          (* Stop() *)
  | BExit                          (* the select takes stopCh or ctx.Done *)
  | BRecv.                         (* a receive from Events() *)

(** A closed [stopCh] and a pending tick are both ready in the select, so a tick
    may still be taken after [Stop]. *)
Definition bf_step (l : blabel) (b : BehaviorFingerprint) : option (BehaviorFingerprint * list tick_out) :=
  match l with
  | BObserve now d => Some (bf_Observe now d b, [])
  | BTick now => if running b then let '(b', o) := bf_tick now b in Some (b', [o]) else None
  | BStop => Some (set_loop true (running b) (events b) b, [])
  | BExit => if running b then Some (set_loop (stopClosed b) false (events b) b, []) else None
  | BRecv => match events b with [] => None | _ :: evs => Some (set_loop (stopClosed b) (running b) evs b, []) end
  end.

Fixpoint brun (ls : list blabel) (b : BehaviorFingerprint) : option (BehaviorFingerprint * list tick_out) :=
  match ls with
  | [] => Some (b, [])
  | l :: ls' =>
      match bf_step l b with
      | None => None
      | Some (b1, o1) => match brun ls' b1 with None => None | Some (b2, o2) => Some (b2, o1 ++ o2) end
      end
  end.

(** ** Reports in the key-value bucket *)

Definition DefaultBehaviorFingerprintKVBucket : string := "nats_consol_fingerprints".
Record BehaviorFingerprintKVSnapshot := KVSnap { ksMsgPerMin : spec_float; ksProcessingMs : spec_float }.
Record BehaviorFingerprintKVPayload := KVPayload {
  kpUpdatedAt : Z; kpStream : string; kpDurable : string; kpNormal : BehaviorFingerprintKVSnapshot;
  kpCurrent : BehaviorFingerprintKVSnapshot; kpSustainedForMs : Z; kpAnomaly : bool
}.

Definition BehaviorFingerprintKVKey (stream durable : string) : string := TrimSpace stream +:+ "/" +:+ TrimSpace durable.
Definition millisecond : Z := 1000000.
Definition SnapshotToKV (s : BehaviorSnapshot) : BehaviorFingerprintKVSnapshot :=
  KVSnap (MsgPerMin s) (f64_div (f64_of_int (Processing s)) (f64_of_int millisecond)).

(** [at_]: a non-zero time; [now]: the clock otherwise. *)
Definition payload_of (stream durable : string) (r : report) (at_ : option Z) (now : Z) : BehaviorFingerprintKVPayload :=
  KVPayload (default now at_) (TrimSpace stream) (TrimSpace durable) (SnapshotToKV (rNormal r)) (SnapshotToKV (rCurrent r))
    (Z.quot (rSustained r) millisecond) (rAnomaly r).

Section Report.
Context {S : Type} `{KJ : Kv.KvJs S}.
(** [json.Marshal] on the payload type *)
Variable marshal : BehaviorFingerprintKVPayload -> res string.

Definition MarshalBehaviorFingerprintKV (stream durable : string) (r : report) (at_ : option Z) (now : Z) : res string :=
  marshal (payload_of stream durable r at_ now).

Definition ReportBehaviorFingerprintKV (haveKeys : bool) (bucket stream durable : string) (r : report) (now : Z) (s : S)
  : option err * S :=
  if negb haveKeys then (Some (errorf "behavior fingerprint report: kv keys is nil"), s) else
  let bucket := if IsEmpty (TrimSpace bucket) then DefaultBehaviorFingerprintKVBucket else TrimSpace bucket in
  match MarshalBehaviorFingerprintKV stream durable r (Some now) now with
  | Er e => (Some e, s)
  | Ok raw =>
      match Kv.Put (fun s => s) bucket (BehaviorFingerprintKVKey stream durable) raw s with
      | (Er e, s') => (Some e, s')
      | (Ok _, s') => (None, s')
      end
  end.

(** The watcher's method: a failed report is only logged. *)
Definition reportKV (stream durable : string) (r : report) (now : Z) (s : S) : S :=
  if negb (bReportKV cfg) || IsEmpty stream || IsEmpty durable then s
  else (ReportBehaviorFingerprintKV (bReportKV cfg) (bReportBucket cfg) stream durable r now s).2.

(** A tick and the report it makes. *)
Definition tick_reporting (now : Z) (b : BehaviorFingerprint) (s : S) : BehaviorFingerprint * tick_out * S :=
  let '(b', o) := bf_tick now b in
  (b', o, match toReport o with Some r => reportKV (stream b) (durable b) r now s | None => s end).

End Report.

(** ** The sample window *)

(** The clock a step reads under the lock. *)
Definition label_clock (l : blabel) : option Z :=
  match l with BObserve now d => if d <? 0 then None else Some now | BTick now => Some now | _ => None end.
(** The clock after a sequence of steps, and that it never went back. *)
Fixpoint clock (t : Z) (ls : list blabel) : Z :=
  match ls with [] => t | l :: ls' => clock (default t (label_clock l)) ls' end.
Fixpoint monotone (t : Z) (ls : list blabel) : bool :=
  match ls with [] => true | l :: ls' => (t <=? default t (label_clock l)) && monotone (default t (label_clock l)) ls' end.
Definition observation (l : blabel) : option behaviorSample :=
  match l with BObserve now d => if d <? 0 then None else Some (BSample now d) | _ => None end.
Definition observations (ls : list blabel) : list behaviorSample := omap observation ls.
Definition recent (cut : Z) (l : list behaviorSample) : list behaviorSample := filter (fun s => cut <= bsAt s) l.

Definition earlier (s s' : behaviorSample) : Prop := bsAt s <= bsAt s'.

Lemma recent_all cut l : Forall (fun s => cut <= bsAt s) l -> recent cut l = l.
Proof. induction 1 as [|s l H _ IH]; [done|]. unfold recent in *. by rewrite filter_cons_True, IH. Qed.

Lemma recent_recent c c' l : c <= c' -> recent c' (recent c l) = recent c' l.
Proof. intros H. unfold recent. apply list_filter_filter_l. intros s. lia. Qed.

Lemma sorted_recent c l : StronglySorted earlier l -> StronglySorted earlier (recent c l).
Proof.
  induction 1 as [|s l _ IH H]; [constructor|]. unfold recent in *. rewrite filter_cons. case_decide; [|done].
  constructor; [done|]. apply List.Forall_forall. intros s' [_ Hin]%list_elem_of_In%list_elem_of_filter. exact (Forall_elem _ _ _ H Hin).
Qed.

Lemma trim_recent cut l : StronglySorted earlier l -> trim_samples cut l = recent cut l.
Proof.
  induction 1 as [|s l _ IH H]; [done|]. simpl. destruct (Z.ltb_spec (bsAt s) cut).
  - unfold recent. rewrite filter_cons_False by lia. exact IH.
  - symmetry. apply recent_all. constructor; [done|]. eapply Forall_impl; [|exact H]. unfold earlier. simpl. lia.
Qed.

(** The samples kept are those of the window that ends at the last clock. *)
Definition window_ok (t : Z) (hist : list behaviorSample) (b : BehaviorFingerprint) : Prop :=
  samples b = recent (t - bWindow cfg) hist /\ totalObserved b = Z.of_nat (length hist) /\
  StronglySorted earlier hist /\ Forall (fun s => bsAt s <= t) hist.

Lemma sorted_snoc l s : StronglySorted earlier l -> Forall (fun s' => bsAt s' <= bsAt s) l -> StronglySorted earlier (l ++ [s]).
Proof.
  intros H1 H2. apply StronglySorted_app. split_and!; [|done|by repeat constructor].
  intros x y Hx ->%list_elem_of_singleton. exact (Forall_elem _ _ _ H2 Hx).
Qed.

Lemma trim_window now t hist b : window_ok t hist b -> t <= now -> window_ok now hist (trimLocked now b).
Proof.
  intros (H1 & H2 & H3 & H4) Ht. split_and!; [|done|done|].
  - simpl. rewrite H1, trim_recent by by apply sorted_recent. apply recent_recent. lia.
  - eapply Forall_impl; [|exact H4]. unfold earlier. simpl. lia.
Qed.

Lemma append_window now d t hist b : 0 <= bWindow cfg -> window_ok t hist b -> t <= now ->
  window_ok now (hist ++ [BSample now d]) (trimLocked now (set_samples (samples b ++ [BSample now d]) (totalObserved b + 1) b)).
Proof.
  intros Hw (H1 & H2 & H3 & H4) Ht.
  assert (StronglySorted earlier (hist ++ [BSample now d])) as Hs.
  { apply sorted_snoc; [done|]. eapply Forall_impl; [|exact H4]. unfold earlier. simpl. lia. }
  split_and!; [|simpl; rewrite length_app; simpl; lia|done|].
  - simpl. rewrite H1.
    assert (recent (t - bWindow cfg) hist ++ [BSample now d] = recent (t - bWindow cfg) (hist ++ [BSample now d])) as ->.
    { unfold recent. rewrite list.filter_app. f_equal. by rewrite filter_cons_True by (simpl; lia). }
    rewrite trim_recent by by apply sorted_recent. apply recent_recent. lia.
  - apply Forall_app. split; [eapply Forall_impl; [|exact H4]; simpl; lia|]. constructor; [simpl; lia|done].
Qed.

(** A tick changes the samples and the count only by trimming. *)
Lemma tick_samples now b : samples (bf_tick now b).1 = samples (trimLocked now b) /\ totalObserved (bf_tick now b).1 = totalObserved b.
Proof. unfold bf_tick. cbv zeta. repeat (case_match; simpl; try done); unfold updateBaselineLocked; by repeat case_match. Qed.

Lemma step_window l t hist b b' o : 0 <= bWindow cfg -> window_ok t hist b -> t <= default t (label_clock l) ->
  bf_step l b = Some (b', o) -> window_ok (default t (label_clock l)) (hist ++ option_list (observation l)) b'.
Proof.
  intros Hw H Ht Hs. destruct l as [now d|now| | |]; simpl in *; rewrite ?app_nil_r.
  - injection Hs as <- <-. unfold bf_Observe. destruct (d <? 0); simpl in *; [by rewrite app_nil_r|]. by apply append_window with t.
  - destruct (running b); [|done]. destruct (bf_tick now b) as [b1 o1] eqn:E. injection Hs as <- <-.
    destruct (tick_samples now b) as [E1 E2]. rewrite E in E1, E2. simpl in E1, E2.
    destruct (trim_window now t hist b H Ht) as (H1 & H2 & H3 & H4). by split_and!; rewrite ?E1, ?E2.
  - injection Hs as <- <-. exact H.
  - destruct (running b); [|done]. injection Hs as <- <-. exact H.
  - destruct (events b); [done|]. injection Hs as <- <-. exact H.
Qed.

Lemma run_window ls t hist b b' o : 0 <= bWindow cfg -> window_ok t hist b -> monotone t ls = true ->
  brun ls b = Some (b', o) -> window_ok (clock t ls) (hist ++ observations ls) b'.
Proof.
  intros Hw. revert t hist b o. induction ls as [|l ls IH]; intros t hist b o H Hm Hr; simpl in *.
  - injection Hr as <- <-. by rewrite app_nil_r.
  - apply andb_true_iff in Hm as [Ht%Z.leb_le Hm]. destruct (bf_step l b) as [[b1 o1]|] eqn:E; [|done].
    destruct (brun ls b1) as [[b2 o2]|] eqn:E2; [|done]. injection Hr as -> <-.
    pose proof (IH _ _ _ _ (step_window _ _ _ _ _ _ Hw H Ht E) Hm E2) as Hi.
    rewrite <- app_assoc in Hi. unfold observations in *. simpl. by destruct (observation l).
Qed.

Lemma watch_init info t0 cfg0 b0 : WatchBehaviorFingerprint true info t0 cfg0 = Ok (cfg, b0) ->
  cfg = behavior_withDefaults cfg0 /\ 0 < bWindow cfg /\ 0 < bSustainFor cfg /\ window_ok t0 [] b0 /\
  anomalous b0 = false /\ haveBreach b0 = false /\ startedAt b0 = t0.
Proof.
  unfold WatchBehaviorFingerprint. destruct (default _ info) as [s d]. simpl. intros [= <- <-].
  assert (forall x y, 0 < y -> 0 < pos_or x y) as Hp by (intros x y ?; unfold pos_or; destruct (Z.leb_spec x 0); lia).
  split_and!; try done; [apply Hp|apply Hp|split_and!; try done; constructor]; unfold defaultBehaviorWindow, defaultBehaviorSustainFor, Slow.second; lia.
Qed.

(** The window is exact.  After any interleaving of observed messages and
    ticks on a clock that does not go back, the samples kept are exactly the
    observations of the last [Window], in order, and the total counts them all. *)
Theorem samples_are_window info t0 cfg0 b0 ls b outs :
  WatchBehaviorFingerprint true info t0 cfg0 = Ok (cfg, b0) -> monotone t0 ls = true -> brun ls b0 = Some (b, outs) ->
  samples b = recent (clock t0 ls - bWindow cfg) (observations ls) /\ totalObserved b = Z.of_nat (length (observations ls)).
Proof.
  intros (_ & Hw & _ & H0 & _)%watch_init Hm Hr.
  destruct (run_window ls t0 [] b0 b outs ltac:(lia) H0 Hm Hr) as (H1 & H2 & _). auto.
Qed.

(** ** When an anomaly is reported *)

Lemma update_frame cur alpha b : let b' := updateBaselineLocked cur alpha b in
  startedAt b' = startedAt b /\ anomalous b' = anomalous b.
Proof. unfold updateBaselineLocked. by destruct (haveBaseline b). Qed.

(** The fields a breach run depends on. *)
Lemma tick_cases now b : let o := (bf_tick now b).2 in let b' := (bf_tick now b).1 in
  toNow o = now /\ toNormal o = normal_of b /\ startedAt b' = startedAt b /\
  match toVerdict o with
  | Anomaly =>
      EvaluateBehaviorFingerprint (toCurrent o) (normal_of b) cfg = true /\ bWarmup cfg <= now - startedAt b /\
      bMinSamples cfg <= totalObserved b /\ haveBaseline b = true /\ normal_of b' = normal_of b /\
      let start := if haveBreach b then breachStart b else now in
      if (bSustainFor cfg <=? now - start) && (bCircuitStop cfg || negb (anomalous b))
      then toEvent o = Some (BEvent (stream b) (durable b) (normal_of b) (toCurrent o) (now - start)) /\
           toReport o = Some (Report true (normal_of b) (toCurrent o) (now - start)) /\
           haveBreach b' = false /\ anomalous b' = true
      else toEvent o = None /\ toReport o = None /\ haveBreach b' = true /\ breachStart b' = start /\ anomalous b' = anomalous b
  | _ => toEvent o = None /\ haveBreach b' = false /\ anomalous b' = anomalous b /\ (forall r, toReport o = Some r -> rAnomaly r = false)
  end.
Proof.
  unfold bf_tick. cbv zeta.
  set (b1 := set_current (windowStatsLocked (trimLocked now b)) (trimLocked now b)).
  change (haveBaseline b1) with (haveBaseline b). change (normal_of b1) with (normal_of b).
  change (haveBreach b1) with (haveBreach b).
  set (cur := windowStatsLocked (trimLocked now b)).
  pose proof (update_frame cur behaviorLearnAlpha b1) as [U1 U2].
  pose proof (update_frame cur behaviorHealthyAlpha b1) as [V1 V2].
  destruct (learning now b1) eqn:El; simpl.
  { destruct (positive cur); simpl; split_and!; done. }
  destruct (haveBaseline b) eqn:Eb; simpl; [|destruct (positive cur); simpl; split_and!; done].
  unfold learning in El. rewrite !orb_false_iff, !Z.ltb_ge in El. destruct El as [[L1 L2] L3].
  change (startedAt b1) with (startedAt b) in *. change (totalObserved b1) with (totalObserved b) in *.
  destruct (positive cur && EvaluateBehaviorFingerprint cur (normal_of b) cfg) eqn:Ea; simpl.
  - apply andb_true_iff in Ea as [_ Ea].
    assert (breachStart (if haveBreach b then b1 else set_breach now true b1) = if haveBreach b then breachStart b else now) as ->
      by by destruct (haveBreach b).
    assert (anomalous (if haveBreach b then b1 else set_breach now true b1) = anomalous b) as -> by by destruct (haveBreach b).
    set (start := if haveBreach b then breachStart b else now).
    rewrite Z.ltb_antisym. destruct (bSustainFor cfg <=? now - start); simpl.
    + destruct (anomalous b) eqn:An, (bCircuitStop cfg); simpl; unfold start; destruct (haveBreach b) eqn:Hh; simpl; split_and!; done.
    + unfold start. destruct (haveBreach b) eqn:Hh; simpl; split_and!; done.
  - destruct (nearBehaviorBaseline cur (normal_of b) cfg); destruct (shouldReportLocked _ _); simpl; split_and!; try done; by intros r [= <-].
Qed.

(** A tick inside a breach: anomalous, and not yet reported. *)
Definition in_run (o : tick_out) : bool :=
  match toVerdict o, toEvent o with Anomaly, None => true | _, _ => false end.
(** The unbroken run of such ticks at the end (latest first), and when it began. *)
Fixpoint run_of (rev_outs : list tick_out) : list tick_out :=
  match rev_outs with o :: l => if in_run o then o :: run_of l else [] | [] => [] end.
Fixpoint run_start (now : Z) (rev_outs : list tick_out) : Z :=
  match rev_outs with o :: l => if in_run o then run_start (toNow o) l else now | [] => now end.
Definition reported (o : tick_out) : bool := match toEvent o with Some _ => true | None => false end.

Definition tracks (outs : list tick_out) (b : BehaviorFingerprint) : Prop :=
  anomalous b = existsb reported outs /\
  (forall now, (if haveBreach b then breachStart b else now) = run_start now (reverse outs)) /\
  Forall (fun o => toNormal o = normal_of b) (run_of (reverse outs)).

Lemma tracks_tick outs b now : tracks outs b -> tracks (outs ++ [(bf_tick now b).2]) (bf_tick now b).1.
Proof.
  intros (H1 & H2 & H3). pose proof (tick_cases now b) as H. cbv zeta in H.
  destruct (bf_tick now b) as [b' o]. simpl in *. destruct H as (Hn & Hb & _ & H).
  unfold tracks. rewrite reverse_snoc, existsb_app, <- H1. simpl. unfold in_run, reported.
  destruct (toVerdict o).
  - destruct H as (-> & Hh & -> & _). rewrite Hh. split_and!; [by destruct (anomalous b)|done|constructor].
  - destruct H as (-> & Hh & -> & _). rewrite Hh. split_and!; [by destruct (anomalous b)|done|constructor].
  - destruct H as (_ & _ & _ & _ & Hnb & H). specialize (H2 now). rewrite H2 in H. destruct (_ && _).
    + destruct H as (-> & _ & Hh & ->). rewrite Hh. split_and!; [by destruct (anomalous b)|done|constructor].
    + destruct H as (-> & _ & Hh & -> & ->). rewrite Hh, Hn. split_and!; [by destruct (anomalous b)|by intros|].
      constructor; [congruence|]. by rewrite Hnb.
Qed.

Lemma tracks_step l outs b b' o : tracks outs b -> bf_step l b = Some (b', o) -> tracks (outs ++ o) b'.
Proof.
  intros H Hs. destruct l as [now d|now| | |]; simpl in Hs.
  - injection Hs as <- <-. rewrite app_nil_r. unfold bf_Observe. by destruct (d <? 0).
  - destruct (running b); [|done]. pose proof (tracks_tick outs b now H) as Ht. destruct (bf_tick now b). by injection Hs as <- <-.
  - injection Hs as <- <-. by rewrite app_nil_r.
  - destruct (running b); [|done]. injection Hs as <- <-. by rewrite app_nil_r.
  - destruct (events b); [done|]. injection Hs as <- <-. by rewrite app_nil_r.
Qed.

Lemma tracks_run ls outs b b' o : tracks outs b -> brun ls b = Some (b', o) -> tracks (outs ++ o) b'.
Proof.
  revert outs b o. induction ls as [|l ls IH]; intros outs b o H Hr; simpl in Hr.
  - injection Hr as <- <-. by rewrite app_nil_r.
  - destruct (bf_step l b) as [[b1 o1]|] eqn:E; [|done]. destruct (brun ls b1) as [[b2 o2]|] eqn:E2; [|done].
    injection Hr as -> <-. rewrite app_assoc. eauto using tracks_step.
Qed.

Lemma tracks_init info t0 cfg0 b0 : WatchBehaviorFingerprint true info t0 cfg0 = Ok (cfg, b0) -> tracks [] b0.
Proof. intros (_ & _ & _ & _ & H1 & H2 & _)%watch_init. unfold tracks. rewrite H1, H2. by split_and!. Qed.

(** C35: an anomaly is reported exactly when it is sustained.  After any history
    of observations and ticks, the next tick emits an event if and only if it
    finds the window anomalous, the unbroken run of anomalous ticks that ends
    with it has lasted [SustainFor], and it is the first event or the watcher
    is set to stop.  The event then carries the length of that run, and the
    baseline it is compared with has not moved since the run began. *)
Theorem anomaly_exact info t0 cfg0 b0 ls b outs now :
  WatchBehaviorFingerprint true info t0 cfg0 = Ok (cfg, b0) -> brun ls b0 = Some (b, outs) ->
  let o := (bf_tick now b).2 in
  let since := run_start now (reverse outs) in
  ((exists ev, toEvent o = Some ev) <->
     toVerdict o = Anomaly /\ bSustainFor cfg <= now - since /\ (bCircuitStop cfg = true \/ existsb reported outs = false)) /\
  (forall ev, toEvent o = Some ev ->
     beSustainedFor ev = now - since /\ Forall (fun o' => toNormal o' = beNormal ev) (o :: run_of (reverse outs)) /\
     EvaluateBehaviorFingerprint (beCurrent ev) (beNormal ev) cfg = true /\ bWarmup cfg <= now - startedAt b /\
     bMinSamples cfg <= totalObserved b /\ toReport o = Some (Report true (beNormal ev) (beCurrent ev) (beSustainedFor ev))).
Proof.
  intros H0%tracks_init Hr. destruct (tracks_run _ _ _ _ _ H0 Hr) as (H1 & H2 & H3). simpl in *.
  pose proof (tick_cases now b) as H. cbv zeta in H. rewrite (H2 now) in H.
  destruct (bf_tick now b) as [b' o]. simpl in *. destruct H as (Hn & Hb & _ & H).
  destruct (toVerdict o); [destruct H as (-> & _)..|].
  1,2: split; [split; [by intros [? ?]|by intros (? & _)]|done].
  destruct H as (He & Hw & Hm & _ & _ & H). rewrite <- H1.
  destruct (Z.leb_spec (bSustainFor cfg) (now - run_start now (reverse outs))); simpl in H;
    [|destruct H as (-> & _); split; [split; [by intros [? ?]|intros (_ & ? & _); lia]|done]].
  destruct (bCircuitStop cfg || negb (anomalous b)) eqn:Ec; [destruct H as (-> & Hrep & _)|destruct H as (-> & _)].
  - split.
    + split; [intros _; split_and!; [done|lia|]|eauto]. destruct (bCircuitStop cfg); [by left|right; by destruct (anomalous b)].
    + intros ev [= <-]. simpl. split_and!; try done. constructor; [done|exact H3].
  - split; [|done]. split; [by intros [? ?]|]. intros (_ & _ & [Hc|Hc]); rewrite Hc in Ec; [done|by rewrite orb_true_r in Ec].
Qed.

(** A watcher that has reported and is not set to stop. *)
Lemma spent_step l b b' o : anomalous b = true -> bCircuitStop cfg = false -> bf_step l b = Some (b', o) ->
  anomalous b' = true /\ Forall (fun o => toEvent o = None /\ forall r, toReport o = Some r -> rAnomaly r = false) o.
Proof.
  intros Ha Hc Hs. destruct l as [now d|now| | |]; simpl in Hs.
  - injection Hs as <- <-. unfold bf_Observe. by destruct (d <? 0).
  - destruct (running b); [|done]. pose proof (tick_cases now b) as H. cbv zeta in H. destruct (bf_tick now b) as [b1 o1].
    injection Hs as <- <-. simpl in H. destruct H as (_ & _ & _ & H). rewrite Ha, Hc in H. simpl in H. rewrite andb_false_r in H.
    destruct (toVerdict o1).
    + destruct H as (H1 & _ & H2 & H3). split; [done|]. by repeat constructor.
    + destruct H as (H1 & _ & H2 & H3). split; [done|]. by repeat constructor.
    + destruct H as (_ & _ & _ & _ & _ & H1 & H2 & _ & _ & H3). split; [done|]. repeat constructor; [done|]. by rewrite H2.
  - by injection Hs as <- <-.
  - destruct (running b); [|done]. by injection Hs as <- <-.
  - destruct (events b); [done|]. by injection Hs as <- <-.
Qed.

(** A second regression is not reported.  Once a watcher that is not set to
    stop has emitted its event, no later tick emits another one, and every later
    report to the key-value bucket says that there is no anomaly, however often
    the consumer recovers and regresses again. *)
Theorem later_anomalies_silent ls b b' outs :
  anomalous b = true -> bCircuitStop cfg = false -> brun ls b = Some (b', outs) ->
  anomalous b' = true /\ Forall (fun o => toEvent o = None /\ forall r, toReport o = Some r -> rAnomaly r = false) outs.
Proof.
  intros Ha Hc. revert b outs Ha. induction ls as [|l ls IH]; intros b outs Ha Hr; simpl in Hr.
  - by injection Hr as <- <-.
  - destruct (bf_step l b) as [[b1 o1]|] eqn:E; [|done]. destruct (brun ls b1) as [[b2 o2]|] eqn:E2; [|done].
    injection Hr as -> <-. destruct (spent_step l b b1 o1 Ha Hc E) as [Ha1 H1]. destruct (IH b1 o2 Ha1 E2) as [H2 H3].
    split; [done|]. by apply Forall_app.
Qed.

(** ** Rates outside the band *)

Lemma SFltb_leb a b : SFltb a b = true -> SFleb b a = false.
Proof.
  unfold SFltb, SFleb, SFcompare.
  destruct a as [s|s| |s m e], b as [s'|s'| |s' m' e']; try destruct s; try destruct s'; try done;
    rewrite (Z.compare_antisym e e'); destruct (e ?= e')%Z; simpl; try done;
    change (Pos.compare_cont Eq) with Pos.compare; rewrite (Pos.compare_antisym m m'); by destruct (m ?= m')%positive.
Qed.

Lemma pos_or_idem x d : 0 < d -> pos_or (pos_or x d) d = pos_or x d.
Proof. intros H. unfold pos_or. destruct (Z.leb_spec x 0); destruct (Z.leb_spec d 0), (Z.leb_spec x 0); lia. Qed.

Lemma f64_pos_or_idem x d : SFleb d (f64_of_int 0) = false -> Graduate.f64_pos_or (Graduate.f64_pos_or x d) d = Graduate.f64_pos_or x d.
Proof. intros H. unfold Graduate.f64_pos_or. destruct (SFleb x (f64_of_int 0)) eqn:E; [by rewrite H|by rewrite E]. Qed.

Lemma behavior_withDefaults_idem c : behavior_withDefaults (behavior_withDefaults c) = behavior_withDefaults c.
Proof.
  unfold behavior_withDefaults. cbn [bReportKV bReportBucket bPollInterval bWindow bWarmup bMinSamples bLatencyFactor bRateTolerance bSustainFor bCircuitStop].
  rewrite !pos_or_idem by done. by rewrite !f64_pos_or_idem by done.
Qed.

(** The rate a tick saw is outside the band around the baseline. *)
Definition off_rate (o : tick_out) : bool :=
  SFltb (MsgPerMin (toCurrent o)) (rate_lo cfg (toNormal o)) || SFltb (rate_hi cfg (toNormal o)) (MsgPerMin (toCurrent o)).

Lemma off_rate_tick now b : behavior_withDefaults cfg = cfg -> let o := (bf_tick now b).2 in
  toVerdict o <> Learning -> off_rate o = true -> toVerdict o = Healthy /\ toEvent o = None /\ normal_of (bf_tick now b).1 = normal_of b.
Proof.
  intros Hd. unfold off_rate, bf_tick. cbv zeta.
  set (b1 := set_current (windowStatsLocked (trimLocked now b)) (trimLocked now b)).
  change (normal_of b1) with (normal_of b). set (cur := windowStatsLocked (trimLocked now b)).
  destruct (learning now b1 || negb (haveBaseline b1)); [done|]. unfold EvaluateBehaviorFingerprint, nearBehaviorBaseline.
  rewrite Hd. destruct (SFltb (MsgPerMin cur) (rate_lo cfg (normal_of b)) || _) eqn:Eo.
  - assert (f64_ge (MsgPerMin cur) (rate_lo cfg (normal_of b)) && SFleb (MsgPerMin cur) (rate_hi cfg (normal_of b)) = false) as ->.
    { apply andb_false_iff. apply orb_true_iff in Eo as [E|E]; [left|right; by apply SFltb_leb].
      unfold SFltb in E. unfold f64_ge. by destruct (SFcompare _ _) as [[]|]. }
    assert (forall (c1 c2 : bool), (if c1 then false else if c2 then false else false) = false) as Hf by by intros [] [].
    assert (forall (c1 c2 c3 : bool), (if c1 then false else if c2 then false else if c3 then false else false) = false) as Hf3 by by intros [] [] [].
    rewrite Hf3, Hf, andb_false_r. simpl. destruct (shouldReportLocked _ _); simpl; intros _ _; by split_and!.
  - intros _. repeat (case_match; simpl); congruence.
Qed.

(** A changed rate is neither learned nor watched.  As long as the ticks
    after the warm-up see a rate outside the tolerance band around the baseline,
    no event is emitted, whatever the latency, and the baseline stays as it is;
    so a baseline that does not match the traffic is never corrected. *)
Theorem off_rate_blind info t0 cfg0 b0 ls b b' outs :
  WatchBehaviorFingerprint true info t0 cfg0 = Ok (cfg, b0) -> brun ls b = Some (b', outs) ->
  Forall (fun o => toVerdict o <> Learning /\ off_rate o = true) outs ->
  normal_of b' = normal_of b /\ Forall (fun o => toVerdict o = Healthy /\ toEvent o = None /\ toNormal o = normal_of b) outs.
Proof.
  intros (Hc & _)%watch_init. assert (behavior_withDefaults cfg = cfg) as Hd by (rewrite Hc; apply behavior_withDefaults_idem). clear Hc.
  revert b outs. induction ls as [|l ls IH]; intros b outs Hr Hf; simpl in Hr.
  - by injection Hr as <- <-.
  - destruct (bf_step l b) as [[b1 o1]|] eqn:E; [|done]. destruct (brun ls b1) as [[b2 o2]|] eqn:E2; [|done].
    injection Hr as -> <-. apply Forall_app in Hf as [Hf1 Hf2]. destruct (IH b1 o2 E2 Hf2) as [-> H3].
    assert (normal_of b1 = normal_of b /\ Forall (fun o => toVerdict o = Healthy /\ toEvent o = None /\ toNormal o = normal_of b) o1) as [Hb Ho].
    { destruct l as [now d|now| | |]; simpl in E.
      - injection E as <- <-. unfold bf_Observe. by destruct (d <? 0).
      - destruct (running b); [|done]. pose proof (off_rate_tick now b Hd) as H. destruct (tick_cases now b) as (_ & Hn & _).
        destruct (bf_tick now b) as [bb oo]. injection E as <- <-. apply Forall_inv in Hf1 as [Hv Ho]. simpl in *.
        destruct (H Hv Ho) as (H1 & H2 & H4). split; [done|]. by repeat constructor.
      - by injection E as <- <-.
      - destruct (running b); [|done]. by injection E as <- <-.
      - destruct (events b); [done|]. by injection E as <- <-. }
    split; [done|]. apply Forall_app. split; [done|]. by rewrite <- Hb.
Qed.

End Behavior.

(** ** Witnesses *)

Definition default_behavior : BehaviorFingerprintConfig :=
  BCfg true "" 0 0 0 0 (f64_of_int 0) (f64_of_int 0) 0 false.
Definition min_bad : spec_float -> Z := fun _ => - 2 ^ 63.
(** One message and one tick every five seconds, handled in [d] nanoseconds. *)
Definition poll (d : Z) (k : nat) : list blabel :=
  let now := Z.of_nat k * (5 * Slow.second) in [BObserve now d; BTick now].
Definition steady_then_slow (n m : nat) : list blabel :=
  concat (poll 10000000 <$> seq 1 n) ++ concat (poll 100000000 <$> seq (S n) m).
Definition demo_watch : BehaviorFingerprintConfig * BehaviorFingerprint :=
  match WatchBehaviorFingerprint true (Some ("ORDERS", "worker")) 0 default_behavior with
  | Ok w => w | Er _ => (default_behavior, BF 0 0 None "" "" [] no_snapshot (f64_of_int 0) 0 0 false false false false true [])
  end.
Definition ran (ls : list blabel) : BehaviorFingerprint * list tick_out :=
  default (demo_watch.2, []) (brun min_bad demo_watch.1 ls demo_watch.2).
Lemma demo_watch_ok : WatchBehaviorFingerprint true (Some ("ORDERS", "worker")) 0 default_behavior = Ok (demo_watch.1, demo_watch.2).
Proof. reflexivity. Qed.

(** 350 s of steady traffic, then messages that take ten times as long. *)
Definition slowed : BehaviorFingerprint * list tick_out := Eval vm_compute in ran (steady_then_slow 70 8).
Lemma slowed_ok : brun min_bad demo_watch.1 (steady_then_slow 70 8) demo_watch.2 = Some (slowed.1, slowed.2).
Proof. vm_compute. reflexivity. Qed.

Lemma samples_are_window_witness : length (samples slowed.1) = 13%nat /\ totalObserved slowed.1 = 78.
Proof.
  destruct (samples_are_window min_bad demo_watch.1 _ _ _ _ (steady_then_slow 70 8) slowed.1 slowed.2 demo_watch_ok) as [H1 H2];
    [vm_compute; reflexivity|exact slowed_ok|].
  rewrite H1, H2. split; vm_compute; reflexivity.
Defined.

Lemma anomaly_exact_witness : exists ev, toEvent (bf_tick min_bad demo_watch.1 (395 * Slow.second) slowed.1).2 = Some ev /\
  beSustainedFor ev = 30 * Slow.second.
Proof.
  destruct (anomaly_exact min_bad demo_watch.1 _ _ _ _ (steady_then_slow 70 8) slowed.1 slowed.2 (395 * Slow.second) demo_watch_ok slowed_ok)
    as [[_ H] H2].
  destruct H as [ev Hev]; [vm_compute; split_and!; [reflexivity|congruence|right; reflexivity]|].
  exists ev. split; [exact Hev|]. destruct (H2 ev Hev) as [-> _]. vm_compute. reflexivity.
Defined.

(** The consumer recovers for 200 s and regresses again for 100 s. *)
Definition alarmed : BehaviorFingerprint := Eval vm_compute in (ran (steady_then_slow 70 10)).1.
Definition relapse : list blabel := concat (poll 10000000 <$> seq 81 40) ++ concat (poll 100000000 <$> seq 121 20).
Definition relapsed : BehaviorFingerprint * list tick_out := Eval vm_compute in
  default (alarmed, []) (brun min_bad demo_watch.1 relapse alarmed).
Lemma later_anomalies_silent_witness :
  toVerdict <$> list.last relapsed.2 = Some Anomaly /\ existsb reported relapsed.2 = false /\ anomalous relapsed.1 = true.
Proof.
  split; [reflexivity|]. split; [reflexivity|].
  assert (brun min_bad demo_watch.1 relapse alarmed = Some (relapsed.1, relapsed.2)) as Hr by (vm_compute; reflexivity).
  exact (proj1 (later_anomalies_silent min_bad demo_watch.1 relapse alarmed relapsed.1 relapsed.2 eq_refl eq_refl Hr)).
Defined.

(** A warm-up of one window, traffic of one message in five seconds: the rate
    learned while the window filled is about a third of the real one. *)
Definition short_warmup : BehaviorFingerprintConfig :=
  BCfg false "" 0 0 (60 * Slow.second) 10 (f64_of_int 0) (f64_of_int 0) 0 false.
Definition short_cfg : BehaviorFingerprintConfig := Eval vm_compute in behavior_withDefaults short_warmup.
Definition short_watch (info : option (string * string)) : res (BehaviorFingerprintConfig * BehaviorFingerprint) :=
  WatchBehaviorFingerprint true info 0 short_warmup.
Definition warmed : BehaviorFingerprint := Eval vm_compute in
  (default (demo_watch.2, []) (brun min_bad short_cfg (concat (poll 10000000 <$> seq 1 12)) demo_watch.2)).1.
Definition outage : list blabel := concat (poll 10000000000 <$> seq 13 40).
Definition unseen : BehaviorFingerprint * list tick_out := Eval vm_compute in default (warmed, []) (brun min_bad short_cfg outage warmed).

Lemma off_rate_blind_witness :
  (forall o, list.last unseen.2 = Some o -> Processing (toCurrent o) = 10000000000 /\ Processing (toNormal o) = 10000000) /\
  Forall (fun o => toEvent o = None) unseen.2.
Proof.
  split; [vm_compute; intros o [= <-]; split; reflexivity|].
  assert (brun min_bad short_cfg outage warmed = Some (unseen.1, unseen.2)) as Hr by (vm_compute; reflexivity).
  destruct (off_rate_blind min_bad short_cfg (Some ("ORDERS", "worker")) 0 short_warmup
    (BF 0 0 None "ORDERS" "worker" [] no_snapshot (f64_of_int 0) 0 0 false false false false true []) outage warmed unseen.1 unseen.2)
    as [_ H]; [vm_compute; reflexivity|exact Hr| |].
  - assert (forallb (fun o => bool_decide (toVerdict o = Healthy) && off_rate short_cfg o) unseen.2 = true) as Hb by (vm_compute; reflexivity).
    rewrite forallb_Forall in Hb. eapply Forall_impl; [|exact Hb]. intros o [E Ho]%andb_true_iff. apply bool_decide_eq_true in E.
    split; [by rewrite E|exact Ho].
  - eapply Forall_impl; [|exact H]. intros o Ho. exact (proj1 (proj2 Ho)).
Defined.
