(* ===== verification/Incidents.v ===== *)
(** * Incident capsules (incident_capsule.go, incident_attach.go, incident_auto.go)

    Capturing the messages around a failing one into a capsule, storing it in
    an object bucket with an entry in a key-value index, listing, loading and
    replaying capsules, and the hooks that capture automatically.  The buckets
    are the managers of [Buckets], the messages come from [StreamRead]; [id] is
    the result of [nuid.Next], [now] the clock, JSON a pair of parameters. *)
From S2P Require Import Prelude GoStr Validate Page Message Compress Codec Publisher Rpc Pressure Consume StreamRead Watch Admin Buckets Fingerprint.

Definition DefaultIncidentCapsuleBucket : string := "nats_incident_capsules".
Definition DefaultIncidentIndexBucket : string := "nats_incident_index".
Definition defaultCapsuleWindow : Z := 50.
Definition capsuleSchemaVersion : Z := 1.

Definition TriggerManual : string := "manual".
Definition TriggerDLQ : string := "dlq".
Definition TriggerAnomaly : string := "anomaly".
Definition TriggerShadowMismatch : string := "shadow_mismatch".

Record CapsuleMessage := CapMsg {
  cmTime : Z; cmHeader : option header; cmSubject : string; cmData : string; cmSequence : Z
}.
Record Capsule := Capsule_ {
  cCreatedAt : Z; cFingerprint : option BehaviorFingerprintKVPayload; cID : string; cStream : string; cConsumer : string; cTrigger : string;
  cSubject : string; cReason : string; cMessages : list CapsuleMessage; cTimeline : list Recorder.IncidentEvent;
  cFailingSeq : Z; cSchema : Z
}.
Record IncidentCapture := ICapture {
  icRedact : option (CapsuleMessage -> CapsuleMessage); icRecorder : option Recorder.FlightRecorder;
  icFingerprint : option BehaviorFingerprintKVPayload; icStream : string; icConsumer : string; icSubject : string; icReason : string;
  icStoreBucket : string; icIndexBucket : string; icTrigger : string; icFailingSeq : Z; icWindow : Z
}.

Definition cloneHeaderMap (h : option header) : option header :=
  match h with Some m => if bool_decide (m = ∅) then None else Some m | None => None end.

Definition capsule_of (m : StoredMessage) : CapsuleMessage :=
  CapMsg (sTime m) (cloneHeaderMap (sHeader m)) (sSubject m) (sData m) (sSequence m).

(** The headers [defaultCapsuleRedact] hides. *)
Definition redacted_keys : list string := ["Authorization"; "Nats-Api-Token"; "Cookie"; "X-Api-Key"].
Definition redact_key (h : header) (k : string) : header :=
  match h !! k with Some _ => <[k := ["[redacted]"]]> h | None => h end.
Definition defaultCapsuleRedact (m : CapsuleMessage) : CapsuleMessage :=
  match cmHeader m with
  | None => m
  | Some h => CapMsg (cmTime m) (Some (foldl redact_key h redacted_keys)) (cmSubject m) (cmData m) (cmSequence m)
  end.

Definition incidentIndexKey (stream consumer id : string) : string := stream +:+ "/" +:+ consumer +:+ "/" +:+ id.

Definition or_default (s d : string) : string := if IsEmpty s then d else s.
Definition or_window (w : Z) : Z := if w <=? 0 then defaultCapsuleWindow else w.

Section Incidents.
Context `{NH : NatsHeader} {SO SK : Type} `{OJ : Obj.ObjJs SO} `{KJ : Kv.KvJs SK}.
Variable marshal : Capsule -> res string.
Variable unmarshal : string -> res Capsule.
Variable js_get : Z -> res RawStreamMsg.
Variable js_info : res (Z * Z).
(** The client has the new API. *)
Variable haveV2 : bool.

(** The sequences read around [f]: half a window on either side. *)
Definition capture_range (f window : Z) : Z * Z :=
  let half := window ÷ 2 in
  (if half <? f then f - half else 1, u64 (f + half)).

(** [None]: the fuel of the range read ran out. *)
Definition capture_messages (fuel : nat) (c : IncidentCapture) (f : Z) : option (res (list CapsuleMessage)) :=
  if 0 <? f then
    let window := or_window (icWindow c) in
    let '(start, end_) := capture_range f window in
    match GetMsgRange js_get js_info fuel (icStream c) start end_ [Some (WithMaxMessages window)] with
    | None => None
    | Some (Er e) => Some (Er (wrapf "incident capture range: %w" e))
    | Some (Ok (msgs, _)) => Some (Ok ((default (fun m => m) (icRedact c) ∘ capsule_of) <$> msgs))
    end
  else Some (Ok []).

(** The failing sequence, or the last one of the stream when none was given. *)
Definition failing_seq (c : IncidentCapture) : Z :=
  if icFailingSeq c =? 0
  then match StreamInfo js_info (icStream c) with Ok (_, last) => if 0 <? last then last else 0 | Er _ => 0 end
  else icFailingSeq c.

Definition Capture (fuel : nat) (id : string) (now : Z) (c : IncidentCapture) (s : SO * SK) : option (res Capsule * (SO * SK)) :=
  match ValidateStreamName (icStream c) with
  | Some e => Some (Er (wrapf "incident capture: %w" e), s)
  | None =>
    if IsEmpty (icConsumer c) then Some (Er (errorf "incident capture: consumer required"), s)
    else
      let store := or_default (icStoreBucket c) DefaultIncidentCapsuleBucket in
      let index := or_default (icIndexBucket c) DefaultIncidentIndexBucket in
      let f := failing_seq c in
      match capture_messages fuel c f with
      | None => None
      | Some (Er e) => Some (Er e, s)
      | Some (Ok msgs) =>
          let capsule := Capsule_ now (icFingerprint c) id (icStream c) (icConsumer c) (or_default (icTrigger c) TriggerManual)
            (icSubject c) (icReason c) msgs (match icRecorder c with Some r => Recorder.Snapshot r | None => [] end) f capsuleSchemaVersion in
          match marshal capsule with
          | Er e => Some (Er (wrapf "incident capture marshal: %w" e), s)
          | Ok raw =>
              let '(_, so1) := Obj.Create (Obj.ObjCfg store "" 0 0 0 0) s.1 in
              match Obj.Put store id raw so1 with
              | (Er e, so2) => Some (Er (wrapf "incident capture put object: %w" e), (so2, s.2))
              | (Ok _, so2) =>
                  let '(_, sk1) := Kv.CreateOrUpdate haveV2 (Kv.KvCfg index "" 0 0 0 0 1 false) s.2 in
                  let '(_, sk2) := Kv.Put (fun s => s) index (incidentIndexKey (icStream c) (icConsumer c) id) id sk1 in
                  Some (Ok capsule, (so2, sk2))
              end
          end
      end
  end.

Definition Load (bucket id : string) (s : SO * SK) : res Capsule :=
  match (Obj.Get (fun s => s) (or_default bucket DefaultIncidentCapsuleBucket) id s.1).1 with
  | Er e => Er (wrapf "incident load: %w" e)
  | Ok entry => match unmarshal (Obj.oeData entry) with Er e => Er (wrapf "incident load decode: %w" e) | Ok c => Ok c end
  end.

(** The rest of a key that starts with the prefix. *)
Fixpoint strip_prefix (p k : string) : option string :=
  match p, k with
  | EmptyString, _ => Some k
  | String a p', String b k' => if ascii_dec a b then strip_prefix p' k' else None
  | _, _ => None
  end.

Definition List_ (stream consumer indexBucket : string) (s : SO * SK) : option (res (list string)) :=
  let prefix := stream +:+ "/" +:+ consumer +:+ "/" in
  match Kv.ListKeys (or_default indexBucket DefaultIncidentIndexBucket) 0 (-1) s.2 with
  | None => None
  | Some (Er e) => Some (Er (wrapf "incident list keys: %w" e))
  | Some (Ok (all, _)) => Some (Ok (omap (strip_prefix prefix) all))
  end.

(** [ReplayLocal]: the handler's outcome on each message in turn; the messages
    that were handed over, each a copy. *)
Definition replay_msg (cm : CapsuleMessage) : NatsMsg := NMsg (cmSubject cm) (cmData cm) (cloneHeaderMap (cmHeader cm)).
Fixpoint replay_msgs (handler : NatsMsg -> outcome) (ms : list CapsuleMessage) : option err * list NatsMsg :=
  match ms with
  | [] => (None, [])
  | cm :: ms' =>
      match invokeMsgHandler (handler (replay_msg cm)) with
      | Some e => (Some (wrapf "incident replay seq=%d subject=%q: %w" e), [replay_msg cm])
      | None => let '(e, l) := replay_msgs handler ms' in (e, replay_msg cm :: l)
      end
  end.
Definition ReplayLocal (c : option Capsule) (handler : option (NatsMsg -> outcome)) : option err * list NatsMsg :=
  match c, handler with
  | None, _ => (Some (errorf "incident replay: nil capsule"), [])
  | _, None => (Some (errorf "incident replay: nil handler"), [])
  | Some c, Some h => replay_msgs h (cMessages c)
  end.

(** ** Automatic capture *)

Record CapsuleAutoConfig := AutoCfg {
  aStoreBucket : string; aIndexBucket : string; aWindow : Z; aRecorder : option Recorder.FlightRecorder;
  aRedact : option (CapsuleMessage -> CapsuleMessage); aEnabled : bool
}.
Definition auto_defaults (c : CapsuleAutoConfig) : CapsuleAutoConfig :=
  AutoCfg (or_default (aStoreBucket c) DefaultIncidentCapsuleBucket) (or_default (aIndexBucket c) DefaultIncidentIndexBucket)
    (or_window (aWindow c)) (aRecorder c) (Some (default defaultCapsuleRedact (aRedact c))) (aEnabled c).

Definition auto_request (c : CapsuleAutoConfig) (stream consumer trigger : string) (seq : Z) (subject reason : string) : IncidentCapture :=
  ICapture (aRedact c) (aRecorder c) None stream consumer subject reason (aStoreBucket c) (aIndexBucket c) trigger seq (aWindow c).

Record CapsuleAuto := Auto { autoCfg : CapsuleAutoConfig; autoStream : string; autoDurable : string }.
Definition NewCapsuleAuto (stream durable : string) (c : CapsuleAutoConfig) : CapsuleAuto := Auto (auto_defaults c) stream durable.

(** What a hook captures, if it captures. *)
Definition auto_capture (a : CapsuleAuto) (trigger : string) (seq : Z) (subject reason : string) : option IncidentCapture :=
  if aEnabled (autoCfg a) then Some (auto_request (autoCfg a) (autoStream a) (autoDurable a) trigger seq subject reason) else None.
Definition rename (a : CapsuleAuto) (stream consumer : string) : CapsuleAuto :=
  Auto (autoCfg a) (or_default stream (autoStream a)) (or_default consumer (autoDurable a)).
Definition auto_RecordDLQ (a : CapsuleAuto) (subject stream consumer reason : string) (seq : Z) : CapsuleAuto * option IncidentCapture :=
  let a' := rename a stream consumer in (a', auto_capture a' TriggerDLQ seq subject reason).
Definition auto_RecordShadow (a : CapsuleAuto) (detail subject err : string) : option IncidentCapture :=
  auto_capture a TriggerShadowMismatch 0 subject (if IsEmpty err then detail else detail +:+ ": " +:+ err).
Definition auto_OnAnomaly (a : CapsuleAuto) (ev : BehaviorAnomalyEvent) : CapsuleAuto * option IncidentCapture :=
  let a' := rename a (beStream ev) (beDurable ev) in (a', auto_capture a' TriggerAnomaly 0 "" "behavior_fingerprint_anomaly").

(** [AttachToHandler]: the wrapped handler's error and the capture it asks for;
    [meta] is the message's stream, consumer and sequence, when it has them and
    [err_text] the text of an error. *)
Definition AttachToHandler (err_text : err -> string) (stream durable : string) (cfg : CapsuleAutoConfig) (handler : NatsMsg -> option err)
  (meta : option (string * string * Z)) (m : NatsMsg) : option err * option IncidentCapture :=
  let c := auto_defaults cfg in
  if negb (aEnabled c) then (handler m, None)
  else match handler m with
       | None => (None, None)
       | Some e =>
           let '(st, du, seq) := match meta with Some (st, du, seq) => (or_default stream st, or_default durable du, seq) | None => (stream, durable, 0) end in
           (Some e, Some (auto_request c st du TriggerManual seq (nSubject m) (err_text e)))
       end.

(** ** Lemmas *)

Lemma Capture_inv fuel id now c s x s' : Capture fuel id now c s = Some (Ok x, s') ->
  exists msgs raw so1 so2 sk1 e, ValidateStreamName (icStream c) = None /\
    capture_messages fuel c (failing_seq c) = Some (Ok msgs) /\ cMessages x = msgs /\ cID x = id /\ cFailingSeq x = failing_seq c /\
    marshal x = Ok raw /\ Obj.Put (or_default (icStoreBucket c) DefaultIncidentCapsuleBucket) id raw so1 = (Ok e, so2) /\
    s' = (so2, (Kv.Put (fun s => s) (or_default (icIndexBucket c) DefaultIncidentIndexBucket)
                  (incidentIndexKey (icStream c) (icConsumer c) id) id sk1).2).
Proof.
  unfold Capture. destruct (ValidateStreamName (icStream c)) eqn:Hn; [done|]. destruct (IsEmpty (icConsumer c)); [done|].
  destruct (capture_messages fuel c (failing_seq c)) as [[msgs|e]|] eqn:Em; [|done|done].
  destruct (marshal _) as [raw|e] eqn:Er; [|done]. destruct (Obj.Create _ s.1) as [r1 so1].
  destruct (Obj.Put _ id raw so1) as [[en|e] so2] eqn:Ep; [|done]. destruct (Kv.CreateOrUpdate _ _ s.2) as [r2 sk1].
  destruct (Kv.Put _ _ _ id sk1) as [r3 sk2] eqn:Ek. intros [= <- <-].
  exists msgs, raw, so1, so2, sk1, en. rewrite Ek. split_and!; done.
Qed.

Lemma capture_range_ok f w : 0 < f -> 0 < w -> f + w < 2 ^ 64 ->
  exists a b, capture_range f w = (a, b) /\ 1 <= a <= f /\ f <= b /\ f - a < w.
Proof.
  intros Hf Hw Hb. unfold capture_range. rewrite Z.quot_div_nonneg by lia.
  pose proof (Z.div_lt w 2 Hw ltac:(lia)). assert (0 <= w / 2) by (apply Z.div_pos; lia).
  rewrite u64_id by (unfold in_u64; lia). destruct (Z.ltb_spec (w / 2) f); eexists _, _; split; [done|lia|done|lia].
Qed.

Lemma or_window_pos w : 0 < or_window w.
Proof. unfold or_window, defaultCapsuleWindow. destruct (Z.leb_spec w 0); lia. Qed.

Lemma max_of_window w : 0 < w -> applyMsgRangeOpts [Some (WithMaxMessages w)] = w.
Proof.
  intros Hw. unfold applyMsgRangeOpts, WithMaxMessages. simpl. rewrite (proj2 (Z.ltb_lt _ _) Hw).
  destruct (Z.leb_spec w 0); [lia|done].
Qed.

(** ** Properties *)

(** A capsule holds the failing message.  A capture around a stored message
    reads the stored messages of at most half a window on either side, in
    order and at most a window of them, and the failing message is among them
    whatever holes the stream has, because the limit counts from the left edge
    and the window is larger than the left half. *)
Theorem capsule_holds_failing fuel id now c s x s' first last m :
  Capture fuel id now c s = Some (Ok x, s') ->
  server_ok js_get -> js_info = Ok (first, last) -> last + 2 < Z.of_nat fuel ->
  js_get (failing_seq c) = Ok m -> 0 < failing_seq c <= last -> last + or_window (icWindow c) < 2 ^ 64 ->
  exists a b pre post,
    capture_range (failing_seq c) (or_window (icWindow c)) = (a, b) /\
    cMessages x = (default (fun m => m) (icRedact c) ∘ capsule_of ∘ storedMessageFromRaw) <$>
                    take (Z.to_nat (or_window (icWindow c))) (existing js_get a (Z.min b last)) /\
    cMessages x = pre ++ default (fun m => m) (icRedact c) (capsule_of (storedMessageFromRaw m)) :: post.
Proof.
  intros (msgs & raw & so1 & so2 & sk1 & e & Hn & Hm & <- & _ & _ & _ & _ & _)%Capture_inv Hsrv Hinfo Hfuel Hg Hf Hw.
  pose proof (or_window_pos (icWindow c)) as Hwp. set (w := or_window (icWindow c)) in *. set (f := failing_seq c) in *.
  destruct (capture_range_ok f w) as (a & b & Hr & Ha & Hb & Hlt); [lia|lia|lia|]. exists a, b.
  unfold capture_messages in Hm. fold w in Hm. rewrite (proj2 (Z.ltb_lt _ _) (proj1 Hf)), Hr in Hm.
  rewrite (GetMsgRange_eq js_get js_info (icStream c) first last a b) in Hm by (done || lia).
  rewrite max_of_window in Hm by lia. injection Hm as Hm. rewrite <- list_fmap_compose in Hm.
  assert (existing js_get a (Z.min b last) = existing js_get a (f - 1) ++ m :: existing js_get (f + 1) (Z.min b last)) as Hex.
  { rewrite (existing_split js_get a f) by lia. f_equal. rewrite existing_step by lia. unfold get_opt. by rewrite Hg. }
  pose proof (existing_length js_get a (f - 1)) as Hl.
  assert (exists l2, take (Z.to_nat w) (existing js_get a (Z.min b last)) = existing js_get a (f - 1) ++ m :: l2) as [l2 Ht].
  { rewrite Hex, take_app_ge by lia. destruct (Z.to_nat w - length (existing js_get a (f - 1)))%nat as [|n] eqn:En; [lia|].
    eexists. by rewrite firstn_cons. }
  eexists _, _. split_and!; [done|by rewrite <- Hm|]. rewrite <- Hm, Ht, fmap_app, fmap_cons. done.
Qed.

(** A stored capsule can be loaded back as it was, as long as its JSON is at
    most 64 MiB; a larger one is captured and stored without complaint and can
    never be loaded. *)
Theorem capture_load_roundtrip fuel id now c s x s' raw :
  Capture fuel id now c s = Some (Ok x, s') -> marshal x = Ok raw -> unmarshal raw = Ok x ->
  if Obj.maxObjectGetBytes <? slen raw then exists e, Load (icStoreBucket c) id s' = Er e
  else Load (icStoreBucket c) id s' = Ok x.
Proof.
  intros (msgs & raw' & so1 & so2 & sk1 & e & _ & _ & _ & _ & _ & Hm & Hp & ->)%Capture_inv Hr Hj.
  rewrite Hr in Hm. injection Hm as <-. apply Obj.Put_inv in Hp as ((t & ->) & Hb & Hn & Ho & Hd & j & Hi & Hs).
  pose proof (Obj.Get_stored _ _ _ _ _ Hb Hn Ho Hi Hd Hs) as Hg. unfold Load. simpl.
  destruct (Obj.maxObjectGetBytes <? slen raw).
  - destruct Hg as [e ->]. eauto.
  - rewrite Hg. simpl. by rewrite Hj.
Qed.

Lemma strip_prefix_spec p k r : strip_prefix p k = Some r <-> k = p +:+ r.
Proof.
  revert k. induction p as [|a p IH]; intros k; simpl; [naive_solver|]. destruct k as [|b k]; [done|].
  destruct (ascii_dec a b) as [->|Hne]; [rewrite IH; naive_solver|naive_solver].
Qed.

Lemma page_all (ks : list string) : pageSlice ks 0 (-1) = Some (ks, Z.of_nat (length ks)).
Proof. unfold pageSlice. simpl. destruct (Z.leb_spec (Z.of_nat (length ks)) 0); [by destruct ks|done]. Qed.

Lemma index_key_split stream consumer i :
  incidentIndexKey stream consumer i = (stream +:+ "/" +:+ consumer +:+ "/") +:+ i.
Proof. unfold incidentIndexKey. by rewrite !str_app_assoc. Qed.

(** A captured incident is listed.  As long as the index accepts the write
    (its bucket can be opened and put to, and the key made of stream, consumer
    and id is a valid key), [List_] for the stream and consumer returns the
    capsule's id, and only ids whose entry for exactly that stream and consumer
    is in the index. *)
Theorem incident_listed fuel id now c s x s' :
  Capture fuel id now c s = Some (Ok x, s') ->
  (forall b s, Kv.kv_open b s = None) -> (forall b k v s, exists rev s1, Kv.kv_put b k v s = (Ok rev, s1)) ->
  ValidateBucketName (or_default (icIndexBucket c) DefaultIncidentIndexBucket) = None ->
  ValidateKVKey (incidentIndexKey (icStream c) (icConsumer c) id) = None ->
  exists ids, List_ (icStream c) (icConsumer c) (icIndexBucket c) s' = Some (Ok ids) /\ cID x ∈ ids /\
    forall i, i ∈ ids -> exists e, Kv.kv_get (or_default (icIndexBucket c) DefaultIncidentIndexBucket)
      (incidentIndexKey (icStream c) (icConsumer c) i) s'.2 = Ok e.
Proof.
  intros (msgs & raw & so1 & so2 & sk1 & en & _ & _ & _ & -> & _ & _ & _ & ->)%Capture_inv Ho Hput Hb Hk.
  set (b := or_default (icIndexBucket c) DefaultIncidentIndexBucket) in *. set (key := incidentIndexKey (icStream c) (icConsumer c) id) in *.
  simpl. unfold Kv.Put. rewrite Kv.guarded_none by (by repeat constructor). unfold Kv.opened. rewrite Ho.
  destruct (Hput b key id sk1) as (rev & sk2 & Hp). rewrite Hp.
  destruct (Kv.put_get _ _ _ _ _ _ Hp) as (_ & e & Hg & _). destruct (Kv.put_keys _ _ _ _ _ _ Hp) as (ks & Hks & Hin).
  rewrite Hg. simpl. unfold List_, Kv.ListKeys. simpl. fold b. rewrite Hb, Ho, Hks. simpl. rewrite page_all. simpl.
  eexists. split; [done|]. split.
  - apply list_elem_of_omap. exists key. split; [done|]. apply strip_prefix_spec, index_key_split.
  - intros i (k & Hki & Hs%strip_prefix_spec)%list_elem_of_omap.
    assert (incidentIndexKey (icStream c) (icConsumer c) i = k) as -> by (rewrite index_key_split; by rewrite Hs). by eapply Kv.keys_get.
Qed.

Lemma redact_fold_lookup ks h k :
  foldl redact_key h ks !! k = if bool_decide (k ∈ ks) then (fun _ => ["[redacted]"]) <$> (h !! k) else h !! k.
Proof.
  revert h. induction ks as [|a ks IH]; intros h; cbn [foldl]; [by rewrite bool_decide_false by apply not_elem_of_nil|].
  rewrite IH. unfold redact_key. destruct (decide (k = a)) as [->|Hne].
  - rewrite (bool_decide_true (a ∈ a :: ks)) by left. destruct (h !! a) as [v|] eqn:E; rewrite ?lookup_insert_eq, ?E; by destruct (bool_decide _).
  - assert (bool_decide (k ∈ a :: ks) = bool_decide (k ∈ ks)) as -> by (apply bool_decide_ext; set_solver).
    destruct (h !! a); by rewrite ?lookup_insert_ne.
Qed.

(** Automatic captures do not carry credentials.  In a capsule captured by
    a hook with the default redaction, every value of the four credential
    headers reads "[redacted]", no such header is added or dropped, and every
    other header, the subject, the data and the sequence are those of the
    stored message. *)
Theorem auto_capture_redacts a trigger seq subject reason req fuel id now s x s' cm :
  auto_capture a trigger seq subject reason = Some req -> aRedact (autoCfg a) = Some defaultCapsuleRedact ->
  Capture fuel id now req s = Some (Ok x, s') -> cm ∈ cMessages x ->
  exists m, cm = defaultCapsuleRedact (capsule_of m) /\ cmSubject cm = sSubject m /\ cmData cm = sData m /\ cmSequence cm = sSequence m /\
    forall h0 h, cloneHeaderMap (sHeader m) = Some h0 -> cmHeader cm = Some h ->
      forall k, h !! k = if bool_decide (k ∈ redacted_keys) then (fun _ => ["[redacted]"]) <$> (h0 !! k) else h0 !! k.
Proof.
  intros Ha Hr (msgs & raw & so1 & so2 & sk1 & en & _ & Hm & <- & _)%Capture_inv Hin.
  assert (icRedact req = Some defaultCapsuleRedact) as Hreq.
  { unfold auto_capture in Ha. destruct (aEnabled _); [|done]. injection Ha as <-. exact Hr. }
  unfold capture_messages in Hm. destruct (0 <? failing_seq req); [|injection Hm as Hm; rewrite <- Hm in Hin; by apply elem_of_nil in Hin].
  destruct (capture_range _ _) as [st en']. destruct (GetMsgRange _ _ _ _ _ _ _) as [[[l b]|e]|]; [|done|done].
  injection Hm as Hm. rewrite <- Hm, Hreq in Hin. apply list_elem_of_fmap in Hin as (m & -> & _). exists m. simpl.
  unfold defaultCapsuleRedact, capsule_of. simpl.
  destruct (cloneHeaderMap (sHeader m)) as [h1|]; simpl; split_and!; try done.
  intros h0 h [= <-] [= <-] k. exact (redact_fold_lookup redacted_keys h1 k).
Qed.

End Incidents.

(** ** Witnesses *)

Definition order_events : list Z := [1; 2; 3; 5; 8; 9].
Definition orders_capture (window : Z) (consumer : string) : IncidentCapture :=
  ICapture (Some defaultCapsuleRedact) None None "ORDERS" consumer "orders.created" "boom" "" "" "" 5 window.
Definition fine_marshal (c : Capsule) : res string := Ok (cID c).
Definition run_capture (c : IncidentCapture) : option (res Capsule * (objs * kvs)) :=
  Capture fine_marshal (stream_of order_events) (Ok (1, 9)) true 40 "cap1" 7 c (∅, no_keys).

Definition captured : Capsule * (objs * kvs) := Eval vm_compute in
  match run_capture (orders_capture 4 "worker") with Some (Ok x, s) => (x, s) | _ => (Capsule_ 0 None "" "" "" "" "" "" [] [] 0 0, (∅, no_keys)) end.

Lemma captured_eq : run_capture (orders_capture 4 "worker") = Some (Ok captured.1, captured.2).
Proof. vm_cast_no_check (eq_refl (Some (Ok captured.1, captured.2))). Qed.

Lemma capsule_holds_failing_witness :
  cmSequence <$> cMessages captured.1 = [3; 5] /\ exists pre post,
    cMessages captured.1 = pre ++ defaultCapsuleRedact (capsule_of (storedMessageFromRaw (msg_at 5))) :: post.
Proof.
  split; [reflexivity|].
  destruct (capsule_holds_failing fine_marshal (stream_of order_events) (Ok (1, 9)) true 40 "cap1" 7 (orders_capture 4 "worker")
    (∅, no_keys) captured.1 captured.2 1 9 (msg_at 5) captured_eq (stream_of_ok _) eq_refl) as (a & b & pre & post & _ & _ & H);
    [simpl; lia|vm_compute; reflexivity|vm_compute; split; congruence|vm_compute; reflexivity|].
  exists pre, post. exact H.
Defined.

(** A decoder that knows one capsule. *)
Definition one_unmarshal_capsule (raw : string) : res Capsule := if String.eqb raw "cap1" then Ok captured.1 else Er (errorf "json").

Lemma capture_load_roundtrip_witness : Load one_unmarshal_capsule "" "cap1" captured.2 = Ok captured.1.
Proof.
  exact (capture_load_roundtrip fine_marshal one_unmarshal_capsule (stream_of order_events) (Ok (1, 9)) true 40 "cap1" 7
    (orders_capture 4 "worker") (∅, no_keys) captured.1 captured.2 "cap1" captured_eq eq_refl eq_refl).
Defined.

Lemma incident_listed_witness :
  exists ids, List_ "ORDERS" "worker" "" captured.2 = Some (Ok ids) /\ "cap1" ∈ ids.
Proof.
  destruct (incident_listed fine_marshal one_unmarshal_capsule (stream_of order_events) (Ok (1, 9)) true 40 "cap1" 7 (orders_capture 4 "worker")
    (∅, no_keys) captured.1 captured.2 captured_eq) as (ids & H1 & H2 & _);
    [reflexivity|intros; eexists _, _; reflexivity|vm_compute; reflexivity|vm_compute; reflexivity|].
  exists ids. split; [exact H1|exact H2].
Defined.

Definition lost : Capsule * (objs * kvs) := Eval vm_compute in
  match run_capture (orders_capture 4 "orders:worker") with Some (Ok x, s) => (x, s) | _ => (captured.1, (∅, no_keys)) end.
Lemma lost_eq : run_capture (orders_capture 4 "orders:worker") = Some (Ok lost.1, lost.2).
Proof. vm_cast_no_check (eq_refl (Some (Ok lost.1, lost.2))). Qed.

(** A capsule of a consumer whose name cannot be part of a key is captured
    and stored but never listed: durable names such as "orders:worker" are
    valid, the index key made from them is not, and the failed index write is
    ignored. *)
Theorem capsule_unlisted :
  ValidateDurableName "orders:worker" = None /\
  exists x s, run_capture (orders_capture 4 "orders:worker") = Some (Ok x, s) /\ cID x = "cap1" /\
    List_ "ORDERS" "orders:worker" "" s = Some (Ok []).
Proof.
  split; [vm_compute; reflexivity|]. exists lost.1, lost.2. split; [exact lost_eq|].
  split; [reflexivity|vm_cast_no_check (eq_refl (Some (Ok (A:=list string) [])))].
Qed.

Definition auto_worker : CapsuleAuto := NewCapsuleAuto "ORDERS" "worker" (AutoCfg "" "" 4 None None true).
Definition auto_req : IncidentCapture := default (orders_capture 4 "worker") (auto_capture auto_worker TriggerDLQ 5 "orders.created" "boom").

Definition auto_captured : Capsule * (objs * kvs) := Eval vm_compute in
  match run_capture auto_req with Some (Ok x, s) => (x, s) | _ => (captured.1, (∅, no_keys)) end.
Lemma auto_captured_eq : run_capture auto_req = Some (Ok auto_captured.1, auto_captured.2).
Proof. vm_cast_no_check (eq_refl (Some (Ok auto_captured.1, auto_captured.2))). Qed.

Lemma auto_capture_redacts_witness :
  exists cm m, cMessages auto_captured.1 !! 0%nat = Some cm /\ cm = defaultCapsuleRedact (capsule_of m).
Proof.
  eexists. destruct (auto_capture_redacts fine_marshal one_unmarshal_capsule (stream_of order_events) (Ok (1, 9)) true auto_worker TriggerDLQ 5 "orders.created" "boom"
    auto_req 40 "cap1" 7 (∅, no_keys) auto_captured.1 auto_captured.2 (capsule_of (storedMessageFromRaw (msg_at 3))) eq_refl eq_refl auto_captured_eq)
    as (m & H & _); [vm_compute; left|].
  exists m. split; [reflexivity|exact H].
Defined.
