(* ===== verification/Connection.v ===== *)
(** * Connecting (connection.go, auth.go, config.go, client.go)

    The options of a connection, credentials and their conflicts, the initial
    retries, the reconnect delay, and [NewClient] with the resources it
    acquires.  nats.go's dial, the NKey library and [url.Parse] are parameters. *)
From Stdlib Require Import SpecFloat.
From S2P Require Import Prelude GoStr Pressure Watch Shadow Admin.

Definition ErrConflictingAuth : string := "nats.ErrConflictingAuth".
Definition ErrInvalidNKeySeed : string := "nats.ErrInvalidNKeySeed".
Definition ErrEmptyAddressNotAllowed : string := "nats.ErrEmptyAddressNotAllowed".

Definition second : Z := 10 ^ 9.
Definition defaultDrainTimeout : Z := 30 * second.
Definition defaultReconnectWait : Z := second.
Definition defaultMaxReconnectDelay : Z := 30 * second.
Definition defaultReconnectJitter : Z := 100 * 10 ^ 6.
Definition defaultReconnectJitterTLS : Z := second.
Definition defaultInitialRetryAttempts : Z := 5.
Definition defaultInitialRetryWait : Z := second.
Definition defaultInitialRetryBackoff : spec_float := f64_of_int 2.
Definition reconnectDelayMultiplier : Z := 2.

(** ** Configuration *)

(** The TLS configuration handed to nats.go. *)
Record tls_config := TlsCfg { MinVersion : Z; InsecureSkipVerify : bool; ServerName : string; hasRootCAs : bool; hasCert : bool }.
Definition VersionTLS12 : Z := 771.

(** TLS material: a complete configuration, or PEM fields. *)
Record ConnectionTLS := ConnTLS {
  tConfig : option tls_config; tServerName : string; tCA : string; tCert : string; tKey : string; tInsecure : bool
}.

Record Connection := Conn_ {
  Address : string; User : string; Password : string; Seed : string; Secret : string; CredentialsFile : string;
  Domain : string; ClientName : string; cTLS : ConnectionTLS;
  CustomReconnectDelay : option (Z -> Z); ReconnectWait : Z; MaxReconnect : Z; ConnectTimeout : Z; DrainTimeout : Z;
  PingInterval : Z; MaxPingsOut : Z; FlusherTimeout : Z; ReconnectJitter : Z; ReconnectJitterTLS : Z;
  ReconnectBufSize : Z; InitialRetryAttempts : Z; InitialRetryWait : Z; InitialRetryBackoff : spec_float;
  RetryOnFailedConnect : bool; AllowReconnect : bool; DontRandomize : bool
}.

Inductive conn_option :=
  | CoTimeout (d : Z) | CoDrainTimeout (d : Z) | CoName (n : string) | CoPingInterval (d : Z) | CoMaxPings (n : Z)
  | CoFlusherTimeout (d : Z) | CoDontRandomize | CoUserCredentials (f : string) | CoNkey (pub : string)
  | CoUserInfo (u p : string) | CoToken (t : string) | CoSecure (t : tls_config) | CoNoReconnect | CoMaxReconnects (n : Z)
  | CoReconnectWait (d : Z) | CoReconnectJitter (d dtls : Z) | CoCustomReconnectDelay (f : Z -> Z)
  | CoReconnectBufSize (n : Z) | CoRetryOnFailedConnect | CoHandlers.

(** An option of the kind that carries a credential. *)
Definition is_auth (o : conn_option) : bool :=
  match o with CoUserCredentials _ | CoNkey _ | CoUserInfo _ _ | CoToken _ => true | _ => false end.

Definition appendBaseConnOptions (opts : list conn_option) (c : Connection) : list conn_option :=
  opts ++ (if 0 <? ConnectTimeout c then [CoTimeout (ConnectTimeout c)] else [])
       ++ (if 0 <? DrainTimeout c then [CoDrainTimeout (DrainTimeout c)] else [])
       ++ (if negb (IsEmpty (ClientName c)) then [CoName (ClientName c)] else [])
       ++ (if 0 <? PingInterval c then [CoPingInterval (PingInterval c)] else [])
       ++ (if 0 <? MaxPingsOut c then [CoMaxPings (MaxPingsOut c)] else [])
       ++ (if 0 <? FlusherTimeout c then [CoFlusherTimeout (FlusherTimeout c)] else [])
       ++ (if DontRandomize c then [CoDontRandomize] else []).

(** [cappedExponentialReconnectDelay]: the doubling loop of attempt [n]. *)
Fixpoint delay_loop (k : nat) (delay : Z) : Z :=
  match k with
  | O => if defaultMaxReconnectDelay <? delay then defaultMaxReconnectDelay else delay
  | Datatypes.S k' =>
      if defaultMaxReconnectDelay ÷ reconnectDelayMultiplier <=? delay then defaultMaxReconnectDelay
      else delay_loop k' (i64 (delay * reconnectDelayMultiplier))
  end.
Definition cappedExponentialReconnectDelay (base : Z) : Z -> Z :=
  let base := if base <=? 0 then defaultReconnectWait else base in
  fun attempts =>
    let attempts := if attempts <? 1 then 1 else attempts in
    delay_loop (Z.to_nat (attempts - 1)) base.

Definition appendReconnectOptions (opts : list conn_option) (c : Connection) : list conn_option :=
  if negb (AllowReconnect c) then opts ++ [CoNoReconnect]
  else
    let wait := if ReconnectWait c <=? 0 then defaultReconnectWait else ReconnectWait c in
    let jitter := if ReconnectJitter c <=? 0 then defaultReconnectJitter else ReconnectJitter c in
    let jitterTLS := if ReconnectJitterTLS c <=? 0 then defaultReconnectJitterTLS else ReconnectJitterTLS c in
    opts ++ [CoMaxReconnects (MaxReconnect c); CoReconnectWait wait; CoReconnectJitter jitter jitterTLS;
             CoCustomReconnectDelay (default (cappedExponentialReconnectDelay wait) (CustomReconnectDelay c))]
         ++ (if negb (ReconnectBufSize c =? 0) then [CoReconnectBufSize (ReconnectBufSize c)] else [])
         ++ (if RetryOnFailedConnect c then [CoRetryOnFailedConnect] else []).

(** ** Credentials *)

(** [url.Parse]: the user name of the URL, if it has user information, and the
    URL without it. *)
Class UrlApi := { url_parse : string -> res (option string * string) }.

(** The NKey library and the PEM decoding of the TLS packages. *)
Class KeyApi := {
  nkey_from_seed : string -> option err;
  nkey_public : string -> res string;
  pem_ca_ok : string -> bool;
  pem_pair : string -> string -> option err
}.

Section Auth.
Context `{UA : UrlApi} `{KA : KeyApi}.

Definition addressHasUserinfo (address : string) : bool :=
  if IsEmpty address then false
  else existsb (fun part => match url_parse (TrimSpace part) with
                            | Ok (Some u, _) => negb (IsEmpty u)
                            | _ => false
                            end) (split "," address).

Definition redactURLString (raw : string) : string :=
  if IsEmpty raw then raw
  else join "," ((fun part => match url_parse (TrimSpace part) with
                              | Ok (Some _, rest) => rest
                              | _ => TrimSpace part
                              end) <$> split "," raw).

Definition validateAuthConfig (c : Connection) : option err :=
  let hasSeed := negb (IsEmpty (Seed c)) in
  let hasUserPass := negb (IsEmpty (User c)) || negb (IsEmpty (Password c)) in
  let hasToken := negb (IsEmpty (Secret c)) in
  let hasCreds := negb (IsEmpty (CredentialsFile c)) in
  let hasURLAuth := addressHasUserinfo (Address c) in
  let n := Z.b2z hasSeed + Z.b2z hasUserPass + Z.b2z hasToken + Z.b2z hasCreds + Z.b2z hasURLAuth in
  if 1 <? n then Some (Sentinel ErrConflictingAuth)
  else if negb (Bool.eqb (negb (IsEmpty (User c))) (negb (IsEmpty (Password c))))
       then Some (errorf "auth: User and Password must both be set or both empty") else None.

(** The options and the key pair, if one was made from the seed.  A pair whose
    public key cannot be derived is wiped before the error is returned. *)
Definition appendAuthOptions (opts : list conn_option) (c : Connection) : res (list conn_option * bool) :=
  let opts := if IsEmpty (CredentialsFile c) then opts else opts ++ [CoUserCredentials (CredentialsFile c)] in
  let rest opts := (if negb (IsEmpty (User c)) && negb (IsEmpty (Password c)) then opts ++ [CoUserInfo (User c) (Password c)] else opts)
                   ++ (if IsEmpty (Secret c) then [] else [CoToken (Secret c)]) in
  if IsEmpty (Seed c) then Ok (rest opts, false)
  else match nkey_from_seed (Seed c) with
       | Some e => Er (wrapf2 "%w: %w" (Sentinel ErrInvalidNKeySeed) e)
       | None =>
           match nkey_public (Seed c) with
           | Er e => Er (wrapf2 "%w: public key: %w" (Sentinel ErrInvalidNKeySeed) e)
           | Ok pub => Ok (rest (opts ++ [CoNkey pub]), true)
           end
       end.

Definition buildTLSConfig (t : ConnectionTLS) : res (option tls_config) :=
  match tConfig t with
  | Some x => Ok (Some (TlsCfg (if (MinVersion x =? 0) || (MinVersion x <? VersionTLS12) then VersionTLS12 else MinVersion x)
                          (InsecureSkipVerify x) (ServerName x) (hasRootCAs x) (hasCert x)))
  | None =>
      let hasMaterial := negb (IsEmpty (tCA t)) || negb (IsEmpty (tCert t)) || negb (IsEmpty (tKey t)) || tInsecure t
                         || negb (IsEmpty (tServerName t)) in
      if negb hasMaterial then Ok None
      else if negb (IsEmpty (tCA t)) && negb (pem_ca_ok (tCA t)) then Er (errorf "tls: append CA cert from PEM")
      else
        let base hasCert := TlsCfg VersionTLS12 (tInsecure t) (tServerName t) (negb (IsEmpty (tCA t))) hasCert in
        if negb (IsEmpty (tCert t)) || negb (IsEmpty (tKey t)) then
          if IsEmpty (tCert t) || IsEmpty (tKey t) then Er (errorf "tls: both cert and key PEM are required")
          else match pem_pair (tCert t) (tKey t) with
               | Some e => Er (wrapf "tls: load client cert: %w" e)
               | None => Ok (Some (base true))
               end
        else Ok (Some (base false))
  end.

Definition appendTLSOptions (opts : list conn_option) (t : ConnectionTLS) : res (list conn_option) :=
  cfg <-! buildTLSConfig t ;;
  match cfg with None => Ok opts | Some x => Ok (opts ++ [CoSecure x]) end.

(** The value of a result is there. *)
Definition is_ok {A} (r : res A) : Prop := exists a, r = Ok a.

(** ** Connecting

    [keys] are the key pairs in memory that have not been wiped, [keyPair] the
    one the client holds; [conns] the open connections; [ctxLive] whether the
    client's context still waits for its parent. *)
Record client := Client { keys : list nat; keyPair : option nat; nextKey : nat; conns : list nat; ctxLive : bool }.
Definition client_init : client := Client [] None 0 [] true.

Definition wipe (k : option nat) (ks : list nat) : list nat :=
  match k with None => ks | Some i => List.filter (fun j => negb (j =? i)%nat) ks end.

Definition configureOptions (c : Connection) (s : client) : res (list conn_option) * client :=
  let opts := appendBaseConnOptions [] c in
  match appendAuthOptions opts c with
  | Er e => (Er e, s)
  | Ok (authOpts, made) =>
      let kp := if made then Some (nextKey s) else None in
      let ks := if made then nextKey s :: keys s else keys s in
      let s1 := Client (wipe (keyPair s) ks) kp (if made then Datatypes.S (nextKey s) else nextKey s) (conns s) (ctxLive s) in
      match appendTLSOptions authOpts (cTLS c) with
      | Er e => (Er e, s1)
      | Ok opts => (Ok (appendReconnectOptions opts c ++ [CoHandlers]), s1)
      end
  end.

(** One dial: the answer of [natspkg.Connect] to the [i]-th attempt, a connection
    number or an error. *)
Variable dial : nat -> res nat.
(** The context's error while the client waits after the [i]-th attempt. *)
Variable ctx_wait : nat -> option err.
(** The value of an out-of-range conversion to [time.Duration]. *)
Variable bad : spec_float -> Z.

Definition next_wait (wait : Z) (backoff : spec_float) : Z := Slow.f64_to_int bad (f64_mul (f64_of_int wait) backoff).

(** The retry loop: the result and the waits that elapsed. *)
Fixpoint retry_loop (c : Connection) (n i : nat) (wait : Z) (backoff : spec_float) (lastErr : err) (s : client) : res nat * list Z * client :=
  match n with
  | O => (Er (wrapf "connect after %d attempts: %w" lastErr), [], s)
  | Datatypes.S n' =>
      match configureOptions c s with
      | (Er e, s1) => (Er e, [], s1)
      | (Ok _, s1) =>
          match dial i with
          | Ok nc => (Ok nc, [], Client (keys s1) (keyPair s1) (nextKey s1) (nc :: conns s1) (ctxLive s1))
          | Er e =>
              match n' with
              | O => (Er (wrapf "connect after %d attempts: %w" e), [], s1)
              | _ =>
                  match ctx_wait i with
                  | Some ce => (Er (wrapf "context cancelled: %w" ce), [], s1)
                  | None =>
                      let '(r, ws, s2) := retry_loop c n' (Datatypes.S i) (next_wait wait backoff) backoff e s1 in
                      (r, wait :: ws, s2)
                  end
              end
          end
      end
  end.

Definition is_f64_zero (f : spec_float) : bool := match f with S754_zero _ => true | _ => false end.

Definition connectWithRetry (c : Connection) (s : client) : res nat * list Z * client :=
  let wait := if InitialRetryWait c =? 0 then defaultInitialRetryWait else InitialRetryWait c in
  let backoff := if is_f64_zero (InitialRetryBackoff c) then defaultInitialRetryBackoff else InitialRetryBackoff c in
  let attempts := if InitialRetryAttempts c <=? 0 then defaultInitialRetryAttempts else InitialRetryAttempts c in
  retry_loop c (Z.to_nat attempts) 0 wait backoff (errorf "") s.

Definition close_conn (nc : nat) (s : client) : client :=
  Client (keys s) (keyPair s) (nextKey s) (List.filter (fun j => negb (j =? nc)%nat) (conns s)) (ctxLive s).

(** [js1], [js2]: the errors of the two JetStream contexts. *)
Definition NewClient (cfg : option Connection) (js1 js2 : option err) : res nat * client :=
  match cfg with
  | None => (Er (wrapf "new client: %w" (Sentinel ErrEmptyConfigNotAllowed)), Client [] None 0 [] false)
  | Some c =>
      if IsEmpty (Address c) then (Er (wrapf "new client: %w" (Sentinel ErrEmptyAddressNotAllowed)), Client [] None 0 [] false)
      else match validateAuthConfig c with
      | Some e => (Er (wrapf "new client: %w" e), Client [] None 0 [] false)
      | None =>
          let '(r, s) :=
            if 0 <? InitialRetryAttempts c then let '(r, _, s) := connectWithRetry c client_init in (r, s)
            else match configureOptions c client_init with
                 | (Er e, s) => (Er e, s)
                 | (Ok _, s) =>
                     match dial 0 with
                     | Er e => (Er e, s)
                     | Ok nc => (Ok nc, Client (keys s) (keyPair s) (nextKey s) (nc :: conns s) (ctxLive s))
                     end
                 end in
          match r with
          | Er e => (Er (wrapf "connect: %w" e), s)
          | Ok nc =>
              match js1 with
              | Some e => (Er (wrapf "jetstream: %w" e), close_conn nc s)
              | None =>
                  match js2 with
                  | Some e => (Er (wrapf "jetstream v2: %w" e), close_conn nc s)
                  | None => (Ok nc, s)
                  end
              end
          end
      end
  end.

(** ** Lemmas *)

Lemma delay_loop_spec k d : 0 < d -> delay_loop k d = Z.min defaultMaxReconnectDelay (d * 2 ^ Z.of_nat k).
Proof.
  unfold defaultMaxReconnectDelay, second. revert d. induction k as [|k IH]; intros d Hd; cbn [delay_loop].
  - unfold defaultMaxReconnectDelay, second. rewrite Z.pow_0_r, Z.mul_1_r. destruct (Z.ltb_spec (30 * 10 ^ 9) d); lia.
  - unfold defaultMaxReconnectDelay, second, reconnectDelayMultiplier in *. change (30 * 10 ^ 9 ÷ 2) with 15000000000.
    rewrite Nat2Z.inj_succ, Z.pow_succ_r by lia. assert (1 <= 2 ^ Z.of_nat k) by (apply (Z.pow_le_mono_r 2 0); lia).
    destruct (Z.leb_spec 15000000000 d); [nia|].
    rewrite i64_id by (unfold in_i64; lia). rewrite IH by lia. f_equal. ring.
Qed.

Definition key_ok (s : client) : Prop :=
  keys s = option_list (keyPair s) /\ forall k, keyPair s = Some k -> (k < nextKey s)%nat.

Lemma configureOptions_key c s : key_ok s ->
  key_ok (configureOptions c s).2 /\ conns (configureOptions c s).2 = conns s /\ ctxLive (configureOptions c s).2 = ctxLive s.
Proof.
  intros [Hk Hl]. unfold configureOptions. destruct (appendAuthOptions _ c) as [[o made]|e]; [|done].
  assert (key_ok (Client (wipe (keyPair s) (if made then nextKey s :: keys s else keys s))
    (if made then Some (nextKey s) else None) (if made then Datatypes.S (nextKey s) else nextKey s) (conns s) (ctxLive s))) as H.
  { unfold key_ok. simpl. rewrite Hk. split; [|destruct made; intros k; [intros [= <-]; lia|done]].
    destruct (keyPair s) as [k|]; destruct made; simpl; rewrite ?Nat.eqb_refl; simpl; try done.
    specialize (Hl k eq_refl). destruct (Nat.eqb_spec (nextKey s) k); [lia|]. done. }
  destruct (appendTLSOptions _ _); done.
Qed.

(** The options do not depend on what the client holds. *)
Definition options_of (c : Connection) : res (list conn_option) := (configureOptions c client_init).1.

Lemma configureOptions_1 c s : (configureOptions c s).1 = options_of c.
Proof. unfold options_of, configureOptions. destruct (appendAuthOptions _ c) as [[o made]|e]; [|done]. by destruct (appendTLSOptions _ _). Qed.

Lemma configureOptions_made c s : IsEmpty (Seed c) = false -> is_ok (options_of c) -> keyPair (configureOptions c s).2 <> None.
Proof.
  intros Hs [o Ho]. unfold options_of, configureOptions, appendAuthOptions in *. rewrite Hs in *.
  destruct (nkey_from_seed _); [done|]. destruct (nkey_public _); [|done]. by destruct (appendTLSOptions _ _).
Qed.

Lemma retry_loop_key c n i wait bk le s r ws s' :
  key_ok s -> retry_loop c n i wait bk le s = (r, ws, s') ->
  key_ok s' /\ ctxLive s' = ctxLive s /\ conns s' = match r with Ok nc => nc :: conns s | Er _ => conns s end.
Proof.
  revert i wait le s r ws s'. induction n as [|n IH]; intros i wait le s r ws s' Hs H; simpl in H; [by simplify_eq|].
  destruct (configureOptions_key c s Hs) as (H1 & H2 & H3). destruct (configureOptions c s) as [[o|e] s1]; simpl in *; [|by simplify_eq].
  destruct (dial i) as [nc|e]; [simplify_eq; split_and!; [exact H1|done|simpl; by rewrite H2]|].
  destruct n as [|n]; [by simplify_eq|]. destruct (ctx_wait i); [by simplify_eq|].
  destruct (retry_loop c (Datatypes.S n) _ _ _ _ s1) as [[r1 ws1] s2] eqn:E. simplify_eq.
  destruct (IH _ _ _ _ _ _ _ H1 E) as (G1 & G2 & G3). split_and!; [done|congruence|by rewrite G3, H2].
Qed.

(** ** Properties *)

(** The reconnect delay of the [n]-th attempt is the base delay doubled
    [n - 1] times, capped at thirty seconds, for every attempt number and every
    base, a base that is not positive counting as one second; the arithmetic
    never leaves 64 bits. *)
Theorem reconnect_delay_exact (base n : Z) :
  cappedExponentialReconnectDelay base n =
  Z.min defaultMaxReconnectDelay ((if base <=? 0 then defaultReconnectWait else base) * 2 ^ (Z.max n 1 - 1)).
Proof.
  unfold cappedExponentialReconnectDelay. rewrite delay_loop_spec.
  - do 3 f_equal. destruct (Z.ltb_spec n 1); lia.
  - destruct (Z.leb_spec base 0); [unfold defaultReconnectWait, second; lia|done].
Qed.

(** A connection uses one credential.  A configuration that passes
    validation yields at most one authentication option, none when the address
    carries user information, and exactly one when a seed, a user, a token or a
    credentials file is configured; a key pair is made exactly for a seed. *)
Theorem auth_single_mechanism c opts made :
  validateAuthConfig c = None -> appendAuthOptions [] c = Ok (opts, made) ->
  cnt is_auth opts = Z.b2z (negb (IsEmpty (Seed c)) || negb (IsEmpty (User c)) || negb (IsEmpty (Secret c)) || negb (IsEmpty (CredentialsFile c))) /\
  (addressHasUserinfo (Address c) = true -> opts = []) /\ made = negb (IsEmpty (Seed c)).
Proof.
  unfold validateAuthConfig, appendAuthOptions. cbv zeta.
  destruct (IsEmpty (Seed c)), (IsEmpty (User c)), (IsEmpty (Password c)), (IsEmpty (Secret c)), (IsEmpty (CredentialsFile c)),
    (addressHasUserinfo (Address c)); simpl; try done; intros _;
    try (destruct (nkey_from_seed _); [done|]; destruct (nkey_public _); [|done]); intros [= <- <-]; done.
Qed.

(** The [j]-th wait of the retries. *)
Definition wait_at (wait : Z) (backoff : spec_float) (j : nat) : Z := Nat.iter j (fun w => next_wait w backoff) wait.

Lemma retry_loop_S c n i wait bk le s : retry_loop c (Datatypes.S n) i wait bk le s =
  match configureOptions c s with
  | (Er e, s1) => (Er e, [], s1)
  | (Ok _, s1) =>
      match dial i with
      | Ok nc => (Ok nc, [], Client (keys s1) (keyPair s1) (nextKey s1) (nc :: conns s1) (ctxLive s1))
      | Er e =>
          match n with
          | O => (Er (wrapf "connect after %d attempts: %w" e), [], s1)
          | _ => match ctx_wait i with
                 | Some ce => (Er (wrapf "context cancelled: %w" ce), [], s1)
                 | None => let '(r, ws, s2) := retry_loop c n (Datatypes.S i) (next_wait wait bk) bk e s1 in (r, wait :: ws, s2)
                 end
          end
      end
  end.
Proof. done. Qed.

Lemma retry_loop_spec c n i wait bk le s r ws s' :
  is_ok (options_of c) -> (forall j, ctx_wait j = None) -> retry_loop c (Datatypes.S n) i wait bk le s = (r, ws, s') ->
  (forall j w, ws !! j = Some w -> w = wait_at wait bk j) /\
  ((exists k nc, (k <= n)%nat /\ dial (i + k) = Ok nc /\ r = Ok nc /\ length ws = k /\
      forall j, (j < k)%nat -> exists e, dial (i + j) = Er e) \/
   (exists e, r = Er (wrapf "connect after %d attempts: %w" e) /\ dial (i + n) = Er e /\ length ws = n /\
      forall j, (j <= n)%nat -> exists e, dial (i + j) = Er e)).
Proof.
  intros [o Ho] Hc. revert i wait le s r ws s'. induction n as [|n IH]; intros i wait le s r ws s'; rewrite retry_loop_S;
    (destruct (configureOptions c s) as [[o'|e'] s1] eqn:E; [|pose proof (configureOptions_1 c s); rewrite E in *; simpl in *; congruence]);
    destruct (dial i) as [nc|e] eqn:Ed; intros H.
  - simplify_eq. split; [done|]. left. exists 0%nat, nc. rewrite Nat.add_0_r. split_and!; try done. lia.
  - simplify_eq. split; [done|]. right. exists e. rewrite Nat.add_0_r. split_and!; try done.
    intros j Hj. replace (i + j)%nat with i by lia. eauto.
  - simplify_eq. split; [done|]. left. exists 0%nat, nc. rewrite Nat.add_0_r. split_and!; try done; lia.
  - rewrite Hc in H. destruct (retry_loop c (Datatypes.S n) _ _ _ _ s1) as [[r1 ws1] s2] eqn:Er. simplify_eq.
    apply IH in Er as [Hw Hr]. split.
    { intros [|j] w; simpl; [by intros [= <-]|]. intros Hj%Hw. rewrite Hj. apply (Nat.iter_swap j _ (fun w => next_wait w bk)). }
    assert (forall k (Q : nat -> Prop), (forall j, (j < k)%nat -> Q (Datatypes.S i + j)%nat) -> Q i ->
      forall j, (j < Datatypes.S k)%nat -> Q (i + j)%nat) as Hshift.
    { intros k Q H1 H2 [|j] Hj; [by rewrite Nat.add_0_r|]. replace (i + Datatypes.S j)%nat with (Datatypes.S i + j)%nat by lia. apply H1. lia. }
    destruct Hr as [(k & nc & Hk & Hd & -> & <- & Hf)|(e' & -> & Hd & Hlen & Hf)]; [left|right].
    + exists (Datatypes.S (length ws1)), nc. replace (i + Datatypes.S (length ws1))%nat with (Datatypes.S i + length ws1)%nat by lia.
      split_and!; [lia|done|done|done|]. apply (Hshift _ (fun x => exists e, dial x = Er e)); eauto.
    + exists e'. replace (i + Datatypes.S n)%nat with (Datatypes.S i + n)%nat by lia. split_and!; [done|done|simpl; lia|].
      intros j Hj. apply (Hshift (Datatypes.S n) (fun x => exists e, dial x = Er e)); [|eauto|lia]. intros j' Hj'. apply Hf. lia.
Qed.

(** The initial connection is retried as configured.  With options that can
    be built and a context that is not cancelled, the client dials until the
    first success and at most the configured number of times (five when none is
    given), waiting between dials only, each wait the previous one times the
    backoff; when every dial fails the error wraps that of the last one. *)
Theorem connect_retries c s r ws s' :
  is_ok (options_of c) -> (forall j, ctx_wait j = None) -> connectWithRetry c s = (r, ws, s') ->
  let n := Z.to_nat (if InitialRetryAttempts c <=? 0 then defaultInitialRetryAttempts else InitialRetryAttempts c) in
  let wait := if InitialRetryWait c =? 0 then defaultInitialRetryWait else InitialRetryWait c in
  let backoff := if is_f64_zero (InitialRetryBackoff c) then defaultInitialRetryBackoff else InitialRetryBackoff c in
  (forall j w, ws !! j = Some w -> w = wait_at wait backoff j) /\
  ((exists k nc, (k < n)%nat /\ dial k = Ok nc /\ r = Ok nc /\ length ws = k /\
      forall j, (j < k)%nat -> exists e, dial j = Er e) \/
   (exists e, r = Er (wrapf "connect after %d attempts: %w" e) /\ dial (n - 1) = Er e /\ length ws = (n - 1)%nat /\
      forall j, (j < n)%nat -> exists e, dial j = Er e)).
Proof.
  intros Ho Hc H n wait backoff. unfold connectWithRetry in H. fold n wait backoff in H.
  assert (exists m, n = Datatypes.S m) as [m Hm].
  { exists (n - 1)%nat. unfold n. destruct (Z.leb_spec (InitialRetryAttempts c) 0); [done|lia]. }
  rewrite Hm in H |- *. destruct (retry_loop_spec _ _ _ _ _ _ _ _ _ _ Ho Hc H) as [Hw Hr]. split; [done|].
  simpl. rewrite Nat.sub_0_r. destruct Hr as [(k & nc & H1 & H2)|(e & H1 & H2 & H3 & H4)]; [left|right].
  - exists k, nc. split; [lia|done].
  - exists e. split_and!; try done. intros j Hj. apply H4. lia.
Qed.

(** The resources of a new client.  Whatever the outcome, the only key pair
    in memory is the one the client holds, pairs of earlier attempts having
    been wiped; on success exactly the returned connection is open and on
    failure none is.  But a failure that comes after the options were built
    wipes nothing and cancels nothing: with a seed and a server that cannot be
    reached, the caller gets an error and no client, and the key pair and the
    context stay. *)
Theorem new_client_resources cfg js1 js2 :
  (forall r s, NewClient cfg js1 js2 = (r, s) ->
     keys s = option_list (keyPair s) /\ conns s = match r with Ok nc => [nc] | Er _ => [] end) /\
  (forall c, cfg = Some c -> Address c <> "" -> validateAuthConfig c = None -> Seed c <> "" -> is_ok (options_of c) ->
     (forall i, exists e, dial i = Er e) -> InitialRetryAttempts c <= 0 ->
     exists e s k, NewClient cfg js1 js2 = (Er e, s) /\ keys s = [k] /\ ctxLive s = true).
Proof.
  assert (key_ok client_init) as H0 by done. split.
  - intros r s. unfold NewClient. destruct cfg as [c|]; [|by intros [= <- <-]].
    destruct (IsEmpty (Address c)); [by intros [= <- <-]|]. destruct (validateAuthConfig c); [by intros [= <- <-]|].
    set (x := if 0 <? InitialRetryAttempts c then _ else _).
    assert (key_ok x.2 /\ conns x.2 = match x.1 with Ok nc => [nc] | Er _ => [] end) as [Hx1 Hx2].
    { unfold x. destruct (0 <? _).
      - destruct (connectWithRetry c client_init) as [[r1 ws] s1] eqn:E. by apply retry_loop_key in E as (? & _ & ?).
      - destruct (configureOptions_key c client_init H0) as (H1 & H2 & _).
        destruct (configureOptions c client_init) as [[o|e] s1]; simpl in *; [|done].
        destruct (dial 0); [split; [exact H1|simpl; by rewrite H2]|done]. }
    destruct x as [[nc|e] s1]; simpl in *; [|intros [= <- <-]; by destruct Hx1].
    destruct js1; [intros [= <- <-]; simpl; split; [apply Hx1|by rewrite Hx2; simpl; rewrite Nat.eqb_refl]|].
    destruct js2; [intros [= <- <-]; simpl; split; [apply Hx1|by rewrite Hx2; simpl; rewrite Nat.eqb_refl]|].
    intros [= <- <-]. split; [apply Hx1|done].
  - intros c -> Ha Hv Hs Ho Hd Hr. unfold NewClient. apply IsEmpty_false in Ha as ->. rewrite Hv.
    destruct (Z.ltb_spec 0 (InitialRetryAttempts c)); [lia|].
    destruct (configureOptions_key c client_init H0) as ([H1 _] & _ & H3). apply IsEmpty_false in Hs.
    pose proof (configureOptions_made c client_init Hs Ho) as Hk. destruct Ho as [o Ho]. unfold options_of in Ho.
    destruct (configureOptions c client_init) as [r1 s1]. simpl in *. subst r1. destruct (Hd 0%nat) as [e ->].
    destruct (keyPair s1) as [k|]; [|done]. eexists _, s1, k. split; [done|]. split; [exact H1|exact H3].
Qed.

End Auth.

(** ** Witnesses *)

(** A URL parser that looks for user information before an at sign, and a key
    library that accepts every seed. *)
Definition demo_parse (s : string) : res (option string * string) :=
  match split "@" s with u :: (_ :: _) as rest => Ok (Some u, join "@" (tl (split "@" s))) | _ => Ok (None, s) end.
#[export] Instance demo_url : UrlApi := {| url_parse := demo_parse |}.
#[export] Instance demo_keys : KeyApi :=
  {| nkey_from_seed := fun _ => None; nkey_public := fun s => Ok ("U" +:+ s); pem_ca_ok := fun _ => true; pem_pair := fun _ _ => None |}.

Definition conn_with (seed secret : string) (attempts : Z) : Connection :=
  Conn_ "nats://127.0.0.1:4222" "" "" seed secret "" "" "" (ConnTLS None "" "" "" "" false) None 0 (-1) 0 0 0 0 0 0 0 0
    attempts 0 (f64_of_int 0) true true false.
Definition refused : nat -> res nat := fun _ => Er (errorf "no servers available").
(** The server comes up before the third dial. *)
Definition third_time : nat -> res nat := fun i => if (i <? 2)%nat then Er (errorf "no servers available") else Ok 7%nat.

Lemma auth_single_mechanism_witness :
  exists opts, appendAuthOptions [] (conn_with "SUAM" "" 0) = Ok (opts, true) /\ cnt is_auth opts = 1.
Proof.
  eexists. split; [vm_compute; reflexivity|].
  exact (proj1 (auth_single_mechanism (conn_with "SUAM" "" 0) [CoNkey "USUAM"] true eq_refl eq_refl)).
Defined.

Lemma connect_retries_witness :
  exists ws s', connectWithRetry third_time (fun _ => None) (fun _ => 0) (conn_with "" "" 5) client_init = (Ok 7%nat, ws, s') /\
    ws = [second; 2 * second] /\ forall j w, ws !! j = Some w -> w = wait_at (fun _ => 0) second (f64_of_int 2) j.
Proof.
  destruct (connectWithRetry third_time (fun _ => None) (fun _ => 0) (conn_with "" "" 5) client_init) as [[r ws] s'] eqn:E.
  assert (r = Ok 7%nat /\ ws = [second; 2 * second]) as [-> ->] by (vm_compute in E; injection E as <- <- <-; split; reflexivity).
  exists [second; 2 * second], s'. split; [reflexivity|]. split; [reflexivity|].
  assert (is_ok (options_of (conn_with "" "" 5))) as Ho by (eexists; reflexivity).
  exact (proj1 (connect_retries third_time (fun _ => None) (fun _ => 0) (conn_with "" "" 5) client_init _ _ _ Ho (fun _ => eq_refl) E)).
Defined.

Lemma new_client_resources_witness :
  exists e s k, NewClient refused (fun _ => None) (fun _ => 0) (Some (conn_with "SUAM" "" 0)) None None = (Er e, s) /\ keys s = [k].
Proof.
  assert (is_ok (options_of (conn_with "SUAM" "" 0))) as Ho by (eexists; reflexivity).
  destruct (proj2 (new_client_resources refused (fun _ => None) (fun _ => 0) (Some (conn_with "SUAM" "" 0)) None None)
    (conn_with "SUAM" "" 0) eq_refl) as (e & s & k & H1 & H2 & _);
    [discriminate|reflexivity|discriminate|exact Ho|intros i; eexists; reflexivity|simpl; lia|].
  exists e, s, k. split; [exact H1|exact H2].
Defined.
