(* ===== verification/Lifecycle.v ===== *)
(** * The life of a client (connection.go, client.go)

    The connection handlers and the status they leave, health check and
    waiting, and the shutdown sequence.  What the connection answers is a
    parameter of each operation; logging and metrics are left out. *)
From stdpp Require Import sorting.
From S2P Require Import Prelude GoStr Publisher Admin Connection.

Definition ErrDrainTimeout : string := "nats.ErrDrainTimeout".
Definition ctxDeadlineExceeded : string := "context.DeadlineExceeded".
Definition ctxCanceled : string := "context.Canceled".

(** ** Connection handlers *)

Module Status.

Record cstate := CState { lastError : option err; lastDisconnect : option Z; reconnectCount : Z; inLameDuck : bool }.
Definition cstate_init : cstate := CState None None 0 false.

Definition onConnect (s : cstate) : cstate := CState (lastError s) (lastDisconnect s) (reconnectCount s) false.
Definition onDisconnect (e : option err) (now : Z) (s : cstate) : cstate := CState e (Some now) (reconnectCount s) (inLameDuck s).
Definition onReconnect (s : cstate) : cstate := CState (lastError s) (lastDisconnect s) (i64 (reconnectCount s + 1)) false.
Definition onReconnectErr (e : option err) (s : cstate) : cstate :=
  match e with None => s | Some _ => CState e (lastDisconnect s) (reconnectCount s) (inLameDuck s) end.
(** [e] is the last error of the connection, if there is a connection and it has one. *)
Definition onClosed (e : option err) (s : cstate) : cstate :=
  CState (match e with Some _ => e | None => lastError s end) (lastDisconnect s) (reconnectCount s) false.
Definition onError (e : option err) (s : cstate) : cstate :=
  match e with None => s | Some _ => CState e (lastDisconnect s) (reconnectCount s) (inLameDuck s) end.
Definition onLameDuck (s : cstate) : cstate := CState (lastError s) (lastDisconnect s) (reconnectCount s) true.

Inductive cevent :=
  | EvConnect | EvDisconnect (e : option err) (now : Z) | EvReconnect | EvReconnectErr (e : option err)
  | EvClosed (e : option err) | EvError (e : option err) | EvLameDuck.

(** Which handler nats.go calls. *)
Definition on_event (s : cstate) (v : cevent) : cstate :=
  match v with
  | EvConnect => onConnect s
  | EvDisconnect e now => onDisconnect e now s
  | EvReconnect => onReconnect s
  | EvReconnectErr e => onReconnectErr e s
  | EvClosed e => onClosed e s
  | EvError e => onError e s
  | EvLameDuck => onLameDuck s
  end.
Definition history (evs : list cevent) : cstate := foldl on_event cstate_init evs.

Record ConnectionStatus_ := CStatus {
  csLastDisconnect : option Z; csLastError : option err; csServerURL : string; csReconnectCount : Z; csConnected : bool;
  csInLameDuck : bool
}.

Section Status.
Context `{UA : UrlApi}.

(** [conn]: the connection, if there is one: whether it is connected, and to which URL. *)
Definition ConnectionStatus (conn : option (bool * string)) (s : cstate) : ConnectionStatus_ :=
  let connected := match conn with Some (b, _) => b | None => false end in
  CStatus (lastDisconnect s) (lastError s)
    (match conn with Some (true, url) => redactURLString url | _ => "" end)
    (reconnectCount s) connected (inLameDuck s).

End Status.

(** The value an event writes to a field, if it writes it. *)
Definition error_written (v : cevent) : option (option err) :=
  match v with
  | EvDisconnect e _ => Some e
  | EvReconnectErr (Some e) | EvClosed (Some e) | EvError (Some e) => Some (Some e)
  | _ => None
  end.
Definition duck_written (v : cevent) : option bool :=
  match v with EvConnect | EvReconnect | EvClosed _ => Some false | EvLameDuck => Some true | _ => None end.
Definition disconnect_written (v : cevent) : option (option Z) :=
  match v with EvDisconnect _ now => Some (Some now) | _ => None end.
Definition is_reconnect (v : cevent) : bool := match v with EvReconnect => true | _ => false end.

Definition last_of {A} (l : list A) : option A := head (reverse l).

Lemma last_of_cons {A} (x : A) l : last_of (x :: l) = Some (default x (last_of l)).
Proof. unfold last_of. rewrite reverse_cons. by destruct (reverse l). Qed.

(** A field that every event either writes or leaves holds the last value written. *)
Lemma last_written {A} (field : cstate -> A) (w : cevent -> option A) s evs :
  (forall s v, field (on_event s v) = default (field s) (w v)) ->
  field (foldl on_event s evs) = default (field s) (last_of (omap w evs)).
Proof.
  intros Hw. revert s. induction evs as [|v evs IH]; intros s; simpl; [done|]. rewrite IH, Hw.
  destruct (w v) as [x|]; simpl; [|done]. by rewrite last_of_cons.
Qed.

(** The connection status is exact.  After any history of connection events
    the last error, the last disconnect time and the lame-duck flag are the
    last values written by an event that sets them (a disconnect without an
    error clears the error), the reconnect count is the number of reconnects,
    and a server URL is reported, without its credentials, exactly while
    connected. *)
Theorem connection_status_exact `{UA : UrlApi} evs conn :
  cnt is_reconnect evs < 2 ^ 63 ->
  let st := ConnectionStatus conn (history evs) in
  csLastError st = default None (last_of (omap error_written evs)) /\
  csLastDisconnect st = default None (last_of (omap disconnect_written evs)) /\
  csInLameDuck st = default false (last_of (omap duck_written evs)) /\
  csReconnectCount st = cnt is_reconnect evs /\
  csServerURL st = match conn with Some (true, url) => redactURLString url | _ => "" end /\
  (csConnected st = true <-> exists url, conn = Some (true, url)).
Proof.
  intros Hn. cbv zeta. unfold ConnectionStatus, history. cbn [csLastError csLastDisconnect csInLameDuck csReconnectCount csServerURL csConnected].
  split_and!; [| | | |done|].
  - apply (last_written lastError error_written). by intros s [| | |[]|[]|[]|].
  - apply (last_written lastDisconnect disconnect_written). by intros s [| | |[]|[]|[]|].
  - apply (last_written inLameDuck duck_written). by intros s [| | |[]|[]|[]|].
  - assert (forall s, 0 <= reconnectCount s -> reconnectCount s + cnt is_reconnect evs < 2 ^ 63 ->
      reconnectCount (foldl on_event s evs) = reconnectCount s + cnt is_reconnect evs) as G; [|by apply (G cstate_init)].
    clear Hn. induction evs as [|v evs IH]; intros s H0 H; simpl; [rewrite cnt_nil; lia|].
    rewrite cnt_cons in H |- *. pose proof (cnt_nonneg is_reconnect evs).
    rewrite IH; destruct v as [| | |[]|[]|[]|]; simpl in *; rewrite ?i64_id by (unfold in_i64; lia); lia.
  - destruct conn as [[[] url]|]; split; [eauto|done|done|by intros (? & ?)|done|by intros (? & ?)].
Qed.

End Status.

Lemma connection_status_exact_witness :
  let evs := [Status.EvConnect; Status.EvLameDuck; Status.EvDisconnect (Some (errorf "io timeout")) 5; Status.EvReconnect] in
  Status.csReconnectCount (Status.ConnectionStatus (Some (true, "nats://h:4222")) (Status.history evs)) = 1 /\
  Status.csInLameDuck (Status.ConnectionStatus (Some (true, "nats://h:4222")) (Status.history evs)) = false.
Proof.
  intros evs. destruct (Status.connection_status_exact evs (Some (true, "nats://h:4222"))) as (_ & _ & H1 & H2 & _);
    [vm_compute; reflexivity|]. split; [exact H2|exact H1].
Defined.

(** ** Health and waiting *)

Definition IsConnected (conn : option bool) : bool := match conn with Some b => b | None => false end.

(** [js]: the JetStream context, if there is one, with the error of its account query. *)
Definition AccountInfo (js : option (option err)) : option err :=
  match js with
  | None => Some (Sentinel ErrNatsConnectionNotEstablished)
  | Some (Some e) => Some (wrapf "account info: %w" e)
  | Some None => None
  end.
Definition HealthCheck (conn : option bool) (js : option (option err)) : option err :=
  if negb (IsConnected conn) then Some (Sentinel ErrNatsConnectionNotEstablished)
  else match js with Some (Some e) => Some (wrapf "health check: %w" e) | _ => None end.

Inductive conn_status := SConnected | SClosed | SOther.
(** What the select of [WaitConnected] receives. *)
Inductive wait_event := WCtx (e : err) | WStatus (st : conn_status) | WChanClosed.

Definition wait_answer (v : wait_event) : option (option err) :=
  match v with
  | WCtx e => Some (Some (wrapf "wait connected: %w" e))
  | WStatus SConnected => Some None
  | WStatus SClosed | WChanClosed => Some (Some (Sentinel ErrNatsConnectionNotEstablished))
  | WStatus SOther => None
  end.
(** The loop; [None] while nothing that ends it has been received. *)
Fixpoint wait_loop (evs : list wait_event) : option (option err) :=
  match evs with [] => None | v :: evs' => match wait_answer v with Some r => Some r | None => wait_loop evs' end end.

(** [before], [after]: the two tests of [IsConnected], around the registration of the listener. *)
Definition WaitConnected (haveConn before after : bool) (evs : list wait_event) : option (option err) :=
  if negb haveConn then Some (Some (Sentinel ErrNatsConnectionNotEstablished))
  else if before then Some None
  else if after then Some None
  else wait_loop evs.

(** Waiting for the connection ends with the first event that decides it.
    It reports success only when the connection was seen connected, by one of
    the two tests or by a status change, fails when it is closed or the context
    ends first, and goes on waiting through every other status change. *)
Theorem wait_connected_exact haveConn before after evs r :
  WaitConnected haveConn before after evs = Some r <->
  (haveConn = false /\ r = Some (Sentinel ErrNatsConnectionNotEstablished)) \/
  (haveConn = true /\ (before || after) = true /\ r = None) \/
  (haveConn = true /\ (before || after) = false /\
     exists pre v post, evs = pre ++ v :: post /\ Forall (fun v => v = WStatus SOther) pre /\ wait_answer v = Some r).
Proof.
  unfold WaitConnected. destruct haveConn; simpl; [|naive_solver]. destruct before, after; simpl; try naive_solver.
  assert (wait_loop evs = Some r <->
    exists pre v post, evs = pre ++ v :: post /\ Forall (fun v => v = WStatus SOther) pre /\ wait_answer v = Some r) as ->;
    [|naive_solver].
  induction evs as [|v evs IH]; simpl.
  { split; [done|]. intros (pre & v & post & H & _). by destruct pre. }
  destruct (wait_answer v) as [r'|] eqn:Ev; split.
  - intros [= ->]. exists [], v, evs. auto.
  - intros ([|v' pre] & w & post & [= -> ->] & Hf & Hr); [congruence|]. inversion Hf; subst. done.
  - rewrite IH. intros (pre & w & post & -> & Hf & Hr). exists (v :: pre), w, post. split_and!; [done| |done].
    constructor; [|done]. by destruct v as [|[]|].
  - intros ([|v' pre] & w & post & [= -> ->] & Hf & Hr); [congruence|]. apply IH. inversion Hf; subst. eauto 10.
Qed.

(** ** Shutdown *)

(** What the shutdown does, in order. *)
Inductive effect :=
  | EStopTicker | EStopCollector | EStopConsumer | EAwaitAsync (timeout : Z) | EStopPublisher | ECancel | EJoinHealth
  | EDrainConn | EPollClosed | ECloseConn | EWipeKey.

(** Which parts the client has; [hcConn] is the open connection. *)
Record parts := Parts {
  hcTicker : bool; hcCollector : bool; hcConsumer : bool; hcPublisher : bool; hcCancel : bool; hcHealthDone : bool;
  hcConn : option nat; hcKey : bool; hcShut : bool
}.

(** What the outside answers: the asynchronous publishes, the drain request, and
    whether the connection is seen closed at each poll before the deadline. *)
Record answers := Answers { ansAsync : option err; ansDrain : option err; ansPolls : list bool }.

(** The polling loop of [drainAndClose]: the polls made and whether one saw the connection closed. *)
Fixpoint poll_loop (polls : list bool) : list effect * bool :=
  match polls with
  | [] => ([], false)
  | true :: _ => ([EPollClosed], true)
  | false :: polls' => let '(l, b) := poll_loop polls' in (EPollClosed :: l, b)
  end.

Definition drainAndClose (a : answers) (timeout : Z) (p : parts) : list err * list effect * parts :=
  let p' := Parts (hcTicker p) (hcCollector p) (hcConsumer p) (hcPublisher p) (hcCancel p) (hcHealthDone p) None (hcKey p) (hcShut p) in
  match hcConn p with
  | None => ([], [], p')
  | Some _ =>
      match ansDrain a with
      | Some e => ([wrapf "drain: %w" e], [EDrainConn; ECloseConn], p')
      | None =>
          let '(polls, closed) := poll_loop (ansPolls a) in
          if closed then ([], EDrainConn :: polls, p')
          else ([wrapf "%w after %s" (Sentinel ErrDrainTimeout)], EDrainConn :: polls ++ [ECloseConn], p')
      end
  end.

Definition eff (b : bool) (l : list effect) : list effect := if b then l else [].

Definition shutdownGraceful (drainTimeout : Z) (a : answers) (p : parts) : list err * list effect * parts :=
  let timeout := if drainTimeout <=? 0 then defaultDrainTimeout else drainTimeout in
  let asyncErr := match ansAsync a with
                  | Some e => if hcPublisher p && negb (errors_is e ctxDeadlineExceeded) && negb (errors_is e ctxCanceled)
                              then [wrapf "async publish drain: %w" e] else []
                  | None => []
                  end in
  let '(drainErr, drained, p') := drainAndClose a timeout p in
  (asyncErr ++ drainErr,
   eff (hcTicker p) [EStopTicker] ++ eff (hcCollector p) [EStopCollector] ++ eff (hcConsumer p) [EStopConsumer]
     ++ eff (hcPublisher p) [EAwaitAsync timeout; EStopPublisher] ++ eff (hcCancel p) [ECancel] ++ eff (hcHealthDone p) [EJoinHealth]
     ++ drained ++ eff (hcKey p) [EWipeKey],
   Parts false false (hcConsumer p) (hcPublisher p) false false (hcConn p') false true).

(** [Shutdown]: once; a later call does nothing and returns nil.  [errors.Join]
    of no errors is nil. *)
Definition Shutdown (drainTimeout : Z) (a : answers) (p : parts) : option err * list effect * parts :=
  if hcShut p then (None, [], p)
  else let '(errs, l, p') := shutdownGraceful drainTimeout a p in
       (match errs with [] => None | _ => Some (Wrapped "" errs) end, l, p').

(** Every [x] happens before every [y]. *)
Definition before (x y : effect -> bool) (l : list effect) : Prop :=
  forall i j ex ey, l !! i = Some ex -> l !! j = Some ey -> x ex = true -> y ey = true -> (i < j)%nat.

Definition is_conn_effect (e : effect) : bool := match e with EDrainConn | EPollClosed | ECloseConn => true | _ => false end.
Definition is_consumer_stop (e : effect) : bool := match e with EStopConsumer => true | _ => false end.
Definition is_async (e : effect) : bool := match e with EAwaitAsync _ | EStopPublisher => true | _ => false end.
Definition is_cancel (e : effect) : bool := match e with ECancel => true | _ => false end.
Definition is_join (e : effect) : bool := match e with EJoinHealth => true | _ => false end.

Lemma poll_loop_conn polls : forallb is_conn_effect (poll_loop polls).1 = true.
Proof. induction polls as [|[] l IH]; simpl; [done|done|]. destruct (poll_loop l). simpl in *. done. Qed.

Lemma poll_loop_true polls : (poll_loop polls).2 = true <-> true ∈ polls.
Proof.
  induction polls as [|[] l IH]; simpl; [split; [done|by intros ?%elem_of_nil]|split; [left|done]|].
  destruct (poll_loop l). simpl in *. rewrite IH. set_solver.
Qed.

(** Only connection effects, one of them the close unless a poll saw the connection closed. *)
Lemma drain_effects a t p errs l p' : drainAndClose a t p = (errs, l, p') ->
  forallb is_conn_effect l = true /\ hcConn p' = None /\
  (hcConn p <> None -> EDrainConn ∈ l /\ (ECloseConn ∈ l \/ (ansDrain a = None /\ true ∈ ansPolls a))) /\
  (errs = [] <-> hcConn p = None \/ (ansDrain a = None /\ true ∈ ansPolls a)).
Proof.
  unfold drainAndClose. destruct (hcConn p) as [nc|]; [|intros [= <- <- <-]; naive_solver].
  destruct (ansDrain a) as [e|]; [intros [= <- <- <-]; split_and!; [done|done|set_solver|naive_solver]|].
  pose proof (poll_loop_conn (ansPolls a)) as Hc. pose proof (poll_loop_true (ansPolls a)) as Ht.
  destruct (poll_loop (ansPolls a)) as [polls []]; simpl in *; intros [= <- <- <-]; simpl.
  - split_and!; [done|done| |naive_solver]. intros _. split; [left|naive_solver].
  - rewrite forallb_app, Hc. split_and!; [done|done| |naive_solver]. intros _. split; [left|]. left. set_solver.
Qed.

(** Each effect comes in its place. *)
Definition rank (e : effect) : nat :=
  match e with
  | EStopTicker => 0 | EStopCollector => 1 | EStopConsumer => 2 | EAwaitAsync _ => 3 | EStopPublisher => 4
  | ECancel => 5 | EJoinHealth => 6 | EDrainConn | EPollClosed | ECloseConn => 7 | EWipeKey => 8
  end.
Definition by_rank (e e' : effect) : Prop := (rank e <= rank e')%nat.

Lemma before_ranked x y l :
  StronglySorted by_rank l -> (forall e e', x e = true -> y e' = true -> (rank e < rank e')%nat) -> before x y l.
Proof.
  intros Hs Hr i j ex ey Hi Hj Hx Hy. specialize (Hr ex ey Hx Hy).
  destruct (decide (i < j)%nat) as [|Hn]; [done|]. assert (i <> j) by (intros ->; simplify_eq; lia).
  rewrite <- (take_drop i l) in Hs. apply StronglySorted_app in Hs as (Hlr & _ & _).
  assert (by_rank ey ex); [|unfold by_rank in *; lia]. apply Hlr.
  - apply (list_elem_of_lookup_2 _ j). by rewrite lookup_take_lt by lia.
  - apply (list_elem_of_lookup_2 _ 0). by rewrite lookup_drop, Nat.add_0_r.
Qed.

Lemma eff_ranked b e : StronglySorted by_rank (eff b [e]).
Proof. destruct b; repeat constructor. Qed.

Lemma eff_elem b l x : x ∈ eff b l <-> b = true /\ x ∈ l.
Proof. destruct b; simpl; [naive_solver|]. split; [by intros ?%elem_of_nil|by intros [? _]]. Qed.

Lemma conn_ranked dl : forallb is_conn_effect dl = true -> StronglySorted by_rank dl.
Proof.
  induction dl as [|e dl IH]; simpl; [constructor|]. intros [He Hd]%andb_true_iff. constructor; [auto|].
  apply List.Forall_forall. intros x Hx%list_elem_of_In. pose proof (forallb_elem _ _ _ Hd Hx). by destruct e, x; try done; unfold by_rank; simpl; lia.
Qed.

(** The whole sequence, [d] the effects on the connection, is in order. *)
Definition effects (timeout : Z) (p : parts) (d : list effect) : list effect :=
  eff (hcTicker p) [EStopTicker] ++ eff (hcCollector p) [EStopCollector] ++ eff (hcConsumer p) [EStopConsumer]
    ++ eff (hcPublisher p) [EAwaitAsync timeout; EStopPublisher] ++ eff (hcCancel p) [ECancel] ++ eff (hcHealthDone p) [EJoinHealth]
    ++ d ++ eff (hcKey p) [EWipeKey].

Lemma effects_ranked t p d : forallb is_conn_effect d = true -> StronglySorted by_rank (effects t p d).
Proof.
  intros Hd. assert (forall x, x ∈ d -> rank x = 7%nat) as H7.
  { intros x Hx. pose proof (forallb_elem _ _ _ Hd Hx). by destruct x. }
  unfold effects. rewrite !StronglySorted_app. split_and!; auto using eff_ranked, conn_ranked;
    try (destruct (hcPublisher p); repeat constructor; unfold by_rank; simpl; lia);
    intros x y; rewrite ?elem_of_app, !eff_elem, ?elem_of_cons, ?elem_of_nil; unfold by_rank; intros Hx Hy;
    destruct_or?; destruct_and?; destruct_or?; subst; simpl; try done; rewrite ?H7 by done; simpl; lia.
Qed.

(** The outcome of the asynchronous publishes that is reported: not a timeout, nor a cancellation. *)
Definition async_reported (a : answers) (p : parts) : option err :=
  match ansAsync a with
  | Some e => if hcPublisher p && negb (errors_is e ctxDeadlineExceeded) && negb (errors_is e ctxCanceled) then Some e else None
  | None => None
  end.
(** The failure of the connection's drain: the request's, or that it was not seen to end. *)
Definition drain_failure (a : answers) (p : parts) : option err :=
  match hcConn p, ansDrain a with
  | None, _ => None
  | Some _, Some e => Some e
  | Some _, None => if bool_decide (true ∈ ansPolls a) then None else Some (Sentinel ErrDrainTimeout)
  end.

Lemma drain_errors a t p :
  match drain_failure a p with
  | None => (drainAndClose a t p).1.1 = []
  | Some e => exists m, (drainAndClose a t p).1.1 = [wrapf m e]
  end.
Proof.
  unfold drain_failure, drainAndClose. destruct (hcConn p); [|done]. destruct (ansDrain a) as [e|]; [simpl; eauto|].
  pose proof (poll_loop_true (ansPolls a)) as Ht. destruct (poll_loop (ansPolls a)) as [l []]; simpl in *.
  - by rewrite bool_decide_eq_true_2 by (by apply Ht).
  - rewrite bool_decide_eq_false_2 by (intros H; by apply Ht in H). eauto.
Qed.

(** The two failures joined: nil when there is none, and otherwise each of them. *)
Lemma shutdown_errors dt a p : hcShut p = false ->
  let r := (Shutdown dt a p).1.1 in
  (r = None <-> async_reported a p = None /\ drain_failure a p = None) /\
  (forall t, is_err r t = is_err (async_reported a p) t || is_err (drain_failure a p) t).
Proof.
  intros Hs. unfold Shutdown. rewrite Hs. unfold shutdownGraceful.
  set (timeout := if dt <=? 0 then _ else _). pose proof (drain_errors a timeout p) as Hd.
  destruct (drainAndClose a timeout p) as [[de dl] dp]. simpl in Hd. unfold async_reported.
  destruct (ansAsync a) as [e|]; [destruct (_ && _)|]; (destruct (drain_failure a p) as [e'|]; [destruct Hd as [m Hd]|]);
    simpl in *; subst; simpl; (split; [naive_solver|intros t]); simpl; rewrite ?orb_false_r; done.
Qed.


Definition full_client : parts := Parts true true true true true true (Some 1%nat) true false.

