(* ===== verification/Metrics.v ===== *)
(** * Metrics (metrics.go, helpers.go, and the recording methods of the publisher and the consumer)

    The instruments a client registers, the labels it uses and the periodic
    collector.  An instrument that could not be created is a nil field and is
    never recorded, so a client's metrics are the names of the instruments it
    has; what is recorded is a list of events.  The telemetry library, the
    clock and the ticker are left out; server answers are inputs. *)
From S2P Require Import Prelude GoStr Validate Pressure Watch.

Inductive instrument := Counter | Gauge | Histogram.

(** What [newClientMetrics] registers, in its order; the "full" and the stream
    instruments only without [Lite]. *)
Definition connection_instruments : list (string * instrument) :=
  [("connection_state", Gauge); ("reconnect_count", Counter); ("connection_in_bytes", Counter);
   ("connection_out_bytes", Counter); ("connection_errors", Counter); ("lame_duck_events", Counter);
   ("idle_heartbeat_misses", Counter); ("resubscribe_total", Counter); ("supervisor_give_up", Counter);
   ("consumer_stall", Counter); ("slow_consumer_detected", Counter); ("behavior_fingerprint_anomaly", Counter)].
Definition connection_full_instruments : list (string * instrument) :=
  [("connection_rtt_seconds", Histogram); ("jetstream_memory_bytes", Gauge); ("jetstream_storage_bytes", Gauge)].
Definition publish_instruments : list (string * instrument) :=
  [("publish_total", Counter); ("publish_errors", Counter); ("publish_latency_seconds", Histogram);
   ("publish_bytes", Histogram); ("request_total", Counter); ("request_errors", Counter);
   ("request_latency_seconds", Histogram); ("request_bytes", Histogram); ("reply_handled", Counter);
   ("reply_errors", Counter)].
Definition consume_instruments : list (string * instrument) :=
  [("messages_received", Counter); ("messages_errors", Counter); ("message_handling_seconds", Histogram);
   ("message_bytes", Histogram); ("redelivery_total", Counter); ("ack_total", Counter); ("nak_total", Counter);
   ("term_total", Counter); ("shadow_error_total", Counter); ("shadow_mismatch_total", Counter);
   ("worker_queue_depth", Gauge); ("slow_consumer_events", Counter); ("fetch_batch_size", Histogram);
   ("fetch_wait_seconds", Histogram); ("pull_batch_process_seconds", Histogram); ("pull_batch_inflight", Gauge)].
Definition stream_instruments : list (string * instrument) :=
  [("stream_messages", Gauge); ("stream_bytes", Gauge); ("stream_first_seq", Gauge); ("stream_last_seq", Gauge);
   ("stream_consumer_count", Gauge); ("stream_replica_count", Gauge); ("consumer_num_pending", Gauge);
   ("consumer_num_ack_pending", Gauge); ("consumer_num_redelivered", Gauge); ("consumer_ack_floor", Gauge);
   ("consumer_lag_messages", Gauge)].

Definition defaultMetricPrefix : string := "nats".
Definition defaultMetricsCollectInterval : Z := 15 * Slow.second.

Record MetricsConfig := MetricsCfg {
  mPrefix : string; mTrackedStreams : list string; mTrackedConsumers : list (string * string); mCollectInterval : Z;
  mAllowMetrics : bool; mLite : bool; mFixedCardinality : bool
}.

Definition instruments (lite : bool) : list (string * instrument) :=
  connection_instruments ++ (if lite then [] else connection_full_instruments) ++ publish_instruments ++ consume_instruments
    ++ (if lite then [] else stream_instruments).
Definition metric_name (prefix name : string) : string := prefix +:+ "/" +:+ name.
Definition metric_prefix (c : MetricsConfig) : string := if IsEmpty (mPrefix c) then defaultMetricPrefix else mPrefix c.

Record clientMetrics := CMetrics { cmHave : list string; fixedCardinality : bool; lite : bool }.

(** [create]: the registry accepts the name; a refusal is logged only. *)
Definition newClientMetrics (create : string -> instrument -> bool) (c : MetricsConfig) : option clientMetrics :=
  if negb (mAllowMetrics c) then None
  else Some (CMetrics (omap (fun '(n, k) => if create (metric_name (metric_prefix c) n) k then Some n else None) (instruments (mLite c)))
               (mFixedCardinality c) (mLite c)).

(** ** Recording *)

(** A value recorded on an instrument under a label. *)
Record metric_event := MEvent { evName : string; evValue : Z; evLabel : string }.
Definition has (m : clientMetrics) (name : string) : bool := bool_decide (name ∈ cmHave m).
Definition rec_on (m : clientMetrics) (name : string) (v : Z) (label : string) : list metric_event :=
  if has m name then [MEvent name v label] else [].

Definition metricSubjectLabel (m : option clientMetrics) (subject : string) : string :=
  match m with Some m => if fixedCardinality m then "" else subject | None => subject end.

Definition addCounter (m : option clientMetrics) (name subject : string) : list metric_event :=
  match m with None => [] | Some cm => rec_on cm name 1 (metricSubjectLabel m subject) end.
(** The latency instrument may be absent (nil). *)
Definition recordBytesLatency (m : option clientMetrics) (bytesHist : string) (latencyHist : option string) (subject : string)
  (nbytes elapsed : Z) : list metric_event :=
  match m with
  | None => []
  | Some cm =>
      let label := metricSubjectLabel m subject in
      rec_on cm bytesHist nbytes label ++ match latencyHist with Some l => rec_on cm l elapsed label | None => [] end
  end.

Definition publisher_recordError (allow : bool) (m : option clientMetrics) (subject : string) : list metric_event :=
  if negb allow then [] else addCounter m "publish_errors" subject.
Definition publisher_recordSuccess (allow : bool) (m : option clientMetrics) (subject : string) (bytes elapsed : Z) : list metric_event :=
  if negb allow then []
  else addCounter m "publish_total" subject ++ recordBytesLatency m "publish_bytes" (Some "publish_latency_seconds") subject bytes elapsed.
Definition recordAsyncAccepted (allow : bool) (m : option clientMetrics) (subject : string) (bytes : Z) : list metric_event :=
  if negb allow then []
  else addCounter m "publish_total" subject ++ recordBytesLatency m "publish_bytes" None subject bytes 0.

(** [delivered]: the delivery count of the message's metadata, when it has
    any; the returned start time is 0 without a handling-time instrument. *)
Definition recordMessageMetrics (m : option clientMetrics) (now : Z) (subject : string) (size : Z) (delivered : option Z)
  : Z * list metric_event :=
  match m with
  | None => (0, [])
  | Some cm =>
      let label := metricSubjectLabel m subject in
      (if has cm "message_handling_seconds" then now else 0,
       (match delivered with Some d => if 1 <? d then rec_on cm "redelivery_total" 1 label else [] | None => [] end)
         ++ rec_on cm "message_bytes" size label ++ rec_on cm "messages_received" 1 label)
  end.

(** ** The collector *)

Record metricsCollector := Collector { lastInBytes : Z; lastOutBytes : Z }.
(** [newMetricsCollector]: the poll interval, if there is a collector. *)
Definition newMetricsCollector (m : option clientMetrics) (c : MetricsConfig) : option (Z * metricsCollector) :=
  match m with
  | Some _ => if mAllowMetrics c
              then Some (if mCollectInterval c <=? 0 then defaultMetricsCollectInterval else mCollectInterval c, Collector 0 0) else None
  | None => None
  end.

Definition recordByteDelta (m : clientMetrics) (name : string) (current last : Z) : list metric_event * Z :=
  if negb (has m name) || (current <? last) then ([], current)
  else let delta := i64 (u64 (current - last)) in (if 0 <? delta then rec_on m name delta "" else [], current).

(** What one round sees of the connection: bytes in and out, whether it is
    connected and the round-trip time. *)
Record conn_stats := ConnStats { csIn : Z; csOut : Z; csConnected : bool; csRTT : option Z }.
Definition collectConnectionStats (m : clientMetrics) (st : conn_stats) (c : metricsCollector) : list metric_event * metricsCollector :=
  let '(e1, in') := recordByteDelta m "connection_in_bytes" (csIn st) (lastInBytes c) in
  let '(e2, out') := recordByteDelta m "connection_out_bytes" (csOut st) (lastOutBytes c) in
  (e1 ++ e2 ++ (if csConnected st then match csRTT st with Some r => rec_on m "connection_rtt_seconds" r "" | None => [] end else []),
   Collector in' out').

Record stream_stats := StreamStats {
  ssMsgs : Z; ssBytes : Z; ssFirstSeq : Z; ssLastSeq : Z; ssConsumers : Z; ssReplicas : option Z
}.
Record consumer_stats := ConsumerStats {
  csNumPending : Z; csNumAckPending : Z; csNumRedelivered : Z; csAckFloor : Z; csDelivered : Z
}.
(** The server's answers in one round; a stream can be asked for twice, for its
    own gauges and for the lag of a consumer. *)
Record js_answers := JsAnswers {
  jaAccount : option (Z * Z); jaStream : string -> option stream_stats; jaConsumer : string -> string -> option consumer_stats;
  jaStreamForLag : string -> option stream_stats
}.

Definition collectStream (m : clientMetrics) (name : string) (info : option stream_stats) : list metric_event :=
  match info with
  | None => []
  | Some i =>
      rec_on m "stream_messages" (i64 (ssMsgs i)) name ++ rec_on m "stream_bytes" (i64 (ssBytes i)) name
      ++ rec_on m "stream_first_seq" (i64 (ssFirstSeq i)) name ++ rec_on m "stream_last_seq" (i64 (ssLastSeq i)) name
      ++ rec_on m "stream_consumer_count" (ssConsumers i) name
      ++ match ssReplicas i with Some r => rec_on m "stream_replica_count" (r + 1) name | None => [] end
  end.

Definition consumer_lag (last delivered : Z) : Z := Z.max (i64 (i64 last - i64 delivered)) 0.

Definition collectConsumer (m : clientMetrics) (js : js_answers) (cache : gmap string stream_stats) (stream durable : string)
  : list metric_event :=
  match jaConsumer js stream durable with
  | None => []
  | Some i =>
      let label := stream +:+ "." +:+ durable in
      rec_on m "consumer_num_pending" (i64 (csNumPending i)) label ++ rec_on m "consumer_num_ack_pending" (csNumAckPending i) label
      ++ rec_on m "consumer_num_redelivered" (csNumRedelivered i) label ++ rec_on m "consumer_ack_floor" (i64 (csAckFloor i)) label
      ++ (if has m "consumer_lag_messages" then
            match (match cache !! stream with Some s => Some s | None => jaStreamForLag js stream end) with
            | Some s => rec_on m "consumer_lag_messages" (consumer_lag (ssLastSeq s) (csDelivered i)) label
            | None => []
            end
          else [])
  end.

Definition stream_cache (js : js_answers) (streams : list string) : gmap string stream_stats :=
  foldl (fun c n => match jaStream js n with Some i => <[n := i]> c | None => c end) ∅ streams.

Definition collectJetStream (m : clientMetrics) (cfg : MetricsConfig) (js : js_answers) : list metric_event :=
  match jaAccount js with
  | Some (mem, store) => rec_on m "jetstream_memory_bytes" (i64 mem) "" ++ rec_on m "jetstream_storage_bytes" (i64 store) ""
  | None => []
  end
  ++ concat ((fun n => collectStream m n (jaStream js n)) <$> mTrackedStreams cfg)
  ++ concat ((fun '(s, d) => collectConsumer m js (stream_cache js (mTrackedStreams cfg)) s d) <$> mTrackedConsumers cfg).

(** One round; [None] for a missing connection or JetStream context. *)
Definition collect (m : clientMetrics) (cfg : MetricsConfig) (conn : option conn_stats) (js : option js_answers) (c : metricsCollector)
  : list metric_event * metricsCollector :=
  let '(e1, c1) := match conn with Some st => collectConnectionStats m st c | None => ([], c) end in
  (e1 ++ match js with Some js => if lite m then [] else collectJetStream m cfg js | None => [] end, c1).

(** The rounds until the collector is stopped. *)
Fixpoint collect_all (m : clientMetrics) (cfg : MetricsConfig) (rounds : list (option conn_stats * option js_answers)) (c : metricsCollector)
  : list metric_event * metricsCollector :=
  match rounds with
  | [] => ([], c)
  | (conn, js) :: rest => let '(e1, c1) := collect m cfg conn js c in let '(e2, c2) := collect_all m cfg rest c1 in (e1 ++ e2, c2)
  end.

(** ** Names *)

Lemma metric_name_inj prefix n n' : metric_name prefix n = metric_name prefix n' -> n = n'.
Proof. unfold metric_name. induction prefix as [|a p IH]; simpl; intros H; simplify_eq; auto. Qed.

(** No two instruments of a client have the same name, so the registry never
    hands one instrument out for two purposes. *)
Theorem metric_names_distinct prefix l : NoDup (metric_name prefix <$> ((instruments l).*1)).
Proof.
  apply NoDup_fmap_2; [intros n n'; apply metric_name_inj|].
  apply (bool_decide_unpack _). destruct l; vm_compute; exact I.
Qed.

(** ** What is recorded *)

Ltac by_computation := apply (bool_decide_unpack _); vm_compute; exact I.

Definition registered (m : clientMetrics) (e : metric_event) : Prop := has m (evName e) = true.

Lemma rec_registered m n v l : Forall (registered m) (rec_on m n v l).
Proof. unfold rec_on. destruct (has m n) eqn:E; [|constructor]. by repeat constructor. Qed.

Lemma Forall_concat_fmap {A} (P : metric_event -> Prop) (f : A -> list metric_event) l :
  (forall x, Forall P (f x)) -> Forall P (concat (f <$> l)).
Proof. intros H. induction l as [|x l IH]; [constructor|]. simpl. apply Forall_app. auto. Qed.

Lemma collect_js_forall m cfg js (P : metric_event -> Prop) :
  (forall e n, n ∈ (connection_full_instruments ++ stream_instruments).*1 -> evName e = n -> registered m e -> P e) ->
  Forall P (collectJetStream m cfg js).
Proof.
  intros HP. assert (forall n v l, n ∈ (connection_full_instruments ++ stream_instruments).*1 -> Forall P (rec_on m n v l)) as Hr.
  { intros n v l Hn. unfold rec_on. destruct (has m n) eqn:E; [|constructor]. constructor; [|constructor]. by eapply HP. }
  unfold collectJetStream. apply Forall_app. split.
  { destruct (jaAccount js) as [[mem store]|]; [|constructor]. apply Forall_app. split; apply Hr; by_computation. }
  apply Forall_app. split.
  - apply Forall_concat_fmap. intros n. unfold collectStream. destruct (jaStream js n) as [i|]; [|constructor].
    repeat (apply Forall_app; split); try (apply Hr; by_computation).
    destruct (ssReplicas i); [apply Hr; by_computation|constructor].
  - apply Forall_concat_fmap. intros [s d]. unfold collectConsumer. destruct (jaConsumer js s d) as [i|]; [|constructor].
    repeat (apply Forall_app; split); try (apply Hr; by_computation).
    destruct (has m _); [|constructor]. destruct (match _ !! _ with Some _ => _ | None => _ end); [apply Hr; by_computation|constructor].
Qed.

Lemma delta_registered m n cur last : Forall (registered m) (recordByteDelta m n cur last).1.
Proof. unfold recordByteDelta. destruct (_ || _); simpl; [constructor|]. destruct (_ <? _); [apply rec_registered|constructor]. Qed.

(** Only existing instruments are used.  Whatever the server answers and
    whichever instruments could not be created, every value a collector records
    goes to an instrument the client has; a lite client never asks JetStream. *)
Theorem collect_only_registered m cfg rounds c :
  Forall (registered m) (collect_all m cfg rounds c).1 /\
  (lite m = true -> forall conn js, collect m cfg conn (Some js) c = collect m cfg conn None c).
Proof.
  split.
  - revert c. induction rounds as [|[conn js] rounds IH]; intros c; [constructor|]. simpl.
    assert (Forall (registered m) (collect m cfg conn js c).1) as H.
    { unfold collect. assert (Forall (registered m) (match conn with Some st => collectConnectionStats m st c | None => ([], c) end).1) as H1.
      { destruct conn as [st|]; [|constructor]. unfold collectConnectionStats.
        pose proof (delta_registered m "connection_in_bytes" (csIn st) (lastInBytes c)) as Hi.
        pose proof (delta_registered m "connection_out_bytes" (csOut st) (lastOutBytes c)) as Ho.
        destruct (recordByteDelta m "connection_in_bytes" _ _), (recordByteDelta m "connection_out_bytes" _ _). simpl in *.
        apply Forall_app. split; [done|]. apply Forall_app. split; [done|].
        destruct (csConnected st); [|constructor]. destruct (csRTT st); [apply rec_registered|constructor]. }
      destruct (match conn with Some _ => _ | None => _ end) as [e1 c1]. simpl in *. apply Forall_app. split; [done|].
      destruct js as [js|]; [|constructor]. destruct (lite m); [constructor|]. by apply collect_js_forall. }
    destruct (collect m cfg conn js c) as [e1 c1]. specialize (IH c1). destruct (collect_all m cfg rounds c1).
    simpl in *. by apply Forall_app.
  - intros Hl conn js. unfold collect. by rewrite Hl.
Qed.

(** ** Byte counters *)

Definition total (name : string) (evs : list metric_event) : Z :=
  foldr (fun e t => (if String.eqb (evName e) name then evValue e else 0) + t) 0 evs.
(** How much a sequence of readings grows, not counting the drops. *)
Fixpoint growth (last : Z) (rs : list Z) : Z :=
  match rs with [] => 0 | r :: rs' => Z.max (r - last) 0 + growth r rs' end.
Definition in_readings (rounds : list (option conn_stats * option js_answers)) : list Z := omap (fun r => csIn <$> r.1) rounds.

Lemma total_app n l1 l2 : total n (l1 ++ l2) = total n l1 + total n l2.
Proof. induction l1 as [|e l1 IH]; [done|]. simpl. rewrite IH. lia. Qed.
Lemma total_other n l : Forall (fun e => evName e <> n) l -> total n l = 0.
Proof. induction 1 as [|e l He _ IH]; [done|]. simpl. destruct (String.eqb_spec (evName e) n); [done|]. lia. Qed.
Lemma rec_other m n n' v l : n' <> n -> Forall (fun e => evName e <> n) (rec_on m n' v l).
Proof. intros H. unfold rec_on. destruct (has m n'); by repeat constructor. Qed.

Lemma delta_total m n cur last : has m n = true -> 0 <= cur < 2 ^ 63 -> 0 <= last < 2 ^ 63 ->
  total n (recordByteDelta m n cur last).1 = Z.max (cur - last) 0 /\ (recordByteDelta m n cur last).2 = cur.
Proof.
  intros Hh Hc Hl. unfold recordByteDelta. rewrite Hh. simpl. destruct (Z.ltb_spec cur last); simpl; [split; [lia|done]|].
  assert (i64 (u64 (cur - last)) = cur - last) as ->.
  { unfold i64, u64. rewrite (Z.mod_small (cur - last)) by lia. rewrite Z.mod_small by lia. lia. }
  unfold rec_on. rewrite Hh. destruct (Z.ltb_spec 0 (cur - last)); simpl; [rewrite String.eqb_refl|]; split; try done; lia.
Qed.

Lemma collect_in_total m cfg conn js c : has m "connection_in_bytes" = true -> 0 <= lastInBytes c < 2 ^ 63 ->
  (forall st, conn = Some st -> 0 <= csIn st < 2 ^ 63) ->
  let last' := match conn with Some st => csIn st | None => lastInBytes c end in
  total "connection_in_bytes" (collect m cfg conn js c).1 = Z.max (last' - lastInBytes c) 0 /\
  lastInBytes (collect m cfg conn js c).2 = last'.
Proof.
  intros Hh Hl Hc. unfold collect.
  assert (total "connection_in_bytes" match js with Some js => if lite m then [] else collectJetStream m cfg js | None => [] end = 0) as Hjs.
  { apply total_other. destruct js as [js|]; [|constructor]. destruct (lite m); [constructor|].
    apply collect_js_forall. intros e n Hn -> _ ->. apply (bool_decide_pack _) in Hn. vm_compute in Hn. exact Hn. }
  destruct conn as [st|].
  - destruct (delta_total m "connection_in_bytes" (csIn st) (lastInBytes c) Hh (Hc st eq_refl) Hl) as [H1 H2].
    unfold collectConnectionStats.
    assert (Forall (fun e => evName e <> "connection_in_bytes") (recordByteDelta m "connection_out_bytes" (csOut st) (lastOutBytes c)).1) as Ho.
    { unfold recordByteDelta. destruct (_ || _); [constructor|]. simpl. destruct (_ <? _); [by apply rec_other|constructor]. }
    destruct (recordByteDelta m "connection_in_bytes" _ _), (recordByteDelta m "connection_out_bytes" _ _). simpl in *.
    rewrite !total_app, Hjs, H1, (total_other _ _ Ho), total_other; [split; [lia|done]|].
    destruct (csConnected st); [|constructor]. destruct (csRTT st); [by apply rec_other|constructor].
  - simpl. rewrite Hjs. split; [lia|done].
Qed.

Fixpoint rising (last : Z) (rs : list Z) : bool := match rs with [] => true | r :: rs' => (last <=? r) && rising r rs' end.

Lemma growth_rising rs last : rising last rs = true -> growth last rs = List.last rs last - last.
Proof.
  revert last. induction rs as [|r rs IH]; intros last; simpl; [lia|].
  intros [H1%Z.leb_le H2]%andb_true_iff. rewrite (IH r H2).
  destruct rs as [|r' rs']; [simpl; lia|].
  assert (forall d d', List.last (r' :: rs') d = List.last (r' :: rs') d') as Hd.
  { clear. revert r'. induction rs' as [|x l IH]; intros r' d d'; [done|]. exact (IH x d d'). }
  rewrite (Hd r last). lia.
Qed.

Lemma collect_all_total m cfg rounds c : has m "connection_in_bytes" = true -> 0 <= lastInBytes c < 2 ^ 63 ->
  Forall (fun r => 0 <= r < 2 ^ 63) (in_readings rounds) ->
  total "connection_in_bytes" (collect_all m cfg rounds c).1 = growth (lastInBytes c) (in_readings rounds).
Proof.
  intros Hh. revert c. induction rounds as [|[conn js] rounds IH]; intros c Hl Hf; [done|]. simpl.
  pose proof (collect_in_total m cfg conn js c Hh Hl) as H.
  destruct conn as [st|].
  - inversion Hf as [|? ? Hst Hf']; subst. destruct H as [H1 H2]; [by intros st' [= <-]|].
    destruct (collect m cfg (Some st) js c) as [e1 c1]. simpl in *. specialize (IH c1). rewrite H2 in IH.
    destruct (collect_all m cfg rounds c1). simpl in *. rewrite total_app, H1, IH by done. done.
  - destruct H as [H1 H2]; [done|].
    destruct (collect m cfg None js c) as [e1 c1]. simpl in *. specialize (IH c1). rewrite H2 in IH.
    destruct (collect_all m cfg rounds c1). simpl in *. rewrite total_app, H1, IH by done.
    change (in_readings ((None, js) :: rounds)) with (in_readings rounds). lia.
Qed.

(** The byte counters are exact.  Over any number of rounds, with the
    connection missing in some of them, the values added to the counter of
    received bytes sum up to the growth of the readings; when the readings
    never drop that is the last reading. *)
Theorem byte_counter_exact m cfg rounds :
  has m "connection_in_bytes" = true -> Forall (fun r => 0 <= r < 2 ^ 63) (in_readings rounds) ->
  total "connection_in_bytes" (collect_all m cfg rounds (Collector 0 0)).1 = growth 0 (in_readings rounds) /\
  (rising 0 (in_readings rounds) = true ->
   total "connection_in_bytes" (collect_all m cfg rounds (Collector 0 0)).1 = List.last (in_readings rounds) 0).
Proof.
  intros Hh Hf. rewrite (collect_all_total m cfg rounds (Collector 0 0) Hh ltac:(simpl; lia) Hf). simpl. split; [done|].
  intros Hr. rewrite (growth_rising _ _ Hr). lia.
Qed.

(** The recorded lag agrees with the one the slow-consumer watcher computes. *)
Theorem consumer_lag_agrees last delivered :
  in_u64 last -> in_u64 delivered -> last < 2 ^ 63 -> delivered < 2 ^ 63 ->
  consumer_lag last delivered = Slow.ConsumerLagMessages last delivered.
Proof.
  intros [H1 _] [H2 _] H3 H4. unfold consumer_lag, Slow.ConsumerLagMessages, i64.
  rewrite (Z.mod_small (last + 2 ^ 63)), (Z.mod_small (delivered + 2 ^ 63)) by lia.
  rewrite Z.mod_small by lia. destruct (Z.leb_spec last delivered); lia.
Qed.

(** ** Witnesses *)

Definition all_created : clientMetrics := CMetrics ((instruments false).*1) true false.
Definition demo_round (n : Z) : option conn_stats * option js_answers := (Some (ConnStats n n true (Some 7)), None).
Definition demo_rounds : list (option conn_stats * option js_answers) := [demo_round 10; (None, None); demo_round 30].
Definition no_config : MetricsConfig := MetricsCfg "" [] [] 0 true false true.

Lemma byte_counter_exact_witness :
  total "connection_in_bytes" (collect_all all_created no_config demo_rounds (Collector 0 0)).1 = 30.
Proof.
  destruct (byte_counter_exact all_created no_config demo_rounds) as [_ H]; [reflexivity| |].
  - unfold in_readings. simpl. repeat constructor; lia.
  - rewrite (H eq_refl). reflexivity.
Defined.

Lemma consumer_lag_agrees_witness : consumer_lag 10 4 = 6.
Proof. rewrite (consumer_lag_agrees 10 4); [reflexivity|unfold in_u64; lia..]. Defined.
