(* ===== verification/ShadowSink.v ===== *)
(** * Where shadow runs report to (shadow_reexport.go)

    [WithShadow] connects the shadow wrapper of [Shadow] with the flight recorder
    and, through the client, with the client's counters. *)
From Stdlib Require Import SpecFloat.
From S2P Require Import Prelude GoStr Message Compress Codec Publisher Rpc Pressure Consume Watch Shadow Metrics.
Import Recorder.
Import Shadow.Shadow.

Record ShadowConfig := SCfg { scSampleRate : spec_float; scRecorder : bool; scMetrics : option clientMetrics }.

(** The configuration [shadow.With] is called with, its defaults applied. *)
Definition WithShadow (c : ShadowConfig) : Config :=
  shadow_withDefaults (ShadowCfg (scSampleRate c) 0 (scRecorder c) (bool_decide (scMetrics c <> None))).
(** The method of a client: its metrics take the place of any given ones. *)
Definition client_WithShadow (m : option clientMetrics) (c : ShadowConfig) : Config :=
  WithShadow (SCfg (scSampleRate c) (scRecorder c) m).

Section Sink.
Variable err_text : err -> string.

(** [%v] of an error that may be nil. *)
Definition verb_v (e : option err) : string := match e with Some e => err_text e | None => "<nil>" end.
Definition text_of (t : shadow_text) : string :=
  match t with TError e => err_text e | TPair p s => "primary=" +:+ verb_v p +:+ " shadow=" +:+ verb_v s end.

Definition shadowRecorderAdapter (detail subject : string) (t : shadow_text) : IncidentEvent :=
  Incident 0 detail subject "" "" "" (text_of t) 0 0 0 IncidentShadow.
Definition ShadowError (m : option clientMetrics) : list metric_event :=
  match m with Some m => rec_on m "shadow_error_total" 1 "" | None => [] end.
Definition ShadowMismatch (m : option clientMetrics) : list metric_event :=
  match m with Some m => rec_on m "shadow_mismatch_total" 1 "" | None => [] end.

(** The recorder and what has been recorded on the instruments. *)
Definition sink (m : option clientMetrics) (st : FlightRecorder * list metric_event) (ev : Z * shadow_event)
  : FlightRecorder * list metric_event :=
  match ev.2 with
  | MetricError => (st.1, st.2 ++ ShadowError m)
  | MetricMismatch => (st.1, st.2 ++ ShadowMismatch m)
  | RecordShadow d s t => (Record_ ev.1 (shadowRecorderAdapter d s t) st.1, st.2)
  end.

Section Run.
Context (c : Config) (compare : option err -> option err -> bool) (primary shadow : MsgHandler).

Definition observe_job (j : job) : list shadow_event := observeShadow c compare shadow (jMsg j) (jSubject j) (jPrimary j).
Definition fails (j : job) : bool := bool_decide (shadow_run shadow (jMsg j) <> None).
Definition mismatches (j : job) : bool := negb (compare (jPrimary j) (shadow_run shadow (jMsg j))).

(** The shadow runs that deliveries have started. *)
Fixpoint started (ls : list shadow_step) (st : list job * list shadow_event) : list job :=
  match ls with
  | [] => []
  | l :: ls' =>
      match sh_step c compare primary shadow l st with
      | Some st' => (match l with SDeliver d m => drop (length st.1) st'.1 | _ => [] end) ++ started ls' st'
      | None => []
      end
  end.

(** Of the runs under way: those whose handler has not returned, and the reports
    the others have still to make. *)
Definition waiting (r : list job) : list job := filter (fun j => jTodo j = None) r.
Definition pending (r : list job) : list shadow_event := r ≫= (fun j => default [] (jTodo j)).

Lemma waiting_app r r' : waiting (r ++ r') = waiting r ++ waiting r'.
Proof. apply list.filter_app. Qed.
Lemma pending_app r r' : pending (r ++ r') = pending r ++ pending r'.
Proof. apply bind_app. Qed.

#[local] Instance waiting_perm : Proper (Permutation ==> Permutation) waiting.
Proof. intros ? ? H. unfold waiting. by rewrite H. Qed.
#[local] Instance pending_perm : Proper (Permutation ==> Permutation) pending.
Proof. intros ? ? H. unfold pending. by rewrite H. Qed.

Lemma waiting_cons j r : waiting (j :: r) = match jTodo j with None => j :: waiting r | Some _ => waiting r end.
Proof. unfold waiting. rewrite filter_cons. destruct (jTodo j) eqn:E; [by rewrite decide_False by done|by rewrite decide_True]. Qed.

(** Replacing one job of the list. *)
Lemma replace_job (r : list job) i j j' : r !! i = Some j -> <[i := j']> r ≡ₚ j' :: delete i r.
Proof.
  intros Hj. assert (delete i (<[i := j']> r) = delete i r) as <-.
  { apply lookup_lt_Some in Hj. apply list_eq. intros k. destruct (decide (k < i)%nat).
    - rewrite !list_lookup_delete_lt by done. apply list_lookup_insert_ne. lia.
    - rewrite !list_lookup_delete_ge by lia. apply list_lookup_insert_ne. lia. }
  apply delete_Permutation. apply list_lookup_insert_eq. by eapply lookup_lt_Some.
Qed.

Lemma books_of (r : list job) j D : r ≡ₚ j :: D ->
  pending r ≡ₚ default [] (jTodo j) ++ pending D /\
  waiting r ≡ₚ match jTodo j with None => j :: waiting D | Some _ => waiting D end.
Proof. intros H. rewrite H, waiting_cons. unfold pending. by rewrite bind_cons. Qed.

(** One step: which handler returned, if any. *)
Lemma step_accounted l st st' : sh_step c compare primary shadow l st = Some st' ->
  exists ran, st'.2 ++ pending st'.1 ≡ₚ (st.2 ++ pending st.1) ++ (ran ≫= observe_job) /\
    waiting st.1 ++ (match l with SDeliver d m => drop (length st.1) st'.1 | _ => [] end) ≡ₚ ran ++ waiting st'.1.
Proof.
  destruct st as [r evs]. destruct l as [d m|i|i|i]; simpl; intros H.
  - simplify_eq/=. destruct (deliver_extends c primary d m r) as (new & -> & Hn). exists [].
    rewrite drop_app_length, pending_app, waiting_app.
    assert (pending new = [] /\ waiting new = new) as [-> ->].
    { induction Hn as [|j new Hj Hn [IH1 IH2]]; [done|]. unfold pending in *. rewrite waiting_cons, bind_cons, Hj, IH1, IH2. done. }
    simpl. by rewrite !app_nil_r.
  - destruct (run_shadow c compare shadow i r) as [r'|] eqn:E; simplify_eq/=.
    apply run_shadow_Some in E as (j & Hj & Ht & ->). exists [j].
    destruct (books_of _ _ _ (delete_Permutation _ _ _ Hj)) as [-> ->]. rewrite Ht.
    destruct (books_of _ _ _ (replace_job _ _ _ (set_todo j (observe_job j)) Hj)) as [-> ->]. simpl. rewrite !app_nil_r.
    split; [|done]. rewrite <- app_assoc. f_equiv. apply Permutation_app_comm.
  - destruct (report i r) as [[r' ev]|] eqn:E; simplify_eq/=.
    apply report_Some in E as (j & l & Hj & Ht & ->). exists [].
    destruct (books_of _ _ _ (delete_Permutation _ _ _ Hj)) as [-> ->]. rewrite Ht.
    destruct (books_of _ _ _ (replace_job _ _ _ (set_todo j l) Hj)) as [-> ->]. simpl. rewrite !app_nil_r.
    split; [|done]. by rewrite <- app_assoc.
  - destruct (finish i r) as [r'|] eqn:E; simplify_eq/=.
    apply finish_Some in E as (j & Hj & Ht & ->). exists [].
    destruct (books_of _ _ _ (delete_Permutation _ _ _ Hj)) as [-> ->]. rewrite Ht. simpl. by rewrite !app_nil_r.
Qed.

(** Started runs have returned, with their reports made or pending, or wait. *)
Lemma runs_accounted ls st st' : sh_run c compare primary shadow ls st = Some st' ->
  exists ran, st'.2 ++ pending st'.1 ≡ₚ (st.2 ++ pending st.1) ++ (ran ≫= observe_job) /\
    waiting st.1 ++ started ls st ≡ₚ ran ++ waiting st'.1.
Proof.
  revert st. induction ls as [|l ls IH]; intros st H; simpl in H.
  - simplify_eq. exists []. simpl. by rewrite !app_nil_r.
  - apply bind_Some in H as (st1 & H1 & H2). destruct (IH st1 H2) as (ran & He & Hp).
    destruct (step_accounted l st st1 H1) as (ran1 & He1 & Hp1). exists (ran1 ++ ran). split.
    + by rewrite He, He1, bind_app, !app_assoc.
    + simpl. rewrite H1, app_assoc, Hp1, <- !app_assoc. by rewrite Hp.
Qed.
End Run.

Definition incident_of_shadow (ev : Z * shadow_event) : list (Z * IncidentEvent) :=
  match ev.2 with RecordShadow d s t => [(ev.1, shadowRecorderAdapter d s t)] | _ => [] end.
Definition metric_of_shadow (m : option clientMetrics) (ev : shadow_event) : list metric_event :=
  match ev with MetricError => ShadowError m | MetricMismatch => ShadowMismatch m | _ => [] end.

Lemma sink_all m evs st :
  foldl (sink m) st evs = (record_all (evs ≫= incident_of_shadow) st.1, st.2 ++ (evs.*2 ≫= metric_of_shadow m)).
Proof.
  revert st. induction evs as [|[t ev] evs IH]; intros [r l]; simpl; [by rewrite app_nil_r|].
  rewrite IH. destruct ev; simpl; rewrite ?app_assoc; done.
Qed.

(** The reports of one run on the two counters. *)
Lemma job_totals m c compare shadow j : hasMetrics c = true ->
  has m "shadow_error_total" = true -> has m "shadow_mismatch_total" = true ->
  let evs := observe_job c compare shadow j ≫= metric_of_shadow (Some m) in
  total "shadow_error_total" evs = (if fails shadow j then 1 else 0) /\
  total "shadow_mismatch_total" evs = (if mismatches compare shadow j then 1 else 0).
Proof.
  intros Hm He Hx. unfold observe_job, observeShadow, fails, mismatches. rewrite Hm.
  destruct (shadow_run shadow (jMsg j)) as [e|] eqn:Er; [rewrite bool_decide_true by done|rewrite bool_decide_false by tauto];
    destruct (compare _ _), (hasRecorder c); simpl; unfold rec_on; rewrite ?He, ?Hx; done.
Qed.

Lemma filter_count {A} (f : A -> bool) (g : A -> Z) l : (forall x, g x = if f x then 1 else 0) ->
  foldr (fun x t => g x + t) 0 l = Z.of_nat (length (List.filter f l)).
Proof. intros Hg. induction l as [|x l IH]; [done|]. simpl. rewrite IH, Hg. destruct (f x); simpl; lia. Qed.

Lemma total_bind {A} n (f : A -> list metric_event) l : total n (l ≫= f) = foldr (fun x t => total n (f x) + t) 0 l.
Proof. induction l as [|x l IH]; [done|]. rewrite bind_cons, total_app, IH. done. Qed.

Lemma total_perm n evs evs' : evs ≡ₚ evs' -> total n evs = total n evs'.
Proof.
  induction 1 as [|x l l' _ IH|x y l|l l' l'' _ IH1 _ IH2]; [done|..|congruence].
  - change (x :: l) with ([x] ++ l). change (x :: l') with ([x] ++ l'). rewrite !total_app. lia.
  - change (y :: x :: l) with ([y] ++ [x] ++ l). change (x :: y :: l) with ([x] ++ [y] ++ l). rewrite !total_app. lia.
Qed.

Lemma bind_nested {A B C} (f : A -> list B) (g : B -> list C) l : (l ≫= f) ≫= g = l ≫= (fun x => f x ≫= g).
Proof. induction l as [|x l IH]; [done|]. rewrite !bind_cons, bind_app, IH. done. Qed.

(** The reports pending on counter [n]. *)
Definition uncounted (m : clientMetrics) (n : string) (running : list job) : Z :=
  total n (pending running ≫= metric_of_shadow (Some m)).

(** C33: every shadow run is reported exactly once.  For a client with both
    counters, in every interleaving of deliveries with the runs of the shadow
    handler and their single reports, whatever the reporting times: the runs
    started are those whose handler has returned and those still to run; the
    reports made together with the pending ones are those of the returned runs;
    the error counter and the reports pending on it come to the number of
    returned runs that failed or panicked, the mismatch counter and its pending
    reports to that of returned runs whose result the comparison rejected, so
    both counters are exact whenever no run is reporting; and the flight recorder
    holds the most recent incidents reported. *)
Theorem shadow_runs_reported (m : clientMetrics) (cfg : ShadowConfig) compare primary shadow ls running evs timed capacity :
  has m "shadow_error_total" = true -> has m "shadow_mismatch_total" = true ->
  sh_run (client_WithShadow (Some m) cfg) compare primary shadow ls ([], []) = Some (running, evs) -> timed.*2 = evs ->
  let '(r, counted) := foldl (sink (Some m)) (NewFlightRecorder capacity, []) timed in
  let c := client_WithShadow (Some m) cfg in
  exists ran,
    started c compare primary shadow ls ([], []) ≡ₚ ran ++ waiting running /\
    evs ++ pending running ≡ₚ ran ≫= observe_job c compare shadow /\
    total "shadow_error_total" counted + uncounted m "shadow_error_total" running = Z.of_nat (length (List.filter (fails shadow) ran)) /\
    total "shadow_mismatch_total" counted + uncounted m "shadow_mismatch_total" running =
      Z.of_nat (length (List.filter (mismatches compare shadow) ran)) /\
    Snapshot r = drop (length (timed ≫= incident_of_shadow) - rcap (NewFlightRecorder capacity)) (stamped (timed ≫= incident_of_shadow)).
Proof.
  intros He Hx Hrun Ht. rewrite sink_all. simpl.
  destruct (runs_accounted _ _ _ _ _ _ _ Hrun) as (ran & Hevs & Hp). simpl in Hevs, Hp.
  exists ran. split; [done|]. split; [done|]. unfold uncounted. rewrite Ht, <- !total_app, <- !bind_app.
  rewrite !(total_perm _ _ _ (bind_Permutation _ _ _ Hevs)), bind_nested, !total_bind.
  split_and!; [apply filter_count|apply filter_count|apply Snapshot_is_recent_history];
    intros j; by apply (job_totals m (client_WithShadow (Some m) cfg) compare shadow j eq_refl He Hx).
Qed.

(** Without a client nothing is counted. *)
Lemma package_counts_nothing cfg compare shadow j : scMetrics cfg = None ->
  Forall (fun ev => ev <> MetricError /\ ev <> MetricMismatch) (observe_job (WithShadow cfg) compare shadow j).
Proof.
  intros Hm. unfold observe_job, observeShadow, WithShadow. simpl. rewrite Hm, bool_decide_false by tauto.
  repeat case_match; simpl; repeat constructor; done.
Qed.
End Sink.

(** ** Witness *)

Definition shadow_counters : clientMetrics := CMetrics ["shadow_error_total"; "shadow_mismatch_total"] false true.
Definition demo_shadow_cfg : ShadowConfig := SCfg (f64_of_int 1) true None.
Definition demo_shadow_run : list shadow_step :=
  [SDeliver (f64_of_int 0) (JMsg (NMsg "a" "x" None) true None); SDeliver (f64_of_int 0) (JMsg (NMsg "b" "y" None) true None);
   SRun 1; SReport 1].
Definition failing_shadow : MsgHandler := fun m => (Returned (Some (errorf "shadow")), m).
Definition demo_shadow_result : option (list job * list shadow_event) :=
  sh_run (client_WithShadow (Some shadow_counters) demo_shadow_cfg) default_compare (fun m => (Returned None, m)) failing_shadow
    demo_shadow_run ([], []).

(** One of two shadows has returned and counted its error, not yet its mismatch. *)
Lemma shadow_runs_reported_witness :
  exists running evs ran, demo_shadow_result = Some (running, evs) /\ length (waiting running) = 1%nat /\ length ran = 1%nat /\
    (let counted := (foldl (sink (fun _ => "failed") (Some shadow_counters)) (NewFlightRecorder 4, []) (pair 7 <$> evs)).2 in
     total "shadow_error_total" counted = 1 /\ total "shadow_mismatch_total" counted = 0) /\
    uncounted shadow_counters "shadow_mismatch_total" running = 1 /\
    evs ++ pending running ≡ₚ ran ≫= observe_job (client_WithShadow (Some shadow_counters) demo_shadow_cfg) default_compare failing_shadow.
Proof.
  destruct demo_shadow_result as [[running evs]|] eqn:E; [|discriminate E].
  pose proof (shadow_runs_reported (fun _ => "failed") shadow_counters demo_shadow_cfg default_compare (fun m => (Returned None, m))
    failing_shadow demo_shadow_run running evs (pair 7 <$> evs) 4 eq_refl eq_refl E) as H.
  assert ((pair 7 <$> evs).*2 = evs) as Ht by (rewrite <- list_fmap_compose; apply list_fmap_id). specialize (H Ht).
  exists running, evs. vm_compute in E. injection E as <- <-.
  destruct (foldl _ _ _) as [r counted] eqn:Ef in H |- *. destruct H as (ran & Hp & He & _).
  exists ran. apply Permutation_length in Hp. vm_compute in Ef. injection Ef as <- <-.
  rewrite length_app, Nat.add_comm in Hp. injection Hp as Hp.
  split; [reflexivity|]. split; [reflexivity|]. split; [exact (eq_sym Hp)|]. split; [split; reflexivity|]. split; [reflexivity|exact He].
Defined.
