(* ===== verification/Assemble.v ===== *)
(** * Configuration and assembly of a client (config.go, client.go, requester.go, responder.go)

    [DefaultConfig], and how [NewClient] derives the parts of a client from a
    configuration: which part records metrics or traces, and with which limits.
    Dialling is [Connection.NewClient]; the parts themselves are in the files of
    the components.  Also the metrics a responder and a requester record. *)
From Stdlib Require Import SpecFloat.
From S2P Require Import Prelude GoStr Validate Message Compress Codec Publisher Rpc Pressure Consume Watch Admin Subscribe Connection Metrics.

Definition defaultNATSAddress : string := "nats://127.0.0.1:4222".
Definition defaultIdleHeartbeat : Z := 5 * second.
Definition defaultConnectTimeout : Z := 5 * second.
Definition defaultPingInterval : Z := 20 * second.
Definition defaultMaxPingsOut : Z := 3.
Definition defaultMaxReconnect : Z := -1.
Definition defaultReconnectBufSize : Z := Z.shiftl 16 20.
Definition defaultWorkerBufferSize : Z := 64.
Definition defaultMaxAckPending : Z := 1000.
Definition defaultQueueDepthSampleInterval : Z := 5 * second.

(** ** The configuration *)

(** The instrumentation fields of a section of the configuration. *)
Record Instrumentation := Instr { MetricPrefix : string; AllowMetrics : bool; AllowTracing : bool }.
(** Compression and decompression of a responder. *)
Record ResponderConfig := RespCfg { pCompression : Z; pDecompression : bool }.

Record Config := Cfg {
  conf_publisher : PublisherConfig; instr_publisher : Instrumentation;
  conf_requester : RequesterConfig; instr_requester : Instrumentation;
  conf_responder : ResponderConfig; instr_responder : Instrumentation;
  conf_metrics : MetricsConfig; metrics_tracing : bool;
  conf_consumer : RuntimeConsumerConfig; instr_consumer : Instrumentation;
  conf_conn : Connection; conn_health_interval : Z; conn_prefix : string; conn_metrics : bool;
  conf_backpressure : BackpressureConfig; sample_interval : Z;
  conf_adaptive : AdaptivePressureConfig; conf_circuit : CircuitConfig
}.

Definition no_tls : ConnectionTLS := ConnTLS None "" "" "" "" false.
Definition default_connection : Connection :=
  Conn_ defaultNATSAddress "" "" "" "" "" "" "" no_tls None defaultReconnectWait defaultMaxReconnect defaultConnectTimeout
    defaultDrainTimeout defaultPingInterval defaultMaxPingsOut 0 defaultReconnectJitter defaultReconnectJitterTLS
    defaultReconnectBufSize defaultInitialRetryAttempts defaultInitialRetryWait defaultInitialRetryBackoff true true false.
Definition default_instr : Instrumentation := Instr defaultMetricPrefix true true.

Definition DefaultConfig : Config :=
  Cfg (MkPublisherConfig 0 PayloadCompressionOff true false) default_instr
    (MkRequesterConfig defaultRequestTimeout true false PayloadCompressionOff true) default_instr
    (RespCfg PayloadCompressionOff true) default_instr
    (MetricsCfg defaultMetricPrefix [] [] defaultMetricsCollectInterval true false false) true
    (RCC defaultAckWait defaultIdleHeartbeat true false defaultWorkerPoolSize defaultWorkerBufferSize true 0 0) default_instr
    default_connection 0 defaultMetricPrefix true
    (BPC BackpressureNak 0 0 defaultMaxAckPending) defaultQueueDepthSampleInterval
    (APConfig false 0 0 0 0 0) (CConfig 0 0 false).

(** ** Assembly *)

(** The metrics section [NewClient] works with: the connection's switch and
    prefix stand in for the section's own. *)
Definition metrics_config (c : Config) : MetricsConfig :=
  let m := conf_metrics c in
  let allow := if negb (mAllowMetrics m) && conn_metrics c then true else mAllowMetrics m in
  let prefix := if IsEmpty (mPrefix m) && negb (IsEmpty (conn_prefix c)) then conn_prefix c else mPrefix m in
  MetricsCfg prefix (mTrackedStreams m) (mTrackedConsumers m) (mCollectInterval m) allow (mLite m) (mFixedCardinality m).

Definition newResponder (cfg : ResponderConfig) (instr : Instrumentation) (conn tracing : bool) : responder :=
  MkResponder conn (tracing && AllowTracing instr) (pCompression cfg) (pDecompression cfg).

(** The parts, each with whether it records metrics. *)
Record ClientParts := Parts {
  cl_metrics : option clientMetrics; cl_collector : option (Z * metricsCollector);
  cl_publisher : publisher; publisher_records : bool;
  cl_requester : requester; requester_records : bool;
  cl_responder : responder; responder_records : bool;
  cl_consumer : consumer; cl_circuit : option CircuitBreaker; cl_sampler : bool; consumer_traces : bool; consumer_records : bool;
  cl_health : bool
}.

(** [create]: the metrics registry; [connected]: the state of the connection. *)
Definition assemble (create : string -> instrument -> bool) (connected : bool) (c : Config) : ClientParts :=
  let mc := metrics_config c in
  let m := newClientMetrics create mc in
  let have := match m with Some _ => true | None => false end in
  let '(consm, circuit, sampler) :=
    newConsumer (conf_consumer c) (conf_backpressure c) (sample_interval c) have (conf_adaptive c) (conf_circuit c) in
  Parts m (newMetricsCollector m mc)
    (newPublisher (conf_publisher c) (Some connected) (ReconnectBufSize (conf_conn c)) (metrics_tracing c))
    (AllowMetrics (instr_publisher c) && have)
    (newRequester (conf_requester c) true (metrics_tracing c)) (AllowMetrics (instr_requester c) && have)
    (newResponder (conf_responder c) (instr_responder c) true (metrics_tracing c)) (AllowMetrics (instr_responder c) && have)
    consm circuit sampler (metrics_tracing c && AllowTracing (instr_consumer c)) have
    (0 <? conn_health_interval c).

(** The configuration with other prefixes in the sections of the parts, and
    another metrics switch in the consumer's. *)
Definition with_prefix (p : string) (i : Instrumentation) : Instrumentation := Instr p (AllowMetrics i) (AllowTracing i).
Definition relabel (pp pq pr pc : string) (b : bool) (c : Config) : Config :=
  Cfg (conf_publisher c) (with_prefix pp (instr_publisher c)) (conf_requester c) (with_prefix pq (instr_requester c))
    (conf_responder c) (with_prefix pr (instr_responder c)) (conf_metrics c) (metrics_tracing c)
    (conf_consumer c) (Instr pc b (AllowTracing (instr_consumer c))) (conf_conn c) (conn_health_interval c) (conn_prefix c)
    (conn_metrics c) (conf_backpressure c) (sample_interval c) (conf_adaptive c) (conf_circuit c).

Lemma metrics_exist create c :
  match newClientMetrics create (metrics_config c) with Some _ => true | None => false end =
  mAllowMetrics (conf_metrics c) || conn_metrics c.
Proof.
  unfold newClientMetrics. replace (mAllowMetrics (metrics_config c)) with (mAllowMetrics (conf_metrics c) || conn_metrics c)
    by (unfold metrics_config; cbn [mAllowMetrics]; by destruct (mAllowMetrics (conf_metrics c)), (conn_metrics c)).
  by destruct (_ || _).
Qed.

(** The switches of a configuration.  Tracing has a master switch: a part
    traces exactly when the metrics section and its own section allow it.
    Metrics exist exactly when the metrics section or the connection section
    allows them; publisher, requester and responder record when they exist and
    their own section allows it; a consumer records whenever they exist: its own
    section's switch, and every section's own prefix, change nothing. *)
Theorem configuration_switches create connected c :
  let p := assemble create connected c in
  allowTracing (cl_publisher p) = metrics_tracing c && cAllowTracing (conf_publisher c) /\
  rTracing (cl_requester p) = metrics_tracing c && qTracing (conf_requester c) /\
  sTracing (cl_responder p) = metrics_tracing c && AllowTracing (instr_responder c) /\
  consumer_traces p = metrics_tracing c && AllowTracing (instr_consumer c) /\
  let have := mAllowMetrics (conf_metrics c) || conn_metrics c in
  bool_decide (cl_metrics p <> None) = have /\
  publisher_records p = AllowMetrics (instr_publisher c) && have /\
  requester_records p = AllowMetrics (instr_requester c) && have /\
  responder_records p = AllowMetrics (instr_responder c) && have /\
  consumer_records p = have /\
  forall pp pq pr pc b, assemble create connected (relabel pp pq pr pc b c) = p.
Proof.
  pose proof (metrics_exist create c) as Hh. unfold assemble, relabel, newConsumer.
  change (metrics_config (Cfg _ _ _ _ _ _ _ _ _ _ _ _ _ _ _ _ _ _)) with (metrics_config c).
  generalize dependent (newClientMetrics create (metrics_config c)). intros m Hh. cbn [conf_publisher]. rewrite Hh.
  split_and!; try done. rewrite <- Hh. by destruct m.
Qed.

(** The client of the default configuration: it may be dialled as it is (an
    address, no conflicting credentials) with five attempts; one part after the
    other works with the documented limits; everything records and traces;
    compression is off and decompression on; there is no worker pool, so no
    sampler, no circuit breaker, no adaptive control, no health check; and the
    only pending limit it asks for is one nats.go refuses. *)
Theorem default_client create :
  let p := assemble create true DefaultConfig in
  validateAuthConfig (conf_conn DefaultConfig) = None /\ Address (conf_conn DefaultConfig) <> "" /\
  maxAsyncPending (cl_publisher p) = 1024 /\ reconnectBufDisabled (cl_publisher p) = false /\
  rTimeout (cl_requester p) = 2 * second /\ AckWait (cfg (cl_consumer p)) = 30 * second /\
  publisher_records p && requester_records p && responder_records p && consumer_records p = true /\
  allowTracing (cl_publisher p) && rTracing (cl_requester p) && sTracing (cl_responder p) && consumer_traces p = true /\
  payloadCompression (cl_publisher p) = PayloadCompressionOff /\ rDecompression (cl_requester p) && sDecompression (cl_responder p) = true /\
  cl_circuit p = None /\ adaptive (cl_consumer p) = None /\ cl_sampler p = false /\ cl_health p = false /\
  pending_limits (cl_consumer p) = Some (1000, 0).
Proof. split_and!; done. Qed.

(** ** What request/reply records *)

Definition requester_recordSuccess (allow : bool) (m : option clientMetrics) (subject : string) (nbytes elapsed : Z) : list metric_event :=
  if negb allow then []
  else addCounter m "request_total" subject ++ recordBytesLatency m "request_bytes" (Some "request_latency_seconds") subject nbytes elapsed.
Definition requester_recordError (allow : bool) (m : option clientMetrics) (subject : string) : list metric_event :=
  if negb allow then [] else addCounter m "request_errors" subject.
Definition recordHandled (allow : bool) (m : option clientMetrics) (subject : string) : list metric_event :=
  if negb allow then [] else addCounter m "reply_handled" subject.
Definition responder_recordError (allow : bool) (m : option clientMetrics) (subject : string) : list metric_event :=
  if negb allow then [] else addCounter m "reply_errors" subject.

Section Replies.
Context `{NH : NatsHeader} `{CP : Compressors}.

(** The metrics of a wrapped handler: an error, from decompressing or from the
    handler, or a handled message. *)
Definition reply_metrics (r : responder) (allow : bool) (m : option clientMetrics) (handler : NatsMsg -> outcome) (msg : NatsMsg)
  : list metric_event :=
  match (wrap r handler msg).2 with
  | Some _ => responder_recordError allow m (nSubject msg)
  | None => recordHandled allow m (nSubject msg)
  end.

(** A request that was refused before it was sent records nothing; [nbytes] and
    [elapsed] are the size of what was sent and the time it took. *)
Definition request_metrics `{CD : Codecs} (request : wire -> res NatsMsg) (allow : bool) (m : option clientMetrics) (nbytes elapsed : Z)
  (r : requester) (sp : span) (subject : string) (msg : Message) (s : store) : list metric_event :=
  if negb (rConn r) then [] else
  match validateOutboundSubject subject "request" (rSkipValidation r) with
  | Some _ => []
  | None =>
      if negb (validMessageType (if MType msg =? 0 then JSON else MType msg)) then [] else
      match (RequestMessage request r sp subject msg s).1 with
      | Er _ => requester_recordError allow m subject
      | Ok _ => requester_recordSuccess allow m subject nbytes elapsed
      end
  end.

Lemma total_count m name n subject : has m name = true ->
  total n (addCounter (Some m) name subject) = if String.eqb n name then 1 else 0.
Proof.
  intros H. unfold addCounter, rec_on, total. rewrite H. simpl. rewrite String.eqb_sym. by destruct (String.eqb n name).
Qed.

Definition failed_reply (r : responder) (x : (NatsMsg -> outcome) * NatsMsg) : bool :=
  match (wrap r x.1 x.2).2 with Some _ => true | None => false end.

(** Every message a responder gets is counted once: over any sequence of
    messages and handlers, panicking ones included, the error counter is the
    number of messages that failed (a payload that does not decompress, an error
    or a panic), and the two counters add up to the number of messages. *)
Theorem reply_accounting r m msgs :
  has m "reply_handled" = true -> has m "reply_errors" = true ->
  let evs := msgs ≫= (fun x => reply_metrics r true (Some m) x.1 x.2) in
  total "reply_errors" evs = Z.of_nat (length (List.filter (failed_reply r) msgs)) /\
  total "reply_handled" evs + total "reply_errors" evs = Z.of_nat (length msgs).
Proof.
  intros Hh He evs. subst evs. induction msgs as [|x msgs [IH1 IH2]]; [done|]. rewrite bind_cons, !total_app, IH1.
  assert (total "reply_errors" (reply_metrics r true (Some m) x.1 x.2) = (if failed_reply r x then 1 else 0) /\
          total "reply_handled" (reply_metrics r true (Some m) x.1 x.2) = (if failed_reply r x then 0 else 1)) as [-> ->].
  { unfold reply_metrics, failed_reply, responder_recordError, recordHandled. cbn [negb].
    destruct (wrap r x.1 x.2).2; rewrite !total_count by done; done. }
  simpl. destruct (failed_reply r x); simpl; lia.
Qed.
End Replies.

(** ** Witnesses *)

Definition reply_counters : clientMetrics := CMetrics ["reply_handled"; "reply_errors"] false false.
Lemma reply_accounting_witness :
  total "reply_errors" ([(fun _ => Panicked None, NMsg "rpc.a" "x" None); (fun _ => Returned None, NMsg "rpc.b" "y" None)]
    ≫= (fun x => reply_metrics (MkResponder true false 0 true) true (Some reply_counters) x.1 x.2)) = 1.
Proof.
  rewrite (proj1 (reply_accounting (MkResponder true false 0 true) reply_counters
    [(fun _ => Panicked None, NMsg "rpc.a" "x" None); (fun _ => Returned None, NMsg "rpc.b" "y" None)] eq_refl eq_refl)).
  reflexivity.
Defined.
