(* ===== verification/Monitoring.v ===== *)
(** * Monitoring requests (monitoring.go)

    Fetching a page of a server's monitoring endpoint without letting the URL,
    a redirect or the name service lead to an instance-metadata address.  The
    HTTP client is the sequence of requests it makes: every hop has the
    resolver's answers when its URL is checked and, possibly different ones,
    when it is dialled, and what the server replies.  A hop may reuse an open
    connection.  URL and address parsing, Unicode lower case and the transport
    are parameters; the configured proxy is left out. *)
From S2P Require Import Prelude GoStr Validate.

Definition defaultMonitoringMaxBody : Z := 8 * 2 ^ 20.
Definition ErrMonitoringBodyTooLarge : string := "nats.ErrMonitoringBodyTooLarge".

(** ** Addresses: [net.IP] as its bytes, [[]] for nil *)

Definition ip := list Z.
Definition v4_prefix : list Z := [0; 0; 0; 0; 0; 0; 0; 0; 0; 0; 255; 255].
Definition To4 (a : ip) : option ip :=
  if (length a =? 4)%nat then Some a
  else if (length a =? 16)%nat && bool_decide (take 12 a = v4_prefix) then Some (drop 12 a)
  else None.
Definition ip_Equal (a b : ip) : bool :=
  if (length a =? length b)%nat then bool_decide (a = b)
  else if (length a =? 4)%nat && (length b =? 16)%nat then bool_decide (take 12 b = v4_prefix /\ a = drop 12 b)
  else if (length a =? 16)%nat && (length b =? 4)%nat then bool_decide (take 12 a = v4_prefix /\ drop 12 a = b)
  else false.
(** The i-th byte of an address that is long enough. *)
Definition byte_at (a : ip) (i : nat) : Z := default 0 (a !! i).

Definition IsUnspecified (a : ip) : bool := ip_Equal a (v4_prefix ++ [0; 0; 0; 0]) || ip_Equal a (replicate 16 0).
Definition IsLinkLocalUnicast (a : ip) : bool :=
  match To4 a with
  | Some a4 => (byte_at a4 0 =? 169) && (byte_at a4 1 =? 254)
  | None => (length a =? 16)%nat && (byte_at a 0 =? 254) && (Z.land (byte_at a 1) 192 =? 128)
  end.
Definition IsLinkLocalMulticast (a : ip) : bool :=
  match To4 a with
  | Some a4 => (byte_at a4 0 =? 224) && (byte_at a4 1 =? 0) && (byte_at a4 2 =? 0)
  | None => (length a =? 16)%nat && (byte_at a 0 =? 255) && (Z.land (byte_at a 1) 15 =? 2)
  end.

(** fd00:ec2::254 *)
Definition ec2_v6 : ip := [253; 0; 14; 194; 0; 0; 0; 0; 0; 0; 0; 0; 0; 0; 2; 84].

Definition isBlockedMonitoringIP (a : ip) : bool :=
  if bool_decide (a = []) || IsLinkLocalUnicast a || IsLinkLocalMulticast a || IsUnspecified a then true
  else if match To4 a with
          | Some a4 => (byte_at a4 0 =? 100) && (byte_at a4 1 =? 100) && (byte_at a4 2 =? 100) && (byte_at a4 3 =? 200)
          | None => false
          end then true
  else ip_Equal a ec2_v6.

(** ** The checks *)

Record url := Url { uScheme : string; uHostname : string }.
(** What the code uses of net/url, net and strings. *)
Class NetApi := {
  url_of : string -> res url;
  parse_ip : string -> option ip;
  split_host_port : string -> res (string * string);
  to_lower : string -> string
}.
(** One consultation of the resolver. *)
Definition resolver := string -> res (list ip).

Definition host_not_allowed : err := errorf "monitoring url host not allowed".

Section Monitoring.
Context `{NA : NetApi}.

Definition validateMonitoringFetchURL (lookup : resolver) (u : option url) : option err :=
  match u with
  | None => Some host_not_allowed
  | Some u =>
      let scheme := to_lower (uScheme u) in
      if negb (String.eqb scheme "http" || String.eqb scheme "https")
      then Some (errorf "monitoring url scheme must be http or https")
      else
        let host := to_lower (TrimSpace (uHostname u)) in
        if IsEmpty host then Some host_not_allowed
        else if bool_decide (host ∈ ["metadata.google.internal"; "metadata.goog"; "instance-data"]) then Some host_not_allowed
        else match parse_ip host with
             | Some a => if isBlockedMonitoringIP a then Some host_not_allowed else None
             | None =>
                 match lookup host with
                 | Er e => Some (wrapf "monitoring dns: %w" e)
                 | Ok addrs => if existsb isBlockedMonitoringIP addrs then Some host_not_allowed else None
                 end
             end
  end.

(** The loop over the resolved addresses: the address connected to, or the
    last error, and the addresses that were dialled. *)
Fixpoint dial_loop (connect : ip -> option err) (ips : list ip) (last : option err) : res ip * list ip :=
  match ips with
  | [] => (Er (default host_not_allowed last), [])
  | a :: ips' =>
      if isBlockedMonitoringIP a then dial_loop connect ips' (Some host_not_allowed)
      else match connect a with
           | None => (Ok a, [a])
           | Some e => let '(r, l) := dial_loop connect ips' (Some e) in (r, a :: l)
           end
  end.
Definition dialMonitoringContext (lookup : resolver) (connect : ip -> option err) (addr : string) : res ip * list ip :=
  match split_host_port addr with
  | Er e => (Er e, [])
  | Ok (host, _) =>
      match lookup host with
      | Er e => (Er (wrapf "monitoring dns: %w" e), [])
      | Ok ips => dial_loop connect ips None
      end
  end.

(** [CheckRedirect], with the number of requests made so far. *)
Definition checkRedirect (via : nat) (lookup : resolver) (u : url) : option err :=
  if (5 <=? via)%nat then Some (errorf "monitoring redirect: stopped after 5 redirects")
  else validateMonitoringFetchURL lookup (Some u).

(** ** The requests of one fetch *)

Inductive reply :=
  | Redirect
  | Response (status : Z) (body : string) (broken : option err)   (* the body, and an error after it *)
  | Failed (e : err).
Record hop := Hop {
  hUrl : url; hCheck : resolver;              (* the URL and the resolver when it is checked *)
  hAddr : string; hReuse : bool;              (* the address to dial, unless a connection is reused *)
  hDial : resolver; hConnect : ip -> option err; hReply : reply
}.

(** The requests made, each with the addresses it dialled. *)
Definition request_log := list (url * list ip).

(** Send the request of [h], then follow its redirect into [rest]; [via] is the
    number of requests made so far.  [None]: the hops given ran out. *)
Fixpoint do_hops (via : nat) (h : hop) (rest : list hop) : option (res (Z * string * option err)) * request_log :=
  let '(conn, dialled) := if hReuse h then (None, []) else
    match dialMonitoringContext (hDial h) (hConnect h) (hAddr h) with (Er e, l) => (Some e, l) | (Ok _, l) => (None, l) end in
  let entry := (hUrl h, dialled) in
  match conn with
  | Some e => (Some (Er e), [entry])
  | None =>
      match hReply h with
      | Failed e => (Some (Er e), [entry])
      | Response st body broken => (Some (Ok (st, body, broken)), [entry])
      | Redirect =>
          match rest with
          | [] => (None, [entry])
          | h' :: rest' =>
              match checkRedirect (S via) (hCheck h') (hUrl h') with
              | Some e => (Some (Er e), [entry])
              | None => let '(r, l) := do_hops (S via) h' rest' in (r, entry :: l)
              end
          end
      end
  end.

(** strings.TrimRight(s, "/") *)
Fixpoint trim_slashes (l : list ascii) : list ascii :=
  match l with a :: l' => if ascii_dec a "/" then trim_slashes l' else l | [] => [] end.
Definition TrimRightSlash (s : string) : string :=
  string_of_list_ascii (rev (trim_slashes (rev (list_ascii_of_string s)))).

Definition fetch_path (path : string) : string :=
  match path with EmptyString => "/" | String "/" _ => path | _ => "/" +:+ path end.

(** io.ReadAll(io.LimitReader(body, n)) *)
Definition read_limited (n : Z) (body : string) (broken : option err) : res string :=
  if n <=? slen body then Ok (substring 0 (Z.to_nat n) body)
  else match broken with Some e => Er e | None => Ok body end.

(** [first]: the hop of the first request, for the URL the code has checked;
    [request_error]: what [http.NewRequestWithContext] answers. *)
Definition Fetch (maxBody : Z) (baseURL path : string) (request_error : option err) (first : url -> hop) (rest : list hop)
  : option (res string) * request_log :=
  let base := TrimRightSlash baseURL in
  if IsEmpty base then (Some (Er (errorf "monitoring fetch: empty base URL")), [])
  else
    match url_of (base +:+ fetch_path path) with
    | Er e => (Some (Er (wrapf "monitoring request: %w" e)), [])
    | Ok u =>
        let h := first u in
        match validateMonitoringFetchURL (hCheck h) (Some u) with
        | Some e => (Some (Er e), [])
        | None =>
            match request_error with
            | Some e => (Some (Er (wrapf "monitoring request: %w" e)), [])
            | None =>
                match do_hops 0 (Hop u (hCheck h) (hAddr h) (hReuse h) (hDial h) (hConnect h) (hReply h)) rest with
                | (None, l) => (None, l)
                | (Some (Er e), l) => (Some (Er (wrapf "monitoring request: %w" e)), l)
                | (Some (Ok (st, content, broken)), l) =>
                    let max := if maxBody <=? 0 then defaultMonitoringMaxBody else maxBody in
                    (Some (match read_limited (max + 1) content broken with
                           | Er e => Er (wrapf "monitoring read: %w" e)
                           | Ok body =>
                               if max <? slen body then Er (wrapf "%w: exceeds %d bytes" (Sentinel ErrMonitoringBodyTooLarge))
                               else if 400 <=? st then Er (errorf "monitoring %s: status %d: %s")
                               else Ok body
                           end), l)
                end
            end
        end
    end.

(** ** Lemmas *)

Definition allowed (a : ip) : Prop := isBlockedMonitoringIP a = false.
Definition web_scheme (u : url) : Prop := to_lower (uScheme u) = "http" \/ to_lower (uScheme u) = "https".

Lemma dial_loop_allowed connect ips last : Forall allowed (dial_loop connect ips last).2.
Proof.
  revert last. induction ips as [|a ips IH]; intros last; simpl; [constructor|].
  destruct (isBlockedMonitoringIP a) eqn:E; [apply IH|]. destruct (connect a) as [e|]; [|by repeat constructor].
  specialize (IH (Some e)). destruct (dial_loop connect ips (Some e)). by constructor.
Qed.

Lemma dial_allowed lookup connect addr : Forall allowed (dialMonitoringContext lookup connect addr).2.
Proof.
  unfold dialMonitoringContext. destruct (split_host_port addr) as [[host port]|]; [|constructor].
  destruct (lookup host); [apply dial_loop_allowed|constructor].
Qed.

Lemma validated_scheme lookup u : validateMonitoringFetchURL lookup (Some u) = None -> web_scheme u.
Proof.
  unfold validateMonitoringFetchURL, web_scheme. destruct (String.eqb_spec (to_lower (uScheme u)) "http"); [auto|].
  destruct (String.eqb_spec (to_lower (uScheme u)) "https"); [auto|done].
Qed.

Definition good_request (e : url * list ip) : Prop := web_scheme e.1 /\ Forall allowed e.2.

Lemma do_hops_good via h rest : web_scheme (hUrl h) -> (via < 5)%nat ->
  Forall good_request (do_hops via h rest).2 /\ (via + length (do_hops via h rest).2 <= 5)%nat.
Proof.
  revert via h. induction rest as [|h' rest IH]; intros via h Hs Hv; cbn [do_hops];
    (set (X := if hReuse h then _ else _);
     assert (Forall allowed X.2) as HX
       by (subst X; destruct (hReuse h); [simpl; constructor|];
           pose proof (dial_allowed (hDial h) (hConnect h) (hAddr h)); by destruct (dialMonitoringContext _ _ _) as [[]]);
     clearbody X; destruct X as [conn dialled]; simpl in HX;
     assert (Forall good_request [(hUrl h, dialled)] /\ (via + 1 <= 5)%nat) as Hone by (split; [constructor; [split; [exact Hs|exact HX]|constructor]|lia]);
     destruct conn; [done|]; destruct (hReply h); try done).
  destruct (checkRedirect (S via) (hCheck h') (hUrl h')) eqn:Ec; [done|].
  unfold checkRedirect in Ec. destruct (Nat.leb_spec 5 (S via)); [done|].
  destruct (IH (S via) h' (validated_scheme _ _ Ec) ltac:(lia)) as [H1 H2].
  destruct (do_hops (S via) h' rest). simpl in *. destruct Hone as [Hone _]. split; [constructor; [exact (Forall_inv Hone)|done]|lia].
Qed.

Lemma substring_length n s : String.length (substring 0 n s) = Nat.min n (String.length s).
Proof. revert n. induction s as [|a s IH]; intros [|n]; simpl; [done..|]. by rewrite IH. Qed.

Lemma read_limited_short n body broken out : read_limited (n + 1) body broken = Ok out -> slen out <= n -> slen body <= n /\ out = body /\ broken = None.
Proof.
  unfold read_limited, slen. destruct (Z.leb_spec (n + 1) (Z.of_nat (String.length body))).
  - intros [= <-]. rewrite substring_length. lia.
  - destruct broken; [done|]. intros [= <-]. intros. split_and!; [lia|done|done].
Qed.

(** C24: no request reaches a metadata address.  Whatever URL is given, wherever
    the server redirects and however the name service changes its answers
    between the check and the connection, every address dialled is outside the
    blocked ranges, every request uses http or https, and at most five requests
    are made; a page is returned only if it is the server's complete body, has
    a success status and at most the size limit. *)
Theorem monitoring_contained maxBody baseURL path rerr first rest :
  let '(r, log) := Fetch maxBody baseURL path rerr first rest in
  Forall good_request log /\ (length log <= 5)%nat /\
  forall body, r = Some (Ok body) ->
    slen body <= (if maxBody <=? 0 then defaultMonitoringMaxBody else maxBody) /\
    exists u st, url_of (TrimRightSlash baseURL +:+ fetch_path path) = Ok u /\ st < 400 /\
      (do_hops 0 (Hop u (hCheck (first u)) (hAddr (first u)) (hReuse (first u)) (hDial (first u)) (hConnect (first u)) (hReply (first u))) rest).1
        = Some (Ok (st, body, None)).
Proof.
  unfold Fetch. destruct (IsEmpty _); [by split_and!; [constructor|simpl; lia|]|].
  destruct (url_of _) as [u|e]; [|by split_and!; [constructor|simpl; lia|]].
  destruct (validateMonitoringFetchURL _ _) as [e|] eqn:Ev; [by split_and!; [constructor|simpl; lia|]|].
  destruct rerr; [by split_and!; [constructor|simpl; lia|]|].
  set (h := Hop u _ _ _ _ _ _). destruct (do_hops_good 0 h rest (validated_scheme _ _ Ev) ltac:(lia)) as [H1 H2].
  destruct (do_hops 0 h rest) as [[[[[st content] broken]|e]|] l] eqn:Ed; cbn [snd] in H1, H2; rewrite Nat.add_0_l in H2; try by split_and!.
  split_and!; [done|lia|]. intros body [= Hb].
  set (max := if maxBody <=? 0 then defaultMonitoringMaxBody else maxBody) in *.
  destruct (read_limited _ _ _) as [out|] eqn:Er; [|done]. destruct (Z.ltb_spec max (slen out)); [done|].
  destruct (Z.leb_spec 400 st); [done|]. injection Hb as ->.
  destruct (read_limited_short _ _ _ _ Er ltac:(done)) as (Hl & -> & ->).
  split; [done|]. exists u, st. split_and!; [done|done|exact (f_equal fst Ed)].
Qed.

End Monitoring.

Ltac not_equal := unfold ip_Equal; simpl; first [reflexivity | apply bool_decide_false; naive_solver].

(** An IPv4 address is judged the same in its four-byte and in its
    IPv6-mapped form. *)
Theorem blocked_in_both_forms a b c d : isBlockedMonitoringIP (v4_prefix ++ [a; b; c; d]) = isBlockedMonitoringIP [a; b; c; d].
Proof.
  unfold isBlockedMonitoringIP, IsLinkLocalUnicast, IsLinkLocalMulticast, IsUnspecified.
  assert (To4 (v4_prefix ++ [a; b; c; d]) = Some [a; b; c; d]) as -> by reflexivity.
  assert (To4 [a; b; c; d] = Some [a; b; c; d]) as -> by reflexivity.
  assert (ip_Equal (v4_prefix ++ [a; b; c; d]) (v4_prefix ++ [0; 0; 0; 0]) = ip_Equal [a; b; c; d] (v4_prefix ++ [0; 0; 0; 0])) as ->.
  { unfold ip_Equal. simpl. apply bool_decide_ext. split; [intros [= -> -> -> ->]|intros [_ [= -> -> -> ->]]]; done. }
  assert (ip_Equal (v4_prefix ++ [a; b; c; d]) (replicate 16 0) = false) as -> by not_equal.
  assert (ip_Equal [a; b; c; d] (replicate 16 0) = false) as -> by not_equal.
  assert (ip_Equal (v4_prefix ++ [a; b; c; d]) ec2_v6 = false) as -> by not_equal.
  assert (ip_Equal [a; b; c; d] ec2_v6 = false) as -> by not_equal.
  reflexivity.
Qed.

(** ** Example: a name that resolves to a public address when it is checked and
    to the metadata service when it is dialled *)

Definition metadata_v4 : ip := [169; 254; 169; 254].
Definition rebinding : hop :=
  Hop (Url "http" "monitor.example") (fun _ => Ok [[93; 184; 216; 34]]) "monitor.example:80" false
    (fun _ => Ok [metadata_v4; v4_prefix ++ metadata_v4]) (fun _ => None) (Response 200 "secret" None).
#[export] Instance demo_net : NetApi := {|
  url_of := fun _ => Ok (Url "http" "monitor.example"); parse_ip := fun _ => None;
  split_host_port := fun a => match split ":" a with [h; p] => Ok (h, p) | _ => Er (errorf "missing port in address") end;
  to_lower := fun s => s
|}.

Example rebinding_refused :
  validateMonitoringFetchURL (hCheck rebinding) (Some (hUrl rebinding)) = None /\
  Fetch 0 "http://monitor.example/" "varz" None (fun _ => rebinding) [] =
    (Some (Er (wrapf "monitoring request: %w" host_not_allowed)), [(hUrl rebinding, [])]).
Proof. split; vm_compute; reflexivity. Qed.
