(* ===== verification/Tracing.v ===== *)
(** * Tracing (tracing.go)

    Starting spans for publishes, requests, replies and processed messages, and
    the header values they write.  Incoming trace contexts are read from a
    header carrier that is recycled through a [sync.Pool]: the pool is a list of
    maps in any state, and which of them a [Get] returns is the pool's choice.
    Header values are Go slices, so [setHeaderValue] works on a store of arrays.
    The telemetry library is a parameter. *)
From S2P Require Import Prelude GoStr Validate Message Compress.

(** ** Hexadecimal trace ids *)

Definition hex_digit (d : Z) : ascii := ascii_of_N (Z.to_N (if d <? 10 then 48 + d else 87 + d)).
Fixpoint hex_encode (l : list Z) : string :=
  match l with [] => "" | b :: l' => String (hex_digit (b / 16)) (String (hex_digit (b mod 16)) (hex_encode l')) end.
Definition traceIDString (id : list Z) : string := hex_encode id.

(** The value of a lower-case hexadecimal digit. *)
Definition hex_value (a : ascii) : option Z :=
  let n := byte_of a in
  if (48 <=? n) && (n <=? 57) then Some (n - 48) else if (97 <=? n) && (n <=? 102) then Some (n - 87) else None.
Fixpoint hex_decode (s : string) : option (list Z) :=
  match s with
  | EmptyString => Some []
  | String a (String b s') => h ← hex_value a; l ← hex_value b; r ← hex_decode s'; Some (h * 16 + l :: r)
  | _ => None
  end.

Lemma hex_value_digit d : 0 <= d < 16 -> hex_value (hex_digit d) = Some d.
Proof.
  intros Hd. assert (d = 0 \/ d = 1 \/ d = 2 \/ d = 3 \/ d = 4 \/ d = 5 \/ d = 6 \/ d = 7 \/ d = 8 \/ d = 9 \/ d = 10 \/ d = 11 \/
    d = 12 \/ d = 13 \/ d = 14 \/ d = 15) as H by lia.
  repeat (destruct H as [->|H]; [reflexivity|]). by rewrite H.
Qed.

(** The trace id in the header determines the trace: sixteen bytes are written
    as thirty-two characters that decode to the same bytes. *)
Theorem trace_id_roundtrip id : Forall (fun b => 0 <= b < 256) id ->
  hex_decode (traceIDString id) = Some id /\ String.length (traceIDString id) = (2 * length id)%nat.
Proof.
  unfold traceIDString. induction 1 as [|b l Hb _ IH]; [done|]. destruct IH as [IH1 IH2]. simpl. split; [|lia].
  rewrite !hex_value_digit by (split; [apply Z.div_pos || apply Z.mod_pos_bound|apply Z.div_lt_upper_bound || apply Z.mod_pos_bound]; lia).
  simpl. rewrite IH1. simpl. do 2 f_equal. pose proof (Z.div_mod b 16). lia.
Qed.

(** ** The header carrier *)

Definition carrier_pool := list header.

(** [for k := range m { delete(m, k) }] *)
Definition clear_map (m : header) : header := foldr delete m ((map_to_list m).*1).
(** [pick]: the pooled map the pool returns; without one it makes a new map. *)
Definition acquireHeaderCarrier (pick : option nat) (pool : carrier_pool) : header * carrier_pool :=
  match pick with
  | Some i => match pool !! i with Some m => (clear_map m, delete i pool) | None => (∅, pool) end
  | None => (∅, pool)
  end.
Definition releaseHeaderCarrier (m : option header) (pool : carrier_pool) : carrier_pool :=
  match m with None => pool | Some m => m :: pool end.

(** [for k, v := range msg.Header { carrier[k] = v }] *)
Definition fill_carrier (h : option header) (carrier : header) : header :=
  match h with Some h => foldr (fun kv m => <[kv.1 := kv.2]> m) carrier (map_to_list h) | None => carrier end.

Inductive attr := AStr (k v : string) | AInt (k : string) (v : Z).

Section Spans.
(** The telemetry library: extracting a context from a carrier, and the
    attributes it defines. *)
Context {C : Type} (extract : C -> header -> C).
Context (MessagingSystem MessagingOperationPublish MessagingOperationProcess : attr) (MessagingSubject : string -> attr).

(** A span: its name, its attributes and the context it was started in. *)
Record started_span := StartedSpan { spName : string; spAttrs : list attr; spCtx : C }.

(** No tracing: the context as it is and no span. *)
Definition startPublishSpan (ctx : C) (subject : string) (allow : bool) : option started_span :=
  if negb allow then None else Some (StartedSpan "nats.publish" [MessagingSystem; MessagingOperationPublish; MessagingSubject subject] ctx).
Definition startRequestSpan (ctx : C) (subject : string) (allow : bool) : option started_span :=
  if negb allow then None else Some (StartedSpan "nats.request" [MessagingSystem; AStr "messaging.operation" "request"; MessagingSubject subject] ctx).

(** The incoming context: taken from the carrier, which then goes back. *)
Definition extract_from (ctx : C) (msg : option NatsMsg) (pick : option nat) (pool : carrier_pool) : C * carrier_pool :=
  let '(m, pool1) := acquireHeaderCarrier pick pool in
  let carrier := match msg with Some x => fill_carrier (nHeader x) m | None => m end in
  (extract ctx carrier, releaseHeaderCarrier (Some carrier) pool1).

Definition msg_subject (msg : option NatsMsg) : string := match msg with Some x => nSubject x | None => "" end.

Definition startReplySpan (ctx : C) (msg : option NatsMsg) (allow : bool) (pick : option nat) (pool : carrier_pool)
  : option started_span * carrier_pool :=
  if negb allow then (None, pool)
  else let '(ctx', pool') := extract_from ctx msg pick pool in
       (Some (StartedSpan "nats.reply" [MessagingSystem; AStr "messaging.operation" "reply"; MessagingSubject (msg_subject msg)] ctx'), pool').

(** [meta]: stream sequence and delivery count, both [uint64] converted to
    [int64]. *)
Definition process_attrs (subject : string) (meta : option (Z * Z)) : list attr :=
  [MessagingSystem; MessagingOperationProcess; MessagingSubject subject] ++
  match meta with
  | Some (seq, n) => [AInt "messaging.nats.stream_sequence" (i64 seq); AInt "messaging.nats.delivery_count" (i64 n)]
  | None => []
  end.

Definition startProcessSpan (ctx : C) (msg : option NatsMsg) (allow : bool) (meta : option (Z * Z)) (pick : option nat) (pool : carrier_pool)
  : option started_span * carrier_pool :=
  if negb allow then (None, pool)
  else let '(ctx', pool') := extract_from ctx msg pick pool in
       (Some (StartedSpan "nats.process" (process_attrs (msg_subject msg) meta) ctx'), pool').

(** A worker that handles one message after the other; [pick] and the pool's
    other users vary. *)
Fixpoint process_spans (ctx : C) (ms : list (NatsMsg * option (Z * Z) * option nat)) (others : carrier_pool -> carrier_pool) (pool : carrier_pool)
  : list (option started_span) :=
  match ms with
  | [] => []
  | (m, meta, pick) :: ms' =>
      let '(sp, pool') := startProcessSpan ctx (Some m) true meta pick (others pool) in
      sp :: process_spans ctx ms' others pool'
  end.

Lemma clear_map_empty m : clear_map m = ∅.
Proof.
  unfold clear_map. apply map_eq. intros k. rewrite lookup_empty. destruct (m !! k) as [v|] eqn:E.
  - assert (k ∈ (map_to_list m).*1) as Hin.
    { apply list_elem_of_fmap. exists (k, v). split; [done|]. by apply elem_of_map_to_list. }
    clear E. revert Hin. generalize (map_to_list m).*1. intros l. induction l as [|k' l IH]; [by intros ?%not_elem_of_nil|].
    simpl. destruct (decide (k' = k)) as [->|Hne]; [by rewrite lookup_delete_eq|]. rewrite lookup_delete_ne by done.
    intros [->|Hin]%elem_of_cons; [done|auto].
  - generalize (map_to_list m).*1. intros l. induction l as [|k' l IH]; [done|]. simpl.
    destruct (decide (k' = k)) as [->|Hne]; [by rewrite lookup_delete_eq|by rewrite lookup_delete_ne].
Qed.

Lemma acquire_empty pick pool : (acquireHeaderCarrier pick pool).1 = ∅.
Proof. unfold acquireHeaderCarrier. destruct pick as [i|]; [|done]. destruct (pool !! i); [apply clear_map_empty|done]. Qed.

Lemma fill_empty h : fill_carrier (Some h) ∅ = h.
Proof. exact (list_to_map_to_list h). Qed.

Lemma extract_from_exact ctx msg pick pool :
  (extract_from ctx msg pick pool).1 = extract ctx (match msg with Some x => default ∅ (nHeader x) | None => ∅ end).
Proof.
  unfold extract_from. pose proof (acquire_empty pick pool) as H. destruct (acquireHeaderCarrier pick pool) as [m p]. simpl in *.
  subst m. destruct msg as [x|]; [|done]. destruct (nHeader x) as [h|]; [|done]. by rewrite fill_empty.
Qed.

(** C37: traces do not mix.  Whatever maps the carrier pool holds (those of other
    messages, in any state), whichever it hands out and whatever other users put
    in between, the span of every processed message is started in the context
    extracted from that message's own headers. *)
Theorem traces_isolated ctx ms others pool :
  process_spans ctx ms others pool =
  (fun '(m, meta, _) =>
     Some (StartedSpan "nats.process" (process_attrs (nSubject m) meta) (extract ctx (default ∅ (nHeader m))))) <$> ms.
Proof.
  revert pool. induction ms as [|[[m meta] pick] ms IH]; intros pool; [done|]. simpl. unfold startProcessSpan. simpl.
  pose proof (extract_from_exact ctx (Some m) pick (others pool)) as H.
  destruct (extract_from ctx (Some m) pick (others pool)) as [ctx' pool']. simpl in *. by rewrite H, IH.
Qed.

End Spans.

(** ** Header values as slices *)

(** A slice: its array, offset, length and capacity.  Arrays live in a store. *)
Record slice := Slice { slArr : nat; slOff : nat; slLen : nat; slCap : nat }.
Notation arrays := (gmap nat (list string)).
Notation slice_header := (gmap string slice).

Definition read_slice (st : arrays) (s : slice) : list string := take (slLen s) (drop (slOff s) (default [] (st !! slArr s))).
Definition write_first (s : slice) (v : string) (st : arrays) : arrays := alter (fun a => <[slOff s := v]> a) (slArr s) st.

(** [fresh]: the array a new slice gets. *)
Definition setHeaderValue (fresh : nat) (key value : string) (h : slice_header) (st : arrays) : slice_header * arrays :=
  match h !! key with
  | Some s =>
      if (slLen s =? 1)%nat then (h, write_first s value st)
      else if (1 <=? slCap s)%nat then (<[key := Slice (slArr s) (slOff s) 1 (slCap s)]> h, write_first s value st)
      else (<[key := Slice fresh 0 1 1]> h, <[fresh := [value]]> st)
  | None => (<[key := Slice fresh 0 1 1]> h, <[fresh := [value]]> st)
  end.

(** The slice's cells exist. *)
Definition slice_ok (st : arrays) (s : slice) : Prop :=
  (slLen s <= slCap s)%nat /\ exists a, st !! slArr s = Some a /\ (slOff s + slCap s <= length a)%nat.
(** Two slices that share no cell. *)
Definition apart (s t : slice) : Prop := slArr s <> slArr t \/ (slOff s + slCap s <= slOff t)%nat \/ (slOff t + slCap t <= slOff s)%nat.

Lemma write_first_read s v st : slice_ok st s -> (1 <= slCap s)%nat ->
  read_slice (write_first s v st) (Slice (slArr s) (slOff s) 1 (slCap s)) = [v].
Proof.
  intros (_ & a & Ha & Hl) Hc. unfold read_slice, write_first. cbn [slArr slOff slLen]. rewrite lookup_alter_eq, Ha. simpl.
  apply list_eq. intros [|i]; [|by rewrite lookup_take_ge by lia].
  rewrite lookup_take_lt, lookup_drop, Nat.add_0_r, list_lookup_insert_eq by lia. done.
Qed.

Lemma write_first_apart s t v st : slice_ok st t -> (1 <= slCap s)%nat -> apart s t -> read_slice (write_first s v st) t = read_slice st t.
Proof.
  intros (Hlen & a & Ha & Hl) Hc Hap. unfold read_slice, write_first. destruct (decide (slArr s = slArr t)) as [E|E].
  - rewrite E, lookup_alter_eq, Ha. simpl. destruct Hap as [?|Hap]; [done|]. apply list_eq. intros i.
    destruct (decide (i < slLen t)%nat); [|by rewrite !lookup_take_ge by lia].
    rewrite !lookup_take_lt, !lookup_drop by lia. rewrite list_lookup_insert_ne by lia. done.
  - by rewrite lookup_alter_ne.
Qed.

(** Writing a header value.  Whether the key was absent, held one value or
    several, it reads back as exactly the written value, and every other slice
    (of this or any other header) that shares no cell with the key's slice reads
    as before. *)
Theorem setHeaderValue_spec fresh key value h st :
  st !! fresh = None -> (forall s, h !! key = Some s -> slice_ok st s) ->
  let '(h', st') := setHeaderValue fresh key value h st in
  (exists s', h' !! key = Some s' /\ read_slice st' s' = [value]) /\
  (forall k, k <> key -> h' !! k = h !! k) /\
  (forall t, slice_ok st t -> (forall s, h !! key = Some s -> apart s t) -> read_slice st' t = read_slice st t).
Proof.
  intros Hf Hok. unfold setHeaderValue.
  assert (forall t, slice_ok st t -> read_slice (<[fresh := [value]]> st) t = read_slice st t) as Hfr.
  { intros t (_ & a & Ha & _). unfold read_slice. rewrite lookup_insert_ne by congruence. done. }
  assert (forall s : slice, read_slice (<[fresh := [value]]> st) (Slice fresh 0 1 1) = [value]) as Hnew.
  { intros _. unfold read_slice. simpl. by rewrite lookup_insert_eq. }
  destruct (h !! key) as [s|] eqn:E.
  - specialize (Hok s eq_refl). destruct (Nat.eqb_spec (slLen s) 1) as [H1|H1].
    + pose proof Hok as [Hle _]. split_and!; [|done|].
      * exists s. split; [done|]. destruct s as [a o n c]. simpl in *. subst n. apply (write_first_read (Slice a o 1 c)); [done|simpl; lia].
      * intros t Ht Hap. apply write_first_apart; [done|lia|auto].
    + destruct (Nat.leb_spec 1 (slCap s)).
      * split_and!; [|intros k Hk; by rewrite lookup_insert_ne|].
        -- eexists. rewrite lookup_insert_eq. split; [done|]. by apply write_first_read.
        -- intros t Ht Hap. apply write_first_apart; [done|done|auto].
      * split_and!; [|intros k Hk; by rewrite lookup_insert_ne|auto].
        eexists. rewrite lookup_insert_eq. split; [done|]. by apply Hnew.
  - split_and!; [|intros k Hk; by rewrite lookup_insert_ne|auto].
    eexists. rewrite lookup_insert_eq. split; [done|]. by apply Hnew, (Slice 0 0 0 0).
Qed.

(** ** Reading *)

Definition TraceIDFromHeader `{NatsHeader} (h : option header) : string := match h with None => "" | Some h => hget h HeaderTraceID end.

(** [metadata]: what [msg.Metadata()] returns; asked only for a message with a
    reply subject. *)
Definition jetStreamMetadata {M} (msg : option string) (metadata : option M) : option M :=
  match msg with None => None | Some reply => if IsEmpty reply then None else metadata end.

(** [endSpan] and [endSpanPtr]: the error handed to a recording span. *)
Definition endSpan {E} (recording : option bool) (e : option E) : option (option E) :=
  match recording with Some true => Some e | _ => None end.
Definition endSpanPtr {E} (recording : option bool) (errp : option (option E)) : option (option E) :=
  endSpan recording (match errp with Some e => e | None => None end).

(** ** Witnesses *)

Lemma trace_id_roundtrip_witness : hex_decode (traceIDString [0; 15; 171; 255]) = Some [0; 15; 171; 255].
Proof. apply (trace_id_roundtrip [0; 15; 171; 255]). repeat constructor; lia. Defined.

(** A key with two values in one array, and another header's slice next to it. *)
Definition two_values : arrays := {[ 0%nat := ["a"; "b"; "c"] ]}.
Lemma setHeaderValue_spec_witness :
  let '(h', st') := setHeaderValue 1 "Trace-Id" "t" {[ "Trace-Id" := Slice 0 0 2 2 ]} two_values in
  (exists s', h' !! "Trace-Id" = Some s' /\ read_slice st' s' = ["t"]) /\ read_slice st' (Slice 0 2 1 1) = ["c"].
Proof.
  destruct (setHeaderValue_spec 1 "Trace-Id" "t" {[ "Trace-Id" := Slice 0 0 2 2 ]} two_values) as (H1 & _ & H3).
  - reflexivity.
  - intros s. rewrite lookup_singleton_eq. intros [= <-]. split; [simpl; lia|]. exists ["a"; "b"; "c"]. split; [reflexivity|simpl; lia].
  - split; [exact H1|]. rewrite H3; [reflexivity| |].
    + split; [simpl; lia|]. exists ["a"; "b"; "c"]. split; [reflexivity|simpl; lia].
    + intros s. rewrite lookup_singleton_eq. intros [= <-]. right. left. simpl. lia.
Defined.
