(* ===== verification/Orders.v ===== *)
(** * The orders example: topology, configuration, start-up (examples/nats/main.go, config.go, worker.go)

    The program a user of the library starts from: it names its streams from the
    environment, provisions them, and runs a publisher, a push worker or a
    puller.  Here are its configuration, [ensureTopology] over the
    administration interface of [Admin], the set-up and the shutdown of the
    worker over the handles of [Handles], and the dispatch of [main].  What the
    roles do with messages is in [OrdersFlow]. *)
From Stdlib Require Import SpecFloat.
From S2P Require Import Prelude GoStr Validate Filter Pressure Message Compress Codec Publisher Rpc Consume Admin Subscribe Supervisor Handles Watch Events Shadow Buckets Fingerprint Connection Metrics Assemble.

(** ** Policies of protocol.go (values of nats.go) *)

Definition LimitsPolicy : Z := 0.
Definition WorkQueuePolicy : Z := 2.
Definition MemoryStorage : Z := 1.
Definition DiscardOld : Z := 0.

(** ** Names *)

(** [os.Getenv]: empty when unset. *)
Definition environment := string -> string.
Definition envOr (e : environment) (key fallback : string) : string := if IsEmpty (e key) then fallback else e key.

Section Names.
Variable e : environment.
Definition streamName : string := envOr e "STREAM_NAME" "ORDERS".
Definition dlqStream : string := envOr e "DLQ_STREAM" (streamName +:+ "_DLQ").
Definition durableName : string := envOr e "DURABLE_NAME" "orders-processor".
Definition pullDurableName : string := envOr e "PULL_DURABLE_NAME" "orders-puller".
Definition queueName : string := envOr e "QUEUE_NAME" "orders-workers".
Definition subjectPrefix : string := envOr e "SUBJECT_PREFIX" "orders".
Definition dlqSubjectPrefix : string := envOr e "DLQ_SUBJECT_PREFIX" (subjectPrefix +:+ ".dlq").
Definition subjectFilter : string := subjectPrefix +:+ ".>".
Definition publishSubject : string := subjectPrefix +:+ ".created".
Definition dlqSubjectFilter : string := dlqSubjectPrefix +:+ ".>".
Definition dlqSubject : string := dlqSubjectPrefix +:+ ".poison".
End Names.

(** ** Configuration *)

Definition handlerP99 : Z := 15 * second.
Definition pullFetchBatch : Z := 100.
Definition ackWaitForHandler (p99 : Z) : Z := i64 (p99 * 3).
Definition prodWorkerMaxAckPending : Z := 1000.

(** [os.Hostname]: empty when it fails. *)
Definition clientName (hostname role : string) : string :=
  "nats-orders-" +:+ role +:+ "-" +:+ (if IsEmpty hostname then "local" else hostname).

Definition with_address (c : Connection) (address name : string) : Connection :=
  Conn_ address (User c) (Password c) (Seed c) (Secret c) (CredentialsFile c) (Domain c) name (cTLS c) (CustomReconnectDelay c)
    (ReconnectWait c) (MaxReconnect c) (ConnectTimeout c) (DrainTimeout c) (PingInterval c) (MaxPingsOut c) (FlusherTimeout c)
    (ReconnectJitter c) (ReconnectJitterTLS c) (ReconnectBufSize c) (InitialRetryAttempts c) (InitialRetryWait c)
    (InitialRetryBackoff c) (RetryOnFailedConnect c) (AllowReconnect c) (DontRandomize c).
Definition with_tracked (m : MetricsConfig) (streams : list string) (consumers : list (string * string)) : MetricsConfig :=
  MetricsCfg (mPrefix m) streams consumers (mCollectInterval m) (mAllowMetrics m) (mLite m) (mFixedCardinality m).
(** The sections of a configuration the two programs set. *)
Definition with_sections (c : Config) (conn : Connection) (rc : RuntimeConsumerConfig) (bp : BackpressureConfig) (m : MetricsConfig)
  : Config :=
  Cfg (conf_publisher c) (instr_publisher c) (conf_requester c) (instr_requester c) (conf_responder c) (instr_responder c)
    m (metrics_tracing c) rc (instr_consumer c) conn (conn_health_interval c) (conn_prefix c) (conn_metrics c)
    bp (sample_interval c) (conf_adaptive c) (conf_circuit c).

Definition buildWorkerConfig (e : environment) (hostname : string) : Config :=
  let c := DefaultConfig in
  let rc := conf_consumer c in
  let bp := conf_backpressure c in
  with_sections c
    (with_address (conf_conn c) (envOr e "NATS_URL" "nats://127.0.0.1:4222") (clientName hostname "worker"))
    (RCC (ackWaitForHandler handlerP99) 0 false true 8 256 (PayloadDecompression rc) 1000 (Z.shiftl 10 20))
    (BPC BackpressureNak (bpPendingMsgLimit bp) (bpPendingMsgBuffer bp) prodWorkerMaxAckPending)
    (with_tracked (conf_metrics c) [streamName e; dlqStream e] [(streamName e, durableName e)]).

Definition buildPullConfig (e : environment) (hostname : string) : Config :=
  let c := DefaultConfig in
  let rc := conf_consumer c in
  let batchP99 := handlerP99 * 2 in
  with_sections c
    (with_address (conf_conn c) (envOr e "NATS_URL" "nats://127.0.0.1:4222") (clientName hostname "puller"))
    (RCC (ackWaitForHandler batchP99) (IdleHeartbeat rc) (FlowControl rc) false (WorkerPoolSize rc) (WorkerBufferSize rc)
       (PayloadDecompression rc) (cPendingMsgLimit rc) (cPendingMsgBuffer rc))
    (conf_backpressure c)
    (with_tracked (conf_metrics c) [streamName e] [(streamName e, pullDurableName e)]).

(** *** Telemetry (telemetry.go)

    [tel.Config] as far as the example sets it; the defaults are the telemetry
    library's. *)
Record telemetry_config := Telemetry {
  tService : string; tVersion : string; tEnvironment : string; tEnable : bool; tMonitor : bool; tEncode : string; tLevel : string
}.
Definition telemetry_for (e : environment) (d : telemetry_config) : telemetry_config :=
  Telemetry "nats-orders-example" (envOr e "SERVICE_VERSION" "1.0.0") (envOr e "ENVIRONMENT" "dev")
    (if String.eqb (e "TEL_ENABLE") "false" then false else if String.eqb (e "TEL_ENABLE") "true" then true else tEnable d)
    false "console" "info".
(** [start]: what starting it returns; an error exits with status 1. *)
Definition mustTelemetry (e : environment) (d : telemetry_config) (start : option err) : option telemetry_config :=
  match start with Some _ => None | None => Some (telemetry_for e d) end.

Definition buildConfigForRole (e : environment) (hostname role : string) : Config :=
  if String.eqb role "puller" then buildPullConfig e hostname else buildWorkerConfig e hostname.

(** ** Topology *)

Definition hour : Z := 3600 * second.

Section Topology.
Variable e : environment.

Definition work_stream : StreamConfig :=
  SConf (streamName e) "" [subjectFilter e] 1 0 0 (24 * hour) 0 false 0 WorkQueuePolicy MemoryStorage DiscardOld (120 * second) None [].
Definition dlq_stream : StreamConfig :=
  SConf (dlqStream e) "" [dlqSubjectFilter e] 1 0 0 (7 * 24 * hour) 0 false 0 LimitsPolicy MemoryStorage DiscardOld 0 None [].
(** The pull durable; the [Has] flags are left false. *)
Definition pull_durable : DurableConsumerConfig :=
  Durable_ None ∅ (pullDurableName e) (subjectFilter e) [] "" "" DeliverNew 0 AckExplicit 5 (ackWaitForHandler (handlerP99 * 2))
    prodWorkerMaxAckPending 0 0 0 0 512 0 false false false false false.

Context {S : Type} `{JA : JsAdmin S}.

(** [ctx k]: the context at the k-th server call. *)
Definition ensurePullConsumer (ctx : Ctx) (s : S) : option err * S :=
  match CreateOrUpdateConsumer ctx (streamName e) pull_durable s with
  | (Er err, s') => (Some (wrapf "pull durable %s: %w" err), s')
  | (Ok _, s') => (None, s')
  end.

Definition ensureTopology (ctx : nat -> Ctx) (role : string) (s : S) : option err * S :=
  match CreateOrUpdateStream (ctx 0%nat) work_stream s with
  | (Er err, s1) => (Some (wrapf "stream %s: %w" err), s1)
  | (Ok _, s1) =>
      match CreateOrUpdateStream (ctx 1%nat) dlq_stream s1 with
      | (Er err, s2) => (Some (wrapf "stream %s: %w" err), s2)
      | (Ok _, s2) => if String.eqb role "puller" then ensurePullConsumer (ctx 2%nat) s2 else (None, s2)
      end
  end.
End Topology.

(** ** main *)

(** What [main] does, in order; [MEExit] ends the process, and an [os.Exit] runs
    no deferred call. *)
Inductive main_effect :=
  | METelemetry | MEConnect | METopology | MEPublish (goroutine : bool) | MEWorker | MEPuller | MEAwait
  | MEClientShutdown | METelemetryShutdown | MEExit (code : Z).

Definition deferred : list main_effect := [MEClientShutdown; METelemetryShutdown; MEExit 0].
Definition failed_with (o : option err) : bool := match o with Some _ => true | None => false end.

(** [role]: [ROLE] in lower case; [telemetry], [connect], [topology], [worker],
    [puller]: what starting the
    telemetry, [NewClient], [ensureTopology], [runWorker] and [runPuller] return;
    [cancelled]: whether the context is done when [runPuller] returns. *)
Definition orders_main (role : string) (telemetry connect topology worker puller : option err) (cancelled : bool) : list main_effect :=
  METelemetry ::
  if failed_with telemetry then [MEExit 1] else
  MEConnect ::
  if failed_with connect then [MEExit 1] else
  METopology ::
  if failed_with topology then [MEExit 1] else
  if String.eqb role "publisher" then MEPublish false :: deferred
  else if String.eqb role "worker" then MEWorker :: (if failed_with worker then [MEExit 1] else MEAwait :: deferred)
  else if String.eqb role "puller" then MEPuller :: (if failed_with puller && negb cancelled then [MEExit 1] else deferred)
  else if String.eqb role "all" then MEPublish true :: MEWorker :: (if failed_with worker then [MEExit 1] else MEAwait :: deferred)
  else [MEExit 1].

(** ** The server's rule

    Two subject filters collide when some subject could match both. *)
Fixpoint tokens_overlap (a b : list string) : bool :=
  match a, b with
  | [], [] => true
  | x :: a', y :: b' =>
      String.eqb x ">" || String.eqb y ">" ||
      ((String.eqb x "*" || String.eqb y "*" || String.eqb x y) && tokens_overlap a' b')
  | _, _ => false
  end.
Definition subjects_overlap (a b : list string) : bool :=
  existsb (fun x => existsb (fun y => tokens_overlap (split "." x) (split "." y)) b) a.

(** JetStream refuses a stream whose subjects overlap another stream's, when it
    is added and when it is updated, and changes nothing. *)
Class OverlapRefused (S : Type) `{JsAdmin S} := {
  overlap_add c s n c' : n <> scName c -> streams s !! n = Some c' -> subjects_overlap (scSubjects c) (scSubjects c') = true ->
    exists err, js_add_stream c s = (Er err, s);
  overlap_update c s n c' : n <> scName c -> streams s !! n = Some c' -> subjects_overlap (scSubjects c) (scSubjects c') = true ->
    exists err, js_update_stream c s = (Er err, s)
}.

Lemma tokens_overlap_prefix p a b : tokens_overlap a b = true -> tokens_overlap (p ++ a) (p ++ b) = true.
Proof. intros H. induction p as [|x p IH]; [done|]. simpl. by rewrite IH, String.eqb_refl, !orb_true_r. Qed.

(** The dead-letter filter that is derived from the prefix overlaps the work filter. *)
Lemma derived_filters_overlap p : tokens_overlap (split "." ((p +:+ ".dlq") +:+ ".>")) (split "." (p +:+ ".>")) = true.
Proof.
  change ".>" with (String "." ">"). change ".dlq" with (String "." "dlq"). rewrite !split_join_app, <- app_assoc.
  by apply tokens_overlap_prefix.
Qed.

Section TopologyTheorems.
Context {S : Type} `{JA : JsAdmin S}.
Variable e : environment.

(** Whatever is stored already, an upsert of a stream that overlaps another one fails. *)
Lemma overlapping_upsert_fails `{OR : !OverlapRefused S} ctx c s n c' :
  n <> scName c -> streams s !! n = Some c' -> subjects_overlap (scSubjects c) (scSubjects c') = true ->
  exists err s', CreateOrUpdateStream ctx c s = (Er err, s').
Proof.
  intros Hn Hs Ho. destruct (CreateOrUpdateStream ctx c s) as [[i|err] s'] eqn:E; [|eauto].
  apply guarded_ok in E as [E _]. unfold upsert_stream in E.
  set (a := if scReplicas (toNatsStreamConfig c) =? 0 then _ else _) in E.
  assert (scName a = scName c /\ scSubjects a = scSubjects c) as [Ha1 Ha2] by (unfold a; by destruct (_ =? 0)).
  destruct (overlap_add a s n c') as [err Ea]; [congruence|done|congruence|]. rewrite Ea in E.
  set (u := if scReplicas (if scReplicas c =? 0 then _ else _) =? 0 then _ else _) in E.
  assert (scName u = scName c /\ scSubjects u = scSubjects c) as [Hu1 Hu2]
    by (unfold u; clear; repeat case_match; done).
  destruct (overlap_update u s n c') as [err' Eu]; [congruence|done|congruence|]. by rewrite Eu in E.
Qed.

(** C22: the example's default topology cannot be created.  On a JetStream server,
    which refuses overlapping subjects, and in every environment that leaves
    [DLQ_SUBJECT_PREFIX] unset, [ensureTopology] returns an error whatever the
    server holds, whatever role is started and whatever the context does (the
    work stream's filter already captures the derived dead-letter subjects), and
    the process exits with status 1 before anything is published or consumed. *)
Theorem topology_conflict `{OR : !OverlapRefused S} ctx role (s : S) :
  e "DLQ_SUBJECT_PREFIX" = "" -> streamName e <> dlqStream e ->
  (ensureTopology e ctx role s).1 <> None /\
  forall worker puller cancelled,
    orders_main role None None (ensureTopology e ctx role s).1 worker puller cancelled = [METelemetry; MEConnect; METopology; MEExit 1].
Proof.
  intros Hp Hne.
  assert ((ensureTopology e ctx role s).1 <> None) as H; [|split; [done|]; by destruct (ensureTopology e ctx role s).1].
  unfold ensureTopology.
  destruct (CreateOrUpdateStream (ctx 0%nat) (work_stream e) s) as [[i|err] s1] eqn:E1; [|done].
  apply stream_upsert_replicas in E1 as (H1 & H2 & _).
  destruct (overlapping_upsert_fails (ctx 1%nat) (dlq_stream e) s1 (streamName e) i) as (err & s2 & ->); [done|done| |done].
  rewrite H2. unfold subjects_overlap. simpl. unfold dlqSubjectFilter, dlqSubjectPrefix, envOr. rewrite Hp. simpl.
  unfold subjectFilter. by rewrite derived_filters_overlap.
Qed.

(** The deliver policy a durable is asked for counts only when its flag is set. *)
Definition with_policy (p : Z) (d : DurableConsumerConfig) : DurableConsumerConfig :=
  Durable_ (dOptStartTime d) (dMetadata d) (dDurable d) (dFilterSubject d) (dFilterSubjects d) (dDeliverSubject d) (dDeliverGroup d) p
    (dReplayPolicy d) (dAckPolicy d) (dMaxDeliver d) (dAckWait d) (dMaxAckPending d) (dRateLimit d) (dHeartbeat d)
    (dInactiveThreshold d) (dReplicas d) (dMaxWaiting d) (dOptStartSeq d) (dFlowControl d) (dMemStorage d) (dHasAckPolicy d)
    (dHasDeliverPolicy d) (dHasReplayPolicy d).

Lemma policy_ignored ctx stream d p (s : S) : dHasDeliverPolicy d = false ->
  CreateOrUpdateConsumer ctx stream (with_policy p d) s = CreateOrUpdateConsumer ctx stream d s.
Proof.
  intros Hd. unfold CreateOrUpdateConsumer, upsert_consumer, toNatsConsumerConfig, with_policy. simpl. by rewrite Hd.
Qed.

(** What a successful [ensureTopology] leaves behind: the dead-letter stream
    with its filter; the durables of other roles as they were; for the puller
    its durable on the work stream, filtering the work subjects.  The
    [DeliverNew] the example asks for has no effect: any other policy in its
    place gives the same result, and a durable that is created anew delivers
    all messages. *)
Theorem topology_provides ctx role (s s' : S) :
  ensureTopology e ctx role s = (None, s') ->
  (role <> "puller" -> consumers s' = consumers s /\ exists i, streams s' !! dlqStream e = Some i /\ scSubjects i = [dlqSubjectFilter e]) /\
  (role = "puller" -> exists i s2, ensurePullConsumer e (ctx 2%nat) s2 = (None, s') /\
     consumers s' !! (streamName e, pullDurableName e) = Some i /\ ccFilterSubject i = subjectFilter e /\
     ((js_add_consumer (streamName e) (toNatsConsumerConfig (pull_durable e)) s2).1 = Ok i -> ccDeliverPolicy i = DeliverAll) /\
     forall p, CreateOrUpdateConsumer (ctx 2%nat) (streamName e) (with_policy p (pull_durable e)) s2 =
               CreateOrUpdateConsumer (ctx 2%nat) (streamName e) (pull_durable e) s2).
Proof.
  unfold ensureTopology. intros H.
  pose proof (CreateOrUpdateStream_frame (ctx 0%nat) (work_stream e) s) as F1.
  destruct (CreateOrUpdateStream _ _ s) as [[i1|err] s1]; [|done]. simpl in F1.
  pose proof (CreateOrUpdateStream_frame (ctx 1%nat) (dlq_stream e) s1) as F2.
  destruct (CreateOrUpdateStream _ _ s1) as [[i2|err] s2] eqn:E2; [|done]. simpl in F2.
  destruct (String.eqb_spec role "puller") as [->|Hr].
  - split; [done|]. intros _. pose proof H as H0. unfold ensurePullConsumer in H.
    destruct (CreateOrUpdateConsumer _ _ _ s2) as [[i|err] s3] eqn:E3; [|done]. simplify_eq.
    apply guarded_ok in E3 as [E3 _]. pose proof (upsert_ok _ _ _ _ _ E3) as (Hi & p & (_ & _ & _ & _ & Hf & _) & _).
    exists i, s2. split_and!; [done|done|done| |intros; by apply policy_ignored].
    intros Ha. by destruct (add_ok (streamName e) (toNatsConsumerConfig (pull_durable e)) s2 i Ha) as [_ (_ & Hp & _)].
  - simplify_eq. split; [|done]. intros _. split; [congruence|].
    apply stream_upsert_replicas in E2 as (H1 & H2 & _). eauto.
Qed.
End TopologyTheorems.

(** ** The worker *)

Definition order_supervision : SupervisorConfig := SupCfg second 0 second 0 0 10.
Definition order_liveness : Soft.SoftLivenessConfig := Soft.SoftCfg (2 * second) (15 * second) 3 false.
Definition fingerprint_bucket : Kv.KeyValueConfig :=
  Kv.KvCfg DefaultBehaviorFingerprintKVBucket "nats-consol consumer behavior fingerprints" 0 0 0 0 1 false.
Definition order_fingerprint : BehaviorFingerprintConfig :=
  BCfg false DefaultBehaviorFingerprintKVBucket 0 0 0 0 (f64_of_int 0) (f64_of_int 0) 0 false.

(** What a started worker holds: its subscription, the callbacks the recorder
    hooked, and which watchers run. *)
Record order_worker (U : Type) := OrderWorker {
  ow_sub : supervised subscription; ow_onEvent : option (callback (SupervisorEvent * option err) U);
  ow_onStall : option (callback (Soft.SoftLivenessEvent * option err) U); ow_live : bool; ow_fp : bool
}.
Arguments OrderWorker {U}. Arguments ow_sub {U}. Arguments ow_onEvent {U}. Arguments ow_onStall {U}. Arguments ow_live {U}. Arguments ow_fp {U}.

Section Worker.
Context {S I K U : Type} `{JA : JsAdmin S} `{PJ : !PushJs S} `{NS : NatsSub S I} `{KJ : Kv.KvJs K}.
Variable e : environment.
Variable err_text : err -> string.

(** [_ = sub.Stop()] *)
Definition stop_sub (h : supervised subscription) (s : S) : S := (sup_Stop h s).2.

(** [register]: the telemetry registry; [info]: what the fingerprint watcher
    learns of the subscription.  A failure stops what was started before it. *)
Definition runWorker (register : string -> option err) (cons : consumer) (haveV2 : bool) (info : option (string * string)) (now : Z)
  (s : S) (k : K) : res (order_worker U) * S * K :=
  match register "orders.processed" with
  | Some er => (Er (wrapf "metric orders.processed: %w" er), s, k)
  | None =>
  match register "orders.failed" with
  | Some er => (Er (wrapf "metric orders.failed: %w" er), s, k)
  | None =>
  match SuperviseQueueSubscribeBound cons (streamName e) (durableName e) (queueName e) (subjectFilter e) order_supervision s with
  | (Er er, s1) => (Er (wrapf "supervise queue subscribe: %w" er), s1, k)
  | (Ok (h, _, _), s1) =>
  match Soft.WatchSoftLiveness true order_liveness [] with
  | None => (Er (wrapf "soft liveness: %w" (errorf "soft liveness: subscription is nil")), stop_sub h s1, k)
  | Some _ =>
  match Kv.CreateOrUpdate haveV2 fingerprint_bucket k with
  | (Er er, k1) => (Er (wrapf "fingerprint kv bucket: %w" er), stop_sub h s1, k1)
  | (Ok _, k1) =>
  match (client_WatchBehaviorFingerprint true true true info now order_fingerprint).1 with
  | Er er => (Er (wrapf "behavior fingerprint: %w" er), stop_sub h s1, k1)
  | Ok _ =>
      (Ok (OrderWorker h (AttachSupervisor err_text true None) (AttachSoftLiveness err_text true None) true true), s1, k1)
  end end end end end end.

(** The goroutine that waits for the end of the context: fingerprint, liveness,
    subscription. *)
Definition worker_shutdown (w : order_worker U) (s : S) : order_worker U * S :=
  let '(_, h, s') := sup_Stop (ow_sub w) s in (OrderWorker h (ow_onEvent w) (ow_onStall w) false false, s').

(** [dumpFlightRecorder]: the incidents written, if any. *)
Definition dumpFlightRecorder (r : option Recorder.FlightRecorder) : option (list Recorder.IncidentEvent) :=
  match r with
  | None => None
  | Some r => if (length (Recorder.Snapshot r) =? 0)%nat then None else Some (Recorder.Snapshot r)
  end.

Definition unsubscribe_works : Prop := forall id (s : S), (sub_unsubscribe id s).1 = None.

(** A fresh supervised subscription, and what stopping it does. *)
Lemma supervised_fresh cons st du q subj cfg (s : S) h c m s1 :
  SuperviseQueueSubscribeBound cons st du q subj cfg s = (Ok (h, c, m), s1) ->
  exists id, h = Supd (Some (Sub (Some id) true)) false /\ id ∉ Subscribe.live s /\ Subscribe.live s1 = {[id]} ∪ Subscribe.live s /\
    (unsubscribe_works -> Subscribe.live (sup_Stop h s1).2 = Subscribe.live s).
Proof.
  unfold SuperviseQueueSubscribeBound, SuperviseWith.
  destruct (QueueSubscribeBound cons st du q subj s) as [[x|er] s2] eqn:E; [|done]. simpl. intros [= <- <- <- <-].
  assert (exists id, x = Sub (Some id) true /\ id ∉ Subscribe.live s /\ Subscribe.live s2 = {[id]} ∪ Subscribe.live s) as (id & -> & Hn & Hl).
  { apply guarded_inv in E as [(er & ? & _)|E]; [done|]. unfold then_drain in E.
    destruct (QueueSubscribe cons q subj _ s) as [[y|er] s3] eqn:Eq; [|done]. simplify_eq.
    apply QueueSubscribe_spec in Eq as (id & s4 & -> & _ & Hn & Hl & _). by exists id. }
  exists id. split_and!; [done|done|done|]. intros Hu. unfold sup_Stop. simpl. unfold Subscribe.Unsubscribe, close_with. simpl.
  pose proof (unsubscribe_live id s2 (Hu id s2)) as Hs. destruct (sub_unsubscribe id s2) as [er s3]. simpl in *. rewrite Hs, Hl.
  set_solver.
Qed.

Lemma supervised_failed cons st du q subj cfg (s : S) er s1 :
  SuperviseQueueSubscribeBound cons st du q subj cfg s = (Er er, s1) -> Subscribe.live s1 = Subscribe.live s.
Proof.
  unfold SuperviseQueueSubscribeBound, SuperviseWith.
  destruct (QueueSubscribeBound cons st du q subj s) as [[x|er0] s2] eqn:E; [done|]. intros [= _ <-].
  apply guarded_inv in E as [(er1 & _ & ->)|E]; [done|]. unfold then_drain in E.
  destruct (QueueSubscribe cons q subj _ s) as [[y|er1] s3] eqn:Eq; [done|]. simplify_eq. by apply QueueSubscribe_spec in Eq.
Qed.

(** The statements of the worker's start and of its shutdown goroutine, run by
    themselves: whatever step of [runWorker] fails, and after a start followed at
    once by the shutdown, the live subscriptions are those there were before; in
    between the worker has exactly one more, both watchers run, and the recorder's
    callbacks are hooked into the supervisor and the liveness watcher.  The
    supervising loop has taken no step yet; what it does at the same cancellation,
    and the race in which a subscription survives [Stop], are in [Supervisor]. *)
Theorem worker_leaves_nothing register cons haveV2 info now (s : S) (k : K) :
  unsubscribe_works ->
  let '(r, s1, _) := runWorker register cons haveV2 info now s k in
  match r with
  | Er _ => Subscribe.live s1 = Subscribe.live s
  | Ok w => (exists id, id ∉ Subscribe.live s /\ Subscribe.live s1 = {[id]} ∪ Subscribe.live s /\ ssub (ow_sub w) = Some (Sub (Some id) true)) /\
      ow_live w && ow_fp w = true /\ ow_onEvent w <> None /\ ow_onStall w <> None /\
      let '(w', s2) := worker_shutdown w s1 in Subscribe.live s2 = Subscribe.live s /\ ow_live w' || ow_fp w' = false /\
        (sup_Stop (ow_sub w') s2).2 = s2
  end.
Proof.
  intros Hu. unfold runWorker. destruct (register "orders.processed"); [done|]. destruct (register "orders.failed"); [done|].
  destruct (SuperviseQueueSubscribeBound _ _ _ _ _ _ s) as [[[[h c] m]|er] s1] eqn:Es; [|by eapply supervised_failed].
  destruct (supervised_fresh _ _ _ _ _ _ _ _ _ _ _ Es) as (id & -> & Hn & Hl & Hstop). specialize (Hstop Hu). simpl.
  destruct (Kv.CreateOrUpdate haveV2 fingerprint_bucket k) as [[[]|er] k1]; [|done].
  unfold client_WatchBehaviorFingerprint, WatchBehaviorFingerprint. simpl. destruct (default _ info) as [st du]. simpl.
  split_and!; [by exists id|done|done|done|]. unfold worker_shutdown. simpl ow_sub.
  destruct (sup_Stop _ s1) as [[er h'] s2] eqn:Est. split; [exact Hstop|]. split; [done|]. simpl.
  unfold sup_Stop in Est. simpl in Est. destruct (Subscribe.Unsubscribe _ s1) as [[er' x'] s3]. simplify_eq. done.
Qed.
End Worker.

(** ** The configurations *)

(** What the clients of the two roles work with: a worker pool of eight with a
    queue of 256, an acknowledgement wait of three times the handler's p99, pending
    limits nats.go accepts (both are set), and no idle heartbeat, which queue
    groups may not use; for the puller the wait of its durable, no pool, and the
    default limits. *)
Theorem example_configs create e host :
  let w := assemble create true (buildConfigForRole e host "worker") in
  let p := assemble create true (buildConfigForRole e host "puller") in
  AckWait (cfg (cl_consumer w)) = 3 * handlerP99 /\ initWorkerPool (cl_consumer w) = (8, 256) /\
  pending_limits (cl_consumer w) = Some (1000, 10485760) /\ bpMode (backpressure (cl_consumer w)) = BackpressureNak /\
  (forall opts q, Forall (fun o => match o with OIdleHeartbeat _ | OEnableFlowControl => False | _ => True end) opts ->
     Forall (fun o => match o with OIdleHeartbeat _ | OEnableFlowControl => False | _ => True end) (appendConsumerOpts (cl_consumer w) opts q)) /\
  rAckWait (effective (appendConsumerOpts (cl_consumer w) [OBindStream (streamName e); ODurable (durableName e)] true)) = 45 * second /\
  AckWait (cfg (cl_consumer p)) = dAckWait (pull_durable e) /\ WorkerPoolEnabled (cfg (cl_consumer p)) = false /\
  cl_publisher w = cl_publisher p.
Proof.
  cbv zeta. split_and!; try done. intros opts q H. unfold appendConsumerOpts. apply Forall_app. split; [done|].
  destruct q; repeat constructor.
Qed.

(** How [main] ends: with status 0, after the client and the telemetry were shut
    down, exactly when the role is known and everything it starts has started;
    otherwise with status 1 and neither shut down. *)
Theorem main_outcome role telemetry connect topology worker puller cancelled :
  let fine := negb (failed_with telemetry) && negb (failed_with connect) && negb (failed_with topology) &&
    (String.eqb role "publisher" || (String.eqb role "worker" || String.eqb role "all") && negb (failed_with worker) ||
     String.eqb role "puller" && (negb (failed_with puller) || cancelled)) in
  let l := orders_main role telemetry connect topology worker puller cancelled in
  list.last l = Some (MEExit (if fine then 0 else 1)) /\
  (MEClientShutdown ∈ l <-> fine = true) /\ (METelemetryShutdown ∈ l <-> fine = true).
Proof.
  unfold orders_main. destruct (failed_with telemetry); simpl; [set_solver|]. destruct (failed_with connect); simpl; [set_solver|]. destruct (failed_with topology); simpl; [set_solver|].
  destruct (String.eqb_spec role "publisher") as [->|]; [set_solver|]. destruct (String.eqb_spec role "worker") as [->|]; simpl.
  { destruct (failed_with worker); simpl; set_solver. }
  destruct (String.eqb_spec role "puller") as [->|]; simpl.
  { destruct (failed_with puller), cancelled; simpl; set_solver. }
  destruct (String.eqb_spec role "all") as [->|]; simpl; [destruct (failed_with worker); simpl; set_solver|set_solver].
Qed.

(** ** Witnesses *)

(** A server that refuses overlapping streams. *)
Definition collides (c : StreamConfig) (s : server) : bool :=
  existsb (fun x => negb (String.eqb x.1 (scName c)) && subjects_overlap (scSubjects c) (scSubjects x.2)) (map_to_list (sv_streams s)).
Definition overlap_error : err := errorf "subjects overlap with an existing stream".
Definition unless_collides (c : StreamConfig) (s : server) (r : res StreamConfig * server) : res StreamConfig * server :=
  if collides c s then (Er overlap_error, s) else r.

#[local, refine] Instance strict_server : JsAdmin server := {
  consumers := sv_consumers; streams := sv_streams;
  js_add_consumer := @Admin.js_add_consumer _ demo_server; js_update_consumer := @Admin.js_update_consumer _ demo_server;
  js_delete_consumer := @Admin.js_delete_consumer _ demo_server; js_consumer_info := @Admin.js_consumer_info _ demo_server;
  js_consumer_names := @Admin.js_consumer_names _ demo_server;
  js_add_stream c s := unless_collides c s (@Admin.js_add_stream _ demo_server c s);
  js_update_stream c s := unless_collides c s (@Admin.js_update_stream _ demo_server c s);
  js_delete_stream := @Admin.js_delete_stream _ demo_server; js_purge_stream := @Admin.js_purge_stream _ demo_server;
  js_stream_info := @Admin.js_stream_info _ demo_server; js_stream_names := @Admin.js_stream_names _ demo_server
}.
Proof.
  - exact (@Admin.add_frame _ demo_server).
  - exact (@Admin.add_ok _ demo_server).
  - exact (@Admin.update_frame _ demo_server).
  - exact (@Admin.update_ok _ demo_server).
  - exact (@Admin.delete_frame _ demo_server).
  - exact (@Admin.delete_ok _ demo_server).
  - exact (@Admin.info_ok _ demo_server).
  - exact (@Admin.info_notfound _ demo_server).
  - intros c s. unfold unless_collides. destruct (collides c s); [done|]. exact (@Admin.add_stream_frame _ demo_server c s).
  - intros c s. unfold unless_collides. destruct (collides c s); [done|]. exact (@Admin.update_stream_frame _ demo_server c s).
  - intros c s i. unfold unless_collides. destruct (collides c s); [done|]. exact (@Admin.add_stream_ok _ demo_server c s i).
  - intros c s i. unfold unless_collides. destruct (collides c s); [done|]. exact (@Admin.update_stream_ok _ demo_server c s i).
  - intros c s er. unfold unless_collides. destruct (collides c s); [done|]. exact (@Admin.add_stream_failed _ demo_server c s er).
  - exact (@Admin.stream_info_ok _ demo_server).
Defined.

Lemma collides_true c s n c' : n <> scName c -> sv_streams s !! n = Some c' -> subjects_overlap (scSubjects c) (scSubjects c') = true ->
  collides c s = true.
Proof.
  intros Hn Hs Ho. unfold collides. apply existsb_exists. exists (n, c'). split.
  - apply list_elem_of_In, elem_of_map_to_list. done.
  - simpl. rewrite Ho. apply String.eqb_neq in Hn. by rewrite Hn.
Qed.
#[local] Instance strict_refuses : OverlapRefused server (H := strict_server).
Proof.
  constructor; intros c s n c' Hn Hs Ho; simpl in *; unfold unless_collides; rewrite (collides_true c s n c' Hn Hs Ho); eauto.
Qed.

Definition unset : environment := fun _ => "".
Definition apart : environment := fun k => if String.eqb k "DLQ_SUBJECT_PREFIX" then "dead" else "".

Lemma topology_conflict_witness :
  orders_main "all" None None (ensureTopology (JA := strict_server) unset (fun _ => background) "all" empty_server).1 None None false =
    [METelemetry; MEConnect; METopology; MEExit 1].
Proof.
  apply (topology_conflict (JA := strict_server) unset (OR := strict_refuses) (fun _ => background) "all" empty_server);
    [reflexivity|]. vm_compute. discriminate.
Defined.

(** With a dead-letter prefix of its own the topology is accepted. *)
Definition apart_server : option err * server := ensureTopology (JA := strict_server) apart (fun _ => background) "puller" empty_server.
Lemma topology_provides_witness :
  exists i, consumers apart_server.2 !! ("ORDERS", "orders-puller") = Some i /\ ccFilterSubject i = "orders.>" /\
    ccDeliverPolicy i = DeliverAll.
Proof.
  destruct (topology_provides (JA := strict_server) apart (fun _ => background) "puller" empty_server apart_server.2) as [_ H];
    [vm_compute; reflexivity|].
  destruct (H eq_refl) as (i & s2 & _ & Hi & Hf & _). exists i. split; [exact Hi|]. split; [exact Hf|].
  vm_compute in Hi. injection Hi as <-. reflexivity.
Defined.

Lemma worker_leaves_nothing_witness :
  let '(r, s1, _) := runWorker (U := unit) unset (fun _ => "") (fun _ => None) default_consumer true None 0 empty_server no_keys in
  (exists w, r = Ok w) /\ sv_live s1 = {[0%nat]} /\ sv_live (match r with Ok w => (worker_shutdown w s1).2 | Er _ => s1 end) = ∅.
Proof.
  pose proof (worker_leaves_nothing (U := unit) unset (fun _ => "") (fun _ => None) default_consumer true None 0 empty_server no_keys) as H.
  assert (unsubscribe_works (S := server)) as Hu by (intros id s; reflexivity). specialize (H Hu).
  destruct (runWorker _ _ _ _ _ _ _ _ _) as [[r s1] k1] eqn:E. vm_compute in E. injection E as <- <- <-.
  destruct H as (_ & _ & _ & _ & H). split; [eexists; reflexivity|]. split; [reflexivity|].
  destruct (worker_shutdown _ _) as [w' s2]. exact (proj1 H).
Defined.
