(* ===== verification/OrdersFlow.v ===== *)
(** * The orders example: messages (examples/nats/publisher.go, worker.go, puller.go)

    The publisher's ticks, the worker's handler (the order handler inside the
    shadow wrapper inside the dead-letter wrapper, run by [processMessage]) and
    the two put together: what becomes of the orders a publisher sends.  JSON
    decoding of an order is a parameter, as is the clock. *)
From Stdlib Require Import SpecFloat.
From stdpp Require Import pretty.
From S2P Require Import Prelude GoStr Validate Filter Pressure Message Compress Codec Publisher Rpc Consume Pull Dlq Delivery DlqPublish Shadow Admin Subscribe Connection Metrics ShadowSink Assemble Orders.

(** ** The publisher *)

(** [fmt.Sprintf("order-%d", i)] *)
Definition order_msg_id (i : Z) : string := "order-" +:+ dec i.

(** [codec == "raw" || codec == "bytes"], after [strings.ToLower]. *)
Definition codec_raw (e : environment) : bool :=
  let c := lower_rune <$> runes (envOr e "CODEC" "json") in bool_decide (c = bytes_of "raw") || bool_decide (c = bytes_of "bytes").

Section Publisher.
Context `{NH : NatsHeader} `{CP : Compressors} `{CD : Codecs}.
Variable js : list wire -> wire -> option err.
Variable e : environment.
Context (p : publisher) (sp : span).
(** The map [{"id": i, "ts": now}], and [json.Marshal]. *)
Variable payload : Z -> Z -> any.
Variable json_marshal : any -> res string.

(** One tick at time [now]: the counter, the world, and the ids published. *)
Definition publish_tick (st : Z * world * list Z) (now : Z) : Z * world * list Z :=
  let '(i0, w, out) := st in
  let i := i0 + 1 in
  let published (r : option err * world) : Z * world * list Z :=
    match r with (Some _, w') => (i, w', out) | (None, w') => (i, w', out ++ [i]) end in
  if codec_raw e then
    match json_marshal (payload i now) with
    | Er _ => (i, w, out)
    | Ok raw => published (PublishBytesWithMsgID js p sp true (publishSubject e) (order_msg_id i) raw w)
    end
  else published (PublishWithMsgID js p sp true (publishSubject e) (order_msg_id i) (plain (payload i now) JSON) w).

(** The ticks until the context ends. *)
Definition runPublisher (ticks : list Z) (w : world) : Z * world * list Z := foldl publish_tick (0, w, []) ticks.

(** *** Lemmas *)

(** The bytes of an order on the wire, before compression. *)
Definition order_bytes (i now : Z) : res string :=
  if codec_raw e then json_marshal (payload i now) else Encode (plain (payload i now) JSON).

(** Publishing with a message id: one message, under that id, that a consumer
    expands to the encoded bytes. *)
Lemma msgid_publish subject id d typ w b :
  guardConnected p = None -> pub_validateSubject p subject = None -> traces_tame p sp ->
  validMessageType typ = true -> Encode (plain d typ) = Ok b -> slen b <= MaxPayloadDecompressBytes ->
  exists x, sent (PublishWithMsgID js p sp true subject id (plain d typ) w).2 = sent w ++ [x] /\
    ((PublishWithMsgID js p sp true subject id (plain d typ) w).1 = None <-> js (sent w) x = None) /\
    copy_of subject id b x.
Proof.
  intros Hg Hv Ht Hty He Hsz. unfold PublishWithMsgID, WithMsgID. simpl. set (l := length (maps (objs w))).
  set (s1 := write_map l HeaderMsgID [id] (Store (maps (objs w) ++ [∅]) (exps (objs w)))).
  set (m1 := with_header (plain d typ) (Some l)). set (h1 := {[HeaderMsgID := [id]]} : header).
  assert (read_map s1 (Some l) = Some h1) as Hl.
  { unfold s1, l. simpl. rewrite list_lookup_alter_eq, lookup_app_r, Nat.sub_diag by done. done. }
  assert (map_or_empty s1 (Some l) = h1) as Hm by (unfold map_or_empty; by rewrite Hl).
  pose proof (publish_delivers js p sp true subject m1 (with_objs w s1) b Ht Hg Hv Hty He Hsz (fun _ => ex_intro _ _ Hl)
    (f_equal (fun h => h !! HeaderContentEncoding) Hm)) as H.
  destruct (PublishMessage js p sp true subject m1 (with_objs w s1)) as [er w'].
  destruct H as (x & Hx & Hs & Hj & Hk & nm & Hn & Hd & _ & Hnk). exists x. split; [done|]. split; [done|].
  assert (HeaderMsgID ∉ publish_keys) as Hpk by (apply (bool_decide_unpack _); vm_compute; exact I).
  split; [done|]. split.
  - apply msg_id_lookup. rewrite Hk by done. simpl. by rewrite Hm.
  - exists nm. split; [done|]. split; [done|]. rewrite Hnk by done. simpl. by rewrite Hm.
Qed.

(** *** Runs *)

Variable unmarshal_order : string -> res Z.

(** The message of order [i]: its subject and id, and a payload that expands to
    that order. *)
Definition carries (i : Z) (x : wire) : Prop :=
  exists b, copy_of (publishSubject e) (order_msg_id i) b x /\ slen b <= MaxPayloadDecompressBytes /\ unmarshal_order b = Ok i.

Hypothesis Hconn : guardConnected p = None.
Hypothesis Hsubject : pub_validateSubject p (publishSubject e) = None.
Hypothesis Htrace : traces_tame p sp.
Hypothesis Haccept : forall st x, js st x = None.
(** An order up to [maxOrder] is encoded to something that fits, and decodes to its id. *)
Variable maxOrder : Z.
Hypothesis Hbytes : forall i now, 0 < i <= maxOrder -> exists b, order_bytes i now = Ok b /\ slen b <= MaxPayloadDecompressBytes /\ unmarshal_order b = Ok i.

Lemma tick_publishes i w out now : 0 <= i < maxOrder ->
  exists w' x, publish_tick (i, w, out) now = (i + 1, w', out ++ [i + 1]) /\ sent w' = sent w ++ [x] /\ carries (i + 1) x.
Proof.
  intros Hi. destruct (Hbytes (i + 1) now ltac:(lia)) as (b & Hb & Hsz & Hu). unfold publish_tick, order_bytes in *.
  assert (exists d typ, validMessageType typ = true /\ Encode (plain d typ) = Ok b /\
    publish_tick (i, w, out) now = match PublishWithMsgID js p sp true (publishSubject e) (order_msg_id (i + 1)) (plain d typ) w with
                                   | (Some _, w') => (i + 1, w', out) | (None, w') => (i + 1, w', out ++ [i + 1]) end) as (d & typ & Ht & He & Hr).
  { unfold publish_tick. destruct (codec_raw e).
    - rewrite Hb. exists (ABytes b), Raw. done.
    - exists (payload (i + 1) now), JSON. done. }
  unfold publish_tick in Hr. rewrite Hr. clear Hr.
  destruct (msgid_publish (publishSubject e) (order_msg_id (i + 1)) d typ w b Hconn Hsubject Htrace Ht He Hsz)
    as (x & Hx & Hj & Hc).
  destruct (PublishWithMsgID _ _ _ _ _ _ _ w) as [er w']. simpl in *. rewrite (proj2 Hj (Haccept _ _)).
  exists w', x. split_and!; [done|done|]. by exists b.
Qed.

Lemma run_publishes ticks i w out : 0 <= i -> i + Z.of_nat (length ticks) <= maxOrder ->
  exists w' xs, foldl publish_tick (i, w, out) ticks = (i + Z.of_nat (length ticks), w', out ++ seqZ (i + 1) (Z.of_nat (length ticks))) /\
    sent w' = sent w ++ xs /\ Forall2 carries (seqZ (i + 1) (Z.of_nat (length ticks))) xs.
Proof.
  revert i w out. induction ticks as [|now ticks IH]; intros i w out Hi Hmax; cbn [foldl].
  - exists w, []. simpl. rewrite !app_nil_r. split_and!; [f_equal; f_equal; lia|done|constructor].
  - destruct (tick_publishes i w out now ltac:(simpl in Hmax; lia)) as (w1 & x & -> & H1 & Hc).
    destruct (IH (i + 1) w1 (out ++ [i + 1]) ltac:(lia) ltac:(simpl in Hmax; lia)) as (w2 & xs & -> & H2 & HF).
    exists w2, (x :: xs). rewrite (seqZ_cons (i + 1)) by (simpl; lia).
    replace (Z.pred (Z.of_nat (length (now :: ticks)))) with (Z.of_nat (length ticks)) by (simpl; lia).
    replace (Z.succ (i + 1)) with (i + 1 + 1) by lia. rewrite H2, H1, <- !app_assoc.
    split_and!; [f_equal; f_equal; simpl; lia|done|by constructor].
Qed.

(** *** Restarts *)

Lemma order_msg_id_inj i j : 0 < i -> 0 < j -> order_msg_id i = order_msg_id j -> i = j.
Proof.
  unfold order_msg_id. intros Hi Hj H. assert (dec i = dec j) as E by (injection H; done). unfold dec in E. apply pretty_N_inj in E. lia.
Qed.

Section Stored.
Context `{DS : DedupServer}.

Lemma duplicate_iff i x js_ xs : 0 < i -> carries i x -> Forall (fun j => 0 < j) js_ -> Forall2 carries js_ xs ->
  duplicate stream x xs = bool_decide (i ∈ js_).
Proof.
  intros Hi (b0 & (Hs & Hid & _) & _) Hpos HF. unfold duplicate. rewrite Hid. change (IsEmpty (order_msg_id i)) with false. simpl.
  induction HF as [|j y l ys (b1 & (Hsy & Hidy & _) & _) HF IH]; [done|]. inversion Hpos as [|? ? Hj Hpos']; subst. cbn [existsb].
  rewrite IH, Hsy, Hs, Hidy, String.eqb_refl, andb_true_l by done.
  destruct (String.eqb_spec (order_msg_id j) (order_msg_id i)) as [E|E]; cbn [orb].
  - apply order_msg_id_inj in E as ->; [|done..]. symmetry. apply bool_decide_eq_true_2. by left.
  - apply bool_decide_ext. rewrite elem_of_cons. naive_solver.
Qed.

(** Storing the orders of [ks] after those of [js_]: only the new ones are kept. *)
Lemma store_orders ks ys js_ l : Forall (fun j => 0 < j) js_ -> Forall (fun j => 0 < j) ks -> NoDup ks ->
  Forall2 carries js_ (stored l) -> Forall2 carries ks ys ->
  Forall2 carries (js_ ++ List.filter (fun k => negb (bool_decide (k ∈ js_))) ks) (stored (l ++ ys)).
Proof.
  intros Hj Hk Hn HF HG. revert js_ l Hj HF Hn. induction HG as [|k y ks ys Hky HG IH]; intros js_ l Hj HF Hn; [by rewrite !app_nil_r|].
  inversion Hk as [|? ? Hk0 Hk']; subst. apply list.NoDup_cons in Hn as [Hnk Hn]. rewrite (cons_middle y), app_assoc. simpl.
  pose proof (stored_snoc l y) as Hl. rewrite (duplicate_iff k y js_ _ Hk0 Hky Hj HF) in Hl.
  destruct (decide (k ∈ js_)) as [Hin|Hin].
  - rewrite bool_decide_true in Hl |- * by done. simpl. apply IH; [done|done|by rewrite Hl|done].
  - rewrite bool_decide_false in Hl |- * by done. simpl.
    assert (Forall2 carries (js_ ++ [k]) (stored (l ++ [y]))) as HF' by (rewrite Hl; apply Forall2_app; [done|by constructor]).
    specialize (IH Hk' (js_ ++ [k]) (l ++ [y]) ltac:(apply Forall_app; split; [done|by constructor]) HF' Hn).
    rewrite (cons_middle k), app_assoc. erewrite List.filter_ext_in; [exact IH|]. intros a Ha%list_elem_of_In. cbv beta. f_equal.
    apply bool_decide_ext. rewrite elem_of_app, list_elem_of_singleton. split; [auto|]. intros [?| ->]; [done|by destruct Hnk].
Qed.

Lemma filter_none {A} (f : A -> bool) l : (forall x, x ∈ l -> f x = false) -> List.filter f l = [].
Proof. induction l as [|x l IH]; intros H; [done|]. simpl. rewrite H by (by left). apply IH. intros y Hy. apply H. by right. Qed.
Lemma filter_every {A} (f : A -> bool) l : (forall x, x ∈ l -> f x = true) -> List.filter f l = l.
Proof. induction l as [|x l IH]; intros H; [done|]. simpl. rewrite H by (by left). f_equal. apply IH. intros y Hy. apply H. by right. Qed.

Lemma new_orders n1 n2 : 0 <= n1 -> 0 <= n2 ->
  Z.of_nat (length (List.filter (fun k => negb (bool_decide (k ∈ seqZ 1 n1))) (seqZ 1 n2))) = Z.max n1 n2 - n1.
Proof.
  intros H1 H2. destruct (decide (n2 <= n1)).
  - rewrite filter_none; [simpl; lia|]. intros x Hx%elem_of_seqZ. rewrite bool_decide_true; [done|]. apply elem_of_seqZ. lia.
  - replace n2 with (n1 + (n2 - n1)) at 1 by lia. rewrite seqZ_app, List.filter_app by lia. rewrite filter_none, filter_every.
    + simpl. rewrite length_seqZ. lia.
    + intros x Hx%elem_of_seqZ. rewrite bool_decide_false; [done|]. intros Hy%elem_of_seqZ. lia.
    + intros x Hx. by rewrite bool_decide_true.
Qed.

Lemma seqZ_pos n : Forall (fun j => 0 < j) (seqZ 1 n).
Proof. apply List.Forall_forall. intros j Hj%list_elem_of_In%elem_of_seqZ. lia. Qed.

(** C11: a restarted publisher loses orders.  The ids count from one in every run,
    so when the publisher is restarted within the duplicate window all its messages are sent and reported as published, but the
    stream keeps only as many orders as the longer run had: the new orders with
    the ids of the first run are dropped by the server. *)
Theorem restart_loses_orders ticks1 ticks2 :
  Z.of_nat (length ticks1) <= maxOrder -> Z.of_nat (length ticks2) <= maxOrder ->
  let '(_, w1, out1) := runPublisher ticks1 (World (Store [] []) [] None) in
  let '(_, w2, out2) := runPublisher ticks2 (World (Store [] []) (sent w1) None) in
  let n1 := Z.of_nat (length ticks1) in
  let n2 := Z.of_nat (length ticks2) in
  out1 = seqZ 1 n1 /\ out2 = seqZ 1 n2 /\ Z.of_nat (length (sent w2)) = n1 + n2 /\
  Z.of_nat (length (stored (sent w2))) = Z.max n1 n2.
Proof.
  intros Hm1 Hm2. destruct (run_publishes ticks1 0 (World (Store [] []) [] None) [] ltac:(lia) ltac:(lia)) as (w1 & xs & E1 & H1 & F1).
  unfold runPublisher. rewrite E1. clear E1.
  destruct (run_publishes ticks2 0 (World (Store [] []) (sent w1) None) [] ltac:(lia) ltac:(lia)) as (w2 & ys & E2 & H2 & F2).
  rewrite E2. clear E2. simpl in H1, H2. change (0 + 1) with 1 in *. rewrite H2, H1. split_and!; [done|done| |].
  - rewrite length_app, Nat2Z.inj_add, <- (Forall2_length F1), <- (Forall2_length F2), !length_seqZ. lia.
  - pose proof (store_orders _ xs [] [] ltac:(constructor) (seqZ_pos _) (NoDup_seqZ _ _) ltac:(rewrite stored_nil; constructor) F1) as G1.
    rewrite !app_nil_l, filter_every in G1 by done.
    pose proof (store_orders _ ys _ _ (seqZ_pos _) (seqZ_pos _) (NoDup_seqZ _ _) G1 F2) as G2.
    rewrite <- (Forall2_length G2), length_app, Nat2Z.inj_add, new_orders, length_seqZ by lia. lia.
Qed.
End Stored.
End Publisher.

(** ** The worker *)

(** [ev.ID > 0 && ev.ID%17 == 0] *)
Definition poison_id (id : Z) : bool := (0 <? id) && (Z.rem id 17 =? 0).

Record counters := Counters { processed : Z; failed : Z }.

Section Handlers.
(** [json.Unmarshal] into an [orderEvent]: its id. *)
Variable unmarshal_order : string -> res Z.

Definition primary (m : jmsg) (k : counters) : outcome * jmsg * counters :=
  match unmarshal_order (nData (body m)) with
  | Er _ => (Returned (Some (wrapf "decode: %w" (Sentinel ErrSendToDLQ))), m, Counters (processed k) (failed k + 1))
  | Ok id =>
      if poison_id id
      then (Returned (Some (wrapf "simulated poison order_id=%d: %w" (Sentinel ErrSendToDLQ))), m, Counters (processed k) (failed k + 1))
      else (Returned None, m, Counters (processed k + 1) (failed k))
  end.
Definition shadow_order (m : jmsg) : outcome * jmsg :=
  match unmarshal_order (nData (body m)) with
  | Er er => (Returned (Some er), m)
  | Ok id => (Returned (if poison_id id then Some (errorf "shadow also rejects poison") else None), m)
  end.
(** The puller's handler. *)
Definition puller_handler (m : jmsg) (n : Z) : outcome * jmsg * Z :=
  match unmarshal_order (nData (body m)) with
  | Er er => (Returned (Some (wrapf "decode: %w" er)), m, n)
  | Ok _ => (Returned None, m, n + 1)
  end.
End Handlers.

Definition order_dlq (e : environment) : Dlq.Config := DlqConfig true true (dlqSubject e) "" (Autopsy true false 0 0) 5.
Definition order_shadow : ShadowConfig := SCfg (f64_ratio 1 4) true None.

(** What the handler acts on: the counters, the shadow runs under way, the
    publisher's world and the dead-letter incidents of the recorder. *)
Record wstate := WState { counts : counters; shadows : list Shadow.job; wworld : world; dlq_log : list dlq_record }.

Section Worker.
Context `{NH : NatsHeader} `{CP : Compressors} `{CD : Codecs} `{MA : MsgApi}.
Variable unmarshal_order : string -> res Z.
Variable sha256hex : string -> string.
Variable stack_dump : Z -> string.
Variable err_text : err -> string.
Variable js : list wire -> wire -> option err.
Variable e : environment.
Context (p : publisher) (sp : span) (metrics : option clientMetrics) (cons : consumer).

(** The order handler at the counters [k], in the shadow wrapper. *)
Definition shadowed (draw : spec_float) (st : wstate) : MsgHandler :=
  Shadow.With (client_WithShadow metrics order_shadow) (fun y => (primary unmarshal_order y (counts st)).1) draw (shadows st).

(** The wrapped handler on a message, and the state it leaves: the order handler
    is not called for a message that was delivered too often. *)
Definition order_handler (meta : option MsgMetadata) (draw : spec_float) (st : wstate) (x : jmsg) : outcome * jmsg * wstate :=
  let '(o, m', r, w') := WithDLQ sha256hex stack_dump err_text js p sp (order_dlq e) meta (shadowed draw st) x (wworld st) in
  let over := match meta with Some d => MaxDeliver (order_dlq e) <? NumDelivered d | None => false end in
  (o, m',
   if over then WState (counts st) (shadows st) w' (dlq_log st ++ recorded r)
   else WState (primary unmarshal_order x (counts st)).2
          (Shadow.deliver (client_WithShadow metrics order_shadow) (fun y => (primary unmarshal_order y (counts st)).1) draw x (shadows st)).2
          w' (dlq_log st ++ recorded r)).

(** A delivery to the worker. *)
Definition order_deliver (meta : option MsgMetadata) (draw : spec_float) (m : jmsg) (st : wstate) : option err * jmsg * wstate :=
  let '(er, m', _) := processMessage cons (fun x => (order_handler meta draw st x).1) m in
  match (if PayloadDecompression (cfg cons) then maybeDecompressMsg (body m) else (None, body m)) with
  | (Some _, _) => (er, m', st)
  | (None, b) => (er, m', (order_handler meta draw st (set_body m b)).2)
  end.
End Worker.

Section Fate.
Context `{NH : NatsHeader} `{CP : Compressors} `{CD : Codecs} `{MA : MsgApi}.
Variable unmarshal_order : string -> res Z.
Variable sha256hex : string -> string.
Variable stack_dump : Z -> string.
Variable err_text : err -> string.
Variable e : environment.
Context (p : publisher) (sp : span) (metrics : option clientMetrics) (cons : consumer).
Hypothesis Hrel : reliable.
Hypothesis Hconn : guardConnected p = None.
Hypothesis Hdlq : pub_validateSubject p (dlqSubject e) = None.
Hypothesis Htrace : traces_tame p sp.

Notation handler := (order_handler unmarshal_order sha256hex stack_dump err_text js_ok e p sp metrics).
Notation delivery := (order_deliver unmarshal_order sha256hex stack_dump err_text js_ok e p sp metrics cons).

Definition order_over (d : MsgMetadata) : bool := 5 <? NumDelivered d.
(** The order handler asks for the dead-letter subject. *)
Definition rejected (data : string) : bool := match unmarshal_order data with Er _ => true | Ok id => poison_id id end.
Definition dead (d : MsgMetadata) (data : string) : bool := order_over d || rejected data.

Lemma primary_cases x k : exists o, (primary unmarshal_order x k).1 = (Returned o, x) /\
  (if rejected (nData (body x)) then exists er, o = Some er /\ errors_is er ErrSendToDLQ = true else o = None) /\
  (primary unmarshal_order x k).2 = if rejected (nData (body x)) then Counters (processed k) (failed k + 1) else Counters (processed k + 1) (failed k).
Proof.
  unfold primary, rejected. destruct (unmarshal_order (nData (body x))) as [id|er]; [destruct (poison_id id)|]; eexists; (split; [reflexivity|]); eauto.
Qed.

(** What the handler leaves of the world when it routes [x]: one copy of it. *)
Definition copied (d : MsgMetadata) (x : jmsg) (w w' : world) : Prop :=
  exists y, sent w' = sent w ++ [y] /\ copy_of (dlqSubject e) (copy_id (body x) d) (nData (body x)) y.

Lemma handler_fate d draw st x : bound x = true -> settlement x = None -> slen (nData (body x)) <= MaxPayloadDecompressBytes ->
  let '(o, m', st') := handler (Some d) draw st x in
  counts st' = (if order_over d then counts st else (primary unmarshal_order x (counts st)).2) /\
  if dead d (nData (body x))
  then is_err (invokeMsgHandler o) ErrDLQRouted = true /\ settlement m' = Some OpTerm /\ copied d x (wworld st) (wworld st')
  else o = Returned None /\ m' = x /\ wworld st' = wworld st.
Proof.
  intros Hb Hn Hsz. destruct (primary_cases x (counts st)) as (o & Ho & Hcase & Hk).
  assert (forall h c', dSubject c' = dlqSubject e -> h = Some d -> forall reason info,
    exists rp er m' r, route (fun rp => (dlqPublisherAdapter js_ok p sp rp (wworld st)).1) sha256hex c' h reason info x = (er, m', r) /\
      published r = [rp] /\ settlement m' = Some OpTerm /\ (er = None \/ is_err er ErrDLQRouted = true) /\
      copied d x (wworld st) (dlqPublisherAdapter js_ok p sp rp (wworld st)).2) as Hroute.
  { intros h c' Hc' -> reason info. rewrite <- Hc' in Hdlq.
    destruct (route_sends sha256hex p sp c' d reason info x (wworld st) Hconn Hdlq Htrace Hsz)
      as (rp & y & er & m' & r & E & H1 & -> & H3 & H4 & H5). exists rp, er, (term_retry 3 x).2, r.
    split_and!; [exact E|done|by apply term_retry_terminates|done|]. exists y. by rewrite <- Hc'. }
  unfold order_handler, WithDLQ, dead. unfold With.
  change (negb (dPublisher (order_dlq e))) with false. rewrite orb_false_l.
  assert (IsEmpty (dSubject (order_dlq e)) = false) as ->.
  { apply IsEmpty_false. simpl. unfold dlqSubject. intros E. apply (f_equal String.length) in E. rewrite str_length_app in E. simpl in E. lia. }
  change (MaxDeliver (order_dlq e)) with 5. unfold order_over. set (c' := DlqConfig _ _ _ _ _ _). unfold over_delivered.
  change (MaxDeliver c') with 5. change (0 <? 5) with true. rewrite andb_true_l. destruct (5 <? NumDelivered d); cbn [orb].
  - destruct (Hroute (Some d) c' eq_refl eq_refl (dReason c') (fillAutopsyStack stack_dump (dReason c') (dAutopsy c')))
      as (rp & er & m' & r & E & Hr & Hs & Her & Hcp). rewrite E.
    destruct er as [er|]; simpl; rewrite Hr; simpl; split_and!; try done. by destruct Her.
  - unfold shadowed. change (Shadow.With ?a ?b ?c ?d x) with (Shadow.deliver a b c x d).1. rewrite Shadow.deliver_outcome, Ho, Hk.
    destruct (rejected (nData (body x))) eqn:Ej.
    + destruct Hcase as (er & -> & Her). rewrite Her.
      destruct (Hroute (Some d) c' eq_refl eq_refl "handler_requested" (fillAutopsyStack stack_dump (err_text er) (dAutopsy c')))
        as (rp & er' & m' & r & E & Hr & Hs & Her' & Hcp). rewrite E.
      destruct er' as [er'|]; simpl; rewrite Hr; simpl; split_and!; try done. destruct Her' as [|Her']; [done|]. simpl in Her'. by rewrite Her'.
    + subst o. done.
Qed.

Lemma delivery_fate d draw m st b : bound m = true -> settlement m = None -> slen (nData b) <= MaxPayloadDecompressBytes ->
  (if PayloadDecompression (cfg cons) then maybeDecompressMsg (body m) else (None, body m)) = (None, b) ->
  let '(er, m', st') := delivery (Some d) draw m st in
  er = None /\ settlement m' = Some (if dead d (nData b) then OpTerm else OpAck) /\
  counts st' = (if order_over d then counts st else (primary unmarshal_order (set_body m b) (counts st)).2) /\
  if dead d (nData b) then copied d (set_body m b) (wworld st) (wworld st') else wworld st' = wworld st.
Proof.
  intros Hb Hs Hsz Hd. pose proof (handler_fate d draw st (set_body m b) Hb Hs Hsz) as H.
  unfold order_deliver, processMessage. rewrite Hd. simpl.
  destruct (handler (Some d) draw st (set_body m b)) as [[o m1] st1]. cbn [fst snd]. change (nData (body (set_body m b))) with (nData b) in H.
  destruct H as [Hc H]. destruct (dead d (nData b)).
  - destruct H as (-> & H1 & H2). done.
  - destruct H as (-> & -> & H2). simpl. by destruct (op_decides OpAck (set_body m b) Hrel Hb Hs) as [-> Hk].
Qed.

(** *** Publisher and worker *)

(** A stored message as it is delivered the first time. *)
Definition arrives (x : wire) : jmsg := JMsg (NMsg (wSubject x) (wData x) (wHeader x)) true None.

(** The worker gets the messages of the stream from sequence [seq] on, with the
    sampling draws of the shadow wrapper. *)
Fixpoint consume_orders (l : list (wire * spec_float)) (seq : Z) (st : wstate) : list (option err * jmsg) * wstate :=
  match l with
  | [] => ([], st)
  | (x, draw) :: l' =>
      let '(er, m', st1) := delivery (Some (Meta (streamName e) (durableName e) seq 1)) draw (arrives x) st in
      let '(rs, st2) := consume_orders l' (seq + 1) st1 in ((er, m') :: rs, st2)
  end.

Hypothesis Hdecompress : PayloadDecompression (cfg cons) = true.

Lemma next_seventeenth i : 0 <= i -> (i + 1) / 17 = i / 17 + if poison_id (i + 1) then 1 else 0.
Proof.
  intros Hi. unfold poison_id. destruct (Z.ltb_spec 0 (i + 1)); [|lia]. rewrite andb_true_l, Z.rem_mod_nonneg by lia.
  destruct (Z.eqb_spec ((i + 1) mod 17) 0); Z.div_mod_to_equations; lia.
Qed.

(** The dead-letter copy of order [i]. *)
Definition order_copy (i : Z) (y : wire) : Prop :=
  exists b, copy_of (dlqSubject e) (order_msg_id i) b y /\ unmarshal_order b = Ok i.

(** How order [i] comes out: without an error, terminated if it was rejected and
    acknowledged if it was processed. *)
Definition order_result (i : Z) (r : option err * jmsg) : Prop :=
  r.1 = None /\ settlement r.2 = Some (if poison_id i then OpTerm else OpAck).

(** One order through the worker, delivered the first time. *)
Lemma order_fate i x seq draw st :
  carries e unmarshal_order i x ->
  let '(er, m', st') := delivery (Some (Meta (streamName e) (durableName e) seq 1)) draw (arrives x) st in
  order_result i (er, m') /\
  counts st' = Counters (processed (counts st) + (if poison_id i then 0 else 1)) (failed (counts st) + (if poison_id i then 1 else 0)) /\
  exists ys, sent (wworld st') = sent (wworld st) ++ ys /\ Forall2 order_copy (if poison_id i then [i] else []) ys.
Proof.
  intros (b & (Hsx & Hidx & nm & Hm & Hd & Hh) & Hsz & Hu).
  pose proof (delivery_fate (Meta (streamName e) (durableName e) seq 1) draw (arrives x) st nm eq_refl eq_refl) as H.
  rewrite Hdecompress, Hd in H. specialize (H Hsz). simpl in H. rewrite Hsx in H. specialize (H Hm).
  destruct (delivery _ draw (arrives x) st) as [[er m'] st1]. destruct H as (-> & Hset & Hcnt & Hw).
  unfold dead, order_over, rejected, primary in Hset, Hcnt, Hw. simpl in Hset, Hcnt, Hw. rewrite ?Hd, Hu in *.
  split; [by split|]. destruct (poison_id i); simpl in *.
  - split; [by rewrite Hcnt; f_equal; lia|]. destruct Hw as (y & Hy & Hc). exists [y]. split; [done|]. constructor; [|constructor].
    exists b. split; [|done]. simpl in Hc. rewrite Hd in Hc.
    assert (copy_id nm (Meta (streamName e) (durableName e) seq 1) = order_msg_id i) as E; [|by rewrite E in Hc].
    unfold copy_id. destruct (nHeader nm) as [hd|]; [|done]. simpl in Hh. by rewrite (hget_first _ _ (order_msg_id i) []).
  - split; [by rewrite Hcnt; f_equal; lia|]. exists []. by rewrite app_nil_r, Hw.
Qed.

Lemma consume_spec ks xs draws i seq st : 0 <= i -> ks = seqZ (i + 1) (Z.of_nat (length xs)) ->
  Forall2 (carries e unmarshal_order) ks xs -> length draws = length xs ->
  let n := Z.of_nat (length xs) in
  let k := (i + n) / 17 - i / 17 in
  let '(rs, st') := consume_orders (zip xs draws) seq st in
  Forall2 order_result ks rs /\
  counts st' = Counters (processed (counts st) + n - k) (failed (counts st) + k) /\
  exists ys, sent (wworld st') = sent (wworld st) ++ ys /\ Forall2 order_copy (List.filter poison_id ks) ys.
Proof.
  intros Hi His HF. revert draws i seq st Hi His.
  induction HF as [|j x ks xs Hx HF IH]; intros [|draw draws] i seq st Hi His Hl; try done.
  - cbn [length zip zip_with consume_orders]. change (Z.of_nat 0) with 0. cbv zeta.
    rewrite !Z.add_0_r, !Z.sub_diag, Z.sub_0_r, Z.add_0_r. split_and!; [constructor|by destruct (counts st)|].
    exists []. rewrite app_nil_r. done.
  - rewrite (seqZ_cons (i + 1)) in His by (simpl; lia). injection His as -> His.
    replace (Z.succ (i + 1)) with (i + 1 + 1) in His by lia.
    replace (Z.pred (Z.of_nat (S (length xs)))) with (Z.of_nat (length xs)) in His by lia.
    cbn [zip zip_with consume_orders]. pose proof (order_fate (i + 1) x seq draw st Hx) as H.
    destruct (delivery _ draw (arrives x) st) as [[er m'] st1]. destruct H as (Hres & Hcnt & ys1 & Hy1 & Hc1).
    specialize (IH draws (i + 1) (seq + 1) st1 ltac:(lia) His ltac:(simpl in Hl; lia)). cbv zeta in IH.
    destruct (consume_orders (zip xs draws) (seq + 1) st1) as [rs st2]. destruct IH as (H2 & H3 & ys & H4 & H5).
    pose proof (next_seventeenth i Hi) as Hk.
    replace (i + Z.of_nat (length (x :: xs))) with (i + 1 + Z.of_nat (length xs)) by (simpl; lia).
    split_and!; [by constructor| |].
    + rewrite H3, Hcnt. simpl. destruct (poison_id (i + 1)); f_equal; lia.
    + exists (ys1 ++ ys). rewrite H4, Hy1, <- app_assoc. split; [done|]. simpl.
      replace (if poison_id (i + 1) then i + 1 :: List.filter poison_id ks else List.filter poison_id ks)
        with ((if poison_id (i + 1) then [i + 1] else []) ++ List.filter poison_id ks) by (by destruct (poison_id (i + 1))).
      by apply Forall2_app.
Qed.

Variable payload : Z -> Z -> any.
Variable json_marshal : any -> res string.
Variable maxOrder : Z.
Hypothesis Hsubject : pub_validateSubject p (publishSubject e) = None.
Hypothesis Hbytes : forall i now, 0 < i <= maxOrder ->
  exists b, order_bytes e payload json_marshal i now = Ok b /\ slen b <= MaxPayloadDecompressBytes /\ unmarshal_order b = Ok i.

End Fate.

(** ** The puller *)

Definition puller_options : processConfig := ProcCfg pullFetchBatch (3 * second) (500 * 10 ^ 6) 0.

Section Puller.
Context `{NH : NatsHeader} `{CP : Compressors} `{CD : Codecs} `{MA : MsgApi}.
Variable unmarshal_order : string -> res Z.

(** The loop of [Process], until an iteration ends it or the answers do. *)
Fixpoint process_loop (c : consumer) (cb : option CircuitBreaker) (h : nat -> MsgHandler) (pc : processConfig) (envs : list iter_env) : option err :=
  match envs with
  | [] => None
  | env :: envs' => match process_iter c cb h pc env with Some er => Some er | None => process_loop c cb h pc envs' end
  end.

(** [register], [pull]: the telemetry registry and [Consumer().Pull]. *)
Definition runPuller (register pull : option err) (c : consumer) (cb : option CircuitBreaker) (envs : list iter_env) : option err :=
  match register with
  | Some er => Some (wrapf "metric orders.puller.processed: %w" er)
  | None =>
      match pull with
      | Some er => Some (wrapf "pull consumer: %w" er)
      | None => process_loop c cb (fun _ m => (puller_handler unmarshal_order m 0).1) (process_defaults puller_options (IdleHeartbeat (cfg c))) envs
      end
  end.

(** The puller on one delivery: an order that decodes is acknowledged and
    counted, poison or not; one that does not is given back and never counted,
    and nothing is published for it: the limit of its durable, five deliveries,
    is the end of it. *)
Theorem puller_fate cons m b n :
  reliable -> bound m = true -> settled m = false ->
  (if PayloadDecompression (cfg cons) then maybeDecompressMsg (body m) else (None, body m)) = (None, b) ->
  is_err (res_err (unmarshal_order (nData b))) ErrDLQRouted = false ->
  let '(er, m', _) := processMessage cons (fun x => (puller_handler unmarshal_order x n).1) m in
  settled m' = true /\
  match unmarshal_order (nData b) with
  | Ok _ => er = None /\ (puller_handler unmarshal_order (set_body m b) n).2 = n + 1
  | Er _ => er <> None /\ (puller_handler unmarshal_order (set_body m b) n).2 = n
  end.
Proof.
  intros Hr Hb Hs Hd Hf. unfold processMessage, puller_handler. rewrite Hd. simpl.
  destruct (unmarshal_order (nData b)) as [id|er]; simpl in *.
  - pose proof (op_settles OpAck (set_body m b) Hr Hb) as Hset. pose proof (Hr OpAck (set_body m b) Hb Hs) as Hn.
    destruct (do_op OpAck (set_body m b)) as [e' m2]. simpl in *. by subst e'.
  - rewrite Hf. simpl. split; [by apply op_settles|done].
Qed.
End Puller.

(** ** Witnesses *)

(** Orders as runs of a letter. *)
Fixpoint unary (n : nat) : string := match n with O => "" | S n => String "a" (unary n) end.
Definition unary_payload (i now : Z) : any := ABytes (unary (Z.to_nat i)).
Definition unary_order (b : string) : res Z := Ok (slen b).
Definition no_marshal (v : any) : res string := Er (errorf "not used").
Definition example_client : ClientParts := assemble (fun _ _ => true) true (buildWorkerConfig apart "").
Definition fresh_world : world := World (Store [] []) [] None.
Definition idle_worker : wstate := WState (Counters 0 0) [] fresh_world [].

Lemma unary_slen n : slen (unary n) = Z.of_nat n.
Proof. unfold slen. f_equal. induction n as [|n IH]; [done|]. simpl. by rewrite IH. Qed.

Lemma unary_bytes i now : 0 < i <= 40 ->
  exists b, order_bytes apart unary_payload no_marshal i now = Ok b /\ slen b <= MaxPayloadDecompressBytes /\ unary_order b = Ok i.
Proof.
  intros Hi. exists (unary (Z.to_nat i)). unfold order_bytes, unary_payload. change (codec_raw apart) with false.
  assert (slen (unary (Z.to_nat i)) = i) as Hs by (rewrite unary_slen; lia).
  split; [exact (toy_encode_json _ _)|]. split; [rewrite Hs; transitivity 40; [lia|by vm_compute]|]. unfold unary_order. by rewrite Hs.
Qed.

Definition publish_orders (n : nat) (w : world) : Z * world * list Z :=
  runPublisher js_ok apart (cl_publisher example_client) demo_span unary_payload no_marshal (replicate n 0) w.

Lemma restart_loses_orders_witness :
  let w1 := (publish_orders 3 fresh_world).1.2 in
  let w2 := (publish_orders 2 (World (Store [] []) (sent w1) None)).1.2 in
  Z.of_nat (length (sent w2)) = 5 /\ Z.of_nat (length (stored (sent w2))) = 3.
Proof.
  assert (pub_validateSubject (cl_publisher example_client) (publishSubject apart) = None) as Hv by reflexivity.
  pose proof (restart_loses_orders js_ok apart (cl_publisher example_client) demo_span unary_payload no_marshal unary_order eq_refl Hv
    (fun _ => demo_span_tame) (fun _ _ => eq_refl) 40 unary_bytes (replicate 3 0) (replicate 2 0) ltac:(discriminate) ltac:(discriminate)) as H.
  unfold publish_orders, fresh_world. destruct (runPublisher _ _ _ _ _ _ (replicate 3 0) _) as [[i1 w1] out1]. cbn [fst snd].
  destruct (runPublisher _ _ _ _ _ _ (replicate 2 0) _) as [[i2 w2] out2]. exact (proj2 (proj2 H)).
Defined.

Lemma puller_fate_witness :
  let '(er, m', _) := processMessage (cl_consumer example_client) (fun x => (puller_handler unary_order x 0).1) (demo_jmsg true) in
  settled m' = true /\ er = None.
Proof.
  pose proof (puller_fate unary_order (cl_consumer example_client) (demo_jmsg true) (body (demo_jmsg true)) 0 demo_reliable eq_refl eq_refl
    eq_refl eq_refl) as H.
  destruct (processMessage _ _ _) as [[er m'] ev]. destruct H as (H1 & H2 & _). split; [exact H1|exact H2].
Defined.

Definition end_to_end (n : nat) : list (option err * jmsg) * wstate :=
  consume_orders unary_order id (fun _ => "") (fun _ => "") apart (cl_publisher example_client) demo_span None (cl_consumer example_client)
    (zip (sent (publish_orders n fresh_world).1.2) (replicate n (f64_of_int 0))) 1 idle_worker.

