(* ===== verification/LoadTest.v ===== *)
(** * The load test (tools/loadtest/main.go)

    The program that measures the library: it builds a configuration, provisions
    a work-queue stream, consumes in push or pull mode and publishes at a rate,
    through this library or through nats.go alone.  Here are its configurations,
    the start-up of both variants on the server interface, the loops that publish
    and fetch with their counters, and the rates it prints. *)
From Stdlib Require Import SpecFloat.
From S2P Require Import Prelude GoStr Validate Filter Pressure Message Compress Codec Publisher Rpc Consume Pull Dlq Delivery DlqPublish Admin Subscribe Connection Metrics Assemble Orders.

(** ** Configurations *)

Definition jobWorkerConfig : Config :=
  let c := DefaultConfig in
  let rc := conf_consumer c in
  let bp := conf_backpressure c in
  with_sections c (conf_conn c)
    (RCC (45 * second) (IdleHeartbeat rc) (FlowControl rc) true 8 256 (PayloadDecompression rc) 1000 (Z.shiftl 10 20))
    (BPC BackpressureNak (bpPendingMsgLimit bp) (bpPendingMsgBuffer bp) 1000) (conf_metrics c).

(** A section with metrics and tracing switched off. *)
Definition silent (i : Instrumentation) : Instrumentation := Instr (MetricPrefix i) false false.

Definition maxThroughputConfig : Config :=
  let c := jobWorkerConfig in
  let p := conf_publisher c in
  let q := conf_requester c in
  let m := conf_metrics c in
  Cfg (MkPublisherConfig (cMaxAsyncPending p) (cPayloadCompression p) false true) (silent (instr_publisher c))
    (MkRequesterConfig (qTimeout q) false true (qCompression q) (qDecompression q)) (silent (instr_requester c))
    (conf_responder c) (silent (instr_responder c))
    (MetricsCfg (mPrefix m) [] [] (60 * second) false true true) false
    (conf_consumer c) (silent (instr_consumer c)) (conf_conn c) (conn_health_interval c) (conn_prefix c) false
    (conf_backpressure c) (sample_interval c) (conf_adaptive c) (conf_circuit c).

Definition load_config (metrics : bool) (natsURL mode : string) (workers : Z) : Config :=
  let c := if metrics then jobWorkerConfig else maxThroughputConfig in
  let rc := conf_consumer c in
  with_sections c (with_address (conf_conn c) natsURL (ClientName (conf_conn c)))
    (RCC (AckWait rc) (IdleHeartbeat rc) (FlowControl rc) (String.eqb mode "push") workers (i64 (workers * 8)) (PayloadDecompression rc)
       (cPendingMsgLimit rc) (cPendingMsgBuffer rc))
    (conf_backpressure c) (conf_metrics c).

(** ** The ticker *)

Definition max (a b : Z) : Z := if b <? a then a else b.
(** [time.NewTicker(time.Second / time.Duration(max(rate, 1)))]; a ticker with no
    positive interval panics. *)
Definition tick_interval (rate : Z) : option Z :=
  let d := Z.quot second (max rate 1) in if 0 <? d then Some d else None.

(** ** Start-up *)

Definition load_stream : StreamConfig :=
  SConf "LOAD" "" ["load.>"] 1 0 0 0 0 false 0 WorkQueuePolicy MemoryStorage DiscardOld 0 None [].
Definition load_pull : DurableConsumerConfig :=
  Durable_ None ∅ "load-pull" "load.>" [] "" "" 0 0 0 0 0 2000 0 0 0 0 512 0 false false false false false.

Section Setup.
Context {S : Type} `{JA : JsAdmin S} `{PJ : !PushJs S}.

(** [runGopherust] up to its publish loop; an error is fatal.  In pull mode the
    goroutine that processes is started, in push mode (any other) the
    subscription is live. *)
Definition gopherust_setup (ctx : nat -> Ctx) (cons : consumer) (mode : string) (s : S) : option err * S :=
  match CreateOrUpdateStream (ctx 0%nat) load_stream s with
  | (Er er, s1) => (Some (wrapf "create stream" er), s1)
  | (Ok _, s1) =>
      if String.eqb mode "pull" then
        match CreateOrUpdateConsumer (ctx 1%nat) "LOAD" load_pull s1 with
        | (Er er, s2) => (Some (wrapf "create pull consumer" er), s2)
        | (Ok _, s2) => (None, s2)
        end
      else
        match QueueSubscribeBound cons "LOAD" "load-proc" "load-q" "load.>" s1 with
        | (Er er, s2) => (Some (wrapf "queue subscribe" er), s2)
        | (Ok _, s2) => (None, s2)
        end
  end.

(** [runNatsGo] up to its loops; a stream that cannot be added may exist
    already. [connect]: connecting and the JetStream context; [pull]: the
    answer to [PullSubscribe]. *)
Definition natsgo_setup (connect pull : option err) (mode : string) (s : S) : option err * S :=
  match connect with
  | Some er => (Some er, s)
  | None =>
      let '(r, s1) := js_add_stream load_stream s in
      match r, js_stream_info "LOAD" s1 with
      | Er er, Er _ => (Some (wrapf "add stream" er), s1)
      | _, _ =>
          if String.eqb mode "pull" then (wrap_check "pull subscribe" pull, s1)
          else match js_subscribe "load.>" (Some "load-q") [ODurable "load-proc-ng"; OBindStream "LOAD"; OManualAck] s1 with
               | (Er er, s2) => (Some (wrapf "queue subscribe" er), s2)
               | (Ok _, s2) => (None, s2)
               end
      end
  end.
End Setup.

(** ** The loops *)

Section Loops.
Context `{NH : NatsHeader} `{CP : Compressors} `{CD : Codecs} `{MA : MsgApi}.

(** A tick of the publish loop: a publish without an error is counted. *)
Definition load_tick (js : list wire -> wire -> option err) (p : publisher) (sp : span) (codec : string) (raw : string) (payload : any)
  (st : Z * world) : Z * world :=
  let '(er, w') :=
    if String.eqb codec "bytes" || String.eqb codec "raw" then PublishBytes js p sp true "load.evt" raw st.2
    else PublishJSON js p sp true "load.evt" payload st.2 in
  (match er with None => st.1 + 1 | Some _ => st.1 end, w').
Definition load_loop (js : list wire -> wire -> option err) (p : publisher) (sp : span) (codec raw : string) (payload : any) (ticks : nat)
  : Z * world -> Z * world := Nat.iter ticks (load_tick js p sp codec raw payload).

(** The handler of both modes: it counts and succeeds. *)
Definition load_handler (m : jmsg) (consumed : Z) : outcome * jmsg * Z := (Returned None, m, consumed + 1).

(** The fetch loop of nats.go alone: [None] is a failed fetch; the result of an
    acknowledgement is not looked at. *)
Fixpoint natsgo_fetch (answers : list (option (list jmsg))) (consumed : Z) : list jmsg * Z :=
  match answers with
  | [] => ([], consumed)
  | None :: rest => natsgo_fetch rest consumed
  | Some ms :: rest =>
      let acked := (fun m => (do_op OpAck m).2) <$> ms in
      let '(l, n) := natsgo_fetch rest (consumed + Z.of_nat (length ms)) in (acked ++ l, n)
  end.

(** The callback of the push mode of nats.go alone. *)
Definition natsgo_callback (st : list jmsg * Z) (m : jmsg) : list jmsg * Z := (st.1 ++ [(do_op OpAck m).2], st.2 + 1).

(** A tick of the publish loop of nats.go alone; the error of [json.Marshal] is
    not looked at. *)
Definition mustJSON (json_marshal : any -> res string) (v : any) : string := match json_marshal v with Ok b => b | Er _ => "" end.
Definition natsgo_tick (js : list wire -> wire -> option err) (json_marshal : any -> res string) (codec raw : string) (payload : any)
  (st : Z * world) : Z * world :=
  let x := Wire "load.evt" (if String.eqb codec "bytes" || String.eqb codec "raw" then raw else mustJSON json_marshal payload) None [] in
  (match js (sent st.2) x with None => st.1 + 1 | Some _ => st.1 end, log_sent x st.2).
End Loops.

(** ** The report *)

(** Seconds of the run, never zero or less. *)
Definition report_seconds (elapsed : spec_float) : spec_float := if SFleb elapsed (f64_of_int 0) then f64_ratio 1 1000 else elapsed.
Definition report_rate (count : Z) (elapsed : spec_float) : spec_float := SFdiv 53 1024 (f64_of_int count) (report_seconds elapsed).

(** ** Theorems *)

(** The ticker exists exactly up to a thousand million messages per second, and
    its interval is the longest whole number of nanoseconds that meets the
    target rate. *)
Theorem tick_interval_spec rate :
  (tick_interval rate = None <-> second < rate) /\
  forall d, tick_interval rate = Some d -> 0 < d <= second /\ d * Z.max rate 1 <= second < (d + 1) * Z.max rate 1.
Proof.
  unfold tick_interval. replace (max rate 1) with (Z.max rate 1) by (unfold max; destruct (Z.ltb_spec 1 rate); lia).
  assert (second = 10 ^ 9) as E by done. rewrite E. rewrite Z.quot_div_nonneg by lia. set (r := Z.max rate 1).
  assert (0 < r) as Hr by lia. pose proof (Z.div_mod (10 ^ 9) r ltac:(lia)) as Hdm. pose proof (Z.mod_pos_bound (10 ^ 9) r Hr) as Hmb.
  destruct (Z.ltb_spec 0 (10 ^ 9 / r)) as [Hd|Hd]; split; try done; [split; [done|]; intros; nia|intros d [= <-]; nia|].
  split; [|done]. intros _. assert (10 ^ 9 / r = 0) as H0 by (pose proof (Z.div_pos (10 ^ 9) r); lia). nia.
Qed.

(** The configuration for the highest throughput is silent: no metrics exist, so
    nothing records or collects, no part traces, publisher and requester do not
    validate subjects; the pool is the one asked for, in push mode only. *)
Theorem max_throughput_silent create url mode workers :
  let p := assemble create true (load_config false url mode workers) in
  cl_metrics p = None /\ cl_collector p = None /\
  publisher_records p || requester_records p || responder_records p || consumer_records p = false /\
  allowTracing (cl_publisher p) || rTracing (cl_requester p) || sTracing (cl_responder p) || consumer_traces p = false /\
  skipSubjectValidation (cl_publisher p) = true /\ cl_sampler p = false /\
  WorkerPoolEnabled (cfg (cl_consumer p)) = String.eqb mode "push" /\
  (0 < workers -> (initWorkerPool (cl_consumer p)).1 = workers).
Proof.
  cbv zeta. split_and!; try done.
  - unfold assemble, newConsumer. simpl. by rewrite andb_false_r.
  - intros Hw. unfold initWorkerPool. simpl. destruct (Z.leb_spec workers 0); [lia|done].
Qed.

(** How many of the messages the server accepts, one after the other. *)
Fixpoint accepted (js : list wire -> wire -> option err) (st xs : list wire) : Z :=
  match xs with [] => 0 | x :: xs' => (match js st x with None => 1 | Some _ => 0 end) + accepted js (st ++ [x]) xs' end.

Lemma accepted_app js st xs ys : accepted js st (xs ++ ys) = accepted js st xs + accepted js (st ++ xs) ys.
Proof. revert st. induction xs as [|x xs IH]; intros st; simpl; [by rewrite app_nil_r|]. rewrite IH, <- app_assoc. simpl. lia. Qed.

(** The messages of the fetches that succeeded. *)
Fixpoint fetched_messages (answers : list (option (list jmsg))) : list jmsg :=
  match answers with [] => [] | None :: rest => fetched_messages rest | Some ms :: rest => ms ++ fetched_messages rest end.

Section Counts.
Context `{NH : NatsHeader} `{CP : Compressors} `{CD : Codecs} `{MA : MsgApi}.
Context (js : list wire -> wire -> option err) (p : publisher) (sp : span).

(** A publish sends nothing and fails, or sends one message and returns the server's answer. *)
Lemma publish_cases ctx subject m w :
  let '(er, w') := PublishMessage js p sp ctx subject m w in
  (er <> None /\ sent w' = sent w) \/ (exists x, sent w' = sent w ++ [x] /\ wSubject x = subject /\ (er = None <-> js (sent w) x = None)).
Proof.
  destruct (preparePublish p sp subject m (objs w)) as [[[d m']|er] s'] eqn:Hp.
  - destruct (PublishMessage_prepared js p sp ctx subject m w d m' s' Hp) as (x & w1 & -> & H2 & H3 & H4 & _).
    destruct (PublishMessage js p sp ctx subject m w) as [er w']. simpl in H2, H3. subst w'. right. exists x. done.
  - unfold PublishMessage. rewrite Hp. by left.
Qed.

(** What the load test reports as published.  Whatever the server answers,
    after any number of ticks the counter has grown by exactly the number of
    messages the server accepted, among the at most one per tick that was sent,
    all to the measured subject: a refused or failed publish is never counted. *)
Theorem published_counts_accepted codec raw payload ticks n w :
  let '(n', w') := load_loop js p sp codec raw payload ticks (n, w) in
  exists xs, sent w' = sent w ++ xs /\ (length xs <= ticks)%nat /\ Forall (fun x => wSubject x = "load.evt") xs /\
    n' = n + accepted js (sent w) xs.
Proof.
  unfold load_loop. induction ticks as [|t IH].
  - exists []. rewrite app_nil_r. split_and!; [done|done|constructor|simpl; lia].
  - simpl. destruct (Nat.iter t _ (n, w)) as [n1 w1]. destruct IH as (xs & Hs & Hl & HF & ->). unfold load_tick. simpl.
    set (m := if String.eqb codec "bytes" || String.eqb codec "raw" then plain (ABytes raw) Raw else plain payload JSON).
    assert ((if String.eqb codec "bytes" || String.eqb codec "raw" then PublishBytes js p sp true "load.evt" raw w1
             else PublishJSON js p sp true "load.evt" payload w1) = PublishMessage js p sp true "load.evt" m w1) as ->
      by (unfold m; by destruct (_ || _)).
    pose proof (publish_cases true "load.evt" m w1) as H. destruct (PublishMessage js p sp true "load.evt" m w1) as [er w2].
    destruct H as [[Hne He]|(x & Hx & Hsub & Hiff)].
    + exists xs. rewrite He. split_and!; [done|lia|done|]. by destruct er.
    + exists (xs ++ [x]). rewrite Hx, Hs, <- app_assoc, length_app, accepted_app, <- Hs. simpl.
      split_and!; [done|lia|by apply Forall_app; split; [|constructor]|].
      destruct er as [er|], (js (sent w1) x); try lia; naive_solver.
Qed.

(** The same for nats.go alone, which sends one message at every tick. *)
Theorem natsgo_counts_accepted json_marshal codec raw payload ticks n w :
  let '(n', w') := Nat.iter ticks (natsgo_tick js json_marshal codec raw payload) (n, w) in
  exists xs, sent w' = sent w ++ xs /\ length xs = ticks /\ Forall (fun x => wSubject x = "load.evt") xs /\
    n' = n + accepted js (sent w) xs.
Proof.
  induction ticks as [|t IH]; simpl; [exists []; rewrite app_nil_r; split_and!; [done|done|constructor|simpl; lia]|].
  destruct (Nat.iter t _ (n, w)) as [n1 w1]. destruct IH as (xs & Hs & <- & HF & ->). unfold natsgo_tick. cbn [fst snd].
  set (x := Wire _ _ _ _). exists (xs ++ [x]). cbn [sent log_sent]. rewrite length_app, accepted_app, <- Hs, app_assoc, <- Hs. simpl.
  split_and!; [done|lia|by apply Forall_app; split; [|constructor]|]. destruct (js (sent w1) x); lia.
Qed.

(** What it reports as consumed.  Through nats.go alone every fetched message is
    counted, whether or not its acknowledgement succeeded, and failed fetches
    count nothing; delivering the same messages to the callback of the push mode
    comes to the same; with a server that answers all of them are settled. *)
Theorem natsgo_counts_fetched answers n :
  let '(l, n') := natsgo_fetch answers n in
  let ms := fetched_messages answers in
  n' = n + Z.of_nat (length ms) /\ l = (fun m => (do_op OpAck m).2) <$> ms /\
  foldl natsgo_callback ([], n) ms = (l, n') /\
  (reliable -> Forall (fun m => bound m = true) ms -> Forall (fun m => settled m = true) l).
Proof.
  assert (forall ms, reliable -> Forall (fun m => bound m = true) ms -> Forall (fun m => settled m = true) ((fun m => (do_op OpAck m).2) <$> ms)) as Hset.
  { intros ms Hr HF. induction HF as [|m ms Hm HF IH]; simpl; constructor; [by apply op_settles|done]. }
  assert (forall n, let '(l, n') := natsgo_fetch answers n in
     n' = n + Z.of_nat (length (fetched_messages answers)) /\ l = (fun m => (do_op OpAck m).2) <$> fetched_messages answers) as H.
  { clear n. induction answers as [|[ms|] rest IH]; intros n; simpl; [split; [lia|done]| |exact (IH n)].
    specialize (IH (n + Z.of_nat (length ms))). destruct (natsgo_fetch rest _) as [l n']. destruct IH as [-> ->]. simpl.
    rewrite length_app, fmap_app. split; [lia|done]. }
  specialize (H n). destruct (natsgo_fetch answers n) as [l n']. destruct H as [-> ->]. split_and!; [done|done| |apply Hset].
  assert (forall ms l n, foldl natsgo_callback (l, n) ms = (l ++ ((fun m => (do_op OpAck m).2) <$> ms), n + Z.of_nat (length ms))) as Hc; [|apply Hc].
  induction ms as [|m ms IH]; intros l' n'; cbn [foldl length]; [by rewrite app_nil_r, Z.add_0_r|].
  unfold natsgo_callback at 2. cbn [fst snd]. rewrite IH, <- app_assoc. f_equal. lia.
Qed.
End Counts.

(** ** One mode per server *)

(** A work-queue stream allows one consumer per filter: subscribing under a new
    durable name is refused while another durable's filter overlaps. *)
Class WorkQueueRules (S : Type) `{JA : JsAdmin S} `{!PushJs S} := {
  work_queue : string -> S -> bool;
  wq_added c s i s' : js_add_stream c s = (Ok i, s') -> scRetention c = WorkQueuePolicy -> work_queue (scName c) s' = true;
  wq_updated c s i s' : js_update_stream c s = (Ok i, s') -> scRetention c = WorkQueuePolicy -> work_queue (scName c) s' = true;
  wq_exclusive subj q opts s d cc :
    work_queue (rStream (effective opts)) s = true -> consumers s !! (rStream (effective opts), d) = Some cc ->
    consumers s !! (rStream (effective opts), rDurable (effective opts)) = None -> subjects_overlap [ccFilterSubject cc] [subj] = true ->
    exists er, js_subscribe subj q opts s = (Er er, s)
}.

Section Exclusive.
Context {S : Type} `{JA : JsAdmin S} `{PJ : !PushJs S} `{WQ : !WorkQueueRules S}.

Lemma stream_is_work_queue ctx s i s' : CreateOrUpdateStream ctx load_stream s = (Ok i, s') -> work_queue "LOAD" s' = true.
Proof.
  intros [H _]%guarded_ok. unfold upsert_stream in H. simpl in H.
  destruct (js_add_stream (toNatsStreamConfig load_stream) s) as [[i1|er] s1] eqn:Ea; [simplify_eq; by apply (wq_added _ _ _ _ Ea)|].
  destruct (js_update_stream (toNatsStreamConfig load_stream) s1) as [[i2|er'] s2] eqn:Eu; [|done].
  simplify_eq. by apply (wq_updated _ _ _ _ Eu).
Qed.

(** The two modes exclude each other.  Once the load test has run in pull mode
    against a server, its durable stays; every later run in push mode on that
    server stops at its subscription, whatever happened to the push durable's
    configuration, unless the push durable existed already. *)
Theorem load_modes_exclude ctx1 ctx2 cons1 cons2 (s s1 : S) :
  gopherust_setup ctx1 cons1 "pull" s = (None, s1) -> consumers s1 !! ("LOAD", "load-proc") = None ->
  (gopherust_setup ctx2 cons2 "push" s1).1 <> None.
Proof.
  intros H Hn. unfold gopherust_setup in H. destruct (CreateOrUpdateStream _ _ s) as [[i|er] s0]; [|done]. simpl in H.
  destruct (CreateOrUpdateConsumer _ _ _ s0) as [[cc|er] s0'] eqn:Ec; [|done]. simplify_eq.
  apply guarded_ok in Ec as [Ec _]. destruct (upsert_ok _ _ _ _ _ Ec) as (Hcc & pol & (_ & _ & _ & _ & Hf & _) & _). simpl in Hcc, Hf.
  unfold gopherust_setup. pose proof (CreateOrUpdateStream_frame (ctx2 0%nat) load_stream s1) as Hfr.
  destruct (CreateOrUpdateStream _ _ s1) as [[i2|er] s2] eqn:Es; [|done]. simpl in Hfr. simpl.
  destruct (QueueSubscribeBound cons2 "LOAD" "load-proc" "load-q" "load.>" s2) as [[x|er] s3] eqn:Eq; [|done]. exfalso.
  apply guarded_inv in Eq as [(er & ? & _)|Eq]; [done|]. unfold then_drain in Eq.
  destruct (QueueSubscribe _ _ _ _ s2) as [[y|er] s4] eqn:Eqs; [|done].
  apply QueueSubscribe_spec in Eqs as (id & s5 & _ & Hj & _).
  set (opts := appendConsumerOpts cons2 _ true) in Hj.
  assert (rStream (effective opts) = "LOAD" /\ rDurable (effective opts) = "load-proc") as [E1 E2].
  { unfold opts, appendConsumerOpts, effective. rewrite !foldl_app. simpl. destruct (0 <? AckWait (cfg cons2)); done. }
  destruct (wq_exclusive "load.>" (Some "load-q") opts s2 "load-pull" cc) as [er Her]; rewrite ?E1, ?E2, ?Hfr; try done.
  - by eapply stream_is_work_queue.
  - by rewrite Hf.
  - by rewrite Hj in Her.
Qed.
End Exclusive.

(** ** Witnesses *)

(** The demonstration server with the rule of work queues; every stream of it is one. *)
Definition blocked (subj : string) (opts : list SubOpt) (s : server) : bool :=
  match sv_consumers s !! (rStream (effective opts), rDurable (effective opts)) with
  | Some _ => false
  | None => existsb (fun x => String.eqb x.1.1 (rStream (effective opts)) && subjects_overlap [ccFilterSubject x.2] [subj])
              (map_to_list (sv_consumers s))
  end.
Definition not_unique : err := errorf "filtered consumer not unique on workqueue stream".

#[local, refine] Instance queue_push : PushJs server (H := demo_server) := {
  live := @live _ _ demo_push;
  js_subscribe subj q opts s := if blocked subj opts s then (Er not_unique, s) else @js_subscribe _ _ demo_push subj q opts s;
  sub_unsubscribe := @sub_unsubscribe _ _ demo_push; sub_drain := @sub_drain _ _ demo_push; sub_set_limits := @sub_set_limits _ _ demo_push
}.
Proof.
  - intros subj q opts s id. destruct (blocked subj opts s); [done|]. apply (@subscribe_live _ _ demo_push).
  - intros subj q opts s er. destruct (blocked subj opts s); [done|]. apply (@subscribe_failed _ _ demo_push).
  - intros subj q opts s id cc. destruct (blocked subj opts s); [done|]. apply (@subscribe_existing _ _ demo_push).
  - intros subj q opts s id. destruct (blocked subj opts s); [done|]. apply (@subscribe_creates _ _ demo_push).
  - exact (@unsubscribe_live _ _ demo_push).
  - exact (@limits_zero _ _ demo_push).
  - exact (@limits_frame _ _ demo_push).
  - exact (@add_consumer_live _ _ demo_push).
  - exact (@update_consumer_live _ _ demo_push).
  - exact (@add_stream_live _ _ demo_push).
  - exact (@update_stream_live _ _ demo_push).
Defined.

#[local, refine] Instance queue_rules : WorkQueueRules server (JA := demo_server) (PushJs0 := queue_push) := { work_queue _ _ := true }.
Proof.
  - done.
  - done.
  - intros subj q opts s d cc _ Hcc Hn Ho. exists not_unique. simpl.
    assert (blocked subj opts s = true) as ->; [|done]. unfold blocked. simpl in Hn. rewrite Hn. apply existsb_exists.
    exists ((rStream (effective opts), d), cc). split; [by apply list_elem_of_In, elem_of_map_to_list|].
    cbn [fst snd]. by rewrite Ho, String.eqb_refl.
Defined.

Definition load_background : nat -> Ctx := fun _ => background.
Lemma load_modes_exclude_witness :
  let s1 := (gopherust_setup (PJ := queue_push) load_background default_consumer "pull" empty_server).2 in
  (gopherust_setup (PJ := queue_push) load_background default_consumer "push" s1).1 <> None.
Proof.
  apply (load_modes_exclude (PJ := queue_push) (WQ := queue_rules) load_background load_background default_consumer default_consumer
    empty_server); vm_compute; reflexivity.
Defined.
